(** * Pcompress: the chunk pipeline and the container format of main.c

    A shallow embedding of the chunk pipeline of [main.c]:
    [preproc_compress], [preproc_decompress], [perform_compress],
    [perform_decompress], the header checks of [start_decompress], the
    small-file adjustment of [start_compress] and the semaphore protocol
    between the producer loop, the workers and [writer_thread].

    Buffers are lists of bytes (a byte is a [Z] in [0, 256)); a pointer into
    a buffer is the buffer and an offset.  The out-of-scope collaborators
    (back ends, LZP, Delta2, dedup engine, checksums, crypto) are fields of
    the record [externals]: each one returns its result code, the value it
    leaves in its length argument and the bytes it leaves in its
    destination, so that every behaviour of the real function has a
    counterpart in the model. *)

From stdpp Require Import base list numbers.
From Stdlib Require Import ZArith Lia.
From Stdlib Require String Ascii.
Import String.StringSyntax Ascii.AsciiSyntax.
Delimit Scope char_scope with char.
Local Open Scope string_scope.
Local Open Scope list_scope.
Local Open Scope Z_scope.

Local Open Scope Z_scope.

(** ** Bytes and buffers *)

Definition buf := list Z.

(** The [len] bytes at [b + off].  The allocations of [main.c] are taken to
    be large enough: a list stands for the memory it starts, and the bytes
    past its end, which nothing has written yet, read as 0. *)
Definition sub (b : buf) (off len : nat) : buf :=
  take len (drop off b ++ replicate len 0).

(** [memcpy(b + off, src, |src|)]. *)
Definition memcpy (b : buf) (off : nat) (src : buf) : buf :=
  sub b 0 off ++ src ++ drop (off + length src) b.

(** [memset(b + off, 0, n)]. *)
Definition memzero (b : buf) (off n : nat) : buf := memcpy b off (replicate n 0).

(** [htonll], [htonl], [htons] followed by a store: the [n] bytes of [v],
    most significant first. *)
Fixpoint be_bytes (n : nat) (v : Z) : buf :=
  match n with
  | O => []
  | S k => Z.shiftr v (8 * Z.of_nat k) `mod` 256 :: be_bytes k v
  end.

(** A load followed by [ntohll], [ntohl] or [ntohs]. *)
Definition be_value (l : buf) : Z := fold_left (fun a b => a * 256 + b) l 0.

(** ** Constants of pcompress.h

    The header [pcompress.h] is not among the sources at hand.  The chunk
    flag values are those of the diagram in the comment above
    [start_decompress] ("Chunk Flags, 8 bits"): bit 0 compressed, bit 1
    deduped, bit 2 pre-compressed, bits 4-6 the adaptive mode algorithm, bit
    7 the chunk size flag.  The sizes are those of the same comment
    ("Compressed length: 8 bytes", "Chunk flags: 1 byte") and of the C types
    stored ([uint64_t] for the original chunk size). *)

Definition COMPRESSED : Z := 1.
Definition UNCOMPRESSED : Z := 0.
Definition CHUNK_FLAG_DEDUP : Z := 2.
Definition CHUNK_FLAG_PREPROC : Z := 4.
Definition CHSIZE_MASK : Z := 128.
Definition CHUNK_FLAG_SZ : nat := 1.
Definition COMPRESSED_CHUNKSZ : nat := 8.
Definition ORIGINAL_CHUNKSZ : nat := 8.
Definition ALGO_SZ : nat := 8.

(** Modelled from the spec: the bits of the type byte written by
    [preproc_compress], declared in the missing [pcompress.h]; section 4.2
    has "bit 0 = LZP applied, bit 1 = Delta2 applied, high bit =
    compressed-by-backend". *)
Definition PREPROC_TYPE_LZP : Z := 1.
Definition PREPROC_TYPE_DELTA2 : Z := 2.
Definition PREPROC_COMPRESSED : Z := 128.

(** Modelled from the spec: the sub-algorithm code of a chunk that no
    adaptive back end compressed ("0 if non-adaptive"). *)
Definition COMPRESS_NONE : Z := 0.

(** ** Process-wide options and collaborators *)

(** The [static] option variables of [main.c] that the chunk pipeline
    reads. *)
Record globals := {
  adapt_mode : bool;
  enable_rabin_scan : bool;
  enable_rabin_global : bool;
  enable_delta2_encode : bool;
  enable_fixed_scan : bool;
  lzp_preprocess : bool;
  encrypt_type : Z;
  cksum : Z;
  cksum_bytes : nat;
  mac_bytes : nat
}.

Record algo_props_t := {
  delta2_span : Z;
  is_single_chunk : bool
}.

(** What a collaborator called as [f(src, srclen, dst, &dstlen, ...)]
    leaves behind: its return value, the value of [*dstlen] and the bytes
    at [dst]. *)
Record call_res := {
  c_rv : Z;
  c_dstlen : Z;
  c_out : buf
}.

(** [compress_func_ptr]: the source bytes, the value of [*dstlen] on entry,
    the level and the chunk header byte. *)
Definition compress_func_ptr := buf -> Z -> Z -> Z -> call_res.

(** [dedupe_compress]: the index size it returns, the [valid] bit of the
    context, the value it leaves in [tdat->rbytes] and the bytes it leaves
    at [rctx->cbuf]. *)
Record dedupe_res := {
  d_index_sz : Z;
  d_valid : bool;
  d_rbytes : Z;
  d_out : buf
}.

(** What [parse_dedupe_hdr] reads from a dedup header. *)
Record dedupe_hdr := {
  h_blknum : Z;
  h_index_sz : Z;
  h_data_sz : Z;
  h_index_sz_cmp : Z;
  h_data_sz_cmp : Z;
  h_chunksize : Z
}.

Inductive transpose_dir := ROW | COL.

Record externals := {
  lzp_hash_size : Z -> Z;
  (* src bytes, hash size: result and bytes left at dst *)
  lzp_compress : buf -> Z -> Z * buf;
  lzp_decompress : buf -> Z -> Z * buf;
  (* src bytes, *dstlen on entry, span *)
  delta2_encode : buf -> Z -> Z -> call_res;
  delta2_decode : buf -> Z -> call_res;
  lzma_compress : compress_func_ptr;
  lzma_decompress : compress_func_ptr;
  lzma_crc32 : buf -> Z -> Z;
  (* kind, bytes, mt mode *)
  compute_checksum : Z -> buf -> Z -> buf;
  serialize_checksum : buf -> nat -> buf;
  deserialize_checksum : buf -> nat -> buf;
  (* src bytes, chunk id: result and bytes left in place *)
  crypto_buf : buf -> Z -> Z * buf;
  (* the bytes given to hmac_update, in order: the bytes of hmac_final *)
  hmac : buf -> buf;
  RABIN_HDR_SIZE : nat;
  (* chunk bytes, mt mode *)
  dedupe_compress : buf -> Z -> dedupe_res;
  (* chunk bytes, len_cmp: valid, new len_cmp, bytes left at cbuf *)
  dedupe_decompress : buf -> Z -> dedupe_res;
  parse_dedupe_hdr : buf -> dedupe_hdr;
  (* header bytes, index size, data size: new header bytes *)
  update_dedupe_hdr : buf -> Z -> Z -> buf;
  transpose : buf -> Z -> transpose_dir -> buf
}.

(** ** preproc_compress *)

(** The state a wrapper leaves: return value, both buffers and [*dstlen]. *)
Record pp_res := {
  p_rv : Z;
  p_src : buf;
  p_dst : buf;
  p_dstlen : Z
}.

Section Preproc.

Variable G : globals.
Variable X : externals.

(** The LZP stage: [None] is the early [return (-1)]; otherwise the type
    bits, [srclen] and the two buffers. *)
Definition preproc_lzp_stage (ubuf : buf) (soff : nat) (srclen : Z)
    (cbuf : buf) (doff : nat) (level : Z)
    : buf * option (Z * Z * buf) :=
  if lzp_preprocess G then
    let hashsize := lzp_hash_size X level in
    let '(result, out) := lzp_compress X (sub ubuf soff (Z.to_nat srclen)) hashsize in
    let cbuf := memcpy cbuf doff out in
    if (result <? 0) || (result =? srclen) then
      if negb (enable_delta2_encode G) then (cbuf, None)
      else (cbuf, Some (0, srclen, ubuf))
    else
      (cbuf, Some (Z.lor 0 PREPROC_TYPE_LZP, result,
                   memcpy ubuf soff (sub cbuf doff (Z.to_nat result))))
  else if negb (enable_delta2_encode G) then (cbuf, None)
  else (cbuf, Some (0, srclen, ubuf)).

(** The Delta2 stage. *)
Definition preproc_delta2_stage (props : algo_props_t) (type : Z)
    (ubuf : buf) (soff : nat) (srclen : Z) (cbuf : buf) (doff : nat)
    : Z * Z * buf * buf :=
  if enable_delta2_encode G && (0 <? delta2_span props) then
    let r := delta2_encode X (sub ubuf soff (Z.to_nat srclen)) srclen (delta2_span props) in
    let cbuf := memcpy cbuf doff (c_out r) in
    if negb (c_rv r =? -1) then
      (Z.lor type PREPROC_TYPE_DELTA2, c_dstlen r,
       memcpy ubuf soff (sub cbuf doff (Z.to_nat (c_dstlen r))), cbuf)
    else (type, srclen, ubuf, cbuf)
  else (type, srclen, ubuf, cbuf).

(** The type byte, the length and the back end. *)
Definition preproc_backend_stage (cmp_func : compress_func_ptr) (type : Z)
    (ubuf : buf) (soff : nat) (srclen : Z) (cbuf : buf) (doff : nat)
    (level chdr : Z) : pp_res :=
  let cbuf := memcpy cbuf doff [type] in
  let cbuf := memcpy cbuf (doff + 1) (be_bytes 8 srclen) in
  let r := cmp_func (sub ubuf soff (Z.to_nat srclen)) srclen level chdr in
  let cbuf := memcpy cbuf (doff + 9) (c_out r) in
  if (-1 <? c_rv r) && (c_dstlen r <? srclen) then
    {| p_rv := c_rv r;
       p_src := ubuf;
       p_dst := memcpy cbuf doff [Z.lor type PREPROC_COMPRESSED];
       p_dstlen := c_dstlen r + 9 |}
  else
    {| p_rv := if 0 <? type then 0 else c_rv r;
       p_src := ubuf;
       p_dst := memcpy cbuf (doff + 1) (sub ubuf soff (Z.to_nat srclen));
       p_dstlen := srclen + 1 |}.

(** The two preprocessing stages in the order of the code: [None] is the
    early [return (-1)], otherwise the type bits, [srclen] and the two
    buffers as the back end finds them. *)
Definition preproc_stages (ubuf : buf) (soff : nat) (srclen : Z)
    (cbuf : buf) (doff : nat) (level : Z) (props : algo_props_t)
    : buf * option (Z * Z * buf) :=
  match preproc_lzp_stage ubuf soff srclen cbuf doff level with
  | (cbuf, None) => (cbuf, None)
  | (cbuf, Some (type, srclen, ubuf)) =>
      let '(type, srclen, ubuf, cbuf) :=
        preproc_delta2_stage props type ubuf soff srclen cbuf doff in
      (cbuf, Some (type, srclen, ubuf))
  end.

(** [preproc_compress(cmp_func, src, srclen, dst, dstlen, level, chdr, data,
    props)] with [src = ubuf + soff] and [dst = cbuf + doff]. *)
Definition preproc_compress (cmp_func : compress_func_ptr)
    (ubuf : buf) (soff : nat) (srclen : Z) (cbuf : buf) (doff : nat)
    (dstlen : Z) (level chdr : Z) (props : algo_props_t) : pp_res :=
  match preproc_stages ubuf soff srclen cbuf doff level props with
  | (cbuf, None) =>
      {| p_rv := -1; p_src := ubuf; p_dst := cbuf; p_dstlen := dstlen |}
  | (cbuf, Some (type, srclen, ubuf)) =>
      preproc_backend_stage cmp_func type ubuf soff srclen cbuf doff level chdr
  end.

(** Whether the LZP stage, then the Delta2 stage on what LZP left, keep
    their output: the conditions under which the code sets the two type
    bits. *)
Definition lzp_applied (ubuf : buf) (soff : nat) (srclen : Z) (level : Z) : bool :=
  lzp_preprocess G &&
  let result := fst (lzp_compress X (sub ubuf soff (Z.to_nat srclen))
                       (lzp_hash_size X level)) in
  negb ((result <? 0) || (result =? srclen)).

(** [srclen] and the two buffers as the LZP stage leaves them. *)
Definition lzp_left (ubuf : buf) (soff : nat) (srclen : Z) (cbuf : buf)
    (doff : nat) (level : Z) : Z * buf * buf :=
  match preproc_lzp_stage ubuf soff srclen cbuf doff level with
  | (cbuf0, Some (_, n0, ubuf0)) => (n0, ubuf0, cbuf0)
  | (cbuf0, None) => (srclen, ubuf, cbuf0)
  end.

Definition delta2_applied (props : algo_props_t) (ubuf : buf) (soff : nat)
    (srclen : Z) : bool :=
  enable_delta2_encode G && (0 <? delta2_span props) &&
  negb (c_rv (delta2_encode X (sub ubuf soff (Z.to_nat srclen)) srclen
                (delta2_span props)) =? -1).

(** ** preproc_decompress *)

(** [preproc_decompress(dec_func, src, srclen, dst, dstlen, level, chdr,
    data, props)] with [src = cbuf + soff] and [dst = ubuf + doff].  The
    three steps follow the three [if]s on the type byte; each returns
    [inl rv] where the code returns early. *)
Definition preproc_dec_backend (dec_func : compress_func_ptr) (type : Z)
    (cbuf : buf) (soff : nat) (srclen : Z) (ubuf : buf) (doff : nat)
    (dstlen : Z) (level chdr : Z)
    : pp_res + (nat * Z * buf * buf * Z) :=
  let sorc := (soff + 1)%nat in
  let srclen := srclen - 1 in
  if negb (Z.land type PREPROC_COMPRESSED =? 0) then
    let dstlen := be_value (sub cbuf sorc 8) in
    let sorc := (sorc + 8)%nat in
    let srclen := srclen - 8 in
    let r := dec_func (sub cbuf sorc (Z.to_nat srclen)) dstlen level chdr in
    let ubuf := memcpy ubuf doff (c_out r) in
    if c_rv r <? 0 then
      inl {| p_rv := c_rv r; p_src := cbuf; p_dst := ubuf; p_dstlen := c_dstlen r |}
    else
      inr (soff, c_dstlen r,
           memcpy cbuf soff (sub ubuf doff (Z.to_nat (c_dstlen r))), ubuf,
           c_dstlen r)
  else inr (sorc, srclen, cbuf, ubuf, dstlen).

Definition preproc_dec_delta2 (type : Z) (_dstlen : Z)
    (cbuf : buf) (soff : nat) (srclen : Z) (ubuf : buf) (doff : nat)
    (dstlen : Z) : pp_res + (Z * buf * buf * Z) :=
  if negb (Z.land type PREPROC_TYPE_DELTA2 =? 0) then
    let r := delta2_decode X (sub cbuf soff (Z.to_nat srclen)) _dstlen in
    let ubuf := memcpy ubuf doff (c_out r) in
    if negb (c_rv r =? -1) then
      inr (c_dstlen r,
           memcpy cbuf soff (sub ubuf doff (Z.to_nat (c_dstlen r))), ubuf,
           c_dstlen r)
    else
      inl {| p_rv := c_rv r; p_src := cbuf; p_dst := ubuf; p_dstlen := dstlen |}
  else inr (srclen, cbuf, ubuf, dstlen).

Definition preproc_dec_lzp (type : Z)
    (cbuf : buf) (soff : nat) (srclen : Z) (ubuf : buf) (doff : nat)
    (dstlen : Z) (level : Z) : pp_res + (buf * Z) :=
  if negb (Z.land type PREPROC_TYPE_LZP =? 0) then
    let hashsize := lzp_hash_size X level in
    let '(result, out) := lzp_decompress X (sub cbuf soff (Z.to_nat srclen)) hashsize in
    let ubuf := memcpy ubuf doff out in
    if result <? 0 then
      inl {| p_rv := -1; p_src := cbuf; p_dst := ubuf; p_dstlen := dstlen |}
    else inr (ubuf, result)
  else inr (ubuf, dstlen).

Definition preproc_decompress (dec_func : compress_func_ptr)
    (cbuf : buf) (soff : nat) (srclen : Z) (ubuf : buf) (doff : nat)
    (dstlen : Z) (level chdr : Z) (props : algo_props_t) : pp_res :=
  let _dstlen := dstlen in
  let type := nth soff cbuf 0 in
  match preproc_dec_backend dec_func type cbuf soff srclen ubuf doff dstlen level chdr with
  | inl r => r
  | inr (soff, srclen, cbuf, ubuf, dstlen) =>
      match preproc_dec_delta2 type _dstlen cbuf soff srclen ubuf doff dstlen with
      | inl r => r
      | inr (srclen, cbuf, ubuf, dstlen) =>
          match preproc_dec_lzp type cbuf soff srclen ubuf doff dstlen level with
          | inl r => r
          | inr (ubuf, dstlen) =>
              if (Z.land type (Z.lor PREPROC_COMPRESSED
                     (Z.lor PREPROC_TYPE_DELTA2 PREPROC_TYPE_LZP)) =? 0)
                 && (0 <? type)
              then {| p_rv := -1; p_src := cbuf; p_dst := ubuf; p_dstlen := dstlen |}
              else {| p_rv := 0; p_src := cbuf; p_dst := ubuf; p_dstlen := dstlen |}
          end
      end
  end.

End Preproc.

(** ** The per-thread chunk state *)

(** [struct cmp_data].  On the compression side [tdat->compressed_chunk]
    points into [cmp_seg], at [COMPRESSED_CHUNKSZ + cksum_bytes +
    mac_bytes], and the field [compressed_chunk] is not used; on the
    decompression side [tdat->cmp_seg] is [tdat->uncompressed_chunk] and the
    field [cmp_seg] is not used.  [rctx_level] and [rctx_valid] are
    [tdat->rctx->level] and [tdat->rctx->valid]. *)
Record cmp_data := {
  cmp_seg : buf;
  compressed_chunk : buf;
  uncompressed_chunk : buf;
  rbytes : Z;
  chunksize : Z;
  len_cmp : Z;
  len_cmp_be : buf;
  checksum : buf;
  level : Z;
  id : Z;
  cksum_mt : Z;
  compress : compress_func_ptr;
  decompress : compress_func_ptr;
  props : algo_props_t;
  rctx_level : Z;
  rctx_valid : bool
}.

(** ** perform_compress *)

Section PerformCompress.

Variable G : globals.
Variable X : externals.

Definition dedup_enabled : bool := enable_rabin_scan G || enable_fixed_scan G.
Definition preproc_enabled : bool := lzp_preprocess G || enable_delta2_encode G.

(** Offset of [tdat->compressed_chunk] in [cmp_seg], and of the local
    [compressed_chunk = tdat->compressed_chunk + CHUNK_FLAG_SZ]. *)
Definition hdr_off : nat := (COMPRESSED_CHUNKSZ + cksum_bytes G + mac_bytes G)%nat.
Definition data_off : nat := (hdr_off + CHUNK_FLAG_SZ)%nat.

(** What the dedup block leaves: the checksum, [dedupe_index_sz],
    [rctx->valid], [tdat->rbytes] and [uncompressed_chunk]. *)
Record dedup_stage_res := {
  ds_checksum : buf;
  ds_index_sz : Z;
  ds_valid : bool;
  ds_rbytes : Z;
  ds_ubuf : buf
}.

Definition pc_dedup_stage (tdat : cmp_data) : dedup_stage_res :=
  let rbytes_ := rbytes tdat in
  if dedup_enabled then
    let orig := sub (cmp_seg tdat) 0 (Z.to_nat (rbytes tdat)) in
    let ck := if encrypt_type G =? 0
              then compute_checksum X (cksum G) orig (cksum_mt tdat)
              else checksum tdat in
    let r := dedupe_compress X orig (cksum_mt tdat) in
    let ubuf := memcpy (uncompressed_chunk tdat) 0 (d_out r) in
    if negb (d_valid r) then
      {| ds_checksum := ck; ds_index_sz := d_index_sz r; ds_valid := false;
         ds_rbytes := rbytes_;
         ds_ubuf := memcpy ubuf 0 (sub (cmp_seg tdat) 0 (Z.to_nat rbytes_)) |}
    else
      {| ds_checksum := ck; ds_index_sz := d_index_sz r; ds_valid := true;
         ds_rbytes := d_rbytes r; ds_ubuf := ubuf |}
  else
    {| ds_checksum := if encrypt_type G =? 0
                      then compute_checksum X (cksum G)
                             (sub (uncompressed_chunk tdat) 0 (Z.to_nat (rbytes tdat)))
                             (cksum_mt tdat)
                      else checksum tdat;
       ds_index_sz := 0; ds_valid := false;
       ds_rbytes := rbytes tdat; ds_ubuf := uncompressed_chunk tdat |}.

(** The index block of the dedup path: transpose, then LZMA when the index
    has at least 90 bytes, else (or when LZMA fails or does not shrink it)
    the plain copy at [plain_index].  Returns [index_size_cmp] and the two
    buffers. *)
Definition pc_index_stage (tdat : cmp_data) (dedupe_index_sz : Z)
    (ubuf cseg : buf) : Z * buf * buf :=
  let RH := RABIN_HDR_SIZE X in
  let n := Z.to_nat dedupe_index_sz in
  let cseg := memcpy cseg (data_off + RH) (transpose X (sub ubuf RH n) 4 ROW) in
  let ubuf := memcpy ubuf RH (sub cseg (data_off + RH) n) in
  let plain_index (cseg : buf) :=
    memcpy cseg (data_off + RH) (sub ubuf RH n) in
  if 90 <=? dedupe_index_sz then
    let r := lzma_compress X (sub ubuf RH n) dedupe_index_sz (rctx_level tdat) 255 in
    let cseg := memcpy cseg (data_off + RH) (c_out r) in
    if negb (c_rv r =? 0) || (dedupe_index_sz <=? c_dstlen r) then
      (dedupe_index_sz, ubuf, plain_index cseg)
    else (c_dstlen r, ubuf, cseg)
  else (dedupe_index_sz, ubuf, plain_index cseg).

(** The call of the back end, through [preproc_compress] when a
    preprocessor is enabled: [rv], [_chunksize] and the two buffers. *)
Definition pc_call_backend (tdat : cmp_data) (ubuf : buf) (soff : nat)
    (srclen : Z) (cseg : buf) (doff : nat) : Z * Z * buf * buf :=
  if preproc_enabled then
    let r := preproc_compress G X (compress tdat) ubuf soff srclen cseg doff
               srclen (level tdat) 0 (props tdat) in
    (p_rv r, p_dstlen r, p_src r, p_dst r)
  else
    let r := compress tdat (sub ubuf soff (Z.to_nat srclen)) srclen (level tdat) 0 in
    (c_rv r, c_dstlen r, ubuf, memcpy cseg doff (c_out r)).

(** The block "If doing dedup we compress rabin index and deduped data
    separately" and its [else]. *)
Definition pc_compress_stage (tdat : cmp_data) (d : dedup_stage_res)
    : Z * Z * buf * buf :=
  if dedup_enabled && ds_valid d then
    let RH := RABIN_HDR_SIZE X in
    let _chunksize := ds_rbytes d - ds_index_sz d - Z.of_nat RH in
    let '(index_size_cmp, ubuf, cseg) :=
      pc_index_stage tdat (ds_index_sz d) (ds_ubuf d) (cmp_seg tdat) in
    let index_size_cmp := index_size_cmp + Z.of_nat RH in
    let dedupe_index_sz := ds_index_sz d + Z.of_nat RH in
    let cseg := memcpy cseg data_off (sub ubuf 0 RH) in
    let '(rv, _chunksize, ubuf, cseg) :=
      pc_call_backend tdat ubuf (Z.to_nat dedupe_index_sz) _chunksize
        cseg (data_off + Z.to_nat index_size_cmp) in
    let cseg :=
      if rv <? 0 then
        memcpy cseg (data_off + Z.to_nat index_size_cmp)
          (sub ubuf (Z.to_nat dedupe_index_sz) (Z.to_nat _chunksize))
      else cseg in
    let cseg := memcpy cseg data_off
                  (update_dedupe_hdr X (sub cseg data_off RH)
                     (index_size_cmp - Z.of_nat RH) _chunksize) in
    (rv, _chunksize + index_size_cmp, ubuf, cseg)
  else
    pc_call_backend tdat (ds_ubuf d) 0 (ds_rbytes d) (cmp_seg tdat) data_off.

(** "Sanity check to ensure compressed data is lesser than original":
    [type], [tdat->len_cmp], [rv] and [cmp_seg].  [rbytes_] is the local
    [rbytes], read before the dedup block. *)
Definition pc_sanity_stage (rbytes_ : Z) (d : dedup_stage_res)
    (rv _chunksize : Z) (ubuf cseg : buf) : Z * Z * Z * buf :=
  if (rbytes_ <=? _chunksize) || (rv <? 0) then
    let cseg :=
      if negb dedup_enabled || negb (ds_valid d)
      then memcpy cseg data_off (sub ubuf 0 (Z.to_nat (ds_rbytes d)))
      else cseg in
    (UNCOMPRESSED, ds_rbytes d, (if rv <? 0 then COMPRESS_NONE else rv), cseg)
  else (COMPRESSED, _chunksize, rv, cseg).

(** The chunk flags set after the encryption block and by "If chunk is less
    than max chunksize, store this length as well". *)
Definition pc_type (type rv : Z) (d : dedup_stage_res) (tdat : cmp_data) : Z :=
  let type := if dedup_enabled && ds_valid d
              then Z.lor type CHUNK_FLAG_DEDUP else type in
  let type := if preproc_enabled then Z.lor type CHUNK_FLAG_PREPROC else type in
  let type := if adapt_mode G then Z.lor type (Z.shiftl rv 4) else type in
  if ds_rbytes d <? chunksize tdat then Z.lor type CHSIZE_MASK else type.

(** "Insert compressed chunk length and checksum into chunk header", the
    original size and the flag byte.  Returns [tdat->len_cmp], the local
    [rbytes] (the header size) and [cmp_seg]. *)
Definition pc_frame_stage (tdat : cmp_data) (d : dedup_stage_res)
    (type len : Z) (cseg : buf) : Z * Z * buf :=
  let len_cmp_ := len in
  let cseg := memcpy cseg 0 (be_bytes 8 len) in
  let cseg := if encrypt_type G =? 0
              then memcpy cseg COMPRESSED_CHUNKSZ
                     (serialize_checksum X (ds_checksum d) (cksum_bytes G))
              else cseg in
  let len := len + Z.of_nat CHUNK_FLAG_SZ in
  let len := len + 8 in
  let len := len + Z.of_nat (cksum_bytes G + mac_bytes G) in
  let hdr := len - len_cmp_ in
  let '(len, cseg) :=
    if ds_rbytes d <? chunksize tdat then
      let cseg := memcpy cseg (Z.to_nat len) (be_bytes 8 (ds_rbytes d)) in
      let cseg := memcpy cseg 0 (be_bytes 8 (len_cmp_ + Z.of_nat ORIGINAL_CHUNKSZ)) in
      (len + Z.of_nat ORIGINAL_CHUNKSZ, cseg)
    else (len, cseg) in
  (len, hdr, memcpy cseg hdr_off [type `mod` 256]).

(** "If encrypting, compute HMAC for full chunk including header" and its
    [else], "Compute header CRC32 in non-crypto mode". *)
Definition pc_mac_stage (type len hdr : Z) (cseg : buf) : buf :=
  let mac_ptr := (COMPRESSED_CHUNKSZ + cksum_bytes G)%nat in
  let cseg := memzero cseg mac_ptr (mac_bytes G) in
  if negb (encrypt_type G =? 0) then
    let chash := hmac X (sub cseg 0 (Z.to_nat len)) in
    memcpy cseg mac_ptr (serialize_checksum X chash (length chash))
  else
    let crc := lzma_crc32 X (sub cseg 0 (Z.to_nat hdr)) 0 in
    let crc :=
      if negb (Z.land type CHSIZE_MASK =? 0)
      then lzma_crc32 X (sub cseg (Z.to_nat (len - Z.of_nat ORIGINAL_CHUNKSZ))
                           ORIGINAL_CHUNKSZ) crc
      else crc in
    memcpy cseg mac_ptr (be_bytes 4 crc).

(** The chunk up to the sanity check: what the dedup block left, then
    [type], [tdat->len_cmp], [rv] and [cmp_seg], then
    [uncompressed_chunk]. *)
Definition pc_payload (tdat : cmp_data)
    : dedup_stage_res * (Z * Z * Z * buf) * buf :=
  let rbytes_ := rbytes tdat in
  let d := pc_dedup_stage tdat in
  let '(rv, _chunksize, ubuf, cseg) := pc_compress_stage tdat d in
  (d, pc_sanity_stage rbytes_ d rv _chunksize ubuf cseg, ubuf).

(** "Now perform encryption on the compressed data, if requested": [None]
    is the fatal encryption failure. *)
Definition pc_encrypt_stage (tdat : cmp_data) (len : Z) (cseg : buf)
    : option buf :=
  if negb (encrypt_type G =? 0) then
    let '(ret, out) := crypto_buf X (sub cseg data_off (Z.to_nat len)) (id tdat) in
    if ret =? -1 then None else Some (memcpy cseg data_off out)
  else Some cseg.

(** One pass of the loop of [perform_compress] on a chunk handed over by
    the producer.  [None] is the fatal encryption failure ([tdat->len_cmp =
    0], [main_cancel] and [t_errored] set); otherwise the flag byte and the
    state the writer thread sees. *)
Definition perform_compress (tdat : cmp_data) : option (Z * cmp_data) :=
  let '(d, (type, len, rv, cseg), ubuf) := pc_payload tdat in
  match pc_encrypt_stage tdat len cseg with
  | None => None
  | Some cseg =>
      let type := pc_type type rv d tdat in
      let '(len, hdr, cseg) := pc_frame_stage tdat d type len cseg in
      let cseg := pc_mac_stage type len hdr cseg in
      Some (type `mod` 256,
            {| cmp_seg := cseg;
               compressed_chunk := compressed_chunk tdat;
               uncompressed_chunk := ubuf;
               rbytes := ds_rbytes d;
               chunksize := chunksize tdat;
               len_cmp := len;
               len_cmp_be := len_cmp_be tdat;
               checksum := ds_checksum d;
               level := level tdat;
               id := id tdat;
               cksum_mt := cksum_mt tdat;
               compress := compress tdat;
               decompress := decompress tdat;
               props := props tdat;
               rctx_level := rctx_level tdat;
               rctx_valid := ds_valid d |})
  end.

(** What [writer_thread] writes for the chunk:
    [Write(w->wfd, tdat->cmp_seg, tdat->len_cmp)]. *)
Definition written (tdat : cmp_data) : buf :=
  sub (cmp_seg tdat) 0 (Z.to_nat (len_cmp tdat)).

End PerformCompress.

(** ** perform_decompress *)

(** The diagnostics of [perform_decompress]; each one leaves
    [tdat->len_cmp = 0], which makes the writer thread cancel. *)
Inductive dec_error :=
| HmacVerificationFailed
| DecryptionFailed
| HeaderCrcVerificationFailed
| DecompressionFailed
| DedupRecoveryFailed
| ChecksumsDoNotMatch.

Section PerformDecompress.

Variable G : globals.
Variable X : externals.

(** [memcmp(a, b, n) != 0]. *)
Definition memcmp_ne (a b : buf) (n : nat) : bool :=
  negb (bool_decide (sub a 0 n = sub b 0 n)).

(** The first block: the flag byte, the payload offset and, under
    [CHSIZE_MASK], the trailing original size.  Returns [HDR], [rbytes],
    [len_cmp] and [_chunksize]. *)
Definition pd_header (tdat : cmp_data) : Z * Z * Z * Z :=
  let HDR := nth (cksum_bytes G + mac_bytes G) (compressed_chunk tdat) 0 in
  if negb (Z.land HDR CHSIZE_MASK =? 0) then
    let rbytes_ := rbytes tdat - Z.of_nat ORIGINAL_CHUNKSZ in
    (HDR, rbytes_, len_cmp tdat - Z.of_nat ORIGINAL_CHUNKSZ,
     be_value (sub (compressed_chunk tdat) (Z.to_nat rbytes_) ORIGINAL_CHUNKSZ))
  else (HDR, rbytes tdat, len_cmp tdat, chunksize tdat).

(** The bytes at [rseg] when [CHSIZE_MASK] is set. *)
Definition pd_rseg (HDR rbytes_ : Z) (cbuf : buf) : buf :=
  if negb (Z.land HDR CHSIZE_MASK =? 0)
  then sub cbuf (Z.to_nat rbytes_) ORIGINAL_CHUNKSZ else [].

(** The CRC32 the [else if (mac_bytes > 0)] block computes, after the mac
    slot has been zeroed. *)
Definition pd_crc2 (tdat : cmp_data) (HDR rbytes_ : Z) (cbuf : buf) : Z :=
  let crc2 := lzma_crc32 X (len_cmp_be tdat) 0 in
  let crc2 := lzma_crc32 X
                (sub cbuf 0 (cksum_bytes G + mac_bytes G + CHUNK_FLAG_SZ)) crc2 in
  if negb (Z.land HDR CHSIZE_MASK =? 0)
  then lzma_crc32 X (sub cbuf (Z.to_nat rbytes_) ORIGINAL_CHUNKSZ) crc2
  else crc2.

(** "Verify HMAC first before anything else and then decrypt compressed
    data", or "Verify header CRC32 in non-crypto mode".  Returns the
    checksum to compare with and [compressed_chunk]. *)
Definition pd_verify (tdat : cmp_data) (HDR rbytes_ len : Z)
    : dec_error + (buf * buf) :=
  let cbuf := compressed_chunk tdat in
  let cseg := (cksum_bytes G + mac_bytes G + CHUNK_FLAG_SZ)%nat in
  if negb (encrypt_type G =? 0) then
    let checksum_ := deserialize_checksum X (sub cbuf (cksum_bytes G) (mac_bytes G))
                       (mac_bytes G) in
    let cbuf := memzero cbuf (cksum_bytes G) (mac_bytes G) in
    let mac := hmac X (len_cmp_be tdat ++ sub cbuf 0 (Z.to_nat rbytes_)
                       ++ pd_rseg HDR rbytes_ cbuf) in
    if memcmp_ne checksum_ mac (length mac) then inl HmacVerificationFailed
    else
      let '(rv, out) := crypto_buf X (sub cbuf cseg (Z.to_nat len)) (id tdat) in
      if rv =? -1 then inl DecryptionFailed
      else inr (mac, memcpy cbuf cseg out)
  else if (0 <? mac_bytes G)%nat then
    let crc1 := be_value (sub cbuf (cksum_bytes G) 4) in
    let cbuf := memzero cbuf (cksum_bytes G) (mac_bytes G) in
    let crc2 := pd_crc2 tdat HDR rbytes_ cbuf in
    if negb (crc1 =? crc2) then inl HeaderCrcVerificationFailed
    else inr (deserialize_checksum X (sub cbuf 0 (cksum_bytes G)) (cksum_bytes G), cbuf)
  else inr (checksum tdat, cbuf).

(** The call of the back end on a compressed chunk: [rv], [_chunksize] and
    the two buffers. *)
Definition pd_call_backend (tdat : cmp_data) (HDR : Z) (cbuf : buf)
    (soff : nat) (srclen : Z) (ubuf : buf) (doff : nat) (_chunksize : Z)
    : Z * Z * buf * buf :=
  if negb (Z.land HDR CHUNK_FLAG_PREPROC =? 0) then
    let r := preproc_decompress X (decompress tdat) cbuf soff srclen ubuf doff
               _chunksize (level tdat) HDR (props tdat) in
    (p_rv r, p_dstlen r, p_src r, p_dst r)
  else
    let r := decompress tdat (sub cbuf soff (Z.to_nat srclen)) _chunksize
               (level tdat) HDR in
    (c_rv r, c_dstlen r, cbuf, memcpy ubuf doff (c_out r)).

(** The index block of the dedup branch: LZMA when the index has at least
    90 bytes and its stored size is smaller, else the plain copy; then the
    inverse transpose.  Returns [rv] and the two buffers. *)
Definition pd_index_stage (tdat : cmp_data) (h : dedupe_hdr) (cbuf ubuf : buf)
    : Z * buf * buf :=
  let RH := RABIN_HDR_SIZE X in
  let cmpoff := (cksum_bytes G + mac_bytes G + CHUNK_FLAG_SZ + RH)%nat in
  let '(rv, dedupe_index_sz, ubuf) :=
    if (90 <=? h_index_sz h) && (h_index_sz_cmp h <? h_index_sz h) then
      let r := lzma_decompress X (sub cbuf cmpoff (Z.to_nat (h_index_sz_cmp h)))
                 (h_index_sz h) (rctx_level tdat) 0 in
      (c_rv r, c_dstlen r, memcpy ubuf RH (c_out r))
    else
      (0, h_index_sz h,
       memcpy ubuf RH (sub cbuf cmpoff (Z.to_nat (h_index_sz h)))) in
  let n := Z.to_nat dedupe_index_sz in
  let cbuf := memcpy cbuf cmpoff (transpose X (sub ubuf RH n) 4 COL) in
  let ubuf := memcpy ubuf RH (sub cbuf cmpoff n) in
  (rv, cbuf, ubuf).

(** The dedup branch: data first, then the index.  [inl] is the [goto cont]
    after a failed decompression. *)
Definition pd_dedup_branch (tdat : cmp_data) (HDR : Z) (cbuf : buf)
    : dec_error + (Z * Z * buf * buf) :=
  let RH := RABIN_HDR_SIZE X in
  let cseg := (cksum_bytes G + mac_bytes G + CHUNK_FLAG_SZ)%nat in
  let h := parse_dedupe_hdr X (sub cbuf cseg RH) in
  let _chunksize := h_chunksize h in
  let ubuf := memcpy (uncompressed_chunk tdat) 0 (sub cbuf cseg RH) in
  let cmpoff := (cseg + RH + Z.to_nat (h_index_sz_cmp h))%nat in
  let uoff := (RH + Z.to_nat (h_index_sz h))%nat in
  let data :=
    if negb (Z.land HDR COMPRESSED =? 0) then
      let '(rv, _chunksize, cbuf, ubuf) :=
        pd_call_backend tdat HDR cbuf cmpoff (h_data_sz_cmp h) ubuf uoff _chunksize in
      if rv =? -1 then None else Some (_chunksize, cbuf, ubuf)
    else
      Some (_chunksize, cbuf,
            memcpy ubuf uoff (sub cbuf cmpoff (Z.to_nat _chunksize))) in
  match data with
  | None => inl DecompressionFailed
  | Some (_chunksize, cbuf, ubuf) =>
      let '(rv, cbuf, ubuf) := pd_index_stage tdat h cbuf ubuf in
      inr (rv, _chunksize, cbuf, ubuf)
  end.

(** The [else] of the dedup branch. *)
Definition pd_plain_branch (tdat : cmp_data) (HDR len _chunksize : Z)
    (cbuf : buf) : Z * Z * buf * buf :=
  let cseg := (cksum_bytes G + mac_bytes G + CHUNK_FLAG_SZ)%nat in
  if negb (Z.land HDR COMPRESSED =? 0) then
    pd_call_backend tdat HDR cbuf cseg len (uncompressed_chunk tdat) 0 _chunksize
  else
    (0, _chunksize, cbuf,
     memcpy (uncompressed_chunk tdat) 0 (sub cbuf cseg (Z.to_nat _chunksize))).

(** "Rebuild chunk from dedup blocks": the two buffers change roles when
    the chunk was deduplicated.  Returns [_chunksize], [compressed_chunk]
    and [uncompressed_chunk]. *)
Definition pd_rebuild (HDR _chunksize : Z) (cbuf ubuf : buf)
    : dec_error + (Z * buf * buf) :=
  if (enable_rabin_scan G || enable_fixed_scan G)
     && negb (Z.land HDR CHUNK_FLAG_DEDUP =? 0) then
    let r := dedupe_decompress X ubuf _chunksize in
    let cbuf := memcpy cbuf 0 (d_out r) in
    if negb (d_valid r) then inl DedupRecoveryFailed
    else inr (d_rbytes r, ubuf, cbuf)
  else inr (_chunksize, cbuf, ubuf).

(** One pass of the loop of [perform_decompress] on a chunk with [rbytes >
    0] handed over by the reader loop of [start_decompress].  [inr] carries
    the state the writer thread sees. *)
Definition perform_decompress (tdat : cmp_data) : dec_error + cmp_data :=
  let '(HDR, rbytes_, len, _chunksize) := pd_header tdat in
  match pd_verify tdat HDR rbytes_ len with
  | inl e => inl e
  | inr (checksum_, cbuf) =>
      let br :=
        if (enable_rabin_scan G || enable_fixed_scan G || enable_rabin_global G)
           && negb (Z.land HDR CHUNK_FLAG_DEDUP =? 0)
        then pd_dedup_branch tdat HDR cbuf
        else inr (pd_plain_branch tdat HDR len _chunksize cbuf) in
      match br with
      | inl e => inl e
      | inr (rv, _chunksize, cbuf, ubuf) =>
          if rv =? -1 then inl DecompressionFailed
          else
            match pd_rebuild HDR _chunksize cbuf ubuf with
            | inl e => inl e
            | inr (_chunksize, cbuf, ubuf) =>
                if (encrypt_type G =? 0)
                   && memcmp_ne
                        (compute_checksum X (cksum G)
                           (sub ubuf 0 (Z.to_nat _chunksize)) (cksum_mt tdat))
                        checksum_ (cksum_bytes G)
                then inl ChecksumsDoNotMatch
                else
                  inr {| cmp_seg := cmp_seg tdat;
                         compressed_chunk := cbuf;
                         uncompressed_chunk := ubuf;
                         rbytes := rbytes_;
                         chunksize := chunksize tdat;
                         len_cmp := _chunksize;
                         len_cmp_be := len_cmp_be tdat;
                         checksum := checksum_;
                         level := level tdat;
                         id := id tdat;
                         cksum_mt := cksum_mt tdat;
                         compress := compress tdat;
                         decompress := decompress tdat;
                         props := props tdat;
                         rctx_level := rctx_level tdat;
                         rctx_valid := rctx_valid tdat |}
            end
      end
  end.

(** What [writer_thread] writes for a decompressed chunk; [tdat->cmp_seg]
    is [tdat->uncompressed_chunk] on this side. *)
Definition written_plain (tdat : cmp_data) : buf :=
  sub (uncompressed_chunk tdat) 0 (Z.to_nat (len_cmp tdat)).

End PerformDecompress.

(** ** The file header and the reader loop of start_decompress *)

(** A [w]-bit value stored in a signed C variable ([short version],
    [int level], [int64_t chunksize]). *)
Definition to_signed (w : Z) (v : Z) : Z :=
  let m := v `mod` 2 ^ w in
  if m <? 2 ^ (w - 1) then m else m - 2 ^ w.

Definition EIGHTY_PCT (x : Z) : Z := x - x / 5.

(** The bound of the messages "Compression level should be in range 0 - 14"
    and "Invalid compression level in header". *)
Definition MAX_LEVEL : Z := 14.

(** The bytes of a C string literal. *)
Definition str (s : String.string) : buf :=
  map (fun a => Z.of_nat (Ascii.nat_of_ascii a)) (String.list_ascii_of_string s).

(** [strncpy(dst, src, n)]: up to the first NUL, then zero padding. *)
Fixpoint strncpy (n : nat) (src : buf) : buf :=
  match n with
  | O => []
  | S k =>
      match src with
      | [] => replicate n 0
      | c :: src' => if c =? 0 then replicate n 0 else c :: strncpy k src'
      end
  end.

(** The names [init_algo] compares with, in its order, and whether the
    row sets [adapt_mode].  The last row is compiled under
    [ENABLE_PC_LIBBSC]; it is part of the table, as in the build whose
    algorithms the usage text lists, and it sets [adapt_mode] too. *)
Definition algo_table : list (String.string * bool) :=
  [("zlib", false); ("lzmaMt", false); ("lzma", false); ("bzip2", false);
   ("ppmd", false); ("lzfx", false); ("lz4", false); ("none", false);
   ("adapt2", true); ("adapt", true); ("libbsc", true)].

(** [init_algo]: the entry whose name is a prefix of the 8 copied bytes;
    [None] is [rv = 1]. *)
Definition init_algo (algo : buf) : option (String.string * bool) :=
  let algorithm := strncpy 8 algo in
  find (fun e => bool_decide (take (String.length (fst e)) algorithm = str (fst e)))
       algo_table.

Inductive start_error :=
| ReadFailed
| NotPcompressedFile
| NewerArchiveVersion
| ChunkSizeExceedsRam
| InvalidCompressionLevel
| UnsupportedVersion.

Record file_hdr := {
  f_algo : buf;
  f_version : Z;
  f_flags : Z;
  f_chunksize : Z;
  f_level : Z
}.

Section FileHeader.

(** [VERSION] and the header flag bits are declared in the missing
    [pcompress.h]. *)
Variable VERSION : Z.
Variables FLAG_DEDUP FLAG_DEDUP_FIXED FLAG_SINGLE_CHUNK : Z.

(** "Check for ridiculous values (malicious tampering or otherwise)": the
    four tests of [start_decompress] in their order; [Some e] is [err = 1;
    goto uncomp_done], taken before any thread is created.  [chunksize] is
    an [int64_t] and [get_total_ram()] is unsigned, so C compares the 64
    bits of [chunksize] as an unsigned number: a negative [chunksize] is
    above every bound. *)
Definition header_sanity (total_ram version chunksize level : Z)
    : option start_error :=
  if VERSION <? version then Some NewerArchiveVersion
  else if EIGHTY_PCT total_ram <? chunksize `mod` 2 ^ 64
  then Some ChunkSizeExceedsRam
  else if (MAX_LEVEL <? level) || (level <? 0) then Some InvalidCompressionLevel
  else if version <? VERSION - 3 then Some UnsupportedVersion
  else None.

(** "Read file header pieces and verify" up to the sanity checks: the
    header fields and the rest of the file, or the error that ends
    [start_decompress] before any chunk is read. *)
Definition start_decompress_header (total_ram : Z) (file : buf)
    : start_error + (file_hdr * buf) :=
  if (length file <? ALGO_SZ)%nat then inl ReadFailed
  else
    let algorithm := take ALGO_SZ file in
    match init_algo algorithm with
    | None => inl NotPcompressedFile
    | Some _ =>
        let rest := drop ALGO_SZ file in
        if (length rest <? 16)%nat then inl ReadFailed
        else
          let version := to_signed 16 (be_value (take 2 rest)) in
          let flags := to_signed 16 (be_value (take 2 (drop 2 rest))) in
          let chunksize := to_signed 64 (be_value (take 8 (drop 4 rest))) in
          let level := to_signed 32 (be_value (take 4 (drop 12 rest))) in
          match header_sanity total_ram version chunksize level with
          | Some e => inl e
          | None =>
              inr ({| f_algo := algorithm; f_version := version;
                      f_flags := flags; f_chunksize := chunksize;
                      f_level := level |}, drop 16 rest)
          end
    end.

(** ** The small-file adjustment and the file header of start_compress *)

(** The header flags [start_compress] starts with. *)
Definition start_compress_dedup_flags (G : globals) : Z :=
  if enable_rabin_scan G || enable_fixed_scan G || enable_rabin_global G then
    if enable_rabin_global G then Z.lor 0 (Z.lor FLAG_DEDUP FLAG_DEDUP_FIXED)
    else if enable_rabin_scan G then Z.lor 0 FLAG_DEDUP
    else Z.lor 0 FLAG_DEDUP_FIXED
  else 0.

Record sc_adjust := {
  sc_chunksize : Z;
  sc_nthreads : Z;
  sc_single_chunk : bool;
  sc_rabin_split : bool;
  sc_flags : Z
}.

(** "Adjust chunk size for small files. We then get an archive with a
    single chunk for the entire file." (not in pipe mode). *)
Definition start_compress_adjust (st_size chunksize nthreads flags : Z)
    (enable_rabin_split : bool) : sc_adjust :=
  if st_size <=? chunksize then
    {| sc_chunksize := st_size; sc_nthreads := 1; sc_single_chunk := true;
       sc_rabin_split := false; sc_flags := Z.lor flags FLAG_SINGLE_CHUNK |}
  else
    {| sc_chunksize := chunksize;
       sc_nthreads :=
         if (nthreads =? 0) || (st_size / chunksize <? nthreads)
         then st_size / chunksize + (if st_size `mod` chunksize =? 0 then 0 else 1)
         else nthreads;
       sc_single_chunk := false;
       sc_rabin_split := enable_rabin_split; sc_flags := flags |}.

(** The flags as written: [flags |= encrypt_type] and [flags |= cksum]. *)
Definition start_compress_flags (G : globals) (a : sc_adjust) : Z :=
  let flags := if negb (encrypt_type G =? 0)
               then Z.lor (sc_flags a) (encrypt_type G) else sc_flags a in
  Z.lor flags (cksum G).

(** "Write out file header": the bytes before the salt or the CRC32. *)
Definition start_compress_header (algo : buf) (flags chunksize level : Z) : buf :=
  strncpy ALGO_SZ algo ++ be_bytes 2 VERSION ++ be_bytes 2 flags
  ++ be_bytes 8 chunksize ++ be_bytes 4 level.

End FileHeader.

(** [Read(fd, buf, count)] on the rest of a file: the bytes read and what
    is left. *)
Definition Read (file : buf) (count : Z) : buf * buf :=
  (take (Z.to_nat count) file, drop (Z.to_nat count) file).

(** The thread state [start_compress] sets up for every worker. *)
Definition start_compress_init (compress_ decompress_ : compress_func_ptr)
    (props_ : algo_props_t) (chunksize_ level_ rctx_level_ : Z)
    (single_chunk : bool) : cmp_data :=
  {| cmp_seg := []; compressed_chunk := []; uncompressed_chunk := [];
     rbytes := 0; chunksize := chunksize_; len_cmp := 0; len_cmp_be := [];
     checksum := []; level := level_; id := 0;
     cksum_mt := if single_chunk then 1 else 0;
     compress := compress_; decompress := decompress_; props := props_;
     rctx_level := rctx_level_; rctx_valid := false |}.

(** "Once previous chunk is done swap already read buffer and it's size into
    the thread data": the chunk goes into [cmp_seg] under dedup, into
    [uncompressed_chunk] otherwise; the bytes after the last rabin boundary
    are carried over.  Returns the thread state, [cread_buf] and
    [rabin_count]. *)
Definition producer_load (G : globals) (tdat : cmp_data) (cread_buf : buf)
    (rbytes_ rabin_count chunk_num : Z) : cmp_data * buf * Z :=
  let with_bufs (cseg ubuf : buf) (rb : Z) :=
    {| cmp_seg := cseg; compressed_chunk := compressed_chunk tdat;
       uncompressed_chunk := ubuf; rbytes := rb; chunksize := chunksize tdat;
       len_cmp := len_cmp tdat; len_cmp_be := len_cmp_be tdat;
       checksum := checksum tdat; level := level tdat; id := chunk_num;
       cksum_mt := cksum_mt tdat; compress := compress tdat;
       decompress := decompress tdat; props := props tdat;
       rctx_level := rctx_level tdat; rctx_valid := rctx_valid tdat |} in
  if enable_rabin_scan G || enable_fixed_scan G || enable_rabin_global G then
    let tmp := cmp_seg tdat in
    if negb (rabin_count =? 0) then
      (with_bufs cread_buf (uncompressed_chunk tdat) rabin_count,
       memcpy tmp 0 (sub cread_buf (Z.to_nat rabin_count)
                       (Z.to_nat (rbytes_ - rabin_count))),
       rbytes_ - rabin_count)
    else (with_bufs cread_buf (uncompressed_chunk tdat) rbytes_, tmp, rabin_count)
  else
    (with_bufs (cmp_seg tdat) cread_buf rbytes_, uncompressed_chunk tdat,
     rabin_count).

(** The first chunk of a regular file as [perform_compress] gets it, when
    the chunks are cut by [Read] ([enable_rabin_split] off, as it is for
    every file of one chunk): the adjustment, the settings of [dary[0]], the
    first read and the hand-over. *)
Definition start_compress_first (FLAG_SINGLE_CHUNK : Z) (G : globals)
    (compress_ decompress_ : compress_func_ptr) (props_ : algo_props_t)
    (chunksize_ nthreads flags level_ rctx_level_ : Z) (file : buf)
    : sc_adjust * cmp_data :=
  let a := start_compress_adjust FLAG_SINGLE_CHUNK (Z.of_nat (length file))
             chunksize_ nthreads flags false in
  let tdat := start_compress_init compress_ decompress_ props_
                (sc_chunksize a) level_ rctx_level_ (sc_single_chunk a) in
  let '(cread_buf, _) := Read file (sc_chunksize a) in
  (a, fst (fst (producer_load G tdat cread_buf
                  (Z.of_nat (length cread_buf)) 0 0))).

(** The body of the reader loop of [start_decompress]: the length, the
    "ridiculous length" check, the end mark, then the chunk with its
    checksum, mac and flag byte. *)
Inductive read_res :=
| ReadIncomplete
| ReadTooBig
| ReadEnd
| ReadChunk (tdat : cmp_data) (rest : buf).

Definition read_chunk (G : globals) (tdat : cmp_data) (chunksize_ : Z)
    (chunk_num : Z) (file : buf) : read_res :=
  let '(lenb, file) := Read file 8 in
  if negb (length lenb =? 8)%nat then ReadIncomplete
  else
    let len := be_value lenb in
    if chunksize_ + 256 <? len then ReadTooBig
    else if len =? 0 then ReadEnd
    else
      let want := len + Z.of_nat (cksum_bytes G + mac_bytes G + CHUNK_FLAG_SZ) in
      let '(chunk, file) := Read file want in
      if Z.of_nat (length chunk) <? want then ReadIncomplete
      else
        ReadChunk
          {| cmp_seg := cmp_seg tdat;
             compressed_chunk := memcpy (compressed_chunk tdat) 0 chunk;
             uncompressed_chunk := uncompressed_chunk tdat;
             rbytes := Z.of_nat (length chunk);
             chunksize := chunksize tdat;
             len_cmp := len; len_cmp_be := lenb;
             checksum := checksum tdat; level := level tdat; id := chunk_num;
             cksum_mt := cksum_mt tdat; compress := compress tdat;
             decompress := decompress tdat; props := props tdat;
             rctx_level := rctx_level tdat; rctx_valid := rctx_valid tdat |}
          file.

(** ** The bytes under the chunk CRC32 *)

(** The chunk header with the length field [field] and the mac slot zeroed,
    as both sides give it to [lzma_crc32]. *)
Definition frame_hdr0 (G : globals) (X : externals) (d : dedup_stage_res)
    (type field : Z) : buf :=
  be_bytes 8 field
  ++ serialize_checksum X (ds_checksum d) (cksum_bytes G)
  ++ replicate (mac_bytes G) 0 ++ [type `mod` 256].

(** The CRC32 [perform_compress] stores: over the header, then over the
    original size when there is one. *)
Definition frame_crc (G : globals) (X : externals) (d : dedup_stage_res)
    (type field : Z) (trailer : buf) : Z :=
  let crc := lzma_crc32 X (frame_hdr0 G X d type field) 0 in
  match trailer with [] => crc | _ => lzma_crc32 X trailer crc end.

(** A frame with other bytes in the place of its payload. *)
Definition with_payload (G : globals) (frame payload : buf) : buf :=
  take (data_off G) frame ++ payload ++ drop (data_off G + length payload) frame.

(** The buffer with bit [k] of byte [i] flipped. *)
Definition flip_bit (b : buf) (i : nat) (k : Z) : buf :=
  memcpy b i [Z.lxor (nth i b 0) (2 ^ k)].

(** ** What the pipeline asks of its collaborators *)

(** LZP and Delta2 are reversible: a stage that reports success has written
    the bytes it reports, and its inverse gives the source back;
    [delta2_decode] when the capacity it is told has room for the source
    ([lzp_decompress] is not told one). *)
Definition lzp_inverts (X : externals) : Prop :=
  forall (src : buf) (hashsize : Z),
    let '(result, out) := lzp_compress X src hashsize in
    0 <= result -> result <> Z.of_nat (length src) ->
    (Z.to_nat result <= length out)%nat /\
    let '(result', out') := lzp_decompress X (take (Z.to_nat result) out) hashsize in
    result' = Z.of_nat (length src) /\ take (length src) out' = src.

Definition delta2_inverts (X : externals) : Prop :=
  forall (src : buf) (dstlen span : Z),
    let r := delta2_encode X src dstlen span in
    c_rv r <> -1 ->
    0 <= c_dstlen r /\ (Z.to_nat (c_dstlen r) <= length (c_out r))%nat /\
    forall dstlen',
      Z.of_nat (length src) <= dstlen' ->
      let r' := delta2_decode X (take (Z.to_nat (c_dstlen r)) (c_out r)) dstlen' in
      c_rv r' <> -1 /\ c_dstlen r' = Z.of_nat (length src) /\
      take (length src) (c_out r') = src.

(** A checksum of [n] bytes goes through [serialize_checksum] and
    [deserialize_checksum] unchanged and takes [n] bytes in the chunk
    header. *)
Definition checksum_serializes (X : externals) : Prop :=
  forall (c : buf) (n : nat),
    length (serialize_checksum X c n) = n /\
    sub (deserialize_checksum X (serialize_checksum X c n) n) 0 n = sub c 0 n.

(** [lzma_crc32] is a running CRC of 32 bits: the CRC of a buffer given in
    two calls is the CRC of the whole. *)
Definition crc32_streams (X : externals) : Prop :=
  (forall (a b : buf) (c : Z),
     lzma_crc32 X (a ++ b) c = lzma_crc32 X b (lzma_crc32 X a c)) /\
  (forall (b : buf) (c : Z), 0 <= lzma_crc32 X b c < 2 ^ 32).

(** [lzma_crc32] tells apart two buffers of one length that differ in one
    byte: every step of a CRC is one to one on its running value. *)
Definition crc32_detects (X : externals) : Prop :=
  forall (a b : buf) (x y c : Z),
    x `mod` 256 <> y `mod` 256 ->
    lzma_crc32 X (a ++ x :: b) c <> lzma_crc32 X (a ++ y :: b) c.

(** [crypto_buf] in stream mode: it keeps the length, and a second pass
    with the same chunk id gives the bytes back. *)
Definition crypto_inverts (X : externals) : Prop :=
  forall (b : buf) (id_ : Z),
    let '(rv, out) := crypto_buf X b id_ in
    rv <> -1 ->
    length out = length b /\
    let '(rv', out') := crypto_buf X out id_ in
    rv' <> -1 /\ out' = b.

(** ** Stand-ins for the collaborators

    Small collaborators that meet the interfaces, used where a statement
    needs a concrete run of the code. *)

(** Modelled from the spec: [lzma_crc32] is the CRC32 of liblzma, absent
    from the sources ("CRC32" throughout the spec): the reflected CRC-32 of
    IEEE 802.3 with polynomial 0xEDB88320, computed bit by bit, the running
    value inverted on entry and on exit. *)
Definition crc32_bit (c : Z) : Z :=
  if Z.testbit c 0 then Z.lxor (Z.shiftr c 1) 3988292384 else Z.shiftr c 1.

Definition crc32_byte (c b : Z) : Z :=
  Nat.iter 8 crc32_bit (Z.lxor c (b `mod` 256)).

Definition crc32 (b : buf) (crc : Z) : Z :=
  Z.lxor (fold_left crc32_byte b (Z.lxor (crc `mod` 2 ^ 32) 4294967295)) 4294967295.

Module Toy.

(** An LZP stand-in that removes a doubled first byte, and its inverse. *)
Definition lzp_compress (src : buf) (hashsize : Z) : Z * buf :=
  match src with
  | a :: b :: rest =>
      if a =? b then (Z.of_nat (length (b :: rest)), b :: rest) else (-1, [])
  | _ => (-1, [])
  end.

Definition lzp_decompress (src : buf) (hashsize : Z) : Z * buf :=
  match src with
  | a :: rest => (Z.of_nat (length (a :: a :: rest)), a :: a :: rest)
  | [] => (-1, [])
  end.



(** A Delta2 stand-in that replaces every byte by its exclusive or with the
    byte before, when the span allows it. *)
Fixpoint delta (prev : Z) (l : buf) : buf :=
  match l with
  | [] => []
  | x :: l' => Z.lxor x prev :: delta x l'
  end.

Fixpoint undelta (prev : Z) (l : buf) : buf :=
  match l with
  | [] => []
  | x :: l' => let y := Z.lxor x prev in y :: undelta y l'
  end.

Definition delta2_encode (src : buf) (dstlen span : Z) : call_res :=
  if (Z.of_nat (length src) <? span) || (dstlen <? Z.of_nat (length src))
  then {| c_rv := -1; c_dstlen := dstlen; c_out := [] |}
  else {| c_rv := 0; c_dstlen := Z.of_nat (length src); c_out := delta 0 src |}.

Definition delta2_decode (src : buf) (dstlen : Z) : call_res :=
  if dstlen <? Z.of_nat (length src)
  then {| c_rv := -1; c_dstlen := dstlen; c_out := [] |}
  else {| c_rv := 0; c_dstlen := Z.of_nat (length src); c_out := undelta 0 src |}.

(** A back end that stores a run of one byte as the byte and the run
    length, and fails on anything else. *)
Definition compress : compress_func_ptr := fun src dstlen level chdr =>
  match src with
  | a :: rest =>
      if forallb (Z.eqb a) rest && (2 <? Z.of_nat (length src))
         && (Z.of_nat (length src) <? 256)
      then {| c_rv := 0; c_dstlen := 2; c_out := [a; Z.of_nat (length src)] |}
      else {| c_rv := -1; c_dstlen := dstlen; c_out := [] |}
  | [] => {| c_rv := -1; c_dstlen := dstlen; c_out := [] |}
  end.

Definition decompress : compress_func_ptr := fun src dstlen level chdr =>
  match src with
  | [a; n] =>
      if dstlen <? n then {| c_rv := -1; c_dstlen := dstlen; c_out := [] |}
      else {| c_rv := 0; c_dstlen := n; c_out := replicate (Z.to_nat n) a |}
  | _ => {| c_rv := -1; c_dstlen := dstlen; c_out := [] |}
  end.

(** A back end in the manner of [adapt]: it tries the run-length coder and
    returns 1 for it, else drops a doubled first byte and returns 2; the
    decoder picks the inverse by bits 4 to 6 of the chunk header byte. *)
Definition adapt_compress : compress_func_ptr := fun src dstlen level chdr =>
  let r := compress src dstlen level chdr in
  if 0 <=? c_rv r
  then {| c_rv := 1; c_dstlen := c_dstlen r; c_out := c_out r |}
  else match src with
       | a :: b :: rest =>
           if a =? b
           then {| c_rv := 2; c_dstlen := Z.of_nat (length (b :: rest));
                   c_out := b :: rest |}
           else {| c_rv := -1; c_dstlen := dstlen; c_out := [] |}
       | _ => {| c_rv := -1; c_dstlen := dstlen; c_out := [] |}
       end.

Definition adapt_decompress : compress_func_ptr := fun src dstlen level chdr =>
  match Z.land (Z.shiftr chdr 4) 7 with
  | 1 => decompress src dstlen level chdr
  | 2 =>
      match src with
      | a :: rest =>
          if dstlen <? Z.of_nat (length (a :: a :: rest))
          then {| c_rv := -1; c_dstlen := dstlen; c_out := [] |}
          else {| c_rv := 0; c_dstlen := Z.of_nat (length (a :: a :: rest));
                  c_out := a :: a :: rest |}
      | [] => {| c_rv := -1; c_dstlen := dstlen; c_out := [] |}
      end
  | _ => {| c_rv := -1; c_dstlen := dstlen; c_out := [] |}
  end.

(** A back end in the manner of [none]: a copy, which never shrinks. *)
Definition none_compress : compress_func_ptr := fun src dstlen level chdr =>
  {| c_rv := 0; c_dstlen := Z.of_nat (length src); c_out := src |}.

(** An index codec whose output names the level and the chunk header byte
    it was called with. *)
Definition lzma_compress : compress_func_ptr := fun src dstlen level chdr =>
  {| c_rv := 0; c_dstlen := 2; c_out := [level `mod` 256; chdr `mod` 256] |}.

Definition lzma_decompress : compress_func_ptr := fun src dstlen level chdr =>
  {| c_rv := 0; c_dstlen := dstlen; c_out := replicate (Z.to_nat dstlen) 0 |}.

(** A 4-byte digest and a 4-byte keyed digest, both from [crc32]. *)
Definition compute_checksum (kind : Z) (b : buf) (mt : Z) : buf :=
  be_bytes 4 (crc32 b kind).

Definition hmac (b : buf) : buf := be_bytes 4 (crc32 b 1).

(** A stream cipher stand-in: every byte xor 90. *)
Definition crypto_buf (b : buf) (id : Z) : Z * buf :=
  (0, map (fun x => Z.lxor x 90) b).

Definition no_dedupe (b : buf) (mt : Z) : dedupe_res :=
  {| d_index_sz := 0; d_valid := false; d_rbytes := Z.of_nat (length b);
     d_out := [] |}.


End Toy.

Definition toy : externals :=
  {| lzp_hash_size := fun level => 16;
     lzp_compress := Toy.lzp_compress;
     lzp_decompress := Toy.lzp_decompress;
     delta2_encode := Toy.delta2_encode;
     delta2_decode := Toy.delta2_decode;
     lzma_compress := Toy.lzma_compress;
     lzma_decompress := Toy.lzma_decompress;
     lzma_crc32 := crc32;
     compute_checksum := Toy.compute_checksum;
     serialize_checksum := fun c n => sub c 0 n;
     deserialize_checksum := fun c n => sub c 0 n;
     crypto_buf := Toy.crypto_buf;
     hmac := Toy.hmac;
     RABIN_HDR_SIZE := 4;
     dedupe_compress := Toy.no_dedupe;
     dedupe_decompress := fun b len => Toy.no_dedupe b 0;
     parse_dedupe_hdr := fun b =>
       {| h_blknum := 0; h_index_sz := 0; h_data_sz := 0; h_index_sz_cmp := 0;
          h_data_sz_cmp := 0; h_chunksize := 0 |};
     update_dedupe_hdr := fun b i d => b;
     transpose := fun b elemsize dir => b |}.



(** No option but the default checksum: [-c <algo>]. *)
Definition G_plain : globals :=
  {| adapt_mode := false; enable_rabin_scan := false;
     enable_rabin_global := false; enable_delta2_encode := false;
     enable_fixed_scan := false; lzp_preprocess := false; encrypt_type := 0;
     cksum := 0; cksum_bytes := 4; mac_bytes := 4 |}.

(** [-c adapt]. *)
Definition G_adapt : globals :=
  {| adapt_mode := true; enable_rabin_scan := false;
     enable_rabin_global := false; enable_delta2_encode := false;
     enable_fixed_scan := false; lzp_preprocess := false; encrypt_type := 0;
     cksum := 0; cksum_bytes := 4; mac_bytes := 4 |}.


(** [-c <algo> -L]. *)
Definition G_lzp : globals :=
  {| adapt_mode := false; enable_rabin_scan := false;
     enable_rabin_global := false; enable_delta2_encode := false;
     enable_fixed_scan := false; lzp_preprocess := true; encrypt_type := 0;
     cksum := 0; cksum_bytes := 4; mac_bytes := 4 |}.

(** [-c <algo> -L -P]. *)
Definition G_lzp_delta2 : globals :=
  {| adapt_mode := false; enable_rabin_scan := false;
     enable_rabin_global := false; enable_delta2_encode := true;
     enable_fixed_scan := false; lzp_preprocess := true; encrypt_type := 0;
     cksum := 0; cksum_bytes := 4; mac_bytes := 4 |}.

(** [-c <algo> -e <alg>]: no plain checksum, a mac of four bytes from the
    stand-in for the HMAC. *)
Definition G_enc : globals :=
  {| adapt_mode := false; enable_rabin_scan := false;
     enable_rabin_global := false; enable_delta2_encode := false;
     enable_fixed_scan := false; lzp_preprocess := false; encrypt_type := 1;
     cksum := 0; cksum_bytes := 0; mac_bytes := 4 |}.

Definition toy_props : algo_props_t := {| delta2_span := 2; is_single_chunk := false |}.

(** Twenty-one bytes on which the three stand-ins all succeed: LZP drops
    the first byte, Delta2 turns the rest into a run, the back end stores
    the run in two bytes. *)
Definition preproc_sample : buf :=
  [5; 5; 0; 5; 0; 5; 0; 5; 0; 5; 0; 5; 0; 5; 0; 5; 0; 5; 0; 5; 0].

(** The thread state of a worker that the producer has given the chunk
    [chunk] of a file cut in chunks of [chunksize_] bytes. *)
Definition tdat_of (cmp : compress_func_ptr) (G : globals) (chunk : buf)
    (chunksize_ : Z) : cmp_data :=
  fst (fst (producer_load G
    (start_compress_init cmp Toy.decompress toy_props chunksize_ 6 14 false)
    chunk (Z.of_nat (length chunk)) 0 0)).

(** ** The semaphore protocol of the producer loop, the workers and the writer

    The loop of [start_compress] (and of [start_decompress]) that hands
    chunks to [dary[p]], the loop of [perform_compress] (or
    [perform_decompress]) in every worker thread and the loop of
    [writer_thread], as threads that take one step at a time in any order.
    A step is one semaphore operation or the work between two of them.  What
    a worker does to a chunk is the function [process]. *)

Module Pipeline.

Inductive worker_pc := AtStartSem | Processing | AtPostDone.
Inductive producer_pc := AtWriteDoneSem | Loading | AtPostStart | Bailed.
Inductive writer_pc := AtDoneSem | Writing | AtPostWriteDone.
Inductive thread := Producer | Worker (i : nat) | Writer.

Section Protocol.

Context {A B : Type}.
Variable process : nat -> A -> B.
Variable nprocs : nat.

(** [struct cmp_data] as the protocol sees it: the three semaphores, the
    chunk id, the chunk handed over, the result, and where the thread of
    this slot stands. *)
Record slot := {
  start_sem : nat;
  cmp_done_sem : nat;
  write_done_sem : nat;
  slot_id : nat;
  slot_in : option A;
  slot_out : option B;
  slot_pc : worker_pc
}.

Record state := {
  dary : list slot;
  prod_pc : producer_pc;
  prod_p : nat;
  chunk_num : nat;
  input : list A;
  wr_pc : writer_pc;
  wr_p : nat;
  output : list (nat * B)
}.

Definition set_dary (s : state) (p : nat) (w : slot) : state :=
  {| dary := <[p := w]> (dary s); prod_pc := prod_pc s; prod_p := prod_p s;
     chunk_num := chunk_num s; input := input s; wr_pc := wr_pc s;
     wr_p := wr_p s; output := output s |}.

Definition set_producer (s : state) (pc : producer_pc) (p n : nat)
    (rest : list A) : state :=
  {| dary := dary s; prod_pc := pc; prod_p := p; chunk_num := n;
     input := rest; wr_pc := wr_pc s; wr_p := wr_p s; output := output s |}.

Definition set_writer (s : state) (pc : writer_pc) (p : nat)
    (out : list (nat * B)) : state :=
  {| dary := dary s; prod_pc := prod_pc s; prod_p := prod_p s;
     chunk_num := chunk_num s; input := input s; wr_pc := pc; wr_p := p;
     output := out |}.

(** [sem_wait]: blocked ([None]) on 0. *)
Definition sem_wait (n : nat) : option nat :=
  match n with O => None | S k => Some k end.

(** The producer: [sem_wait(&tdat->write_done_sem)]; then EOF or the id and
    the buffer swap; then [sem_post(&tdat->start_sem)], [++chunk_num], the
    next read and the next [p]. *)
Definition producer_step (s : state) : option state :=
  w ← dary s !! prod_p s;
  match prod_pc s with
  | AtWriteDoneSem =>
      n ← sem_wait (write_done_sem w);
      Some (set_producer
              (set_dary s (prod_p s)
                 {| start_sem := start_sem w; cmp_done_sem := cmp_done_sem w;
                    write_done_sem := n; slot_id := slot_id w;
                    slot_in := slot_in w; slot_out := slot_out w;
                    slot_pc := slot_pc w |})
              Loading (prod_p s) (chunk_num s) (input s))
  | Loading =>
      match input s with
      | [] => Some (set_producer s Bailed (prod_p s) (chunk_num s) (input s))
      | a :: _ =>
          Some (set_producer
                  (set_dary s (prod_p s)
                     {| start_sem := start_sem w; cmp_done_sem := cmp_done_sem w;
                        write_done_sem := write_done_sem w;
                        slot_id := chunk_num s;
                        slot_in := Some a; slot_out := slot_out w;
                        slot_pc := slot_pc w |})
                  AtPostStart (prod_p s) (chunk_num s) (input s))
      end
  | AtPostStart =>
      Some (set_producer
              (set_dary s (prod_p s)
                 {| start_sem := S (start_sem w); cmp_done_sem := cmp_done_sem w;
                    write_done_sem := write_done_sem w; slot_id := slot_id w;
                    slot_in := slot_in w; slot_out := slot_out w;
                    slot_pc := slot_pc w |})
              AtWriteDoneSem (S (prod_p s) `mod` nprocs)%nat (S (chunk_num s))
              (tail (input s)))
  | Bailed => None
  end.

(** A worker: [sem_wait(&tdat->start_sem)]; the chunk; then
    [sem_post(&tdat->cmp_done_sem)] and [goto redo]. *)
Definition worker_step (i : nat) (s : state) : option state :=
  w ← dary s !! i;
  match slot_pc w with
  | AtStartSem =>
      n ← sem_wait (start_sem w);
      Some (set_dary s i
              {| start_sem := n; cmp_done_sem := cmp_done_sem w;
                 write_done_sem := write_done_sem w; slot_id := slot_id w;
                 slot_in := slot_in w; slot_out := slot_out w;
                 slot_pc := Processing |})
  | Processing =>
      a ← slot_in w;
      Some (set_dary s i
              {| start_sem := start_sem w; cmp_done_sem := cmp_done_sem w;
                 write_done_sem := write_done_sem w; slot_id := slot_id w;
                 slot_in := slot_in w;
                 slot_out := Some (process (slot_id w) a);
                 slot_pc := AtPostDone |})
  | AtPostDone =>
      Some (set_dary s i
              {| start_sem := start_sem w; cmp_done_sem := S (cmp_done_sem w);
                 write_done_sem := write_done_sem w; slot_id := slot_id w;
                 slot_in := slot_in w; slot_out := slot_out w;
                 slot_pc := AtStartSem |})
  end.

(** The writer: [sem_wait(&tdat->cmp_done_sem)]; the [Write] of the chunk;
    then [sem_post(&tdat->write_done_sem)] and the next [p]. *)
Definition writer_step (s : state) : option state :=
  w ← dary s !! wr_p s;
  match wr_pc s with
  | AtDoneSem =>
      n ← sem_wait (cmp_done_sem w);
      Some (set_writer
              (set_dary s (wr_p s)
                 {| start_sem := start_sem w; cmp_done_sem := n;
                    write_done_sem := write_done_sem w; slot_id := slot_id w;
                    slot_in := slot_in w; slot_out := slot_out w;
                    slot_pc := slot_pc w |})
              Writing (wr_p s) (output s))
  | Writing =>
      b ← slot_out w;
      Some (set_writer s AtPostWriteDone (wr_p s)
              (output s ++ [(slot_id w, b)]))
  | AtPostWriteDone =>
      Some (set_writer
              (set_dary s (wr_p s)
                 {| start_sem := start_sem w; cmp_done_sem := cmp_done_sem w;
                    write_done_sem := S (write_done_sem w); slot_id := slot_id w;
                    slot_in := slot_in w; slot_out := slot_out w;
                    slot_pc := slot_pc w |})
              AtDoneSem (S (wr_p s) `mod` nprocs)%nat (output s))
  end.

Definition thread_step (t : thread) (s : state) : option state :=
  match t with
  | Producer => producer_step s
  | Worker i => worker_step i s
  | Writer => writer_step s
  end.

(** A run under a schedule: the scheduled thread takes its step; a blocked
    thread leaves the state as it is. *)
Fixpoint run (sched : list thread) (s : state) : state :=
  match sched with
  | [] => s
  | t :: sched' => run sched' (default s (thread_step t s))
  end.

(** The semaphores as [sem_init] leaves them: [start_sem] and [cmp_done_sem]
    at 0, [write_done_sem] at 1. *)
Definition init_slot : slot :=
  {| start_sem := 0; cmp_done_sem := 0; write_done_sem := 1; slot_id := 0;
     slot_in := None; slot_out := None; slot_pc := AtStartSem |}.

Definition init (chunks : list A) : state :=
  {| dary := replicate nprocs init_slot; prod_pc := AtWriteDoneSem;
     prod_p := 0; chunk_num := 0; input := chunks; wr_pc := AtDoneSem;
     wr_p := 0; output := [] |}.

(** The chunks in the order of the input, each with its id. *)
Definition in_order (chunks : list A) : list (nat * B) :=
  imap (fun k a => (k, process k a)) chunks.

(** *** The invariant of the protocol

    [wk] is the id of the chunk the writer waits for or holds.  The chunks
    [wk .. chunk_num - 1] are in flight, each in the slot of its id modulo
    [nprocs]; the slots of [chunk_num .. wk + nprocs - 1] are idle. *)

Definition wr_holds (s : state) : bool :=
  match wr_pc s with AtDoneSem => false | _ => true end.

Definition prod_holds (s : state) : bool :=
  match prod_pc s with AtWriteDoneSem => false | _ => true end.

Definition written_count (wk : nat) (s : state) : nat :=
  match wr_pc s with AtPostWriteDone => S wk | _ => wk end.

(** A slot with the chunk [a] of id [k] in flight: posted to the worker,
    with the worker, done and posted to the writer, or held by the writer
    ([held]). *)
Definition flight (held : bool) (k : nat) (a : A) (w : slot) : Prop :=
  slot_id w = k /\ slot_in w = Some a /\ write_done_sem w = 0%nat /\
  match slot_pc w with
  | AtStartSem =>
      (start_sem w = 1%nat /\ cmp_done_sem w = 0%nat /\ held = false) \/
      (start_sem w = 0%nat /\ slot_out w = Some (process k a) /\
       ((cmp_done_sem w = 1%nat /\ held = false) \/
        (cmp_done_sem w = 0%nat /\ held = true)))
  | Processing =>
      start_sem w = 0%nat /\ cmp_done_sem w = 0%nat /\ held = false
  | AtPostDone =>
      start_sem w = 0%nat /\ cmp_done_sem w = 0%nat /\ held = false /\
      slot_out w = Some (process k a)
  end.

(** An idle slot: released by the writer, or held by the producer ([held]),
    which has put the chunk of id [k] in it once it stands at the post of
    [start_sem]. *)
Definition idle (chunks : list A) (held : bool) (pc : producer_pc) (k : nat)
    (w : slot) : Prop :=
  start_sem w = 0%nat /\ cmp_done_sem w = 0%nat /\ slot_pc w = AtStartSem /\
  if held then
    write_done_sem w = 0%nat /\
    (pc = AtPostStart ->
     slot_id w = k /\ exists a, chunks !! k = Some a /\ slot_in w = Some a)
  else write_done_sem w = 1%nat.

Record Inv (chunks : list A) (wk : nat) (s : state) : Prop := {
  inv_len : length (dary s) = nprocs;
  inv_prod_p : prod_p s = (chunk_num s `mod` nprocs)%nat;
  inv_input : input s = drop (chunk_num s) chunks;
  inv_wr_p : wr_p s = (wk `mod` nprocs)%nat;
  inv_output : output s = take (written_count wk s) (in_order chunks);
  inv_window : (wk <= chunk_num s <= wk + nprocs)%nat;
  inv_chunks : (chunk_num s <= length chunks)%nat;
  inv_wr_holds : wr_holds s = true -> (wk < chunk_num s)%nat;
  inv_prod_holds : prod_holds s = true -> (chunk_num s < wk + nprocs)%nat;
  inv_flight : forall k, (wk <= k < chunk_num s)%nat ->
    exists w a, dary s !! (k `mod` nprocs)%nat = Some w /\ chunks !! k = Some a /\
                flight (bool_decide (k = wk) && wr_holds s) k a w;
  inv_idle : forall k, (chunk_num s <= k < wk + nprocs)%nat ->
    exists w, dary s !! (k `mod` nprocs)%nat = Some w /\
              idle chunks (bool_decide (k = chunk_num s) && prod_holds s)
                (prod_pc s) k w;
  inv_bailed : prod_pc s = Bailed -> input s = []
}.

(** The producer has seen the end of the input and every slot but its own
    has its [write_done_sem] up: what the loop "Wait for all remaining
    chunks to finish" waits for. *)
Definition finished (s : state) : Prop :=
  prod_pc s = Bailed /\
  forall i w, i <> prod_p s -> dary s !! i = Some w -> write_done_sem w = 1%nat.

End Protocol.

End Pipeline.

(** ** The LZFX adapter (lzfx_compress.c)

    [lzfx_compress] and [lzfx_decompress] of lzfx.c are not among the
    sources; the adapter is modelled over them.  A call returns its [int],
    the value it leaves in [*olen] and the bytes it wrote.  The log messages
    of [lz_fx_err] are left out. *)

Definition UINT_MAX : Z := 4294967295.

(** [(unsigned int) x] and the store of an [int] into a [uint32_t]. *)
Definition to_uint (x : Z) : Z := x `mod` 2 ^ 32.

Record lzfx_params := { htab_bits : Z }.

Record lzfx_lib := {
  lzfx_compress : buf -> Z -> Z -> Z -> call_res;
  lzfx_decompress : buf -> Z -> Z -> call_res;
  (* PC_TYPE(btype) == TYPE_COMPRESSED, both of pcompress.h *)
  pc_type_compressed : Z -> bool
}.

(** [lz_fx_init]: [None] is [return (1)]; otherwise [*data] and [*level] as
    the function leaves them. *)
Definition lz_fx_init (level chunksize : Z) : option (lzfx_params * Z) :=
  if UINT_MAX <? chunksize then None
  else
    let lev := level in
    let lev := if 5 <? lev then 5 else lev in
    Some ({| htab_bits := to_uint (16 + (lev - 1)) |},
          if 9 <? level then 9 else level).

(** [lz_fx_compress(src, srclen, dst, dstlen, level, chdr, btype, data)];
    [src] holds the bytes at the pointer. *)
Definition lz_fx_compress (L : lzfx_lib) (lzdat : lzfx_params) (src : buf)
    (srclen dstlen level chdr btype : Z) : call_res :=
  let _srclen := to_uint srclen in
  let _dstlen := to_uint dstlen in
  if (level <? 7) && pc_type_compressed L btype then
    {| c_rv := -1; c_dstlen := dstlen; c_out := [] |}
  else
    let r := lzfx_compress L (sub src 0 (Z.to_nat _srclen)) _srclen _dstlen
               (htab_bits lzdat) in
    if negb (c_rv r =? 0) then
      {| c_rv := -1; c_dstlen := dstlen; c_out := c_out r |}
    else {| c_rv := 0; c_dstlen := to_uint (c_dstlen r); c_out := c_out r |}.

(** [lz_fx_decompress(src, srclen, dst, dstlen, level, chdr, btype, data)]. *)
Definition lz_fx_decompress (L : lzfx_lib) (src : buf)
    (srclen dstlen level chdr btype : Z) : call_res :=
  let _srclen := to_uint srclen in
  let _dstlen := to_uint dstlen in
  let r := lzfx_decompress L (sub src 0 (Z.to_nat _srclen)) _srclen _dstlen in
  if negb (c_rv r =? 0) then
    {| c_rv := -1; c_dstlen := dstlen; c_out := c_out r |}
  else {| c_rv := 0; c_dstlen := to_uint (c_dstlen r); c_out := c_out r |}.

(** What the adapter asks of lzfx.c: a buffer that [lzfx_compress] accepted
    fits the output buffer and is given back by [lzfx_decompress] when the
    output buffer has room for it, with its length in [*olen]. *)
Definition lzfx_inverts (L : lzfx_lib) : Prop :=
  forall (src : buf) (olen htab olen' : Z),
    let r := lzfx_compress L src (Z.of_nat (length src)) olen htab in
    c_rv r = 0 -> 0 <= olen -> Z.of_nat (length src) <= olen' ->
    0 <= c_dstlen r <= olen /\
    let r' := lzfx_decompress L (sub (c_out r) 0 (Z.to_nat (c_dstlen r)))
                (c_dstlen r) olen' in
    c_rv r' = 0 /\ c_dstlen r' = Z.of_nat (length src) /\
    take (length src) (c_out r') = src.

(** A stand-in for lzfx.c: the bytes with a mark in front, refused when the
    output buffer is too small. *)
Definition toy_lzfx : lzfx_lib :=
  {| lzfx_compress := fun src ilen olen htab =>
       if olen <? ilen + 1 then {| c_rv := -1; c_dstlen := olen; c_out := [] |}
       else {| c_rv := 0; c_dstlen := ilen + 1; c_out := 76 :: src |};
     lzfx_decompress := fun src ilen olen =>
       match src with
       | 76 :: rest =>
           if olen <? ilen - 1 then {| c_rv := -1; c_dstlen := olen; c_out := [] |}
           else {| c_rv := 0; c_dstlen := ilen - 1; c_out := rest |}
       | _ => {| c_rv := -2; c_dstlen := olen; c_out := [] |}
       end;
     pc_type_compressed := fun btype => btype =? 1 |}.

(** ** The CRC32 of the file header and the dedup flags in it *)

(** "Compute header CRC32 and store that", the [else] of the encryption
    block of [start_compress]: the header as written, then its CRC32. *)
Definition start_compress_header_crc (X : externals) (hdr : buf) : buf :=
  hdr ++ be_bytes 4 (lzma_crc32 X hdr 0).

Inductive hdr_crc_res :=
| HdrReadFailed
| HdrVerificationFailed
| HdrVerified (rest : buf).

(** "Verify file header CRC32 in non-crypto mode", the branch
    [else if (version >= 5)] of [start_decompress], taken when the flags
    carry no encryption algorithm: the CRC32 is computed field by field. *)
Definition start_decompress_header_crc (X : externals) (h : file_hdr)
    (rest : buf) : hdr_crc_res :=
  if 5 <=? f_version h then
    let '(crcb, rest') := Read rest 4 in
    if (length crcb <? 4)%nat then HdrReadFailed
    else
      let crc1 := be_value crcb in
      let crc2 := lzma_crc32 X (f_algo h) 0 in
      let crc2 := lzma_crc32 X (be_bytes 2 (f_version h)) crc2 in
      let crc2 := lzma_crc32 X (be_bytes 2 (f_flags h)) crc2 in
      let crc2 := lzma_crc32 X (be_bytes 8 (f_chunksize h)) crc2 in
      let crc2 := lzma_crc32 X (be_bytes 4 (f_level h)) crc2 in
      if negb (crc1 =? crc2) then HdrVerificationFailed else HdrVerified rest'
  else HdrVerified rest.

(** The values of [dedupe_flag]. *)
Inductive dedupe_kind :=
| RABIN_DEDUPE_SEGMENTED
| RABIN_DEDUPE_FIXED
| RABIN_DEDUPE_FILE_GLOBAL.

(** [dedupe_flag] as [start_compress] sets it beside the header flags. *)
Definition start_compress_dedupe_flag (G : globals) : dedupe_kind :=
  if enable_rabin_scan G || enable_fixed_scan G || enable_rabin_global G then
    if enable_rabin_global G then RABIN_DEDUPE_FILE_GLOBAL
    else if enable_rabin_scan G then RABIN_DEDUPE_SEGMENTED
    else RABIN_DEDUPE_FIXED
  else RABIN_DEDUPE_SEGMENTED.

Record dedupe_mode := {
  dm_rabin_scan : bool;
  dm_fixed_scan : bool;
  dm_rabin_global : bool;
  dm_flag : dedupe_kind
}.

Inductive dedupe_err :=
| GlobalDedupInPipeMode
| InvalidDedupFlags.

Section HeaderDedupe.

Variables FLAG_DEDUP FLAG_DEDUP_FIXED : Z.

(** The block of [start_decompress] that reads the dedup flags of the
    header into [enable_rabin_scan], [enable_fixed_scan],
    [enable_rabin_global] and [dedupe_flag]; [G] holds the three settings
    as [main] left them. *)
Definition start_decompress_dedupe (G : globals) (version flags : Z)
    (pipe_mode : bool) : dedupe_err + dedupe_mode :=
  if negb (Z.land flags FLAG_DEDUP =? 0) then
    if negb (Z.land flags FLAG_DEDUP_FIXED =? 0) then
      if 7 <? version then
        if pipe_mode then inl GlobalDedupInPipeMode
        else inr {| dm_rabin_scan := true; dm_fixed_scan := enable_fixed_scan G;
                    dm_rabin_global := true;
                    dm_flag := RABIN_DEDUPE_FILE_GLOBAL |}
      else inl InvalidDedupFlags
    else inr {| dm_rabin_scan := true; dm_fixed_scan := enable_fixed_scan G;
                dm_rabin_global := enable_rabin_global G;
                dm_flag := RABIN_DEDUPE_SEGMENTED |}
  else if negb (Z.land flags FLAG_DEDUP_FIXED =? 0) then
    inr {| dm_rabin_scan := enable_rabin_scan G; dm_fixed_scan := true;
           dm_rabin_global := enable_rabin_global G;
           dm_flag := RABIN_DEDUPE_FIXED |}
  else
    inr {| dm_rabin_scan := enable_rabin_scan G;
           dm_fixed_scan := enable_fixed_scan G;
           dm_rabin_global := enable_rabin_global G;
           dm_flag := RABIN_DEDUPE_SEGMENTED |}.

End HeaderDedupe.

(** What the pipeline asks of a back end: the bytes [cmp] reports for a
    call that did not fail are there, and [dec] gives the source back from
    them when [*dstlen] has room for it and the chunk header byte it is
    given carries in bits 4 to 6 what [perform_compress] puts there: the
    value [cmp] returned in adaptive mode, where the decoder picks its
    algorithm by these bits, and 0 otherwise. *)
Definition backend_inverts (adapt : bool) (cmp dec : compress_func_ptr) : Prop :=
  forall (src : buf) (level chdr chdr' dl : Z),
    let r := cmp src (Z.of_nat (length src)) level chdr in
    -1 < c_rv r -> Z.of_nat (length src) <= dl ->
    Z.land (Z.shiftr chdr' 4) 7 = (if adapt then c_rv r else 0) ->
    0 <= c_dstlen r /\ (Z.to_nat (c_dstlen r) <= length (c_out r))%nat /\
    let r' := dec (take (Z.to_nat (c_dstlen r)) (c_out r)) dl level chdr' in
    0 <= c_rv r' /\ c_dstlen r' = Z.of_nat (length src) /\
    take (length src) (c_out r') = src.

(** ** The chunks of a compressed file, one after the other *)

(** How the reader loop of [start_decompress] ends: the zero length was
    read and every chunk was written, a read fell short, a length was
    "ridiculous", or a worker gave up on its chunk. *)
Inductive stream_res :=
| StreamDone (out : list buf) (rest : buf)
| StreamIncomplete
| StreamTooBig
| StreamChunkError (chunk_num : nat) (e : dec_error)
| StreamFuel.

(** The reader loop of [start_decompress] with the worker and the writer
    taken in the order the semaphores impose: chunk [chunk_num] is read
    into [dary[chunk_num % nprocs]], which still holds what the chunk
    [nprocs] places earlier left there, [perform_decompress] runs on it and
    [writer_thread] writes [len_cmp] bytes of its [uncompressed_chunk].
    One unit of [fuel] per chunk. *)
Fixpoint start_decompress_loop (G : globals) (X : externals) (chunksize_ : Z)
    (fuel : nat) (dary : list cmp_data) (chunk_num : nat) (file : buf)
    (out : list buf) : stream_res :=
  match fuel with
  | O => StreamFuel
  | S fuel =>
      let p := (chunk_num mod length dary)%nat in
      match dary !! p with
      | None => StreamFuel
      | Some tdat =>
          match read_chunk G tdat chunksize_ (Z.of_nat chunk_num) file with
          | ReadIncomplete => StreamIncomplete
          | ReadTooBig => StreamTooBig
          | ReadEnd => StreamDone out (drop 8 file)
          | ReadChunk td rest =>
              match perform_decompress G X td with
              | inl e => StreamChunkError chunk_num e
              | inr td' =>
                  start_decompress_loop G X chunksize_ fuel (<[p := td']> dary)
                    (S chunk_num) rest (out ++ [written_plain td'])
              end
          end
      end
  end.

(** What [writer_thread] has written when [start_compress] is through with
    the chunks [tdats], in their order, and the "trailer of zero chunk
    length" after them; [None] when [perform_compress] gave up on a
    chunk. *)
Fixpoint compressed_stream (G : globals) (X : externals) (tdats : list cmp_data)
    : option buf :=
  match tdats with
  | [] => Some (be_bytes 8 0)
  | tdat :: tdats =>
      match perform_compress G X tdat with
      | None => None
      | Some (_, t') =>
          match compressed_stream G X tdats with
          | None => None
          | Some body => Some (written t' ++ body)
          end
      end
  end.

(** The bytes of the chunk the producer gave a worker (no dedup). *)
Definition chunk_bytes (tdat : cmp_data) : buf :=
  sub (uncompressed_chunk tdat) 0 (Z.to_nat (rbytes tdat)).

(** A worker of the decompressing side as [start_decompress] sets it up,
    and as every chunk leaves it. *)
Definition slot_ok (chunksize_ level_ mt : Z) (dec : compress_func_ptr)
    (s : cmp_data) : Prop :=
  chunksize s = chunksize_ /\ cksum_mt s = mt /\ level s = level_ /\
  decompress s = dec.

(** A worker of the compressing side holding a chunk, with a back end that
    [dec] inverts and that does not report an empty output. *)
Definition chunk_ok (G : globals) (chunksize_ level_ mt : Z)
    (dec : compress_func_ptr) (tdat : cmp_data) : Prop :=
  let r := compress tdat (chunk_bytes tdat) (rbytes tdat) (level tdat) 0 in
  backend_inverts (adapt_mode G) (compress tdat) dec /\
  0 < rbytes tdat <= chunksize_ /\ chunksize tdat = chunksize_ /\
  cksum_mt tdat = mt /\ level tdat = level_ /\
  (adapt_mode G = true -> c_rv r < 8) /\ (0 <= c_rv r -> 0 < c_dstlen r).

(** ** The options and the checks of main *)

Module Main.

(** What [main] takes from outside [main.c]: constants of [pcompress.h],
    [atoi], [parse_numeric] (its result code and the value it leaves in
    [chunksize]), [get_crypto_alg], [get_checksum_props] (its result code
    and the values it leaves in [cksum], [cksum_bytes] and [mac_bytes]),
    [get_total_ram] and [realpath] ([None] is [NULL]). *)
Record env := {
  MIN_CHUNK : Z;
  DELTA_NORMAL : Z;
  DELTA_EXTRA : Z;
  DEFAULT_KEYLEN : Z;
  MAX_KEYLEN : Z;
  DEFAULT_CKSUM : buf;
  COMP_EXTN : buf;
  MAXPATHLEN : nat;
  get_total_ram : Z;
  atoi : buf -> Z;
  parse_numeric : Z -> buf -> Z * Z;
  get_crypto_alg : buf -> Z;
  get_checksum_props : buf -> Z -> nat -> nat -> Z * (Z * nat * nat);
  realpath : buf -> option buf
}.

Definition DEFAULT_CHUNKSIZE : Z := 5 * 1024 * 1024.

(** The file-scope variables [main] sets, and its locals [chunksize] and
    [level].  [funcs] is the row of [init_algo] the callback pointers come
    from. *)
Record vars := {
  adapt_mode : bool;
  pipe_mode : bool;
  nthreads : Z;
  hide_mem_stats : bool;
  hide_cmp_stats : bool;
  enable_rabin_scan : bool;
  enable_rabin_global : bool;
  enable_delta_encode : Z;
  enable_delta2_encode : bool;
  enable_rabin_split : bool;
  enable_fixed_scan : bool;
  lzp_preprocess : bool;
  encrypt_type : Z;
  algo : option buf;
  funcs : option String.string;
  do_compress : bool;
  do_uncompress : bool;
  cksum_bytes : nat;
  mac_bytes : nat;
  cksum : Z;
  rab_blk_size : Z;
  keylen : Z;
  pwd_file : option buf;
  chunksize : Z;
  level : Z
}.

(** The initialisers of the file-scope variables and the first lines of
    [main]. *)
Definition main_init (E : env) : vars :=
  {| adapt_mode := false; pipe_mode := false; nthreads := 0;
     hide_mem_stats := true; hide_cmp_stats := true;
     enable_rabin_scan := false; enable_rabin_global := false;
     enable_delta_encode := 0; enable_delta2_encode := false;
     enable_rabin_split := true; enable_fixed_scan := false;
     lzp_preprocess := false; encrypt_type := 0; algo := None; funcs := None;
     do_compress := false; do_uncompress := false;
     cksum_bytes := 0; mac_bytes := 0; cksum := 0; rab_blk_size := 0;
     keylen := DEFAULT_KEYLEN E; pwd_file := None;
     chunksize := DEFAULT_CHUNKSIZE; level := 6 |}.

(** The ways [main] ends before [start_compress] or [start_decompress]. *)
Inductive main_exit :=
| InvalidAlgorithm
| ChunkSizeTooLarge
| InvalidNumber
| MinimumChunkSize
| ChunkSizeExceedsRam
| LevelOutOfRange
| DedupeBlockSizeOutOfRange
| ThreadCountOutOfRange
| InvalidEncryptionAlgorithm
| KeyLengthInvalid
| InvalidChecksumType
| Usage
| FilenamesUnexpectedForPipeMode
| DedupOnlyDuringCompression
| DedupeMutuallyExclusive
| EncryptionOnlyWhenCompressing
| PipeModeRequiresPasswordFile
| GlobalDedupNotInPipeMode
| GlobalDedupNoDelta
| NoSuchFile
| PathOverflow
| CompressedFileExists
| FileExists
| TooManyFilenames.

(** Assignments to one variable. *)
Definition set_adapt_mode (x : bool) (v : vars) : vars :=
  {| adapt_mode := x; pipe_mode := pipe_mode v; nthreads := nthreads v;
     hide_mem_stats := hide_mem_stats v; hide_cmp_stats := hide_cmp_stats v;
     enable_rabin_scan := enable_rabin_scan v;
     enable_rabin_global := enable_rabin_global v;
     enable_delta_encode := enable_delta_encode v;
     enable_delta2_encode := enable_delta2_encode v;
     enable_rabin_split := enable_rabin_split v;
     enable_fixed_scan := enable_fixed_scan v;
     lzp_preprocess := lzp_preprocess v; encrypt_type := encrypt_type v;
     algo := algo v; funcs := funcs v; do_compress := do_compress v;
     do_uncompress := do_uncompress v; cksum_bytes := cksum_bytes v;
     mac_bytes := mac_bytes v; cksum := cksum v;
     rab_blk_size := rab_blk_size v; keylen := keylen v;
     pwd_file := pwd_file v; chunksize := chunksize v; level := level v |}.

Definition set_pipe_mode (x : bool) (v : vars) : vars :=
  {| adapt_mode := adapt_mode v; pipe_mode := x; nthreads := nthreads v;
     hide_mem_stats := hide_mem_stats v; hide_cmp_stats := hide_cmp_stats v;
     enable_rabin_scan := enable_rabin_scan v;
     enable_rabin_global := enable_rabin_global v;
     enable_delta_encode := enable_delta_encode v;
     enable_delta2_encode := enable_delta2_encode v;
     enable_rabin_split := enable_rabin_split v;
     enable_fixed_scan := enable_fixed_scan v;
     lzp_preprocess := lzp_preprocess v; encrypt_type := encrypt_type v;
     algo := algo v; funcs := funcs v; do_compress := do_compress v;
     do_uncompress := do_uncompress v; cksum_bytes := cksum_bytes v;
     mac_bytes := mac_bytes v; cksum := cksum v;
     rab_blk_size := rab_blk_size v; keylen := keylen v;
     pwd_file := pwd_file v; chunksize := chunksize v; level := level v |}.

Definition set_nthreads (x : Z) (v : vars) : vars :=
  {| adapt_mode := adapt_mode v; pipe_mode := pipe_mode v; nthreads := x;
     hide_mem_stats := hide_mem_stats v; hide_cmp_stats := hide_cmp_stats v;
     enable_rabin_scan := enable_rabin_scan v;
     enable_rabin_global := enable_rabin_global v;
     enable_delta_encode := enable_delta_encode v;
     enable_delta2_encode := enable_delta2_encode v;
     enable_rabin_split := enable_rabin_split v;
     enable_fixed_scan := enable_fixed_scan v;
     lzp_preprocess := lzp_preprocess v; encrypt_type := encrypt_type v;
     algo := algo v; funcs := funcs v; do_compress := do_compress v;
     do_uncompress := do_uncompress v; cksum_bytes := cksum_bytes v;
     mac_bytes := mac_bytes v; cksum := cksum v;
     rab_blk_size := rab_blk_size v; keylen := keylen v;
     pwd_file := pwd_file v; chunksize := chunksize v; level := level v |}.

Definition set_hide_mem_stats (x : bool) (v : vars) : vars :=
  {| adapt_mode := adapt_mode v; pipe_mode := pipe_mode v;
     nthreads := nthreads v; hide_mem_stats := x;
     hide_cmp_stats := hide_cmp_stats v;
     enable_rabin_scan := enable_rabin_scan v;
     enable_rabin_global := enable_rabin_global v;
     enable_delta_encode := enable_delta_encode v;
     enable_delta2_encode := enable_delta2_encode v;
     enable_rabin_split := enable_rabin_split v;
     enable_fixed_scan := enable_fixed_scan v;
     lzp_preprocess := lzp_preprocess v; encrypt_type := encrypt_type v;
     algo := algo v; funcs := funcs v; do_compress := do_compress v;
     do_uncompress := do_uncompress v; cksum_bytes := cksum_bytes v;
     mac_bytes := mac_bytes v; cksum := cksum v;
     rab_blk_size := rab_blk_size v; keylen := keylen v;
     pwd_file := pwd_file v; chunksize := chunksize v; level := level v |}.

Definition set_hide_cmp_stats (x : bool) (v : vars) : vars :=
  {| adapt_mode := adapt_mode v; pipe_mode := pipe_mode v;
     nthreads := nthreads v; hide_mem_stats := hide_mem_stats v;
     hide_cmp_stats := x; enable_rabin_scan := enable_rabin_scan v;
     enable_rabin_global := enable_rabin_global v;
     enable_delta_encode := enable_delta_encode v;
     enable_delta2_encode := enable_delta2_encode v;
     enable_rabin_split := enable_rabin_split v;
     enable_fixed_scan := enable_fixed_scan v;
     lzp_preprocess := lzp_preprocess v; encrypt_type := encrypt_type v;
     algo := algo v; funcs := funcs v; do_compress := do_compress v;
     do_uncompress := do_uncompress v; cksum_bytes := cksum_bytes v;
     mac_bytes := mac_bytes v; cksum := cksum v;
     rab_blk_size := rab_blk_size v; keylen := keylen v;
     pwd_file := pwd_file v; chunksize := chunksize v; level := level v |}.

Definition set_enable_rabin_scan (x : bool) (v : vars) : vars :=
  {| adapt_mode := adapt_mode v; pipe_mode := pipe_mode v;
     nthreads := nthreads v; hide_mem_stats := hide_mem_stats v;
     hide_cmp_stats := hide_cmp_stats v; enable_rabin_scan := x;
     enable_rabin_global := enable_rabin_global v;
     enable_delta_encode := enable_delta_encode v;
     enable_delta2_encode := enable_delta2_encode v;
     enable_rabin_split := enable_rabin_split v;
     enable_fixed_scan := enable_fixed_scan v;
     lzp_preprocess := lzp_preprocess v; encrypt_type := encrypt_type v;
     algo := algo v; funcs := funcs v; do_compress := do_compress v;
     do_uncompress := do_uncompress v; cksum_bytes := cksum_bytes v;
     mac_bytes := mac_bytes v; cksum := cksum v;
     rab_blk_size := rab_blk_size v; keylen := keylen v;
     pwd_file := pwd_file v; chunksize := chunksize v; level := level v |}.

Definition set_enable_rabin_global (x : bool) (v : vars) : vars :=
  {| adapt_mode := adapt_mode v; pipe_mode := pipe_mode v;
     nthreads := nthreads v; hide_mem_stats := hide_mem_stats v;
     hide_cmp_stats := hide_cmp_stats v;
     enable_rabin_scan := enable_rabin_scan v; enable_rabin_global := x;
     enable_delta_encode := enable_delta_encode v;
     enable_delta2_encode := enable_delta2_encode v;
     enable_rabin_split := enable_rabin_split v;
     enable_fixed_scan := enable_fixed_scan v;
     lzp_preprocess := lzp_preprocess v; encrypt_type := encrypt_type v;
     algo := algo v; funcs := funcs v; do_compress := do_compress v;
     do_uncompress := do_uncompress v; cksum_bytes := cksum_bytes v;
     mac_bytes := mac_bytes v; cksum := cksum v;
     rab_blk_size := rab_blk_size v; keylen := keylen v;
     pwd_file := pwd_file v; chunksize := chunksize v; level := level v |}.

Definition set_enable_delta_encode (x : Z) (v : vars) : vars :=
  {| adapt_mode := adapt_mode v; pipe_mode := pipe_mode v;
     nthreads := nthreads v; hide_mem_stats := hide_mem_stats v;
     hide_cmp_stats := hide_cmp_stats v;
     enable_rabin_scan := enable_rabin_scan v;
     enable_rabin_global := enable_rabin_global v; enable_delta_encode := x;
     enable_delta2_encode := enable_delta2_encode v;
     enable_rabin_split := enable_rabin_split v;
     enable_fixed_scan := enable_fixed_scan v;
     lzp_preprocess := lzp_preprocess v; encrypt_type := encrypt_type v;
     algo := algo v; funcs := funcs v; do_compress := do_compress v;
     do_uncompress := do_uncompress v; cksum_bytes := cksum_bytes v;
     mac_bytes := mac_bytes v; cksum := cksum v;
     rab_blk_size := rab_blk_size v; keylen := keylen v;
     pwd_file := pwd_file v; chunksize := chunksize v; level := level v |}.

Definition set_enable_delta2_encode (x : bool) (v : vars) : vars :=
  {| adapt_mode := adapt_mode v; pipe_mode := pipe_mode v;
     nthreads := nthreads v; hide_mem_stats := hide_mem_stats v;
     hide_cmp_stats := hide_cmp_stats v;
     enable_rabin_scan := enable_rabin_scan v;
     enable_rabin_global := enable_rabin_global v;
     enable_delta_encode := enable_delta_encode v; enable_delta2_encode := x;
     enable_rabin_split := enable_rabin_split v;
     enable_fixed_scan := enable_fixed_scan v;
     lzp_preprocess := lzp_preprocess v; encrypt_type := encrypt_type v;
     algo := algo v; funcs := funcs v; do_compress := do_compress v;
     do_uncompress := do_uncompress v; cksum_bytes := cksum_bytes v;
     mac_bytes := mac_bytes v; cksum := cksum v;
     rab_blk_size := rab_blk_size v; keylen := keylen v;
     pwd_file := pwd_file v; chunksize := chunksize v; level := level v |}.

Definition set_enable_rabin_split (x : bool) (v : vars) : vars :=
  {| adapt_mode := adapt_mode v; pipe_mode := pipe_mode v;
     nthreads := nthreads v; hide_mem_stats := hide_mem_stats v;
     hide_cmp_stats := hide_cmp_stats v;
     enable_rabin_scan := enable_rabin_scan v;
     enable_rabin_global := enable_rabin_global v;
     enable_delta_encode := enable_delta_encode v;
     enable_delta2_encode := enable_delta2_encode v; enable_rabin_split := x;
     enable_fixed_scan := enable_fixed_scan v;
     lzp_preprocess := lzp_preprocess v; encrypt_type := encrypt_type v;
     algo := algo v; funcs := funcs v; do_compress := do_compress v;
     do_uncompress := do_uncompress v; cksum_bytes := cksum_bytes v;
     mac_bytes := mac_bytes v; cksum := cksum v;
     rab_blk_size := rab_blk_size v; keylen := keylen v;
     pwd_file := pwd_file v; chunksize := chunksize v; level := level v |}.

Definition set_enable_fixed_scan (x : bool) (v : vars) : vars :=
  {| adapt_mode := adapt_mode v; pipe_mode := pipe_mode v;
     nthreads := nthreads v; hide_mem_stats := hide_mem_stats v;
     hide_cmp_stats := hide_cmp_stats v;
     enable_rabin_scan := enable_rabin_scan v;
     enable_rabin_global := enable_rabin_global v;
     enable_delta_encode := enable_delta_encode v;
     enable_delta2_encode := enable_delta2_encode v;
     enable_rabin_split := enable_rabin_split v; enable_fixed_scan := x;
     lzp_preprocess := lzp_preprocess v; encrypt_type := encrypt_type v;
     algo := algo v; funcs := funcs v; do_compress := do_compress v;
     do_uncompress := do_uncompress v; cksum_bytes := cksum_bytes v;
     mac_bytes := mac_bytes v; cksum := cksum v;
     rab_blk_size := rab_blk_size v; keylen := keylen v;
     pwd_file := pwd_file v; chunksize := chunksize v; level := level v |}.

Definition set_lzp_preprocess (x : bool) (v : vars) : vars :=
  {| adapt_mode := adapt_mode v; pipe_mode := pipe_mode v;
     nthreads := nthreads v; hide_mem_stats := hide_mem_stats v;
     hide_cmp_stats := hide_cmp_stats v;
     enable_rabin_scan := enable_rabin_scan v;
     enable_rabin_global := enable_rabin_global v;
     enable_delta_encode := enable_delta_encode v;
     enable_delta2_encode := enable_delta2_encode v;
     enable_rabin_split := enable_rabin_split v;
     enable_fixed_scan := enable_fixed_scan v; lzp_preprocess := x;
     encrypt_type := encrypt_type v; algo := algo v; funcs := funcs v;
     do_compress := do_compress v; do_uncompress := do_uncompress v;
     cksum_bytes := cksum_bytes v; mac_bytes := mac_bytes v;
     cksum := cksum v; rab_blk_size := rab_blk_size v; keylen := keylen v;
     pwd_file := pwd_file v; chunksize := chunksize v; level := level v |}.

Definition set_encrypt_type (x : Z) (v : vars) : vars :=
  {| adapt_mode := adapt_mode v; pipe_mode := pipe_mode v;
     nthreads := nthreads v; hide_mem_stats := hide_mem_stats v;
     hide_cmp_stats := hide_cmp_stats v;
     enable_rabin_scan := enable_rabin_scan v;
     enable_rabin_global := enable_rabin_global v;
     enable_delta_encode := enable_delta_encode v;
     enable_delta2_encode := enable_delta2_encode v;
     enable_rabin_split := enable_rabin_split v;
     enable_fixed_scan := enable_fixed_scan v;
     lzp_preprocess := lzp_preprocess v; encrypt_type := x; algo := algo v;
     funcs := funcs v; do_compress := do_compress v;
     do_uncompress := do_uncompress v; cksum_bytes := cksum_bytes v;
     mac_bytes := mac_bytes v; cksum := cksum v;
     rab_blk_size := rab_blk_size v; keylen := keylen v;
     pwd_file := pwd_file v; chunksize := chunksize v; level := level v |}.

Definition set_algo (x : option buf) (v : vars) : vars :=
  {| adapt_mode := adapt_mode v; pipe_mode := pipe_mode v;
     nthreads := nthreads v; hide_mem_stats := hide_mem_stats v;
     hide_cmp_stats := hide_cmp_stats v;
     enable_rabin_scan := enable_rabin_scan v;
     enable_rabin_global := enable_rabin_global v;
     enable_delta_encode := enable_delta_encode v;
     enable_delta2_encode := enable_delta2_encode v;
     enable_rabin_split := enable_rabin_split v;
     enable_fixed_scan := enable_fixed_scan v;
     lzp_preprocess := lzp_preprocess v; encrypt_type := encrypt_type v;
     algo := x; funcs := funcs v; do_compress := do_compress v;
     do_uncompress := do_uncompress v; cksum_bytes := cksum_bytes v;
     mac_bytes := mac_bytes v; cksum := cksum v;
     rab_blk_size := rab_blk_size v; keylen := keylen v;
     pwd_file := pwd_file v; chunksize := chunksize v; level := level v |}.

Definition set_funcs (x : option String.string) (v : vars) : vars :=
  {| adapt_mode := adapt_mode v; pipe_mode := pipe_mode v;
     nthreads := nthreads v; hide_mem_stats := hide_mem_stats v;
     hide_cmp_stats := hide_cmp_stats v;
     enable_rabin_scan := enable_rabin_scan v;
     enable_rabin_global := enable_rabin_global v;
     enable_delta_encode := enable_delta_encode v;
     enable_delta2_encode := enable_delta2_encode v;
     enable_rabin_split := enable_rabin_split v;
     enable_fixed_scan := enable_fixed_scan v;
     lzp_preprocess := lzp_preprocess v; encrypt_type := encrypt_type v;
     algo := algo v; funcs := x; do_compress := do_compress v;
     do_uncompress := do_uncompress v; cksum_bytes := cksum_bytes v;
     mac_bytes := mac_bytes v; cksum := cksum v;
     rab_blk_size := rab_blk_size v; keylen := keylen v;
     pwd_file := pwd_file v; chunksize := chunksize v; level := level v |}.

Definition set_do_compress (x : bool) (v : vars) : vars :=
  {| adapt_mode := adapt_mode v; pipe_mode := pipe_mode v;
     nthreads := nthreads v; hide_mem_stats := hide_mem_stats v;
     hide_cmp_stats := hide_cmp_stats v;
     enable_rabin_scan := enable_rabin_scan v;
     enable_rabin_global := enable_rabin_global v;
     enable_delta_encode := enable_delta_encode v;
     enable_delta2_encode := enable_delta2_encode v;
     enable_rabin_split := enable_rabin_split v;
     enable_fixed_scan := enable_fixed_scan v;
     lzp_preprocess := lzp_preprocess v; encrypt_type := encrypt_type v;
     algo := algo v; funcs := funcs v; do_compress := x;
     do_uncompress := do_uncompress v; cksum_bytes := cksum_bytes v;
     mac_bytes := mac_bytes v; cksum := cksum v;
     rab_blk_size := rab_blk_size v; keylen := keylen v;
     pwd_file := pwd_file v; chunksize := chunksize v; level := level v |}.

Definition set_do_uncompress (x : bool) (v : vars) : vars :=
  {| adapt_mode := adapt_mode v; pipe_mode := pipe_mode v;
     nthreads := nthreads v; hide_mem_stats := hide_mem_stats v;
     hide_cmp_stats := hide_cmp_stats v;
     enable_rabin_scan := enable_rabin_scan v;
     enable_rabin_global := enable_rabin_global v;
     enable_delta_encode := enable_delta_encode v;
     enable_delta2_encode := enable_delta2_encode v;
     enable_rabin_split := enable_rabin_split v;
     enable_fixed_scan := enable_fixed_scan v;
     lzp_preprocess := lzp_preprocess v; encrypt_type := encrypt_type v;
     algo := algo v; funcs := funcs v; do_compress := do_compress v;
     do_uncompress := x; cksum_bytes := cksum_bytes v;
     mac_bytes := mac_bytes v; cksum := cksum v;
     rab_blk_size := rab_blk_size v; keylen := keylen v;
     pwd_file := pwd_file v; chunksize := chunksize v; level := level v |}.

Definition set_cksum_bytes (x : nat) (v : vars) : vars :=
  {| adapt_mode := adapt_mode v; pipe_mode := pipe_mode v;
     nthreads := nthreads v; hide_mem_stats := hide_mem_stats v;
     hide_cmp_stats := hide_cmp_stats v;
     enable_rabin_scan := enable_rabin_scan v;
     enable_rabin_global := enable_rabin_global v;
     enable_delta_encode := enable_delta_encode v;
     enable_delta2_encode := enable_delta2_encode v;
     enable_rabin_split := enable_rabin_split v;
     enable_fixed_scan := enable_fixed_scan v;
     lzp_preprocess := lzp_preprocess v; encrypt_type := encrypt_type v;
     algo := algo v; funcs := funcs v; do_compress := do_compress v;
     do_uncompress := do_uncompress v; cksum_bytes := x;
     mac_bytes := mac_bytes v; cksum := cksum v;
     rab_blk_size := rab_blk_size v; keylen := keylen v;
     pwd_file := pwd_file v; chunksize := chunksize v; level := level v |}.

Definition set_mac_bytes (x : nat) (v : vars) : vars :=
  {| adapt_mode := adapt_mode v; pipe_mode := pipe_mode v;
     nthreads := nthreads v; hide_mem_stats := hide_mem_stats v;
     hide_cmp_stats := hide_cmp_stats v;
     enable_rabin_scan := enable_rabin_scan v;
     enable_rabin_global := enable_rabin_global v;
     enable_delta_encode := enable_delta_encode v;
     enable_delta2_encode := enable_delta2_encode v;
     enable_rabin_split := enable_rabin_split v;
     enable_fixed_scan := enable_fixed_scan v;
     lzp_preprocess := lzp_preprocess v; encrypt_type := encrypt_type v;
     algo := algo v; funcs := funcs v; do_compress := do_compress v;
     do_uncompress := do_uncompress v; cksum_bytes := cksum_bytes v;
     mac_bytes := x; cksum := cksum v; rab_blk_size := rab_blk_size v;
     keylen := keylen v; pwd_file := pwd_file v; chunksize := chunksize v;
     level := level v |}.

Definition set_cksum (x : Z) (v : vars) : vars :=
  {| adapt_mode := adapt_mode v; pipe_mode := pipe_mode v;
     nthreads := nthreads v; hide_mem_stats := hide_mem_stats v;
     hide_cmp_stats := hide_cmp_stats v;
     enable_rabin_scan := enable_rabin_scan v;
     enable_rabin_global := enable_rabin_global v;
     enable_delta_encode := enable_delta_encode v;
     enable_delta2_encode := enable_delta2_encode v;
     enable_rabin_split := enable_rabin_split v;
     enable_fixed_scan := enable_fixed_scan v;
     lzp_preprocess := lzp_preprocess v; encrypt_type := encrypt_type v;
     algo := algo v; funcs := funcs v; do_compress := do_compress v;
     do_uncompress := do_uncompress v; cksum_bytes := cksum_bytes v;
     mac_bytes := mac_bytes v; cksum := x; rab_blk_size := rab_blk_size v;
     keylen := keylen v; pwd_file := pwd_file v; chunksize := chunksize v;
     level := level v |}.

Definition set_rab_blk_size (x : Z) (v : vars) : vars :=
  {| adapt_mode := adapt_mode v; pipe_mode := pipe_mode v;
     nthreads := nthreads v; hide_mem_stats := hide_mem_stats v;
     hide_cmp_stats := hide_cmp_stats v;
     enable_rabin_scan := enable_rabin_scan v;
     enable_rabin_global := enable_rabin_global v;
     enable_delta_encode := enable_delta_encode v;
     enable_delta2_encode := enable_delta2_encode v;
     enable_rabin_split := enable_rabin_split v;
     enable_fixed_scan := enable_fixed_scan v;
     lzp_preprocess := lzp_preprocess v; encrypt_type := encrypt_type v;
     algo := algo v; funcs := funcs v; do_compress := do_compress v;
     do_uncompress := do_uncompress v; cksum_bytes := cksum_bytes v;
     mac_bytes := mac_bytes v; cksum := cksum v; rab_blk_size := x;
     keylen := keylen v; pwd_file := pwd_file v; chunksize := chunksize v;
     level := level v |}.

Definition set_keylen (x : Z) (v : vars) : vars :=
  {| adapt_mode := adapt_mode v; pipe_mode := pipe_mode v;
     nthreads := nthreads v; hide_mem_stats := hide_mem_stats v;
     hide_cmp_stats := hide_cmp_stats v;
     enable_rabin_scan := enable_rabin_scan v;
     enable_rabin_global := enable_rabin_global v;
     enable_delta_encode := enable_delta_encode v;
     enable_delta2_encode := enable_delta2_encode v;
     enable_rabin_split := enable_rabin_split v;
     enable_fixed_scan := enable_fixed_scan v;
     lzp_preprocess := lzp_preprocess v; encrypt_type := encrypt_type v;
     algo := algo v; funcs := funcs v; do_compress := do_compress v;
     do_uncompress := do_uncompress v; cksum_bytes := cksum_bytes v;
     mac_bytes := mac_bytes v; cksum := cksum v;
     rab_blk_size := rab_blk_size v; keylen := x; pwd_file := pwd_file v;
     chunksize := chunksize v; level := level v |}.

Definition set_pwd_file (x : option buf) (v : vars) : vars :=
  {| adapt_mode := adapt_mode v; pipe_mode := pipe_mode v;
     nthreads := nthreads v; hide_mem_stats := hide_mem_stats v;
     hide_cmp_stats := hide_cmp_stats v;
     enable_rabin_scan := enable_rabin_scan v;
     enable_rabin_global := enable_rabin_global v;
     enable_delta_encode := enable_delta_encode v;
     enable_delta2_encode := enable_delta2_encode v;
     enable_rabin_split := enable_rabin_split v;
     enable_fixed_scan := enable_fixed_scan v;
     lzp_preprocess := lzp_preprocess v; encrypt_type := encrypt_type v;
     algo := algo v; funcs := funcs v; do_compress := do_compress v;
     do_uncompress := do_uncompress v; cksum_bytes := cksum_bytes v;
     mac_bytes := mac_bytes v; cksum := cksum v;
     rab_blk_size := rab_blk_size v; keylen := keylen v; pwd_file := x;
     chunksize := chunksize v; level := level v |}.

Definition set_chunksize (x : Z) (v : vars) : vars :=
  {| adapt_mode := adapt_mode v; pipe_mode := pipe_mode v;
     nthreads := nthreads v; hide_mem_stats := hide_mem_stats v;
     hide_cmp_stats := hide_cmp_stats v;
     enable_rabin_scan := enable_rabin_scan v;
     enable_rabin_global := enable_rabin_global v;
     enable_delta_encode := enable_delta_encode v;
     enable_delta2_encode := enable_delta2_encode v;
     enable_rabin_split := enable_rabin_split v;
     enable_fixed_scan := enable_fixed_scan v;
     lzp_preprocess := lzp_preprocess v; encrypt_type := encrypt_type v;
     algo := algo v; funcs := funcs v; do_compress := do_compress v;
     do_uncompress := do_uncompress v; cksum_bytes := cksum_bytes v;
     mac_bytes := mac_bytes v; cksum := cksum v;
     rab_blk_size := rab_blk_size v; keylen := keylen v;
     pwd_file := pwd_file v; chunksize := x; level := level v |}.

Definition set_level (x : Z) (v : vars) : vars :=
  {| adapt_mode := adapt_mode v; pipe_mode := pipe_mode v;
     nthreads := nthreads v; hide_mem_stats := hide_mem_stats v;
     hide_cmp_stats := hide_cmp_stats v;
     enable_rabin_scan := enable_rabin_scan v;
     enable_rabin_global := enable_rabin_global v;
     enable_delta_encode := enable_delta_encode v;
     enable_delta2_encode := enable_delta2_encode v;
     enable_rabin_split := enable_rabin_split v;
     enable_fixed_scan := enable_fixed_scan v;
     lzp_preprocess := lzp_preprocess v; encrypt_type := encrypt_type v;
     algo := algo v; funcs := funcs v; do_compress := do_compress v;
     do_uncompress := do_uncompress v; cksum_bytes := cksum_bytes v;
     mac_bytes := mac_bytes v; cksum := cksum v;
     rab_blk_size := rab_blk_size v; keylen := keylen v;
     pwd_file := pwd_file v; chunksize := chunksize v; level := x |}.

(** One pass of the [getopt] loop: the [switch] on the option character. *)
Definition main_option (E : env) (v : vars) (opt : Ascii.ascii) (optarg : buf)
    : main_exit + vars :=
  match opt with
  | "d"%char => inr (set_do_uncompress true v)
  | "c"%char =>
      let v := set_algo (Some optarg) (set_do_compress true v) in
      match init_algo optarg with
      | None => inl InvalidAlgorithm
      | Some (name, adapt) =>
          inr (set_funcs (Some name) (set_adapt_mode (adapt_mode v || adapt) v))
      end
  | "s"%char =>
      let '(ovr, chunksize_) := parse_numeric E (chunksize v) optarg in
      if ovr =? 1 then inl ChunkSizeTooLarge
      else if ovr =? 2 then inl InvalidNumber
      else if chunksize_ <? MIN_CHUNK E then inl MinimumChunkSize
      else if EIGHTY_PCT (get_total_ram E) <? chunksize_
      then inl ChunkSizeExceedsRam
      else inr (set_chunksize chunksize_ v)
  | "l"%char =>
      let level_ := atoi E optarg in
      if (level_ <? 0) || (MAX_LEVEL <? level_) then inl LevelOutOfRange
      else inr (set_level level_ v)
  | "B"%char =>
      let rab_blk_size_ := atoi E optarg in
      if (rab_blk_size_ <? 1) || (5 <? rab_blk_size_)
      then inl DedupeBlockSizeOutOfRange
      else inr (set_rab_blk_size rab_blk_size_ v)
  | "p"%char => inr (set_pipe_mode true v)
  | "t"%char =>
      let nthreads_ := atoi E optarg in
      if (nthreads_ <? 1) || (256 <? nthreads_) then inl ThreadCountOutOfRange
      else inr (set_nthreads nthreads_ v)
  | "M"%char => inr (set_hide_mem_stats false v)
  | "C"%char => inr (set_hide_cmp_stats false v)
  | "D"%char => inr (set_enable_rabin_scan true v)
  | "G"%char => inr (set_enable_rabin_global true v)
  | "E"%char =>
      let v := set_enable_rabin_scan true v in
      if enable_delta_encode v =? 0
      then inr (set_enable_delta_encode (DELTA_NORMAL E) v)
      else inr (set_enable_delta_encode (DELTA_EXTRA E) v)
  | "e"%char =>
      let encrypt_type_ := get_crypto_alg E optarg in
      if encrypt_type_ =? 0 then inl InvalidEncryptionAlgorithm
      else inr (set_encrypt_type encrypt_type_ v)
  | "w"%char => inr (set_pwd_file (Some optarg) v)
  | "F"%char => inr (set_enable_rabin_split false (set_enable_fixed_scan true v))
  | "L"%char => inr (set_lzp_preprocess true v)
  | "P"%char => inr (set_enable_delta2_encode true v)
  | "r"%char => inr (set_enable_rabin_split false v)
  | "k"%char =>
      let keylen_ := atoi E optarg in
      if (negb (keylen_ =? 16) && negb (keylen_ =? 32)) || (MAX_KEYLEN E <? keylen_)
      then inl KeyLengthInvalid
      else inr (set_keylen keylen_ v)
  | "S"%char =>
      let '(rv, (cksum_, cksum_bytes_, mac_bytes_)) :=
        get_checksum_props E optarg (cksum v) (cksum_bytes v) (mac_bytes v) in
      if rv =? -1 then inl InvalidChecksumType
      else inr (set_mac_bytes mac_bytes_
                  (set_cksum_bytes cksum_bytes_ (set_cksum cksum_ v)))
  | _ => inl Usage
  end.

(** The [while] loop over [getopt]: the options in the order of the command
    line, each with its [optarg]. *)
Fixpoint main_options (E : env) (v : vars) (opts : list (Ascii.ascii * buf))
    : main_exit + vars :=
  match opts with
  | [] => inr v
  | (opt, optarg) :: opts =>
      match main_option E v opt optarg with
      | inl e => inl e
      | inr v => main_options E v opts
      end
  end.

(** What [main] calls in the end. *)
Inductive main_call :=
| StartCompress (filename : option buf) (chunksize level : Z)
| StartDecompress (filename to_filename : option buf)
| NoCall.

(** The checks between the [getopt] loop and "Remaining mandatory arguments
    are the filenames", up to "Global Deduplication does not support Delta
    Compression". *)
Definition main_modes (v : vars) (num_rem : nat) : main_exit + vars :=
  if (do_compress v && do_uncompress v)
     || (negb (do_compress v) && negb (do_uncompress v)) then inl Usage
  else if pipe_mode v && (0 <? num_rem)%nat then inl FilenamesUnexpectedForPipeMode
  else if (enable_rabin_scan v || enable_fixed_scan v) && negb (do_compress v)
  then inl DedupOnlyDuringCompression
  else
    let v := if negb (enable_rabin_scan v)
             then set_enable_rabin_split false v else v in
    if enable_fixed_scan v
       && (enable_rabin_scan v || negb (enable_delta_encode v =? 0)
           || enable_rabin_split v)
    then inl DedupeMutuallyExclusive
    else if negb (do_compress v) && negb (encrypt_type v =? 0)
    then inl EncryptionOnlyWhenCompressing
    else if pipe_mode v && negb (encrypt_type v =? 0)
            && negb (bool_decide (is_Some (pwd_file v)))
    then inl PipeModeRequiresPasswordFile
    else
      let v := if enable_rabin_global v && negb (enable_rabin_scan v)
                  && negb (enable_fixed_scan v)
               then set_enable_rabin_split true (set_enable_rabin_scan true v)
               else v in
      if enable_rabin_global v && pipe_mode v then inl GlobalDedupNotInPipeMode
      else if enable_rabin_global v && negb (enable_delta_encode v =? 0)
      then inl GlobalDedupNoDelta
      else inr v.

(** The file names: [filename] and [to_filename], or the exit.  [apath] has
    [MAXPATHLEN] bytes; a path that does not fit with its extension and the
    final NUL is [PathOverflow]. *)
Definition main_files (E : env) (v : vars) (args : list buf)
    : main_exit + (option buf * option buf) :=
  let num_rem := length args in
  if (num_rem =? 0)%nat && negb (pipe_mode v) then inl Usage
  else if (num_rem =? 1)%nat then
    if do_compress v then
      match realpath E (nth 0 args []) with
      | None => inl NoSuchFile
      | Some filename =>
          let apath := filename ++ COMP_EXTN E in
          if (MAXPATHLEN E <=? length apath)%nat then inl PathOverflow
          else
            match realpath E apath with
            | Some _ => inl CompressedFileExists
            | None => inr (Some filename, None)
            end
      end
    else inl Usage
  else if (num_rem =? 2)%nat then
    if do_uncompress v then
      match realpath E (nth 0 args []) with
      | None => inl NoSuchFile
      | Some filename =>
          match realpath E (nth 1 args []) with
          | Some _ => inl FileExists
          | None => inr (Some filename, Some (nth 1 args []))
          end
      end
    else inl Usage
  else if (2 <? num_rem)%nat then inl TooManyFilenames
  else inr (None, None).

(** The checksum sizes main leaves: the default checksum when [-S] was not
    given, then "CRC32 in non-crypto mode" or no digest when encrypting. *)
Definition main_cksum (E : env) (v : vars) : vars :=
  let v :=
    if cksum v =? 0 then
      let '(_, (cksum_, cksum_bytes_, mac_bytes_)) :=
        get_checksum_props E (DEFAULT_CKSUM E) (cksum v) (cksum_bytes v)
          (mac_bytes v) in
      set_mac_bytes mac_bytes_ (set_cksum_bytes cksum_bytes_ (set_cksum cksum_ v))
    else v in
  if encrypt_type v =? 0 then set_mac_bytes 4 v else set_cksum_bytes 0 v.

(** [main]: the options [opts] as [getopt] returns them and the arguments
    [args] left at [optind].  [inr] is the state in which [start_compress]
    or [start_decompress] is called, and the call. *)
Definition main (E : env) (opts : list (Ascii.ascii * buf)) (args : list buf)
    : main_exit + (vars * main_call) :=
  match main_options E (main_init E) opts with
  | inl e => inl e
  | inr v =>
      match main_modes v (length args) with
      | inl e => inl e
      | inr v =>
          match main_files E v args with
          | inl e => inl e
          | inr (filename, to_filename) =>
              let v := main_cksum E v in
              if do_compress v
              then inr (v, StartCompress filename (chunksize v) (level v))
              else if do_uncompress v
              then inr (v, StartDecompress filename to_filename)
              else inr (v, NoCall)
          end
      end
  end.

(** What the [getopt] loop keeps: a value is the initial one or passed the
    check of its option, and delta encoding was asked for with [-E] only. *)
Definition options_inv (E : env) (v : vars) : Prop :=
  0 <= level v <= MAX_LEVEL /\
  (nthreads v = 0 \/ 1 <= nthreads v <= 256) /\
  (chunksize v = DEFAULT_CHUNKSIZE
   \/ MIN_CHUNK E <= chunksize v <= EIGHTY_PCT (get_total_ram E)) /\
  (rab_blk_size v = 0 \/ 1 <= rab_blk_size v <= 5) /\
  (keylen v = DEFAULT_KEYLEN E \/ keylen v = 16 \/ keylen v = 32) /\
  (enable_delta_encode v <> 0 -> enable_rabin_scan v = true).

(** Whether the option [c] is on the command line. *)
Definition has_opt (c : Ascii.ascii) (opts : list (Ascii.ascii * buf)) : bool :=
  existsb (fun o => Ascii.eqb (fst o) c) opts.

(** The [adapt] column of the [-c] options of a command line. *)
Definition adapt_requested (opts : list (Ascii.ascii * buf)) : bool :=
  existsb (fun o => Ascii.eqb (fst o) "c"%char
                    && match init_algo (snd o) with
                       | Some (_, adapt) => adapt
                       | None => false
                       end) opts.

(** The row of [init_algo] for the last [-c] option of a command line. *)
Definition last_algo (opts : list (Ascii.ascii * buf)) : option String.string :=
  fold_left (fun acc o => if Ascii.eqb (fst o) "c"%char
                          then option_map fst (init_algo (snd o)) else acc)
            opts None.

(** Stand-ins for the collaborators of [main]: decimal [atoi], two
    encryption names, one existing file. *)
Definition toy_atoi (b : buf) : Z :=
  fold_left (fun acc c => acc * 10 + (c - 48)) b 0.

Definition toy_env : env :=
  {| MIN_CHUNK := 2048; DELTA_NORMAL := 1; DELTA_EXTRA := 2;
     DEFAULT_KEYLEN := 32; MAX_KEYLEN := 32;
     DEFAULT_CKSUM := str "BLAKE256"; COMP_EXTN := str ".pz";
     MAXPATHLEN := 4096; get_total_ram := 2 ^ 33;
     atoi := toy_atoi;
     parse_numeric := fun _ b => (0, toy_atoi b);
     get_crypto_alg := fun b => if bool_decide (b = str "AES") then 1
                                else if bool_decide (b = str "SALSA20") then 2
                                else 0;
     get_checksum_props := fun _ _ _ _ => (0, (1, 32%nat, 32%nat));
     realpath := fun p => if bool_decide (p = str "/data/in") then Some p
                          else None |}.

End Main.

(** The variables of [main] that the chunk pipeline reads. *)
Definition main_globals (v : Main.vars) : globals :=
  {| adapt_mode := Main.adapt_mode v;
     enable_rabin_scan := Main.enable_rabin_scan v;
     enable_rabin_global := Main.enable_rabin_global v;
     enable_delta2_encode := Main.enable_delta2_encode v;
     enable_fixed_scan := Main.enable_fixed_scan v;
     lzp_preprocess := Main.lzp_preprocess v;
     encrypt_type := Main.encrypt_type v;
     cksum := Main.cksum v;
     cksum_bytes := Main.cksum_bytes v;
     mac_bytes := Main.mac_bytes v |}.

(** * Properties *)

(** ** Buffers *)

Section BufferFacts.

Implicit Types b s : buf.
Implicit Types off len i : nat.

Lemma length_sub b off len : length (sub b off len) = len.
Proof.
  unfold sub. rewrite length_take, length_app, length_replicate. lia.
Qed.

Lemma nth_replicate_0 n i : nth i (replicate n 0) 0 = 0.
Proof.
  revert i. induction n as [|n IH]; intros [|i]; simpl; auto.
Qed.

Lemma nth_sub b off len i :
  nth i (sub b off len) 0 = if (i <? len)%nat then nth (off + i) b 0 else 0.
Proof.
  unfold sub. rewrite nth_firstn.
  destruct (i <? len)%nat eqn:E; [|reflexivity].
  destruct (decide (i < length (drop off b))%nat) as [Hlt|Hge].
  - rewrite app_nth1 by exact Hlt. apply nth_skipn.
  - rewrite app_nth2 by lia. rewrite nth_replicate_0.
    symmetry. apply nth_overflow. rewrite length_drop in Hge. lia.
Qed.

Lemma nth_memcpy b off s i :
  nth i (memcpy b off s) 0 =
  if (i <? off)%nat then nth i b 0
  else if (i <? off + length s)%nat then nth (i - off) s 0
  else nth i b 0.
Proof.
  unfold memcpy.
  destruct (i <? off)%nat eqn:E1.
  - apply Nat.ltb_lt in E1.
    rewrite app_nth1 by (rewrite length_sub; lia).
    rewrite nth_sub. destruct (i <? off)%nat eqn:E; [reflexivity|].
    apply Nat.ltb_ge in E. lia.
  - apply Nat.ltb_ge in E1.
    rewrite app_nth2 by (rewrite length_sub; lia). rewrite length_sub.
    destruct (i <? off + length s)%nat eqn:E2.
    + apply Nat.ltb_lt in E2. rewrite app_nth1 by lia. reflexivity.
    + apply Nat.ltb_ge in E2. rewrite app_nth2 by lia.
      rewrite nth_skipn. f_equal. lia.
Qed.

(** Two regions are equal when they hold the same bytes. *)
Lemma sub_ext b b' off off' len :
  (forall i, (i < len)%nat -> nth (off + i) b 0 = nth (off' + i) b' 0) ->
  sub b off len = sub b' off' len.
Proof.
  intros H. apply nth_ext with (d := 0) (d' := 0).
  - rewrite !length_sub. reflexivity.
  - intros i Hi. rewrite length_sub in Hi. rewrite !nth_sub.
    destruct (i <? len)%nat; auto.
Qed.

Lemma sub_eq_list b off (l : buf) :
  (forall i, (i < length l)%nat -> nth (off + i) b 0 = nth i l 0) ->
  sub b off (length l) = l.
Proof.
  intros H. apply nth_ext with (d := 0) (d' := 0).
  - apply length_sub.
  - intros i Hi. rewrite length_sub in Hi. rewrite nth_sub.
    pose proof Hi as Hi'. apply Nat.ltb_lt in Hi' as ->. auto.
Qed.

Lemma sub_whole (l : buf) : sub l 0 (length l) = l.
Proof. apply sub_eq_list. auto. Qed.

Lemma sub_0_len b off : sub b off 0 = [].
Proof. unfold sub. reflexivity. Qed.

(** Reading back what [memcpy] wrote. *)
Lemma sub_memcpy_same b off s : sub (memcpy b off s) off (length s) = s.
Proof.
  apply sub_eq_list. intros i Hi. rewrite nth_memcpy.
  destruct (off + i <? off)%nat eqn:E1; [apply Nat.ltb_lt in E1; lia|].
  destruct (off + i <? off + length s)%nat eqn:E2;
    [|apply Nat.ltb_ge in E2; lia].
  f_equal. lia.
Qed.

Lemma sub_memcpy_same' b off s n :
  n = length s -> sub (memcpy b off s) off n = s.
Proof. intros ->. apply sub_memcpy_same. Qed.

Lemma sub_memcpy_prefix b off s n :
  (n <= length s)%nat -> sub (memcpy b off s) off n = sub s 0 n.
Proof.
  intros Hn. apply sub_ext. intros i Hi. rewrite nth_memcpy.
  destruct (off + i <? off)%nat eqn:E1; [apply Nat.ltb_lt in E1; lia|].
  destruct (off + i <? off + length s)%nat eqn:E2;
    [|apply Nat.ltb_ge in E2; lia].
  f_equal. lia.
Qed.

(** A write leaves the regions before and after it alone. *)
Lemma sub_memcpy_before b off s off' len :
  (off' + len <= off)%nat -> sub (memcpy b off s) off' len = sub b off' len.
Proof.
  intros H. apply sub_ext. intros i Hi. rewrite nth_memcpy.
  destruct (off' + i <? off)%nat eqn:E1; [reflexivity|].
  apply Nat.ltb_ge in E1. lia.
Qed.

Lemma sub_memcpy_after b off s off' len :
  (off + length s <= off')%nat -> sub (memcpy b off s) off' len = sub b off' len.
Proof.
  intros H. apply sub_ext. intros i Hi. rewrite nth_memcpy.
  destruct (off' + i <? off)%nat eqn:E1; [apply Nat.ltb_lt in E1; lia|].
  destruct (off' + i <? off + length s)%nat eqn:E2; [|reflexivity].
  apply Nat.ltb_lt in E2. lia.
Qed.

Lemma nth_memcpy_before b off s i :
  (i < off)%nat -> nth i (memcpy b off s) 0 = nth i b 0.
Proof.
  intros H. rewrite nth_memcpy. apply Nat.ltb_lt in H as ->. reflexivity.
Qed.

Lemma nth_memcpy_after b off s i :
  (off + length s <= i)%nat -> nth i (memcpy b off s) 0 = nth i b 0.
Proof.
  intros H. rewrite nth_memcpy.
  destruct (i <? off)%nat eqn:E1; [reflexivity|].
  destruct (i <? off + length s)%nat eqn:E2; [|reflexivity].
  apply Nat.ltb_lt in E2. lia.
Qed.

Lemma nth_memcpy_in b off s i :
  (off <= i < off + length s)%nat -> nth i (memcpy b off s) 0 = nth (i - off) s 0.
Proof.
  intros H. rewrite nth_memcpy.
  destruct (i <? off)%nat eqn:E1; [apply Nat.ltb_lt in E1; lia|].
  destruct (i <? off + length s)%nat eqn:E2; [reflexivity|].
  apply Nat.ltb_ge in E2. lia.
Qed.

(** A region read in two parts. *)
Lemma sub_split b off n m : sub b off (n + m) = sub b off n ++ sub b (off + n) m.
Proof.
  apply nth_ext with (d := 0) (d' := 0).
  - rewrite length_app, !length_sub. reflexivity.
  - intros i Hi. rewrite length_sub in Hi. rewrite nth_sub.
    apply Nat.ltb_lt in Hi as Hi'. rewrite Hi'.
    destruct (decide (i < n)%nat) as [Hlt|Hge].
    + rewrite app_nth1 by (rewrite length_sub; lia).
      rewrite nth_sub. apply Nat.ltb_lt in Hlt as ->. reflexivity.
    + rewrite app_nth2 by (rewrite length_sub; lia).
      rewrite length_sub, nth_sub.
      destruct (i - n <? m)%nat eqn:E; [|apply Nat.ltb_ge in E; lia].
      f_equal. lia.
Qed.

Lemma sub_sub b off len off' len' :
  (off' + len' <= len)%nat -> sub (sub b off len) off' len' = sub b (off + off') len'.
Proof.
  intros H. apply sub_ext. intros i Hi. rewrite nth_sub.
  destruct (off' + i <? len)%nat eqn:E; [|apply Nat.ltb_ge in E; lia].
  f_equal. lia.
Qed.

Lemma sub_app_l (l1 l2 : buf) n : (n <= length l1)%nat -> sub (l1 ++ l2) 0 n = sub l1 0 n.
Proof.
  intros H. apply sub_ext. intros i Hi. simpl. apply app_nth1. lia.
Qed.

Lemma sub_app_r (l1 l2 : buf) off n :
  sub (l1 ++ l2) (length l1 + off) n = sub l2 off n.
Proof.
  apply sub_ext. intros i Hi. rewrite <- Nat.add_assoc. apply app_nth2_plus.
Qed.

Lemma sub_app_exact (l1 l2 : buf) : sub (l1 ++ l2) 0 (length l1) = l1.
Proof. rewrite sub_app_l by lia. apply sub_whole. Qed.

Lemma sub_app_mid (l1 l2 l3 : buf) :
  sub (l1 ++ l2 ++ l3) (length l1) (length l2) = l2.
Proof.
  replace (length l1) with (length l1 + 0)%nat at 1 by lia.
  rewrite sub_app_r. apply sub_app_exact.
Qed.

Lemma sub_app_mid' (l1 l2 l3 : buf) off n :
  off = length l1 -> n = length l2 -> sub (l1 ++ l2 ++ l3) off n = l2.
Proof. intros -> ->. apply sub_app_mid. Qed.

Lemma app_cong (a a' c c' : buf) : a = a' -> c = c' -> a ++ c = a' ++ c'.
Proof. intros -> ->. reflexivity. Qed.

Lemma sub_cons0 b off : sub b off 1 = [nth off b 0].
Proof.
  apply nth_ext with (d := 0) (d' := 0).
  - apply length_sub.
  - intros i Hi. rewrite length_sub in Hi. rewrite nth_sub.
    assert (i = 0)%nat as -> by lia. simpl. f_equal. lia.
Qed.

(** ** Big-endian integers *)

Lemma length_be_bytes n v : length (be_bytes n v) = n.
Proof. induction n; simpl; auto. Qed.

Lemma be_value_app (l1 l2 : buf) :
  be_value (l1 ++ l2) = be_value l1 * 256 ^ Z.of_nat (length l2) + be_value l2.
Proof.
  unfold be_value.
  assert (G : forall (l : buf) (a : Z), fold_left (fun x y => x * 256 + y) l a
              = a * 256 ^ Z.of_nat (length l)
                + fold_left (fun x y => x * 256 + y) l 0).
  { induction l as [|x l IH]; intros a; simpl length; simpl fold_left.
    - simpl. lia.
    - rewrite IH, (IH (0 * 256 + x)).
      rewrite Nat2Z.inj_succ, Z.pow_succ_r by lia. lia. }
  rewrite fold_left_app, G. reflexivity.
Qed.

Lemma be_value_range (l : buf) :
  Forall (fun x => 0 <= x < 256) l -> 0 <= be_value l < 256 ^ Z.of_nat (length l).
Proof.
  induction l as [|x l IH] using rev_ind; intros H.
  - unfold be_value. simpl. lia.
  - apply Forall_app in H as [H1 H2]. apply Forall_inv in H2 as Hx.
    specialize (IH H1). rewrite be_value_app, length_app. simpl length.
    change (be_value [x]) with (0 * 256 + x).
    replace (Z.of_nat (length l + 1)) with (Z.succ (Z.of_nat (length l))) by lia.
    rewrite Z.pow_succ_r by lia. change (256 ^ Z.of_nat 1) with 256.
    set (m := 256 ^ Z.of_nat (length l)) in *. clearbody m. lia.
Qed.

Lemma be_bytes_range n v : Forall (fun x => 0 <= x < 256) (be_bytes n v).
Proof.
  induction n; simpl; constructor; auto. apply Z.mod_pos_bound. lia.
Qed.

Lemma be_value_be_bytes n v :
  be_value (be_bytes n v) = v `mod` 256 ^ Z.of_nat n.
Proof.
  induction n as [|n IH].
  - simpl. unfold be_value. simpl. rewrite Z.mod_1_r. reflexivity.
  - simpl be_bytes. change (?x :: ?l) with ([x] ++ l).
    rewrite be_value_app, IH, length_be_bytes.
    unfold be_value at 1. simpl fold_left.
    rewrite Z.shiftr_div_pow2 by lia.
    replace (2 ^ (8 * Z.of_nat n)) with (256 ^ Z.of_nat n)
      by (rewrite Z.pow_mul_r by lia; reflexivity).
    rewrite Nat2Z.inj_succ, Z.pow_succ_r by lia.
    set (m := 256 ^ Z.of_nat n). assert (0 < m) by (apply Z.pow_pos_nonneg; lia).
    rewrite (Z.mul_comm 256 m), Z.rem_mul_r by lia. lia.
Qed.

Lemma be_value_be_bytes_small n v :
  0 <= v < 256 ^ Z.of_nat n -> be_value (be_bytes n v) = v.
Proof.
  intros H. rewrite be_value_be_bytes. apply Z.mod_small. exact H.
Qed.

End BufferFacts.

(** ** The version gate of start_decompress *)

Section VersionGate.

Variable VERSION : Z.

Lemma to_signed_mod w v : 0 <= w -> to_signed w (v `mod` 2 ^ w) = to_signed w v.
Proof.
  intros Hw. unfold to_signed. rewrite Z.mod_mod; [reflexivity|].
  apply Z.pow_nonzero; lia.
Qed.

(** The four tests, read off [header_sanity]. *)
Lemma header_sanity_None total_ram version chunksize level :
  header_sanity VERSION total_ram version chunksize level = None <->
  VERSION - 3 <= version <= VERSION
  /\ chunksize `mod` 2 ^ 64 <= EIGHTY_PCT total_ram
  /\ 0 <= level <= MAX_LEVEL.
Proof.
  unfold header_sanity.
  destruct (VERSION <? version) eqn:E1;
    [apply Z.ltb_lt in E1; split; [discriminate|lia]|apply Z.ltb_ge in E1].
  destruct (EIGHTY_PCT total_ram <? chunksize `mod` 2 ^ 64) eqn:E2;
    [apply Z.ltb_lt in E2; split; [discriminate|lia]|apply Z.ltb_ge in E2].
  destruct (MAX_LEVEL <? level) eqn:E3; simpl;
    [apply Z.ltb_lt in E3; split; [discriminate|lia]|apply Z.ltb_ge in E3].
  destruct (level <? 0) eqn:E4; simpl;
    [apply Z.ltb_lt in E4; split; [discriminate|lia]|apply Z.ltb_ge in E4].
  destruct (version <? VERSION - 3) eqn:E5;
    [apply Z.ltb_lt in E5; split; [discriminate|lia]|apply Z.ltb_ge in E5].
  split; [lia|reflexivity].
Qed.

Lemma header_sanity_version total_ram version chunksize level :
  VERSION < version \/ version < VERSION - 3 ->
  exists e, header_sanity VERSION total_ram version chunksize level = Some e.
Proof.
  intros H.
  destruct (header_sanity VERSION total_ram version chunksize level) eqn:E;
    [eauto|].
  apply header_sanity_None in E. lia.
Qed.

(** The fields [start_decompress] reads from a well-formed header. *)
Lemma header_fields (v flags cs lvl : Z) (rest : buf) :
  let r := be_bytes 2 v ++ be_bytes 2 flags ++ be_bytes 8 cs ++ be_bytes 4 lvl ++ rest in
  (length r <? 16)%nat = false /\
  to_signed 16 (be_value (take 2 r)) = to_signed 16 v /\
  to_signed 16 (be_value (take 2 (drop 2 r))) = to_signed 16 flags /\
  to_signed 64 (be_value (take 8 (drop 4 r))) = to_signed 64 cs /\
  to_signed 32 (be_value (take 4 (drop 12 r))) = to_signed 32 lvl /\
  drop 16 r = rest.
Proof.
  intros r. subst r.
  assert (L2 : forall x, length (be_bytes 2 x) = 2%nat) by (intros; apply length_be_bytes).
  assert (L8 : forall x, length (be_bytes 8 x) = 8%nat) by (intros; apply length_be_bytes).
  assert (L4 : forall x, length (be_bytes 4 x) = 4%nat) by (intros; apply length_be_bytes).
  split; [|split; [|split; [|split; [|split]]]].
  - apply Nat.ltb_ge. rewrite !length_app, !L2, L8, L4. lia.
  - rewrite take_app_length' by (rewrite length_be_bytes; reflexivity).
    rewrite be_value_be_bytes. apply (to_signed_mod 16). lia.
  - rewrite drop_app_length' by (rewrite length_be_bytes; reflexivity).
    rewrite take_app_length' by (rewrite length_be_bytes; reflexivity).
    rewrite be_value_be_bytes. apply (to_signed_mod 16). lia.
  - rewrite (drop_app_add' _ _ 2 2) by (rewrite length_be_bytes; reflexivity).
    rewrite drop_app_length' by (rewrite length_be_bytes; reflexivity).
    rewrite take_app_length' by (rewrite length_be_bytes; reflexivity).
    rewrite be_value_be_bytes. apply (to_signed_mod 64). lia.
  - rewrite (drop_app_add' _ _ 2 10) by (rewrite length_be_bytes; reflexivity).
    rewrite (drop_app_add' _ _ 2 8) by (rewrite length_be_bytes; reflexivity).
    rewrite drop_app_length' by (rewrite length_be_bytes; reflexivity).
    rewrite take_app_length' by (rewrite length_be_bytes; reflexivity).
    rewrite be_value_be_bytes. apply (to_signed_mod 32). lia.
  - rewrite (drop_app_add' _ _ 2 14) by (rewrite length_be_bytes; reflexivity).
    rewrite (drop_app_add' _ _ 2 12) by (rewrite length_be_bytes; reflexivity).
    rewrite (drop_app_add' _ _ 8 4) by (rewrite length_be_bytes; reflexivity).
    rewrite drop_app_length' by (rewrite length_be_bytes; reflexivity).
    reflexivity.
Qed.

(** C7: [start_decompress] ends with an error, before any chunk is read or
    any thread created, on every file whose header version is greater than
    [VERSION] or less than [VERSION - 3], the version read as the
    [short] of the code or, for [VERSION >= 3], as the unsigned 16 bits of
    the file; and a header version in the window [VERSION - 3 .. VERSION] passes the gate: with a chunk size and
    a level that pass their own checks (the chunk size field, as the
    unsigned 64 bits of the file, at most 80% of the memory; the level
    within 0 and 14), the header is accepted. *)
Theorem start_decompress_version_gate
    (total_ram : Z) (algo : buf) (v flags cs lvl : Z) (rest : buf) :
  length algo = ALGO_SZ ->
  init_algo algo <> None ->
  let file := algo ++ be_bytes 2 v ++ be_bytes 2 flags ++ be_bytes 8 cs
              ++ be_bytes 4 lvl ++ rest in
  let version := to_signed 16 v in
  (VERSION < version \/ version < VERSION - 3 ->
   exists e, start_decompress_header VERSION total_ram file = inl e) /\
  (3 <= VERSION -> 0 <= v < 2 ^ 16 -> VERSION < v \/ v < VERSION - 3 ->
   exists e, start_decompress_header VERSION total_ram file = inl e) /\
  (VERSION - 3 <= version <= VERSION ->
   cs `mod` 2 ^ 64 <= EIGHTY_PCT total_ram ->
   0 <= to_signed 32 lvl <= MAX_LEVEL ->
   start_decompress_header VERSION total_ram file =
   inr ({| f_algo := algo; f_version := version;
           f_flags := to_signed 16 flags; f_chunksize := to_signed 64 cs;
           f_level := to_signed 32 lvl |}, rest)).
Proof.
  intros Hlen Halgo file version.
  assert (Hhd : start_decompress_header VERSION total_ram file =
    match header_sanity VERSION total_ram version (to_signed 64 cs) (to_signed 32 lvl) with
    | Some e => inl e
    | None => inr ({| f_algo := algo; f_version := version;
                      f_flags := to_signed 16 flags; f_chunksize := to_signed 64 cs;
                      f_level := to_signed 32 lvl |}, rest)
    end).
  { unfold start_decompress_header, file.
    destruct (length (algo ++ _) <? ALGO_SZ)%nat eqn:E.
    { apply Nat.ltb_lt in E. rewrite length_app in E. lia. }
    rewrite take_app_length' by (symmetry; exact Hlen).
    destruct (init_algo algo) as [a|]; [|congruence].
    rewrite drop_app_length' by (symmetry; exact Hlen).
    destruct (header_fields v flags cs lvl rest) as (F0 & F1 & F2 & F3 & F4 & F5).
    cbv zeta in F0, F1, F2, F3, F4, F5.
    rewrite F0, F1, F2, F3, F4, F5. reflexivity. }
  assert (Hrej : VERSION < version \/ version < VERSION - 3 ->
            exists e, start_decompress_header VERSION total_ram file = inl e).
  { intros Hv.
    destruct (header_sanity_version total_ram version (to_signed 64 cs)
                (to_signed 32 lvl) Hv) as [e He].
    exists e. rewrite Hhd, He. reflexivity. }
  split; [exact Hrej|split].
  - intros H3 Hr Hv. apply Hrej. subst version. unfold to_signed.
    rewrite Z.mod_small by exact Hr.
    change (2 ^ (16 - 1)) with 32768. change (2 ^ 16) with 65536 in *.
    destruct (v <? 32768) eqn:E;
      [apply Z.ltb_lt in E|apply Z.ltb_ge in E]; lia.
  - intros Hv Hc Hl. rewrite Hhd.
    assert (Hm : to_signed 64 cs `mod` 2 ^ 64 = cs `mod` 2 ^ 64).
    { unfold to_signed. destruct (cs `mod` 2 ^ 64 <? 2 ^ (64 - 1)).
      - apply Z.mod_mod. lia.
      - rewrite <- (Z.mod_add _ 1) by lia.
        replace (cs `mod` 2 ^ 64 - 2 ^ 64 + 1 * 2 ^ 64) with (cs `mod` 2 ^ 64)
          by lia.
        apply Z.mod_mod. lia. }
    assert (E : header_sanity VERSION total_ram version (to_signed 64 cs)
                  (to_signed 32 lvl) = None)
      by (apply header_sanity_None; rewrite Hm; auto).
    rewrite E. reflexivity.
Qed.

End VersionGate.

(** A [zlib] header of the version after the current one, of the oldest
    version in the window and of the version before it, for [VERSION = 8]
    and 1 GB of memory. *)
Lemma start_decompress_version_gate_witness :
  let file v := strncpy 8 (str "zlib") ++ be_bytes 2 v ++ be_bytes 2 0
                ++ be_bytes 8 4096 ++ be_bytes 4 6 ++ [] in
  (exists e, start_decompress_header 8 (2 ^ 30) (file 9) = inl e) /\
  (exists e, start_decompress_header 8 (2 ^ 30) (file 4) = inl e) /\
  (exists e, start_decompress_header 8 (2 ^ 30) (file 65535) = inl e) /\
  start_decompress_header 8 (2 ^ 30) (file 5) =
  inr ({| f_algo := strncpy 8 (str "zlib"); f_version := 5; f_flags := 0;
          f_chunksize := 4096; f_level := 6 |}, []).
Proof.
  intros file.
  assert (Hlen : length (strncpy 8 (str "zlib")) = ALGO_SZ) by reflexivity.
  assert (Halgo : init_algo (strncpy 8 (str "zlib")) <> None)
    by (vm_compute; discriminate).
  split; [|split; [|split]].
  - destruct (start_decompress_version_gate 8 (2 ^ 30) _ 9 0 4096 6 []
                Hlen Halgo) as (H & _).
    apply H. left. vm_compute. reflexivity.
  - destruct (start_decompress_version_gate 8 (2 ^ 30) _ 4 0 4096 6 []
                Hlen Halgo) as (H & _).
    apply H. right. vm_compute. reflexivity.
  - destruct (start_decompress_version_gate 8 (2 ^ 30) _ 65535 0 4096 6 []
                Hlen Halgo) as (_ & H & _).
    apply H; [lia|lia|left; lia].
  - destruct (start_decompress_version_gate 8 (2 ^ 30) _ 5 0 4096 6 []
                Hlen Halgo) as (_ & _ & H).
    apply H.
    + vm_compute. split; discriminate.
    + vm_compute. discriminate.
    + vm_compute. split; discriminate.
Defined.

(** ** The chunk flag byte *)

Section FlagByte.

Lemma lor_disjoint_add a b : Z.land a b = 0 -> Z.lor a b = a + b.
Proof.
  intros H. rewrite <- (Z.lxor_lor a b H). symmetry. apply Z.add_nocarry_lxor, H.
Qed.

Lemma lor_low_shiftl x r n :
  0 <= n -> 0 <= x < 2 ^ n -> Z.lor x (Z.shiftl r n) = x + 2 ^ n * r.
Proof.
  intros Hn Hx. rewrite lor_disjoint_add.
  - rewrite Z.shiftl_mul_pow2 by lia. lia.
  - apply Z.bits_inj'. intros i Hi. rewrite Z.land_spec, Z.bits_0.
    destruct (Z.lt_ge_cases i n) as [Hlt|Hge].
    + rewrite (Z.shiftl_spec_low r n i Hlt). apply andb_false_r.
    + rewrite <- (Z.mod_small x (2 ^ n)) by lia.
      rewrite Z.mod_pow2_bits_high by lia. reflexivity.
Qed.

Variable G : globals.
Variable X : externals.

(** The sanity check yields [COMPRESSED] or [UNCOMPRESSED] and a
    sub-algorithm code that is not negative. *)
Lemma pc_sanity_stage_type rbytes_ d rv cs ubuf cseg :
  let '(type, len, rv', _) := pc_sanity_stage G rbytes_ d rv cs ubuf cseg in
  type = (if (rbytes_ <=? cs) || (rv <? 0) then UNCOMPRESSED else COMPRESSED)
  /\ len = (if (rbytes_ <=? cs) || (rv <? 0) then ds_rbytes d else cs)
  /\ rv' = Z.max 0 rv.
Proof.
  unfold pc_sanity_stage, COMPRESS_NONE.
  destruct (rbytes_ <=? cs) eqn:E1; simpl;
    destruct (rv <? 0) eqn:E2;
    (apply Z.ltb_lt in E2 || apply Z.ltb_ge in E2);
    (split; [reflexivity|split; [reflexivity|lia]]).
Qed.

(** The flags as one sum, the sub-algorithm code in bits 4 to 6. *)
Lemma pc_type_sum type rv d tdat :
  type = COMPRESSED \/ type = UNCOMPRESSED ->
  0 <= rv -> (adapt_mode G = true -> rv < 8) ->
  pc_type G type rv d tdat =
  128 * Z.b2z (ds_rbytes d <? chunksize tdat)
  + 16 * (if adapt_mode G then rv else 0)
  + 4 * Z.b2z (preproc_enabled G)
  + 2 * Z.b2z (dedup_enabled G && ds_valid d)
  + type.
Proof.
  intros Ht Hrv Hadapt. unfold pc_type.
  set (t1 := if dedup_enabled G && ds_valid d
             then Z.lor type CHUNK_FLAG_DEDUP else type).
  assert (E1 : t1 = 2 * Z.b2z (dedup_enabled G && ds_valid d) + type).
  { subst t1. destruct (dedup_enabled G && ds_valid d);
      destruct Ht as [-> | ->]; reflexivity. }
  set (t2 := if preproc_enabled G then Z.lor t1 CHUNK_FLAG_PREPROC else t1).
  assert (E2 : t2 = 4 * Z.b2z (preproc_enabled G) + t1).
  { subst t2. rewrite E1.
    destruct (preproc_enabled G); destruct (dedup_enabled G && ds_valid d);
      destruct Ht as [-> | ->]; reflexivity. }
  assert (R2 : 0 <= t2 < 2 ^ 4).
  { rewrite E2, E1.
    destruct (preproc_enabled G); destruct (dedup_enabled G && ds_valid d);
      destruct Ht as [-> | ->]; vm_compute; split; congruence. }
  set (t3 := if adapt_mode G then Z.lor t2 (Z.shiftl rv 4) else t2).
  assert (E3 : t3 = 16 * (if adapt_mode G then rv else 0) + t2).
  { subst t3. destruct (adapt_mode G); [|lia].
    rewrite (lor_low_shiftl t2 rv 4) by lia. change (2 ^ 4) with 16. lia. }
  assert (R3 : 0 <= t3 < 2 ^ 7).
  { rewrite E3. change (2 ^ 4) with 16 in R2. change (2 ^ 7) with 128.
    destruct (adapt_mode G); [specialize (Hadapt eq_refl)|]; lia. }
  destruct (ds_rbytes d <? chunksize tdat).
  - change CHSIZE_MASK with (Z.shiftl 1 7).
    rewrite (lor_low_shiftl t3 1 7) by lia. change (2 ^ 7) with 128.
    rewrite E3, E2, E1. simpl Z.b2z. lia.
  - rewrite E3, E2, E1. simpl Z.b2z. lia.
Qed.

(** C9 (as amended): the flag byte [perform_compress] writes has bit 7 =
    [CHSIZE_MASK] (original size appended), bits 6-4 = the adaptive
    sub-algorithm code (0 when the codec is not adaptive), bit 3 = 0, bit 2 =
    [CHUNK_FLAG_PREPROC], bit 1 = [CHUNK_FLAG_DEDUP] and bit 0 = 1 for a
    compressed chunk, 0 for a raw one. *)
Theorem chunk_flag_byte_layout (tdat : cmp_data) (flag : Z) (t' : cmp_data) :
  perform_compress G X tdat = Some (flag, t') ->
  let '(d, (type, len, rv, _), _) := pc_payload G X tdat in
  (adapt_mode G = true -> rv < 8) ->
  let algo := if adapt_mode G then rv else 0 in
  (type = COMPRESSED \/ type = UNCOMPRESSED) /\
  flag = 128 * Z.b2z (ds_rbytes d <? chunksize tdat) + 16 * algo
         + 4 * Z.b2z (preproc_enabled G)
         + 2 * Z.b2z (dedup_enabled G && ds_valid d) + type /\
  Z.testbit flag 7 = (ds_rbytes d <? chunksize tdat) /\
  (flag / 16) `mod` 8 = algo /\
  Z.testbit flag 3 = false /\
  Z.testbit flag 2 = preproc_enabled G /\
  Z.testbit flag 1 = dedup_enabled G && ds_valid d /\
  Z.testbit flag 0 = (type =? COMPRESSED).
Proof.
  unfold perform_compress, pc_payload.
  destruct (pc_compress_stage G X tdat (pc_dedup_stage G X tdat))
    as [[[rv0 cs] ubuf] cseg0].
  pose proof (pc_sanity_stage_type (rbytes tdat) (pc_dedup_stage G X tdat)
                rv0 cs ubuf cseg0) as Hs.
  destruct (pc_sanity_stage G (rbytes tdat) (pc_dedup_stage G X tdat)
              rv0 cs ubuf cseg0) as [[[type len] rv] cseg].
  destruct Hs as (Ht & _ & Hrv).
  destruct (pc_encrypt_stage G X tdat len cseg) as [cseg1|]; [|discriminate].
  set (d := pc_dedup_stage G X tdat) in *.
  destruct (pc_frame_stage G X tdat d (pc_type G type rv d tdat) len cseg1)
    as [[len' hdr] cseg2].
  intros H Hadapt. injection H as Hflag _.
  assert (Ht' : type = COMPRESSED \/ type = UNCOMPRESSED)
    by (rewrite Ht; destruct ((rbytes tdat <=? cs) || (rv0 <? 0)); auto).
  assert (Hrv0 : 0 <= rv) by lia.
  rewrite (pc_type_sum type rv d tdat Ht' Hrv0 Hadapt) in Hflag.
  cbv zeta.
  assert (Ha : 0 <= (if adapt_mode G then rv else 0) < 8).
  { destruct (adapt_mode G); [specialize (Hadapt eq_refl)|]; lia. }
  set (algo := if adapt_mode G then rv else 0) in *.
  assert (Hcases : algo = 0 \/ algo = 1 \/ algo = 2 \/ algo = 3 \/ algo = 4
                   \/ algo = 5 \/ algo = 6 \/ algo = 7) by lia.
  clearbody algo. subst flag.
  destruct (ds_rbytes d <? chunksize tdat); destruct (preproc_enabled G);
    destruct (dedup_enabled G && ds_valid d);
    destruct Ht' as [-> | ->];
    destruct Hcases as [-> | [-> | [-> | [-> | [-> | [-> | [-> | ->]]]]]]];
    vm_compute;
    (split; [first [left; reflexivity | right; reflexivity]
            |repeat split; reflexivity]).
Qed.

End FlagByte.

(** One full chunk of a file compressed with [-L]: the LZP stand-in shrinks
    it, the back end does not. *)
Lemma chunk_flag_byte_layout_witness :
  exists flag t',
    perform_compress G_lzp toy (tdat_of Toy.compress G_lzp (replicate 20 7) 20)
    = Some (flag, t') /\ flag = 5
    /\ Z.testbit flag 2 = preproc_enabled G_lzp /\ Z.testbit flag 3 = false.
Proof.
  destruct (perform_compress G_lzp toy
              (tdat_of Toy.compress G_lzp (replicate 20 7) 20))
    as [[flag t']|] eqn:E; [|vm_compute in E; discriminate].
  exists flag, t'.
  pose proof (chunk_flag_byte_layout G_lzp toy _ flag t' E) as H.
  vm_compute in E. injection E as Hflag _.
  split; [reflexivity|]. split; [symmetry; exact Hflag|].
  revert H. vm_compute pc_payload. intros H.
  destruct (H ltac:(discriminate)) as (_ & _ & _ & _ & H3 & H2 & _).
  split; [exact H2|exact H3].
Defined.

(** C9 as stated fails: with [-L] and no dedup the flag byte of a raw chunk
    is 4: bit 3, where the claim puts [CHUNK_FLAG_PREPROC], is clear though
    the chunk went through the preprocessor, and bit 2, where the claim puts
    [CHUNK_FLAG_DEDUP], is set though the chunk was not deduplicated. *)
Lemma chunk_flag_byte_layout_counterexample :
  exists flag t',
    perform_compress G_lzp toy (tdat_of Toy.none_compress G_lzp [7; 7; 1; 2; 3] 5)
    = Some (flag, t')
    /\ preproc_enabled G_lzp = true /\ Z.testbit flag 3 = false
    /\ dedup_enabled G_lzp && rctx_valid t' = false /\ Z.testbit flag 2 = true.
Proof.
  eexists _, _. split; [vm_compute; reflexivity|].
  vm_compute. repeat split; reflexivity.
Qed.

(** ** The single chunk of a small file *)

Section SingleChunk.

Variable FLAG_SINGLE_CHUNK : Z.
Variable G : globals.
Variable X : externals.

Lemma land_lor_keep x y F : Z.land x F = F -> Z.land (Z.lor x y) F = F.
Proof.
  intros H. apply Z.bits_inj'. intros i Hi.
  rewrite Z.land_spec, Z.lor_spec.
  assert (Hb : Z.testbit (Z.land x F) i = Z.testbit F i) by (rewrite H; reflexivity).
  rewrite Z.land_spec in Hb.
  destruct (Z.testbit x i), (Z.testbit y i), (Z.testbit F i); simpl in *; congruence.
Qed.

Lemma land_lor_self x F : Z.land (Z.lor x F) F = F.
Proof.
  apply Z.bits_inj'. intros i Hi. rewrite Z.land_spec, Z.lor_spec.
  destruct (Z.testbit x i), (Z.testbit F i); reflexivity.
Qed.

(** What the dedup block leaves of [tdat->rbytes] when it did not reduce
    the chunk. *)
Lemma pc_dedup_stage_invalid tdat :
  ds_valid (pc_dedup_stage G X tdat) = false ->
  ds_rbytes (pc_dedup_stage G X tdat) = rbytes tdat.
Proof.
  unfold pc_dedup_stage. destruct (dedup_enabled G); [|reflexivity].
  destruct (d_valid _); simpl; [discriminate|reflexivity].
Qed.

Lemma producer_load_fields tdat cread_buf rb (n : Z) :
  let t := fst (fst (producer_load G tdat cread_buf rb 0 n)) in
  rbytes t = rb /\ chunksize t = chunksize tdat /\
  (if enable_rabin_scan G || enable_fixed_scan G || enable_rabin_global G
   then cmp_seg t = cread_buf else uncompressed_chunk t = cread_buf).
Proof.
  unfold producer_load.
  destruct (enable_rabin_scan G || enable_fixed_scan G || enable_rabin_global G);
    simpl; auto.
Qed.

(** The length [perform_compress] leaves in [tdat->len_cmp]: the payload,
    the chunk header and, under [CHSIZE_MASK], the original size. *)
Lemma perform_compress_len tdat flag t' :
  perform_compress G X tdat = Some (flag, t') ->
  let '(d, (_, len, _, _), _) := pc_payload G X tdat in
  len_cmp t' = len + Z.of_nat (data_off G)
               + (if ds_rbytes d <? chunksize tdat
                  then Z.of_nat ORIGINAL_CHUNKSZ else 0).
Proof.
  unfold perform_compress.
  destruct (pc_payload G X tdat) as [[d [[[type len] rv] cseg]] ubuf].
  destruct (pc_encrypt_stage G X tdat len cseg) as [cseg1|]; [|discriminate].
  unfold pc_frame_stage.
  destruct (ds_rbytes d <? chunksize tdat); intros H; injection H as _ <-;
    simpl; unfold data_off, hdr_off, CHUNK_FLAG_SZ, COMPRESSED_CHUNKSZ; lia.
Qed.

(** C3 (as amended): for a regular file of positive size at most the chunk
    size, [start_compress] sets [FLAG_SINGLE_CHUNK] in the header flags and
    lowers the chunk size to the file size; the single chunk is the whole
    file, its flag byte has [CHSIZE_MASK] exactly when the dedup block left
    fewer bytes than the file has, and only then is a size appended: a
    chunk that dedup did not reduce has [CHSIZE_MASK] clear and ends with
    its payload. *)
Theorem small_file_single_chunk
    (cmp dec : compress_func_ptr) (props_ : algo_props_t)
    (chunksize_ nthreads flags level_ rl : Z) (file : buf) :
  0 < Z.of_nat (length file) <= chunksize_ ->
  let '(a, tdat) := start_compress_first FLAG_SINGLE_CHUNK G cmp dec props_
                      chunksize_ nthreads flags level_ rl file in
  Z.land (start_compress_flags G a) FLAG_SINGLE_CHUNK = FLAG_SINGLE_CHUNK /\
  sc_chunksize a = Z.of_nat (length file) /\
  rbytes tdat = Z.of_nat (length file) /\
  forall flag t',
    perform_compress G X tdat = Some (flag, t') ->
    let '(d, (_, len, rv, _), _) := pc_payload G X tdat in
    (adapt_mode G = true -> rv < 8) ->
    Z.testbit flag 7 = (ds_rbytes d <? Z.of_nat (length file)) /\
    len_cmp t' = len + Z.of_nat (data_off G)
                 + (if ds_rbytes d <? Z.of_nat (length file)
                    then Z.of_nat ORIGINAL_CHUNKSZ else 0) /\
    (ds_valid d = false ->
     Z.testbit flag 7 = false /\ len_cmp t' = len + Z.of_nat (data_off G)).
Proof.
  intros Hsz. unfold start_compress_first, start_compress_adjust.
  destruct (Z.of_nat (length file) <=? chunksize_) eqn:E;
    [|apply Z.leb_gt in E; lia].
  cbn [sc_chunksize sc_single_chunk]. unfold Read.
  rewrite Nat2Z.id, firstn_all.
  set (t0 := start_compress_init cmp dec props_ (Z.of_nat (length file))
               level_ rl true).
  destruct (producer_load_fields t0 file (Z.of_nat (length file)) 0)
    as (Hrb & Hcs & _).
  set (tdat := fst (fst (producer_load G t0 file (Z.of_nat (length file)) 0 0))) in *.
  split; [|split; [reflexivity|split; [exact Hrb|]]].
  - unfold start_compress_flags. cbn [sc_flags].
    apply land_lor_keep.
    destruct (negb (encrypt_type G =? 0));
      [apply land_lor_keep|]; apply land_lor_self.
  - intros flag t' Hpc.
    pose proof (chunk_flag_byte_layout G X tdat flag t' Hpc) as Hflag.
    pose proof (perform_compress_len tdat flag t' Hpc) as Hlen.
    pose proof (pc_dedup_stage_invalid tdat) as Hinv.
    assert (Hd : fst (fst (pc_payload G X tdat)) = pc_dedup_stage G X tdat).
    { unfold pc_payload.
      destruct (pc_compress_stage G X tdat (pc_dedup_stage G X tdat))
        as [[[? ?] ?] ?]. reflexivity. }
    destruct (pc_payload G X tdat) as [[d [[[type len] rv] cseg]] ubuf].
    simpl in Hd. subst d.
    intros Hadapt. specialize (Hflag Hadapt).
    destruct Hflag as (_ & _ & H7 & _).
    assert (Hcs' : chunksize tdat = Z.of_nat (length file)) by (rewrite Hcs; reflexivity).
    rewrite Hcs' in H7, Hlen.
    split; [exact H7|split; [exact Hlen|]].
    intros Hv. specialize (Hinv Hv). rewrite Hinv, Hrb in H7, Hlen.
    rewrite Z.ltb_irrefl in H7, Hlen. split; [exact H7|lia].
Qed.

End SingleChunk.

(** A file of three bytes compressed with a chunk size of 4096 and
    [FLAG_SINGLE_CHUNK = 4]. *)
Lemma small_file_single_chunk_witness :
  let '(a, tdat) := start_compress_first 4 G_plain Toy.compress Toy.decompress
                      toy_props 4096 0 0 6 14 [1; 2; 3] in
  Z.land (start_compress_flags G_plain a) 4 = 4 /\
  sc_chunksize a = 3 /\
  forall flag t', perform_compress G_plain toy tdat = Some (flag, t') ->
    Z.testbit flag 7 = false.
Proof.
  pose proof (small_file_single_chunk 4 G_plain toy Toy.compress Toy.decompress
                toy_props 4096 0 0 6 14 [1; 2; 3]) as H.
  assert (Hsz : 0 < Z.of_nat (length [1; 2; 3]) <= 4096) by (simpl; lia).
  specialize (H Hsz).
  destruct (start_compress_first 4 G_plain Toy.compress Toy.decompress
              toy_props 4096 0 0 6 14 [1; 2; 3]) as [a tdat] eqn:E.
  destruct H as (H1 & H2 & _ & H4).
  split; [exact H1|split; [exact H2|]].
  intros flag t' Hpc. specialize (H4 flag t' Hpc).
  injection E as <- <-. revert H4. vm_compute pc_payload. intros H4.
  destruct (H4 ltac:(discriminate)) as (_ & _ & H5).
  apply H5. reflexivity.
Defined.

(** C3 as stated fails: the single chunk of a three-byte file compressed
    with a chunk size of 4096 has [CHSIZE_MASK] clear, and what the writer
    gets is the 17 bytes of the chunk header and the 3 bytes of the payload:
    no original size follows. *)
Lemma small_file_single_chunk_counterexample :
  let '(a, tdat) := start_compress_first 4 G_plain Toy.compress Toy.decompress
                      toy_props 4096 0 0 6 14 [1; 2; 3] in
  exists flag t',
    perform_compress G_plain toy tdat = Some (flag, t')
    /\ Z.land (start_compress_flags G_plain a) 4 = 4
    /\ Z.land flag CHSIZE_MASK = 0
    /\ written t' = be_bytes 8 3 ++ sub (cmp_seg t') 8 8 ++ [flag] ++ [1; 2; 3].
Proof.
  vm_compute. eexists _, _. repeat split; reflexivity.
Qed.

(** ** preproc_compress and preproc_decompress *)

Section PreprocFacts.

Variable G : globals.
Variable X : externals.

Lemma sub_take (l : buf) n : (n <= length l)%nat -> sub l 0 n = take n l.
Proof.
  intros H. unfold sub. rewrite drop_0. apply take_app_le. exact H.
Qed.

Lemma sub_memcpy_take b off (s : buf) n :
  (n <= length s)%nat -> sub (memcpy b off s) off n = take n s.
Proof.
  intros H. rewrite sub_memcpy_prefix by exact H. apply sub_take, H.
Qed.

(** The LZP stage in terms of [lzp_applied] and [lzp_left]. *)
Lemma preproc_lzp_stage_eq ubuf soff srclen cbuf doff level :
  let '(n0, ubuf0, cbuf0) := lzp_left G X ubuf soff srclen cbuf doff level in
  preproc_lzp_stage G X ubuf soff srclen cbuf doff level =
  (cbuf0,
   if lzp_applied G X ubuf soff srclen level then Some (PREPROC_TYPE_LZP, n0, ubuf0)
   else if enable_delta2_encode G then Some (0, n0, ubuf0) else None)
  /\ (lzp_applied G X ubuf soff srclen level = false -> n0 = srclen /\ ubuf0 = ubuf).
Proof.
  unfold lzp_left, lzp_applied, preproc_lzp_stage.
  destruct (lzp_preprocess G); simpl.
  - destruct (lzp_compress X (sub ubuf soff (Z.to_nat srclen)) (lzp_hash_size X level))
      as [result out]; simpl.
    destruct ((result <? 0) || (result =? srclen)); simpl.
    + destruct (enable_delta2_encode G); simpl; auto.
    + split; [reflexivity|discriminate].
  - destruct (enable_delta2_encode G); simpl; auto.
Qed.

(** What LZP leaves can be given to [lzp_decompress]. *)
Lemma lzp_left_inverts ubuf soff srclen cbuf doff level :
  lzp_inverts X -> 0 <= srclen ->
  lzp_applied G X ubuf soff srclen level = true ->
  let '(n0, ubuf0, _) := lzp_left G X ubuf soff srclen cbuf doff level in
  0 <= n0 /\
  let '(result', out') := lzp_decompress X (sub ubuf0 soff (Z.to_nat n0))
                            (lzp_hash_size X level) in
  result' = srclen /\
  take (Z.to_nat srclen) out' = sub ubuf soff (Z.to_nat srclen).
Proof.
  intros Hinv Hlen. unfold lzp_left, lzp_applied, preproc_lzp_stage.
  destruct (lzp_preprocess G); [|discriminate]. simpl.
  specialize (Hinv (sub ubuf soff (Z.to_nat srclen)) (lzp_hash_size X level)).
  destruct (lzp_compress X (sub ubuf soff (Z.to_nat srclen)) (lzp_hash_size X level))
    as [result out]; simpl.
  rewrite length_sub, Z2Nat.id in Hinv by exact Hlen.
  destruct (result <? 0) eqn:E1; [discriminate|apply Z.ltb_ge in E1].
  destruct (result =? srclen) eqn:E2; [discriminate|apply Z.eqb_neq in E2].
  simpl. intros _.
  destruct (Hinv E1 E2) as [Hout Hdec].
  split; [exact E1|].
  rewrite sub_memcpy_same' by (rewrite length_sub; reflexivity).
  rewrite sub_memcpy_take by exact Hout.
  exact Hdec.
Qed.

(** The Delta2 stage in terms of [delta2_applied]. *)
Lemma preproc_delta2_stage_eq props_ type ubuf0 soff n0 cbuf0 doff :
  let '(type', n, ubuf1, _) :=
    preproc_delta2_stage G X props_ type ubuf0 soff n0 cbuf0 doff in
  type' = (if delta2_applied G X props_ ubuf0 soff n0
           then Z.lor type PREPROC_TYPE_DELTA2 else type)
  /\ (delta2_applied G X props_ ubuf0 soff n0 = false -> n = n0 /\ ubuf1 = ubuf0).
Proof.
  unfold preproc_delta2_stage, delta2_applied.
  destruct (enable_delta2_encode G && (0 <? delta2_span props_)); simpl; [|auto].
  destruct (negb (c_rv _ =? -1)); simpl; [|auto].
  split; [reflexivity|discriminate].
Qed.

Lemma delta2_left_inverts props_ type ubuf0 soff n0 cbuf0 doff :
  delta2_inverts X -> 0 <= n0 ->
  delta2_applied G X props_ ubuf0 soff n0 = true ->
  let '(_, n, ubuf1, _) :=
    preproc_delta2_stage G X props_ type ubuf0 soff n0 cbuf0 doff in
  0 <= n /\
  forall dstlen',
    n0 <= dstlen' ->
    let r' := delta2_decode X (sub ubuf1 soff (Z.to_nat n)) dstlen' in
    c_rv r' <> -1 /\ c_dstlen r' = n0 /\
    take (Z.to_nat n0) (c_out r') = sub ubuf0 soff (Z.to_nat n0).
Proof.
  intros Hinv Hlen. unfold preproc_delta2_stage, delta2_applied.
  destruct (enable_delta2_encode G && (0 <? delta2_span props_)); [|discriminate].
  simpl.
  specialize (Hinv (sub ubuf0 soff (Z.to_nat n0)) n0 (delta2_span props_)).
  cbv zeta in Hinv.
  set (r := delta2_encode X (sub ubuf0 soff (Z.to_nat n0)) n0 (delta2_span props_)) in *.
  rewrite length_sub, Z2Nat.id in Hinv by exact Hlen.
  destruct (c_rv r =? -1) eqn:E; [discriminate|apply Z.eqb_neq in E].
  simpl. intros _.
  destruct (Hinv E) as (H0 & Hout & Hdec).
  split; [exact H0|].
  rewrite sub_memcpy_same' by (rewrite length_sub; reflexivity).
  rewrite sub_memcpy_take by exact Hout.
  exact Hdec.
Qed.

(** The type bits the two stages leave: bit 0 for LZP, bit 1 for Delta2. *)
Lemma preproc_stages_type ubuf soff srclen cbuf doff level props_ cbuf1 type n ubuf1 :
  preproc_stages G X ubuf soff srclen cbuf doff level props_
  = (cbuf1, Some (type, n, ubuf1)) ->
  let '(n0, ubuf0, _) := lzp_left G X ubuf soff srclen cbuf doff level in
  type = Z.b2z (lzp_applied G X ubuf soff srclen level)
         + 2 * Z.b2z (delta2_applied G X props_ ubuf0 soff n0).
Proof.
  unfold preproc_stages.
  pose proof (preproc_lzp_stage_eq ubuf soff srclen cbuf doff level) as H1.
  destruct (lzp_left G X ubuf soff srclen cbuf doff level) as [[n0 ubuf0] cbuf0].
  destruct H1 as [-> _].
  destruct (lzp_applied G X ubuf soff srclen level).
  - pose proof (preproc_delta2_stage_eq props_ PREPROC_TYPE_LZP ubuf0 soff n0 cbuf0 doff) as H2.
    destruct (preproc_delta2_stage G X props_ PREPROC_TYPE_LZP ubuf0 soff n0 cbuf0 doff)
      as [[[type' n'] ubuf'] cbuf'].
    destruct H2 as [-> _]. intros H. injection H as _ <- _ _.
    destruct (delta2_applied G X props_ ubuf0 soff n0); reflexivity.
  - destruct (enable_delta2_encode G); [|discriminate].
    pose proof (preproc_delta2_stage_eq props_ 0 ubuf0 soff n0 cbuf0 doff) as H2.
    destruct (preproc_delta2_stage G X props_ 0 ubuf0 soff n0 cbuf0 doff)
      as [[[type' n'] ubuf'] cbuf'].
    destruct H2 as [-> _]. intros H. injection H as _ <- _ _.
    destruct (delta2_applied G X props_ ubuf0 soff n0); reflexivity.
Qed.

(** What the back end stage leaves at [dst]: the type byte, then either the
    length and the compressed bytes or the preprocessed bytes. *)
Lemma preproc_backend_stage_eq cmp type ubuf soff n cbuf doff level chdr :
  0 <= n ->
  let r := cmp (sub ubuf soff (Z.to_nat n)) n level chdr in
  let res := preproc_backend_stage cmp type ubuf soff n cbuf doff level chdr in
  p_src res = ubuf /\
  if (-1 <? c_rv r) && (c_dstlen r <? n) then
    p_rv res = c_rv r /\ p_dstlen res = c_dstlen r + 9 /\
    nth doff (p_dst res) 0 = Z.lor type PREPROC_COMPRESSED /\
    sub (p_dst res) (doff + 1) 8 = be_bytes 8 n /\
    (forall k, (k <= length (c_out r))%nat ->
               sub (p_dst res) (doff + 9) k = take k (c_out r))
  else
    p_rv res = (if 0 <? type then 0 else c_rv r) /\ p_dstlen res = n + 1 /\
    nth doff (p_dst res) 0 = type /\
    sub (p_dst res) (doff + 1) (Z.to_nat n) = sub ubuf soff (Z.to_nat n).
Proof.
  intros Hn r res. subst res. unfold preproc_backend_stage. fold r.
  destruct ((-1 <? c_rv r) && (c_dstlen r <? n)); cbn [p_rv p_src p_dst p_dstlen].
  - split; [reflexivity|]. split; [reflexivity|]. split; [reflexivity|].
    split; [|split].
    + rewrite nth_memcpy_in by (simpl; lia). rewrite Nat.sub_diag. reflexivity.
    + rewrite sub_memcpy_after by (simpl; lia).
      rewrite sub_memcpy_before by lia.
      apply sub_memcpy_same'. rewrite length_be_bytes. reflexivity.
    + intros k Hk. rewrite sub_memcpy_after by (simpl; lia).
      apply sub_memcpy_take, Hk.
  - split; [reflexivity|]. split; [reflexivity|]. split; [reflexivity|].
    split.
    + rewrite nth_memcpy_before by lia.
      rewrite nth_memcpy_before by lia.
      rewrite nth_memcpy_before by lia.
      rewrite nth_memcpy_in by (simpl; lia). rewrite Nat.sub_diag. reflexivity.
    + apply sub_memcpy_same'. rewrite length_sub. reflexivity.
Qed.

(** [preproc_compress] is the back end stage on what the two stages
    left. *)
Lemma preproc_compress_stages cmp ubuf soff srclen cbuf doff dstlen level chdr
    props_ cbuf1 type n ubuf1 :
  preproc_stages G X ubuf soff srclen cbuf doff level props_
  = (cbuf1, Some (type, n, ubuf1)) ->
  preproc_compress G X cmp ubuf soff srclen cbuf doff dstlen level chdr props_
  = preproc_backend_stage cmp type ubuf1 soff n cbuf1 doff level chdr.
Proof. unfold preproc_compress. intros ->. reflexivity. Qed.

Lemma type_bits (l d : bool) :
  let type := Z.b2z l + 2 * Z.b2z d in
  0 <= type < 4 /\
  Z.land type PREPROC_COMPRESSED = 0 /\
  Z.land (Z.lor type PREPROC_COMPRESSED) PREPROC_COMPRESSED = PREPROC_COMPRESSED /\
  (Z.land type PREPROC_TYPE_LZP =? 0) = negb l /\
  (Z.land type PREPROC_TYPE_DELTA2 =? 0) = negb d /\
  Z.testbit type 0 = l /\ Z.testbit type 1 = d /\ Z.testbit type 7 = false /\
  (Z.land type (Z.lor PREPROC_COMPRESSED (Z.lor PREPROC_TYPE_DELTA2 PREPROC_TYPE_LZP))
   =? 0) = negb (0 <? type).
Proof. destruct l, d; vm_compute; repeat split; congruence. Qed.

(** C10: in every payload [preproc_compress] produces the first byte is the
    type bitmask; the 8 bytes after it hold the big-endian length before
    compression exactly when [PREPROC_COMPRESSED] is set in that byte, and
    the compressed bytes follow; when the bit is clear the preprocessed
    bytes start right after the type byte.  [preproc_decompress] takes the
    length from those 8 bytes only when the bit is set; otherwise it goes
    on with the bytes after the type byte and leaves [*dstlen] and the back
    end alone. *)
Theorem preproc_payload_layout
    (cmp : compress_func_ptr) (ubuf : buf) (soff : nat) (srclen : Z)
    (cbuf : buf) (doff : nat) (dstlen level chdr : Z) (props_ : algo_props_t)
    (cbuf1 : buf) (type n : Z) (ubuf1 : buf) :
  preproc_stages G X ubuf soff srclen cbuf doff level props_
  = (cbuf1, Some (type, n, ubuf1)) ->
  0 <= n < 2 ^ 64 ->
  let r := cmp (sub ubuf1 soff (Z.to_nat n)) n level chdr in
  let res := preproc_compress G X cmp ubuf soff srclen cbuf doff dstlen
               level chdr props_ in
  let tb := nth doff (p_dst res) 0 in
  let compressed := (-1 <? c_rv r) && (c_dstlen r <? n) in
  (0 <= type < 4 /\
   tb = Z.lor type (if compressed then PREPROC_COMPRESSED else 0)) /\
  negb (Z.land tb PREPROC_COMPRESSED =? 0) = compressed /\
  (compressed = true ->
   p_dstlen res = c_dstlen r + 9 /\
   sub (p_dst res) (doff + 1) 8 = be_bytes 8 n /\
   (forall k, (k <= length (c_out r))%nat ->
              sub (p_dst res) (doff + 9) k = take k (c_out r)) /\
   forall dec obuf ooff dl lvl ch,
     preproc_dec_backend dec tb (p_dst res) doff (p_dstlen res) obuf ooff dl lvl ch =
     let r' := dec (sub (p_dst res) (doff + 9) (Z.to_nat (c_dstlen r))) n lvl ch in
     let obuf' := memcpy obuf ooff (c_out r') in
     if c_rv r' <? 0
     then inl {| p_rv := c_rv r'; p_src := p_dst res; p_dst := obuf';
                 p_dstlen := c_dstlen r' |}
     else inr (doff, c_dstlen r',
               memcpy (p_dst res) doff (sub obuf' ooff (Z.to_nat (c_dstlen r'))),
               obuf', c_dstlen r')) /\
  (compressed = false ->
   p_dstlen res = n + 1 /\
   sub (p_dst res) (doff + 1) (Z.to_nat n) = sub ubuf1 soff (Z.to_nat n) /\
   forall dec obuf ooff dl lvl ch,
     preproc_dec_backend dec tb (p_dst res) doff (p_dstlen res) obuf ooff dl lvl ch =
     inr ((doff + 1)%nat, n, p_dst res, obuf, dl)).
Proof.
  intros Hst Hn r res tb compressed.
  pose proof (preproc_stages_type _ _ _ _ _ _ _ _ _ _ _ Hst) as Hty.
  destruct (lzp_left G X ubuf soff srclen cbuf doff level) as [[n0 ubuf0] cbuf0].
  destruct (type_bits (lzp_applied G X ubuf soff srclen level)
              (delta2_applied G X props_ ubuf0 soff n0))
    as (Hr & Hclr & Hset & _).
  rewrite <- Hty in Hr, Hclr, Hset.
  assert (Hn0 : 0 <= n) by lia.
  pose proof (preproc_backend_stage_eq cmp type ubuf1 soff n cbuf1 doff level chdr Hn0)
    as Hb.
  cbv zeta in Hb. fold r in Hb.
  rewrite <- (preproc_compress_stages cmp ubuf soff srclen cbuf doff dstlen level
                chdr props_ cbuf1 type n ubuf1 Hst) in Hb.
  fold res in Hb. fold compressed in Hb. destruct Hb as [_ Hb].
  destruct compressed eqn:Ec.
  - destruct Hb as (_ & Hlen & Htb & Hbe & Hout). fold tb in Htb.
    split; [split; [exact Hr|exact Htb]|].
    split; [rewrite Htb, Hset; reflexivity|].
    split; [|discriminate].
    intros _. split; [exact Hlen|]. split; [exact Hbe|]. split; [exact Hout|].
    intros dec obuf ooff dl lvl ch. unfold preproc_dec_backend.
    rewrite Htb, Hset. cbn [negb Z.eqb PREPROC_COMPRESSED].
    rewrite Hbe, be_value_be_bytes_small by (change (256 ^ Z.of_nat 8) with (2 ^ 64); lia).
    rewrite Hlen.
    replace (c_dstlen r + 9 - 1 - 8) with (c_dstlen r) by lia.
    replace (doff + 1 + 8)%nat with (doff + 9)%nat by lia.
    reflexivity.
  - destruct Hb as (_ & Hlen & Htb & Hdata). fold tb in Htb.
    split; [split; [exact Hr|rewrite Htb; symmetry; apply Z.lor_0_r]|].
    split; [rewrite Htb, Hclr; reflexivity|].
    split; [discriminate|].
    intros _. split; [exact Hlen|]. split; [exact Hdata|].
    intros dec obuf ooff dl lvl ch. unfold preproc_dec_backend.
    rewrite Htb, Hclr. cbn [negb Z.eqb].
    rewrite Hlen. replace (n + 1 - 1) with n by lia. reflexivity.
Qed.

(** The preprocessed length is not negative. *)
Lemma preproc_stages_len ubuf soff srclen cbuf doff level props_ cbuf1 type n ubuf1 :
  lzp_inverts X -> delta2_inverts X -> 0 <= srclen ->
  preproc_stages G X ubuf soff srclen cbuf doff level props_
  = (cbuf1, Some (type, n, ubuf1)) ->
  0 <= n.
Proof.
  intros Hl Hd Hs. unfold preproc_stages.
  pose proof (preproc_lzp_stage_eq ubuf soff srclen cbuf doff level) as H1.
  pose proof (lzp_left_inverts ubuf soff srclen cbuf doff level Hl Hs) as H1'.
  destruct (lzp_left G X ubuf soff srclen cbuf doff level) as [[n0 ubuf0] cbuf0].
  destruct H1 as [-> H1].
  assert (Hn0 : 0 <= n0).
  { destruct (lzp_applied G X ubuf soff srclen level).
    - destruct (H1' eq_refl) as [H _]. exact H.
    - destruct (H1 eq_refl) as [-> _]. exact Hs. }
  assert (Hgo : forall t0,
    (let '(type, srclen0, ubuf2, cbuf2) :=
       preproc_delta2_stage G X props_ t0 ubuf0 soff n0 cbuf0 doff in
     (cbuf2, Some (type, srclen0, ubuf2))) = (cbuf1, Some (type, n, ubuf1)) ->
    0 <= n).
  { intros t0.
    pose proof (preproc_delta2_stage_eq props_ t0 ubuf0 soff n0 cbuf0 doff) as H2.
    pose proof (delta2_left_inverts props_ t0 ubuf0 soff n0 cbuf0 doff Hd Hn0) as H2'.
    destruct (preproc_delta2_stage G X props_ t0 ubuf0 soff n0 cbuf0 doff)
      as [[[type' n'] ubuf'] cbuf'].
    intros H. injection H as _ _ <- _.
    destruct (delta2_applied G X props_ ubuf0 soff n0).
    - destruct (H2' eq_refl) as [H _]. exact H.
    - destruct H2 as [_ H2]. destruct (H2 eq_refl) as [-> _]. exact Hn0. }
  destruct (lzp_applied G X ubuf soff srclen level); [apply Hgo|].
  destruct (enable_delta2_encode G); [apply Hgo|discriminate].
Qed.

(** C4: on a chunk where LZP or Delta2 was applied, [preproc_compress]
    returns success although the back end fails or does not shrink the
    data; the type byte is the mask of the transforms applied (bit 0 LZP,
    bit 1 Delta2) with the high bit clear, the preprocessed bytes follow it,
    and [preproc_decompress] undoes the transforms applied, Delta2 before
    LZP, each under its bit, without a call of the back end: whatever
    [dec_func] it is given, it returns 0 and leaves the source bytes, when
    the capacity [*dstlen] it is entered with, which it hands to
    [delta2_decode], has room for the bytes Delta2 was given (asked only
    when the Delta2 bit is set). *)
Theorem preproc_fallback_success
    (cmp : compress_func_ptr) (ubuf : buf) (soff : nat) (srclen : Z)
    (cbuf : buf) (doff : nat) (dstlen level chdr : Z) (props_ : algo_props_t)
    (cbuf1 : buf) (type n : Z) (ubuf1 : buf) :
  lzp_inverts X -> delta2_inverts X -> 0 <= srclen ->
  preproc_stages G X ubuf soff srclen cbuf doff level props_
  = (cbuf1, Some (type, n, ubuf1)) ->
  0 < type ->
  let r := cmp (sub ubuf1 soff (Z.to_nat n)) n level chdr in
  c_rv r < 0 \/ n <= c_dstlen r ->
  let res := preproc_compress G X cmp ubuf soff srclen cbuf doff dstlen
               level chdr props_ in
  let '(n0, ubuf0, _) := lzp_left G X ubuf soff srclen cbuf doff level in
  p_rv res = 0 /\
  nth doff (p_dst res) 0 = type /\
  Z.testbit type 0 = lzp_applied G X ubuf soff srclen level /\
  Z.testbit type 1 = delta2_applied G X props_ ubuf0 soff n0 /\
  Z.testbit type 7 = false /\
  p_dstlen res = n + 1 /\
  sub (p_dst res) (doff + 1) (Z.to_nat n) = sub ubuf1 soff (Z.to_nat n) /\
  forall (dec : compress_func_ptr) (obuf : buf) (ooff : nat) (dl ch : Z),
    (Z.testbit type 1 = true -> n0 <= dl) ->
    let res2 := preproc_decompress X dec (p_dst res) doff (p_dstlen res)
                  obuf ooff dl level ch props_ in
    p_rv res2 = 0 /\ p_dstlen res2 = srclen /\
    sub (p_dst res2) ooff (Z.to_nat srclen) = sub ubuf soff (Z.to_nat srclen).
Proof.
  intros Hl Hd Hs Hst Hty r Hfail res.
  pose proof (preproc_stages_len _ _ _ _ _ _ _ _ _ _ _ Hl Hd Hs Hst) as Hn.
  pose proof (preproc_stages_type _ _ _ _ _ _ _ _ _ _ _ Hst) as Htype.
  pose proof (preproc_lzp_stage_eq ubuf soff srclen cbuf doff level) as H1.
  pose proof (lzp_left_inverts ubuf soff srclen cbuf doff level Hl Hs) as H1'.
  unfold preproc_stages in Hst.
  destruct (lzp_left G X ubuf soff srclen cbuf doff level) as [[n0 ubuf0] cbuf0].
  destruct H1 as [E1 H1]. rewrite E1 in Hst.
  set (la := lzp_applied G X ubuf soff srclen level) in *.
  set (da := delta2_applied G X props_ ubuf0 soff n0) in *.
  destruct (type_bits la da)
    as (Hr & Hclr & _ & Hbl & Hbd & Ht0 & Ht1 & Ht7 & Hmask).
  rewrite <- Htype in Hr, Hclr, Hbl, Hbd, Ht0, Ht1, Ht7, Hmask.
  (* the back end stage *)
  pose proof (preproc_backend_stage_eq cmp type ubuf1 soff n cbuf1 doff level chdr Hn)
    as Hb.
  cbv zeta in Hb. fold r in Hb.
  assert (Hst' : preproc_stages G X ubuf soff srclen cbuf doff level props_
                 = (cbuf1, Some (type, n, ubuf1))).
  { unfold preproc_stages. rewrite E1. exact Hst. }
  rewrite <- (preproc_compress_stages cmp ubuf soff srclen cbuf doff dstlen level
                chdr props_ cbuf1 type n ubuf1 Hst') in Hb.
  fold res in Hb.
  assert (Ec : (-1 <? c_rv r) && (c_dstlen r <? n) = false).
  { destruct Hfail as [Hf|Hf].
    - assert (E : (-1 <? c_rv r) = false) by (apply Z.ltb_ge; lia).
      rewrite E. reflexivity.
    - assert (E : (c_dstlen r <? n) = false) by (apply Z.ltb_ge; lia).
      rewrite E. apply andb_false_r. }
  rewrite Ec in Hb. destruct Hb as (_ & Hrv & Hlen & Htb & Hdata).
  assert (Epos : (0 <? type) = true) by (apply Z.ltb_lt; exact Hty).
  rewrite Epos in Hrv.
  split; [exact Hrv|]. split; [exact Htb|]. split; [exact Ht0|].
  split; [exact Ht1|]. split; [exact Ht7|]. split; [exact Hlen|].
  split; [exact Hdata|].
  (* what the Delta2 stage left *)
  assert (Hn0 : 0 <= n0).
  { destruct la.
    - destruct (H1' eq_refl) as [H _]. exact H.
    - destruct (H1 eq_refl) as [-> _]. exact Hs. }
  assert (Hdl : (if da then
                   forall dstlen',
                     n0 <= dstlen' ->
                     let r' := delta2_decode X (sub ubuf1 soff (Z.to_nat n)) dstlen' in
                     c_rv r' <> -1 /\ c_dstlen r' = n0 /\
                     take (Z.to_nat n0) (c_out r') = sub ubuf0 soff (Z.to_nat n0)
                 else n = n0 /\ ubuf1 = ubuf0)).
  { assert (Hgo : forall t0,
      (let '(type, srclen0, ubuf2, cbuf2) :=
         preproc_delta2_stage G X props_ t0 ubuf0 soff n0 cbuf0 doff in
       (cbuf2, Some (type, srclen0, ubuf2))) = (cbuf1, Some (type, n, ubuf1)) ->
      if da then
        forall dstlen',
          n0 <= dstlen' ->
          let r' := delta2_decode X (sub ubuf1 soff (Z.to_nat n)) dstlen' in
          c_rv r' <> -1 /\ c_dstlen r' = n0 /\
          take (Z.to_nat n0) (c_out r') = sub ubuf0 soff (Z.to_nat n0)
      else n = n0 /\ ubuf1 = ubuf0).
    { intros t0.
      pose proof (preproc_delta2_stage_eq props_ t0 ubuf0 soff n0 cbuf0 doff) as H2.
      pose proof (delta2_left_inverts props_ t0 ubuf0 soff n0 cbuf0 doff Hd Hn0) as H2'.
      destruct (preproc_delta2_stage G X props_ t0 ubuf0 soff n0 cbuf0 doff)
        as [[[type' n'] ubuf'] cbuf'].
      intros H. injection H as _ _ <- <-. fold da in H2, H2'.
      destruct da.
      - destruct (H2' eq_refl) as [_ H]. exact H.
      - destruct H2 as [_ H2]. destruct (H2 eq_refl) as [-> ->]. auto. }
    destruct la; [apply (Hgo _ Hst)|].
    destruct (enable_delta2_encode G); [apply (Hgo _ Hst)|discriminate]. }
  (* decompression *)
  intros dec obuf ooff dl ch Hcap res2. subst res2. unfold preproc_decompress.
  rewrite Htb. unfold preproc_dec_backend. rewrite Hclr. cbn [negb Z.eqb].
  rewrite Hlen. replace (n + 1 - 1) with n by lia.
  unfold preproc_dec_delta2. rewrite Hbd.
  destruct da; cbn [negb].
  - (* Delta2 was applied *)
    specialize (Hdl dl (Hcap Ht1)). cbv zeta in Hdl. rewrite Hdata.
    set (r' := delta2_decode X (sub ubuf1 soff (Z.to_nat n)) dl) in *.
    destruct Hdl as (Hrv' & Hdl' & Hout').
    assert (E : (c_rv r' =? -1) = false) by (apply Z.eqb_neq; exact Hrv').
    rewrite E. cbn [negb].
    assert (Hlo : (Z.to_nat n0 <= length (c_out r'))%nat).
    { apply (f_equal (@length Z)) in Hout'.
      rewrite length_take, length_sub in Hout'. lia. }
    unfold preproc_dec_lzp. rewrite Hbl, Hdl'.
    destruct la; cbn [negb].
    + (* and LZP before it *)
      destruct (H1' eq_refl) as [_ Hlz].
      rewrite sub_memcpy_same' by (rewrite length_sub; reflexivity).
      rewrite sub_memcpy_take by exact Hlo. rewrite Hout'.
      destruct (lzp_decompress X (sub ubuf0 soff (Z.to_nat n0)) (lzp_hash_size X level))
        as [result' out'].
      destruct Hlz as [-> Hout].
      assert (E2 : (srclen <? 0) = false) by (apply Z.ltb_ge; exact Hs).
      rewrite E2, Hmask, Epos. cbn [negb andb p_rv p_dstlen p_dst].
      split; [reflexivity|]. split; [reflexivity|].
      rewrite sub_memcpy_take; [exact Hout|].
      apply (f_equal (@length Z)) in Hout.
      rewrite length_take, length_sub in Hout. lia.
    + (* alone *)
      destruct (H1 eq_refl) as [-> ->].
      rewrite Hmask, Epos. cbn [negb andb p_rv p_dstlen p_dst].
      split; [reflexivity|]. split; [reflexivity|].
      rewrite sub_memcpy_take by exact Hlo. exact Hout'.
  - (* LZP alone *)
    destruct Hdl as [-> ->].
    unfold preproc_dec_lzp. rewrite Hbl.
    destruct la; cbn [negb].
    + destruct (H1' eq_refl) as [_ Hlz]. rewrite Hdata.
      destruct (lzp_decompress X (sub ubuf0 soff (Z.to_nat n0)) (lzp_hash_size X level))
        as [result' out'].
      destruct Hlz as [-> Hout].
      assert (E2 : (srclen <? 0) = false) by (apply Z.ltb_ge; exact Hs).
      rewrite E2, Hmask, Epos. cbn [negb andb p_rv p_dstlen p_dst].
      split; [reflexivity|]. split; [reflexivity|].
      rewrite sub_memcpy_take; [exact Hout|].
      apply (f_equal (@length Z)) in Hout.
      rewrite length_take, length_sub in Hout. lia.
    + (* no stage: excluded by 0 < type *)
      simpl in Htype. lia.
Qed.

End PreprocFacts.

(** ** The stand-ins meet the interfaces *)

Lemma toy_lzp_inverts : lzp_inverts toy.
Proof.
  intros src hashsize. cbn [lzp_compress lzp_decompress toy].
  destruct src as [|a [|b rest]]; cbn [Toy.lzp_compress]; try (intros; lia).
  destruct (a =? b) eqn:E; [apply Z.eqb_eq in E; subst b|intros; lia].
  intros _ _.
  rewrite Nat2Z.id, firstn_all. cbn [Toy.lzp_decompress].
  split; [lia|]. split; [reflexivity|]. apply firstn_all.
Qed.

Lemma length_delta prev l : length (Toy.delta prev l) = length l.
Proof. revert prev. induction l; intros; simpl; auto. Qed.

Lemma undelta_delta prev l : Toy.undelta prev (Toy.delta prev l) = l.
Proof.
  revert prev. induction l as [|x l IH]; intros prev; [reflexivity|].
  cbn [Toy.delta Toy.undelta].
  rewrite Z.lxor_assoc, Z.lxor_nilpotent, Z.lxor_0_r, IH. reflexivity.
Qed.

Lemma toy_delta2_inverts : delta2_inverts toy.
Proof.
  intros src dstlen span. cbn [delta2_encode delta2_decode toy].
  unfold Toy.delta2_encode, Toy.delta2_decode.
  destruct ((Z.of_nat (length src) <? span) || (dstlen <? Z.of_nat (length src)));
    cbn [c_rv c_dstlen c_out]; [congruence|].
  intros _. rewrite Nat2Z.id, length_delta.
  split; [lia|]. split; [lia|]. intros dstlen' Hcap.
  rewrite (take_ge (Toy.delta 0 src)) by (rewrite length_delta; lia).
  rewrite length_delta.
  destruct (dstlen' <? Z.of_nat (length src)) eqn:E;
    [apply Z.ltb_lt in E; lia|]. cbn [c_rv c_dstlen c_out].
  rewrite undelta_delta.
  split; [discriminate|]. split; [reflexivity|]. apply firstn_all.
Qed.

(** A chunk on which the stand-ins for LZP and Delta2 both succeed and the
    back end, a plain copy, does not shrink what they left; the decoder is
    entered with room for five bytes, Delta2 was given four. *)
Lemma preproc_fallback_success_witness :
  let res := preproc_compress G_lzp_delta2 toy Toy.none_compress
               [7; 7; 1; 2; 3] 0 5 [] 0 5 6 0 toy_props in
  p_rv res = 0 /\ nth 0 (p_dst res) 0 = 3 /\
  forall dec, sub (p_dst (preproc_decompress toy dec (p_dst res) 0 (p_dstlen res)
                             [] 0 5 6 0 toy_props)) 0 5
              = [7; 7; 1; 2; 3].
Proof.
  assert (Hst : preproc_stages G_lzp_delta2 toy [7; 7; 1; 2; 3] 0 5 [] 0 6 toy_props
                = ([7; 6; 3; 1], Some (3, 4, [7; 6; 3; 1; 3])))
    by (vm_compute; reflexivity).
  assert (Hs : 0 <= 5) by lia.
  assert (Hty : 0 < 3) by lia.
  assert (Hfail : c_rv (Toy.none_compress (sub [7; 6; 3; 1; 3] 0 (Z.to_nat 4)) 4 6 0) < 0
                  \/ 4 <= c_dstlen (Toy.none_compress
                                      (sub [7; 6; 3; 1; 3] 0 (Z.to_nat 4)) 4 6 0))
    by (right; vm_compute; discriminate).
  pose proof (preproc_fallback_success G_lzp_delta2 toy Toy.none_compress
                [7; 7; 1; 2; 3] 0 5 [] 0 5 6 0 toy_props _ _ _ _
                toy_lzp_inverts toy_delta2_inverts Hs Hst Hty Hfail) as H.
  cbv zeta in H.
  assert (Hleft : lzp_left G_lzp_delta2 toy [7; 7; 1; 2; 3] 0 5 [] 0 6
                  = (4, [7; 1; 2; 3; 3], [7; 1; 2; 3]))
    by (vm_compute; reflexivity).
  rewrite Hleft in H.
  destruct H as (H1 & H2 & _ & _ & _ & _ & _ & H3).
  cbv zeta. split; [exact H1|]. split; [exact H2|].
  intros dec.
  assert (Hcap : Z.testbit 3 1 = true -> 4 <= 5) by (intros _; lia).
  destruct (H3 dec [] 0%nat 5 0 Hcap) as (_ & _ & H4). exact H4.
Defined.

(** A run of twenty bytes: LZP removes one, the back end stores the other
    nineteen in two bytes, and the payload is the type byte 129, the length
    19, then the two bytes. *)
Lemma preproc_payload_layout_witness :
  let res := preproc_compress G_lzp toy Toy.compress
               (replicate 20 7) 0 20 [] 0 20 6 0 toy_props in
  nth 0 (p_dst res) 0 = 129 /\ sub (p_dst res) 1 8 = be_bytes 8 19 /\
  p_dstlen res = 11.
Proof.
  assert (Hst : preproc_stages G_lzp toy (replicate 20 7) 0 20 [] 0 6 toy_props
                = (replicate 19 7, Some (1, 19, replicate 19 7 ++ [7])))
    by (vm_compute; reflexivity).
  assert (Hn : 0 <= 19 < 2 ^ 64) by lia.
  pose proof (preproc_payload_layout G_lzp toy Toy.compress
                (replicate 20 7) 0 20 [] 0 20 6 0 toy_props _ _ _ _ Hst Hn) as H.
  cbv zeta in H. destruct H as ((_ & H1) & _ & H2 & _).
  destruct (H2 ltac:(vm_compute; reflexivity)) as (H3 & H4 & _).
  cbv zeta. split; [|split].
  - rewrite H1. vm_compute. reflexivity.
  - exact H4.
  - rewrite H3. vm_compute. reflexivity.
Defined.

(** ** The frame of a chunk *)

Lemma lxor_range a b n :
  0 < n -> 0 <= a < 2 ^ n -> 0 <= b < 2 ^ n -> 0 <= Z.lxor a b < 2 ^ n.
Proof.
  intros Hn Ha Hb.
  assert (H0 : 0 <= Z.lxor a b) by (apply Z.lxor_nonneg; lia).
  split; [exact H0|].
  destruct (Z.eq_dec (Z.lxor a b) 0) as [->|Hne];
    [apply Z.pow_pos_nonneg; lia|].
  apply Z.log2_lt_pow2; [lia|].
  assert (La : Z.log2 a < n).
  { destruct (Z.eq_dec a 0) as [->|]; [simpl; lia|].
    apply Z.log2_lt_pow2; lia. }
  assert (Lb : Z.log2 b < n).
  { destruct (Z.eq_dec b 0) as [->|]; [simpl; lia|].
    apply Z.log2_lt_pow2; lia. }
  pose proof (Z.log2_lxor a b ltac:(lia) ltac:(lia)). lia.
Qed.

(** A flipped bit changes the byte, and its low eight bits when the bit is
    one of them. *)
Lemma lxor_pow2_neq (x k : Z) : 0 <= k -> Z.lxor x (2 ^ k) <> x.
Proof.
  intros Hk E.
  assert (H : Z.testbit (Z.lxor x (2 ^ k)) k = Z.testbit x k)
    by (rewrite E; reflexivity).
  rewrite Z.lxor_spec, Z.pow2_bits_true in H by lia.
  destruct (Z.testbit x k); discriminate.
Qed.

Lemma lxor_pow2_mod_neq (x k : Z) :
  0 <= k < 8 -> Z.lxor x (2 ^ k) `mod` 256 <> x `mod` 256.
Proof.
  intros Hk E.
  assert (H : Z.testbit (Z.lxor x (2 ^ k) `mod` 2 ^ 8) k
              = Z.testbit (x `mod` 2 ^ 8) k)
    by (change (2 ^ 8) with 256; rewrite E; reflexivity).
  rewrite !Z.mod_pow2_bits_low in H by lia.
  rewrite Z.lxor_spec, Z.pow2_bits_true in H by lia.
  destruct (Z.testbit x k); discriminate.
Qed.

(** Bits 0 to 6 of the flag byte leave [CHSIZE_MASK] as it is. *)
Lemma lxor_pow2_chsize (flag k : Z) :
  0 <= k < 7 ->
  Z.land (Z.lxor flag (2 ^ k)) CHSIZE_MASK = Z.land flag CHSIZE_MASK.
Proof.
  intros Hk. apply Z.bits_inj'. intros n Hn.
  rewrite !Z.land_spec, Z.lxor_spec.
  change CHSIZE_MASK with (2 ^ 7).
  rewrite !Z.pow2_bits_eqb by lia.
  destruct (7 =? n) eqn:E; [|rewrite !andb_false_r; reflexivity].
  apply Z.eqb_eq in E. subst n.
  assert (E : (k =? 7) = false) by (apply Z.eqb_neq; lia).
  rewrite E, xorb_false_r. reflexivity.
Qed.

Lemma flip_bit_app (A B : buf) (x k : Z) :
  flip_bit (A ++ x :: B) (length A) k = A ++ Z.lxor x (2 ^ k) :: B.
Proof.
  unfold flip_bit, memcpy.
  rewrite app_nth2, Nat.sub_diag by lia. cbn [nth length].
  rewrite sub_app_exact.
  replace (A ++ x :: B) with ((A ++ [x]) ++ B)
    by (rewrite <- app_assoc; reflexivity).
  rewrite drop_app_length' by (rewrite length_app; reflexivity).
  reflexivity.
Qed.

(** A flip inside the middle one of three pieces. *)
Lemma flip_bit_mid (A S B : buf) (j : nat) (k : Z) :
  (j < length S)%nat ->
  exists a x b,
    S = a ++ x :: b /\ length a = j /\
    flip_bit (A ++ S ++ B) (length A + j) k
    = A ++ (a ++ Z.lxor x (2 ^ k) :: b) ++ B.
Proof.
  intros Hj.
  destruct (lookup_lt_is_Some_2 S j Hj) as [x Hx].
  exists (take j S), x, (drop (Datatypes.S j) S).
  assert (ES : S = take j S ++ x :: drop (Datatypes.S j) S)
    by (symmetry; apply take_drop_middle; exact Hx).
  assert (La : length (take j S) = j) by (rewrite length_take; lia).
  split; [exact ES|]. split; [exact La|].
  rewrite ES at 1.
  replace (A ++ (take j S ++ x :: drop (Datatypes.S j) S) ++ B)
    with ((A ++ take j S) ++ x :: (drop (Datatypes.S j) S ++ B))
    by (rewrite <- !app_assoc; reflexivity).
  replace (length A + j)%nat with (length (A ++ take j S))
    by (rewrite length_app, La; reflexivity).
  rewrite flip_bit_app, <- !app_assoc. reflexivity.
Qed.

Lemma be_value_one_byte (a b : buf) (x y : Z) :
  x <> y -> be_value (a ++ x :: b) <> be_value (a ++ y :: b).
Proof.
  intros Hxy.
  change (x :: b) with ([x] ++ b). change (y :: b) with ([y] ++ b).
  rewrite !be_value_app.
  change (be_value [x]) with (0 * 256 + x). change (be_value [y]) with (0 * 256 + y).
  assert (Hp : 0 < 256 ^ Z.of_nat (length b)) by (apply Z.pow_pos_nonneg; lia).
  cbn [length app]. intros E.
  assert (E' : x * 256 ^ Z.of_nat (length b) = y * 256 ^ Z.of_nat (length b))
    by lia.
  apply Z.mul_cancel_r in E'; lia.
Qed.

Section Frame.

Variable G : globals.
Variable X : externals.

Hypothesis Hplain : encrypt_type G = 0.
Hypothesis Hmac : mac_bytes G = 4%nat.
Hypothesis Hck : forall (c : buf) (n : nat), length (serialize_checksum X c n) = n.

Local Ltac len_side :=
  rewrite ?length_app, ?length_be_bytes, ?length_sub, ?length_replicate, ?Hck;
  unfold data_off, hdr_off, COMPRESSED_CHUNKSZ, CHUNK_FLAG_SZ, ORIGINAL_CHUNKSZ in *;
  simpl length; rewrite ?Hmac; lia.

Local Ltac through :=
  repeat first
    [ rewrite sub_memcpy_before by len_side
    | rewrite sub_memcpy_after by len_side ].

Lemma frame_layout (tdat : cmp_data) (d : dedup_stage_res) (type len : Z)
    (cseg0 : buf) :
  0 <= len ->
  negb (Z.land type CHSIZE_MASK =? 0) = (ds_rbytes d <? chunksize tdat) ->
  let '(len', hdr, cseg1) := pc_frame_stage G X tdat d type len cseg0 in
  let cseg2 := pc_mac_stage G X type len' hdr cseg1 in
  let trailer := if ds_rbytes d <? chunksize tdat
                 then be_bytes 8 (ds_rbytes d) else [] in
  let field := len + Z.of_nat (length trailer) in
  len' = len + Z.of_nat (data_off G) + Z.of_nat (length trailer) /\
  sub cseg2 0 (Z.to_nat len') =
  be_bytes 8 field
  ++ serialize_checksum X (ds_checksum d) (cksum_bytes G)
  ++ be_bytes 4 (frame_crc G X d type field trailer)
  ++ [type `mod` 256]
  ++ sub cseg0 (data_off G) (Z.to_nat len)
  ++ trailer.
Proof.
  intros Hlen Hbit. unfold pc_frame_stage, pc_mac_stage.
  assert (Ez : (encrypt_type G =? 0) = true) by (apply Z.eqb_eq; exact Hplain).
  rewrite Ez. cbn [negb]. rewrite Hbit.
  set (CK := serialize_checksum X (ds_checksum d) (cksum_bytes G)).
  assert (LCK : length CK = cksum_bytes G) by apply Hck.
  destruct (ds_rbytes d <? chunksize tdat) eqn:Ech.
  - (* the original size is appended *)
    set (c1 := memcpy (memcpy cseg0 0 (be_bytes 8 len)) COMPRESSED_CHUNKSZ CK).
    set (e := Z.to_nat (len + Z.of_nat CHUNK_FLAG_SZ + 8
                        + Z.of_nat (cksum_bytes G + mac_bytes G))).
    set (field := len + Z.of_nat ORIGINAL_CHUNKSZ).
    set (c3 := memcpy (memcpy (memcpy c1 e (be_bytes 8 (ds_rbytes d))) 0
                         (be_bytes 8 field)) (hdr_off G) [type `mod` 256]).
    set (c4 := memzero c3 (COMPRESSED_CHUNKSZ + cksum_bytes G) (mac_bytes G)).
    assert (He : e = (data_off G + Z.to_nat len)%nat) by (subst e; len_side).
    assert (R0 : forall b, sub (memcpy c4 (COMPRESSED_CHUNKSZ + cksum_bytes G) b) 0 8
                           = be_bytes 8 field).
    { intros b. rewrite sub_memcpy_before by len_side.
      subst c4 c3. unfold memzero. through.
      apply sub_memcpy_same'. len_side. }
    assert (R1 : forall b, sub (memcpy c4 (COMPRESSED_CHUNKSZ + cksum_bytes G) b)
                             8 (cksum_bytes G) = CK).
    { intros b. rewrite sub_memcpy_before by len_side.
      subst c4 c3 c1. unfold memzero. through.
      apply sub_memcpy_same'. len_side. }
    assert (R3 : forall b, length b = mac_bytes G ->
                 sub (memcpy c4 (COMPRESSED_CHUNKSZ + cksum_bytes G) b) (hdr_off G) 1
                 = [type `mod` 256]).
    { intros b Hb. rewrite sub_memcpy_after by (rewrite Hb; len_side).
      subst c4 c3. unfold memzero. through.
      apply sub_memcpy_same'. reflexivity. }
    assert (R4 : forall b, length b = mac_bytes G ->
                 sub (memcpy c4 (COMPRESSED_CHUNKSZ + cksum_bytes G) b)
                   (data_off G) (Z.to_nat len)
                 = sub cseg0 (data_off G) (Z.to_nat len)).
    { intros b Hb. rewrite sub_memcpy_after by (rewrite Hb; len_side).
      subst c4 c3 c1. unfold memzero. through. reflexivity. }
    assert (R5 : forall b, length b = mac_bytes G ->
                 sub (memcpy c4 (COMPRESSED_CHUNKSZ + cksum_bytes G) b) e 8
                 = be_bytes 8 (ds_rbytes d)).
    { intros b Hb. rewrite sub_memcpy_after by (rewrite Hb; len_side).
      subst c4 c3. unfold memzero. through.
      apply sub_memcpy_same'. len_side. }
    (* the bytes given to lzma_crc32 *)
    assert (Hh : sub c4 0 (Z.to_nat (len + Z.of_nat CHUNK_FLAG_SZ + 8
                   + Z.of_nat (cksum_bytes G + mac_bytes G) - len))
                 = frame_hdr0 G X d type field).
    { replace (Z.to_nat _) with (8 + (cksum_bytes G + (mac_bytes G + 1)))%nat
        by len_side.
      rewrite !sub_split. unfold frame_hdr0. fold CK. simpl Nat.add.
      apply app_cong; [|apply app_cong; [|apply app_cong]].
      - subst c4 c3. unfold memzero. through. apply sub_memcpy_same'. len_side.
      - subst c4 c3 c1. unfold memzero. through. apply sub_memcpy_same'. len_side.
      - subst c4. unfold memzero. apply sub_memcpy_same'. len_side.
      - subst c4 c3. unfold memzero.
        rewrite sub_memcpy_after by len_side.
        replace (8 + cksum_bytes G + mac_bytes G)%nat with (hdr_off G) by len_side.
        apply sub_memcpy_same'. reflexivity. }
    assert (Ht : sub c4 (Z.to_nat (len + Z.of_nat CHUNK_FLAG_SZ + 8
                   + Z.of_nat (cksum_bytes G + mac_bytes G)
                   + Z.of_nat ORIGINAL_CHUNKSZ - Z.of_nat ORIGINAL_CHUNKSZ))
                   ORIGINAL_CHUNKSZ
                 = be_bytes 8 (ds_rbytes d)).
    { replace (Z.to_nat _) with e by (subst e; len_side).
      subst c4 c3. unfold memzero. through.
      apply sub_memcpy_same'. len_side. }
    fold c1. fold e. fold field. cbv zeta. fold c3. fold c4.
    rewrite Hh, Ht.
    split; [len_side|].
    replace (Z.to_nat _)
      with (8 + (cksum_bytes G + (4 + (1 + (Z.to_nat len + 8)))))%nat by len_side.
    rewrite !sub_split.
    replace (0 + 8 + cksum_bytes G + 4)%nat with (hdr_off G) by len_side.
    replace (hdr_off G + 1)%nat with (data_off G) by len_side.
    replace (data_off G + Z.to_nat len)%nat with e by lia.
    rewrite R0, (R1 _), R3, R4, R5
      by (rewrite length_be_bytes; symmetry; exact Hmac).
    apply app_cong; [reflexivity|]. apply app_cong; [reflexivity|].
    apply app_cong; [|reflexivity].
    simpl Nat.add.
    replace (8 + cksum_bytes G)%nat with (COMPRESSED_CHUNKSZ + cksum_bytes G)%nat
      by reflexivity.
    rewrite sub_memcpy_same' by (rewrite length_be_bytes; reflexivity).
    unfold frame_crc. simpl length.
    change (Z.of_nat 8) with (Z.of_nat ORIGINAL_CHUNKSZ). fold field.
    reflexivity.
  - (* no original size *)
    set (c1 := memcpy (memcpy cseg0 0 (be_bytes 8 len)) COMPRESSED_CHUNKSZ CK).
    set (c3 := memcpy c1 (hdr_off G) [type `mod` 256]).
    set (c4 := memzero c3 (COMPRESSED_CHUNKSZ + cksum_bytes G) (mac_bytes G)).
    assert (Hh : sub c4 0 (Z.to_nat (len + Z.of_nat CHUNK_FLAG_SZ + 8
                   + Z.of_nat (cksum_bytes G + mac_bytes G) - len))
                 = frame_hdr0 G X d type len).
    { replace (Z.to_nat _) with (8 + (cksum_bytes G + (mac_bytes G + 1)))%nat
        by len_side.
      rewrite !sub_split. unfold frame_hdr0. fold CK. simpl Nat.add.
      apply app_cong; [|apply app_cong; [|apply app_cong]].
      - subst c4 c3 c1. unfold memzero. through. apply sub_memcpy_same'. len_side.
      - subst c4 c3 c1. unfold memzero. through. apply sub_memcpy_same'. len_side.
      - subst c4. unfold memzero. apply sub_memcpy_same'. len_side.
      - subst c4 c3. unfold memzero.
        rewrite sub_memcpy_after by len_side.
        replace (8 + cksum_bytes G + mac_bytes G)%nat with (hdr_off G) by len_side.
        apply sub_memcpy_same'. reflexivity. }
    cbv zeta. fold c1. fold c3. fold c4. rewrite Hh.
    simpl length. replace (len + Z.of_nat 0) with len by lia.
    split; [len_side|].
    replace (Z.to_nat _)
      with (8 + (cksum_bytes G + (4 + (1 + Z.to_nat len))))%nat by len_side.
    rewrite !sub_split, app_nil_r.
    replace (0 + 8 + cksum_bytes G + 4)%nat with (hdr_off G) by len_side.
    replace (hdr_off G + 1)%nat with (data_off G) by len_side.
    simpl Nat.add.
    apply app_cong; [|apply app_cong; [|apply app_cong; [|apply app_cong]]].
    + rewrite sub_memcpy_before by len_side.
      subst c4 c3 c1. unfold memzero. through.
      apply sub_memcpy_same'. len_side.
    + rewrite sub_memcpy_before by len_side.
      subst c4 c3 c1. unfold memzero. through.
      apply sub_memcpy_same'. len_side.
    + replace (8 + cksum_bytes G)%nat with (COMPRESSED_CHUNKSZ + cksum_bytes G)%nat
        by reflexivity.
      rewrite sub_memcpy_same' by (rewrite length_be_bytes; reflexivity).
      reflexivity.
    + rewrite sub_memcpy_after by len_side.
      subst c4 c3. unfold memzero. through.
      apply sub_memcpy_same'. reflexivity.
    + rewrite sub_memcpy_after by len_side.
      subst c4 c3 c1. unfold memzero. through. reflexivity.
Qed.

(** The flag byte is the flags, and bit 7 says whether a size follows. *)
Lemma pc_type_chsize type rv d tdat :
  type = COMPRESSED \/ type = UNCOMPRESSED ->
  0 <= rv -> (adapt_mode G = true -> rv < 8) ->
  let t := pc_type G type rv d tdat in
  t `mod` 256 = t /\
  negb (Z.land t CHSIZE_MASK =? 0) = (ds_rbytes d <? chunksize tdat).
Proof.
  intros Ht Hrv Hadapt. cbv zeta.
  rewrite (pc_type_sum G type rv d tdat Ht Hrv Hadapt).
  assert (Ha : 0 <= (if adapt_mode G then rv else 0) < 8).
  { destruct (adapt_mode G); [specialize (Hadapt eq_refl)|]; lia. }
  set (algo := if adapt_mode G then rv else 0) in *.
  assert (Hcases : algo = 0 \/ algo = 1 \/ algo = 2 \/ algo = 3 \/ algo = 4
                   \/ algo = 5 \/ algo = 6 \/ algo = 7) by lia.
  clearbody algo.
  destruct (ds_rbytes d <? chunksize tdat); destruct (preproc_enabled G);
    destruct (dedup_enabled G && ds_valid d);
    destruct Ht as [-> | ->];
    destruct Hcases as [-> | [-> | [-> | [-> | [-> | [-> | [-> | ->]]]]]]];
    vm_compute; split; reflexivity.
Qed.

(** What the writer gets for a chunk when encryption is off: the length
    field, the checksum, the CRC32, the flag byte, the payload and, under
    [CHSIZE_MASK], the original size. *)
Lemma perform_compress_written (tdat : cmp_data) (flag : Z) (t' : cmp_data) :
  perform_compress G X tdat = Some (flag, t') ->
  let '(d, (_, len, rv, cseg), ubuf) := pc_payload G X tdat in
  0 <= len -> (adapt_mode G = true -> rv < 8) ->
  let trailer := if ds_rbytes d <? chunksize tdat
                 then be_bytes 8 (ds_rbytes d) else [] in
  let field := len + Z.of_nat (length trailer) in
  len_cmp t' = len + Z.of_nat (data_off G) + Z.of_nat (length trailer) /\
  written t' =
  be_bytes 8 field
  ++ serialize_checksum X (ds_checksum d) (cksum_bytes G)
  ++ be_bytes 4 (frame_crc G X d flag field trailer)
  ++ [flag]
  ++ sub cseg (data_off G) (Z.to_nat len)
  ++ trailer /\
  flag `mod` 256 = flag /\
  negb (Z.land flag CHSIZE_MASK =? 0) = (ds_rbytes d <? chunksize tdat) /\
  uncompressed_chunk t' = ubuf /\ checksum t' = ds_checksum d.
Proof.
  unfold perform_compress, pc_payload.
  destruct (pc_compress_stage G X tdat (pc_dedup_stage G X tdat))
    as [[[rv0 cs] ubuf] cseg0].
  pose proof (pc_sanity_stage_type G (rbytes tdat) (pc_dedup_stage G X tdat)
                rv0 cs ubuf cseg0) as Hs.
  destruct (pc_sanity_stage G (rbytes tdat) (pc_dedup_stage G X tdat)
              rv0 cs ubuf cseg0) as [[[type len] rv] cseg].
  destruct Hs as (Ht & _ & Hrv).
  unfold pc_encrypt_stage.
  assert (Ez : (encrypt_type G =? 0) = true) by (apply Z.eqb_eq; exact Hplain).
  rewrite Ez. cbn [negb].
  set (d := pc_dedup_stage G X tdat) in *.
  intros H Hlen Hadapt.
  assert (Ht' : type = COMPRESSED \/ type = UNCOMPRESSED)
    by (rewrite Ht; destruct ((rbytes tdat <=? cs) || (rv0 <? 0)); auto).
  assert (Hrv0 : 0 <= rv) by lia.
  destruct (pc_type_chsize type rv d tdat Ht' Hrv0 Hadapt) as [Hmod Hbit].
  pose proof (frame_layout tdat d (pc_type G type rv d tdat) len cseg Hlen Hbit) as Hf.
  destruct (pc_frame_stage G X tdat d (pc_type G type rv d tdat) len cseg)
    as [[len' hdr] cseg2].
  injection H as Hflag Ht2. cbv zeta in Hf. destruct Hf as [Hl Hw].
  cbv zeta. subst t'. unfold written. cbn [len_cmp cmp_seg].
  split; [exact Hl|].
  assert (Hff : flag `mod` 256 = flag)
    by (rewrite <- Hflag at 1; rewrite Z.mod_mod by lia; exact Hflag).
  split; [|split; [exact Hff|split; [|split; reflexivity]]].
  - rewrite Hw, Hflag. unfold frame_crc, frame_hdr0. rewrite Hflag, Hff.
    reflexivity.
  - rewrite <- Hflag, Hmod. exact Hbit.
Qed.

(** The reader loop on a frame: the length field, then the rest of the
    frame as the chunk. *)
Lemma read_chunk_frame (tdat0 : cmp_data) (cs n field : Z) (body rest : buf) :
  0 < field < 2 ^ 64 -> field <= cs + 256 ->
  Z.of_nat (length body)
  = field + Z.of_nat (cksum_bytes G + mac_bytes G + CHUNK_FLAG_SZ) ->
  exists td,
    read_chunk G tdat0 cs n ((be_bytes 8 field ++ body) ++ rest) = ReadChunk td rest
    /\ compressed_chunk td = memcpy (compressed_chunk tdat0) 0 body
    /\ uncompressed_chunk td = uncompressed_chunk tdat0
    /\ rbytes td = Z.of_nat (length body) /\ len_cmp td = field
    /\ len_cmp_be td = be_bytes 8 field /\ chunksize td = chunksize tdat0
    /\ decompress td = decompress tdat0 /\ cksum_mt td = cksum_mt tdat0
    /\ level td = level tdat0 /\ props td = props tdat0.
Proof.
  intros Hf Hcs Hbody. unfold read_chunk, Read.
  rewrite <- !app_assoc.
  change (Z.to_nat 8) with 8%nat.
  rewrite take_app_length' by (rewrite length_be_bytes; reflexivity).
  rewrite drop_app_length' by (rewrite length_be_bytes; reflexivity).
  rewrite length_be_bytes. cbn [Nat.eqb negb].
  rewrite be_value_be_bytes_small by (change (256 ^ Z.of_nat 8) with (2 ^ 64); lia).
  destruct (cs + 256 <? field) eqn:E1; [apply Z.ltb_lt in E1; lia|].
  destruct (field =? 0) eqn:E2; [apply Z.eqb_eq in E2; lia|].
  rewrite <- Hbody, Nat2Z.id.
  rewrite take_app_length' by reflexivity.
  rewrite drop_app_length' by reflexivity.
  rewrite Z.ltb_irrefl.
  eexists. split; [reflexivity|]. cbn. repeat split; reflexivity.
Qed.

(** A frame with another payload of the same length. *)
Lemma with_payload_frame (hd P P' T : buf) :
  length hd = data_off G -> length P' = length P ->
  with_payload G (hd ++ P ++ T) P' = hd ++ P' ++ T.
Proof.
  intros Hh Hp. unfold with_payload.
  rewrite take_app_length' by (symmetry; exact Hh).
  rewrite <- Hh, Hp, drop_app_add' by reflexivity.
  rewrite drop_app_length' by reflexivity. reflexivity.
Qed.

(** The first block of [perform_decompress] and the CRC32 check on a chunk
    whose mac slot holds the CRC32 of its header and its original size:
    the check passes whatever the payload. *)
Lemma pd_verify_frame (td : cmp_data) (cb0 CK : buf) (crc flag field : Z)
    (P T : buf) :
  crc32_streams X ->
  length CK = cksum_bytes G ->
  compressed_chunk td = memcpy cb0 0 (CK ++ be_bytes 4 crc ++ [flag] ++ P ++ T) ->
  len_cmp_be td = be_bytes 8 field ->
  rbytes td = Z.of_nat (length (CK ++ be_bytes 4 crc ++ [flag] ++ P ++ T)) ->
  len_cmp td = Z.of_nat (length P + length T) ->
  (if negb (Z.land flag CHSIZE_MASK =? 0) then length T = 8%nat else T = []) ->
  crc = (let c := lzma_crc32 X (be_bytes 8 field ++ CK
                                ++ replicate (mac_bytes G) 0 ++ [flag]) 0 in
         match T with [] => c | _ => lzma_crc32 X T c end) ->
  let '(HDR, rbytes_, len, cs) := pd_header G td in
  HDR = flag /\ len = Z.of_nat (length P) /\
  cs = (if negb (Z.land flag CHSIZE_MASK =? 0) then be_value T else chunksize td) /\
  exists cb,
    pd_verify G X td HDR rbytes_ len
    = inr (deserialize_checksum X CK (cksum_bytes G), cb)
    /\ sub cb (cksum_bytes G + mac_bytes G + CHUNK_FLAG_SZ) (length P) = P.
Proof.
  intros [Hstream Hrange] LCK Hcb Hbe Hrb Hlc HT Hcrc.
  unfold pd_header, pd_verify, pd_crc2.
  assert (Ez : (encrypt_type G =? 0) = true) by (apply Z.eqb_eq; exact Hplain).
  assert (Em : (0 <? mac_bytes G)%nat = true) by (rewrite Hmac; reflexivity).
  assert (Hflag : nth (cksum_bytes G + mac_bytes G) (compressed_chunk td) 0 = flag).
  { rewrite Hcb, nth_memcpy_in by (rewrite !length_app, length_be_bytes; simpl; lia).
    rewrite Nat.sub_0_r, app_nth2 by lia.
    rewrite app_nth2 by (rewrite length_be_bytes; lia).
    rewrite length_be_bytes, LCK, Hmac.
    replace (cksum_bytes G + 4 - cksum_bytes G - 4)%nat with 0%nat by lia.
    reflexivity. }
  rewrite Hflag, Ez, Em. cbn [negb].
  set (body := CK ++ be_bytes 4 crc ++ [flag] ++ P ++ T) in *.
  assert (Lb : length body = (cksum_bytes G + 4 + 1 + length P + length T)%nat).
  { subst body. rewrite !length_app, length_be_bytes, LCK. simpl. lia. }
  (* the regions of the chunk *)
  assert (Rck : sub (compressed_chunk td) 0 (cksum_bytes G) = CK).
  { rewrite Hcb. rewrite sub_memcpy_prefix by lia.
    subst body. rewrite <- LCK. apply sub_app_exact. }
  assert (Rmac : sub (compressed_chunk td) (cksum_bytes G) 4 = be_bytes 4 crc).
  { rewrite Hcb.
    replace (cksum_bytes G) with (0 + cksum_bytes G)%nat at 1 by lia.
    rewrite <- (sub_sub _ 0 (length body)) by lia.
    rewrite sub_memcpy_same. subst body.
    rewrite <- LCK. replace (length CK) with (length CK + 0)%nat at 1 by lia.
    rewrite sub_app_r.
    rewrite <- (length_be_bytes 4 crc) at 2. apply sub_app_exact. }
  assert (Rrest : forall off n, (cksum_bytes G + 4 <= off)%nat ->
            (off + n <= length body)%nat ->
            sub (memzero (compressed_chunk td) (cksum_bytes G) (mac_bytes G)) off n
            = sub body off n).
  { intros off n H1 H2. unfold memzero.
    rewrite sub_memcpy_after by (rewrite length_replicate, Hmac; lia).
    rewrite Hcb.
    replace off with (0 + off)%nat at 1 by lia.
    rewrite <- (sub_sub _ 0 (length body)) by lia.
    rewrite sub_memcpy_same. reflexivity. }
  assert (Rflag : sub body (cksum_bytes G + 4) 1 = [flag]).
  { subst body.
    replace (CK ++ be_bytes 4 crc ++ [flag] ++ P ++ T)
      with ((CK ++ be_bytes 4 crc) ++ [flag] ++ P ++ T)
      by (rewrite <- !app_assoc; reflexivity).
    apply sub_app_mid'; [rewrite length_app, length_be_bytes; lia|reflexivity]. }
  assert (RP : sub body (cksum_bytes G + 4 + 1) (length P) = P).
  { subst body.
    replace (CK ++ be_bytes 4 crc ++ [flag] ++ P ++ T)
      with ((CK ++ be_bytes 4 crc ++ [flag]) ++ P ++ T)
      by (rewrite <- !app_assoc; reflexivity).
    apply sub_app_mid'; [rewrite !length_app, length_be_bytes; simpl; lia|reflexivity]. }
  assert (RT : sub body (cksum_bytes G + 4 + 1 + length P) (length T) = T).
  { subst body.
    replace (CK ++ be_bytes 4 crc ++ [flag] ++ P ++ T)
      with ((CK ++ be_bytes 4 crc ++ [flag] ++ P) ++ T ++ [])
      by (rewrite app_nil_r, <- !app_assoc; reflexivity).
    apply sub_app_mid'; [rewrite !length_app, length_be_bytes; simpl; lia|reflexivity]. }
  set (cb := memzero (compressed_chunk td) (cksum_bytes G) (mac_bytes G)) in *.
  assert (Rhdr : sub cb 0 (cksum_bytes G + mac_bytes G + CHUNK_FLAG_SZ)
                 = CK ++ replicate (mac_bytes G) 0 ++ [flag]).
  { rewrite !sub_split, <- app_assoc. simpl Nat.add.
    apply app_cong; [|apply app_cong].
    - subst cb. unfold memzero. rewrite sub_memcpy_before by lia. exact Rck.
    - subst cb. unfold memzero. apply sub_memcpy_same'.
      rewrite length_replicate. reflexivity.
    - rewrite Hmac. unfold CHUNK_FLAG_SZ.
      rewrite Rrest by lia. exact Rflag. }
  assert (Hcrc1 : be_value (be_bytes 4 crc) = crc).
  { apply be_value_be_bytes_small. change (256 ^ Z.of_nat 4) with (2 ^ 32).
    rewrite Hcrc. cbv zeta. destruct T; apply Hrange. }
  assert (Rck' : sub cb 0 (cksum_bytes G) = CK).
  { subst cb. unfold memzero. rewrite sub_memcpy_before by lia. exact Rck. }
  assert (RP' : sub cb (cksum_bytes G + mac_bytes G + CHUNK_FLAG_SZ) (length P) = P).
  { rewrite Hmac. unfold CHUNK_FLAG_SZ. rewrite Rrest by lia. exact RP. }
  rewrite Rmac, Hcrc1, Hbe, Rhdr, <- Hstream.
  destruct (negb (Z.land flag CHSIZE_MASK =? 0)) eqn:Eb.
  - (* the original size follows the payload *)
    assert (Eoff : Z.to_nat (rbytes td - Z.of_nat ORIGINAL_CHUNKSZ)
                   = (cksum_bytes G + 4 + 1 + length P)%nat)
      by (rewrite Hrb, Lb; unfold ORIGINAL_CHUNKSZ; lia).
    rewrite Eoff. unfold ORIGINAL_CHUNKSZ.
    assert (RT8 : sub cb (cksum_bytes G + 4 + 1 + length P) 8 = T).
    { rewrite <- HT. rewrite Rrest by lia. exact RT. }
    assert (RT8' : sub (compressed_chunk td) (cksum_bytes G + 4 + 1 + length P) 8 = T).
    { rewrite <- HT. rewrite Hcb.
      replace (cksum_bytes G + 4 + 1 + length P)%nat
        with (0 + (cksum_bytes G + 4 + 1 + length P))%nat at 1 by lia.
      rewrite <- (sub_sub _ 0 (length body)) by lia.
      rewrite sub_memcpy_same. exact RT. }
    rewrite RT8, RT8'.
    split; [reflexivity|]. split; [rewrite Hlc, HT; lia|]. split; [reflexivity|].
    exists cb.
    assert (Ecrc : crc = lzma_crc32 X T
              (lzma_crc32 X (be_bytes 8 field ++ CK
                             ++ replicate (mac_bytes G) 0 ++ [flag]) 0)).
    { rewrite Hcrc. cbv zeta. destruct T; [discriminate|reflexivity]. }
    rewrite ?Eb, <- Ecrc, Z.eqb_refl. cbn [negb]. rewrite Rck'.
    split; [reflexivity|exact RP'].
  - (* no original size *)
    subst T. simpl length in *.
    split; [reflexivity|]. split; [rewrite Hlc; lia|]. split; [reflexivity|].
    exists cb. cbv zeta in Hcrc.
    rewrite ?Eb, <- Hcrc, Z.eqb_refl. cbn [negb]. rewrite Rck'.
    split; [reflexivity|exact RP'].
Qed.

(** The first block of [perform_decompress] and the CRC32 check on a chunk
    with any four bytes [M] in its mac slot: the check compares them with
    the CRC32 of the length field, the header with the mac slot zeroed and
    the original size. *)
Lemma pd_verify_any (td : cmp_data) (cb0 LB CK M : buf) (flag : Z) (P T : buf) :
  crc32_streams X ->
  length CK = cksum_bytes G -> length M = 4%nat ->
  compressed_chunk td = memcpy cb0 0 (CK ++ M ++ [flag] ++ P ++ T) ->
  len_cmp_be td = LB ->
  rbytes td = Z.of_nat (length (CK ++ M ++ [flag] ++ P ++ T)) ->
  (if negb (Z.land flag CHSIZE_MASK =? 0) then length T = 8%nat else T = []) ->
  let '(HDR, rbytes_, len, cs) := pd_header G td in
  pd_verify G X td HDR rbytes_ len
  = if negb (be_value M =? lzma_crc32 X (LB ++ CK ++ replicate (mac_bytes G) 0
                                          ++ [flag] ++ T) 0)
    then inl HeaderCrcVerificationFailed
    else inr (deserialize_checksum X CK (cksum_bytes G),
              memzero (compressed_chunk td) (cksum_bytes G) (mac_bytes G)).
Proof.
  intros [Hstream Hrange] LCK LM Hcb Hbe Hrb HT.
  unfold pd_header, pd_verify, pd_crc2.
  assert (Ez : (encrypt_type G =? 0) = true) by (apply Z.eqb_eq; exact Hplain).
  assert (Em : (0 <? mac_bytes G)%nat = true) by (rewrite Hmac; reflexivity).
  assert (Hflag : nth (cksum_bytes G + mac_bytes G) (compressed_chunk td) 0 = flag).
  { rewrite Hcb, nth_memcpy_in by (rewrite !length_app, LM; simpl; lia).
    rewrite Nat.sub_0_r, app_nth2 by lia.
    rewrite app_nth2 by (rewrite LM; lia).
    rewrite LM, LCK, Hmac.
    replace (cksum_bytes G + 4 - cksum_bytes G - 4)%nat with 0%nat by lia.
    reflexivity. }
  rewrite Hflag, Ez, Em. cbn [negb].
  set (body := CK ++ M ++ [flag] ++ P ++ T) in *.
  assert (Lb : length body = (cksum_bytes G + 4 + 1 + length P + length T)%nat).
  { subst body. rewrite !length_app, LM, LCK. simpl. lia. }
  assert (Rck : sub (compressed_chunk td) 0 (cksum_bytes G) = CK).
  { rewrite Hcb. rewrite sub_memcpy_prefix by lia.
    subst body. rewrite <- LCK. apply sub_app_exact. }
  assert (Rmac : sub (compressed_chunk td) (cksum_bytes G) 4 = M).
  { rewrite Hcb.
    replace (cksum_bytes G) with (0 + cksum_bytes G)%nat at 1 by lia.
    rewrite <- (sub_sub _ 0 (length body)) by lia.
    rewrite sub_memcpy_same. subst body.
    rewrite <- LCK. replace (length CK) with (length CK + 0)%nat at 1 by lia.
    rewrite sub_app_r.
    rewrite <- LM at 1. apply sub_app_exact. }
  assert (Rrest : forall off n, (cksum_bytes G + 4 <= off)%nat ->
            (off + n <= length body)%nat ->
            sub (memzero (compressed_chunk td) (cksum_bytes G) (mac_bytes G)) off n
            = sub body off n).
  { intros off n H1 H2. unfold memzero.
    rewrite sub_memcpy_after by (rewrite length_replicate, Hmac; lia).
    rewrite Hcb.
    replace off with (0 + off)%nat at 1 by lia.
    rewrite <- (sub_sub _ 0 (length body)) by lia.
    rewrite sub_memcpy_same. reflexivity. }
  assert (Rflag : sub body (cksum_bytes G + 4) 1 = [flag]).
  { subst body.
    replace (CK ++ M ++ [flag] ++ P ++ T)
      with ((CK ++ M) ++ [flag] ++ P ++ T)
      by (rewrite <- !app_assoc; reflexivity).
    apply sub_app_mid'; [rewrite length_app, LM; lia|reflexivity]. }
  assert (RT : sub body (cksum_bytes G + 4 + 1 + length P) (length T) = T).
  { subst body.
    replace (CK ++ M ++ [flag] ++ P ++ T)
      with ((CK ++ M ++ [flag] ++ P) ++ T ++ [])
      by (rewrite app_nil_r, <- !app_assoc; reflexivity).
    apply sub_app_mid'; [rewrite !length_app, LM; simpl; lia|reflexivity]. }
  set (cb := memzero (compressed_chunk td) (cksum_bytes G) (mac_bytes G)) in *.
  assert (Rhdr : sub cb 0 (cksum_bytes G + mac_bytes G + CHUNK_FLAG_SZ)
                 = CK ++ replicate (mac_bytes G) 0 ++ [flag]).
  { rewrite !sub_split, <- app_assoc. simpl Nat.add.
    apply app_cong; [|apply app_cong].
    - subst cb. unfold memzero. rewrite sub_memcpy_before by lia. exact Rck.
    - subst cb. unfold memzero. apply sub_memcpy_same'.
      rewrite length_replicate. reflexivity.
    - rewrite Hmac. unfold CHUNK_FLAG_SZ.
      rewrite Rrest by lia. exact Rflag. }
  assert (Rck' : sub cb 0 (cksum_bytes G) = CK).
  { subst cb. unfold memzero. rewrite sub_memcpy_before by lia. exact Rck. }
  rewrite Rmac, Hbe, Rhdr, <- Hstream, Rck'.
  destruct (negb (Z.land flag CHSIZE_MASK =? 0)) eqn:Eb.
  - assert (Eoff : Z.to_nat (rbytes td - Z.of_nat ORIGINAL_CHUNKSZ)
                   = (cksum_bytes G + 4 + 1 + length P)%nat)
      by (rewrite Hrb, Lb; unfold ORIGINAL_CHUNKSZ; lia).
    rewrite Eoff. unfold ORIGINAL_CHUNKSZ.
    assert (RT8 : sub cb (cksum_bytes G + 4 + 1 + length P) 8 = T).
    { rewrite <- HT. rewrite Rrest by lia. exact RT. }
    rewrite ?Eb, RT8, <- Hstream, <- !app_assoc. reflexivity.
  - subst T. rewrite ?Eb, ?app_nil_r, <- ?app_assoc. reflexivity.
Qed.

(** A frame whose mac slot does not hold the CRC32 of its header and its
    original size is read by the reader loop and refused by
    [perform_decompress] at the CRC32 check. *)
Lemma frame_crc_refused (tdat0 : cmp_data) (cs n field : Z)
    (CK M : buf) (flag : Z) (P T rest : buf) :
  crc32_streams X ->
  length CK = cksum_bytes G -> length M = 4%nat ->
  0 < field < 2 ^ 64 -> field <= cs + 256 ->
  field = Z.of_nat (length P + length T) ->
  (if negb (Z.land flag CHSIZE_MASK =? 0) then length T = 8%nat else T = []) ->
  be_value M <> lzma_crc32 X (be_bytes 8 field ++ CK ++ replicate (mac_bytes G) 0
                               ++ [flag] ++ T) 0 ->
  exists td,
    read_chunk G tdat0 cs n
      ((be_bytes 8 field ++ CK ++ M ++ [flag] ++ P ++ T) ++ rest)
    = ReadChunk td rest /\
    perform_decompress G X td = inl HeaderCrcVerificationFailed.
Proof.
  intros Hcrc LCK LM Hf Hcs Hfield HT Hne.
  set (body := CK ++ M ++ [flag] ++ P ++ T).
  assert (Lb : Z.of_nat (length body)
               = field + Z.of_nat (cksum_bytes G + mac_bytes G + CHUNK_FLAG_SZ)).
  { subst body. rewrite !length_app, LCK, LM, Hmac, Hfield.
    unfold CHUNK_FLAG_SZ. simpl length. lia. }
  destruct (read_chunk_frame tdat0 cs n field body rest Hf Hcs Lb)
    as (td & Hrd & Hcb & _ & Hrb & _ & Hbe & _).
  exists td. split; [exact Hrd|].
  pose proof (pd_verify_any td (compressed_chunk tdat0) (be_bytes 8 field) CK M
                flag P T Hcrc LCK LM Hcb Hbe Hrb HT) as Hv.
  unfold perform_decompress.
  destruct (pd_header G td) as [[[HDR rbytes_] len_] cs_].
  rewrite Hv.
  apply Z.eqb_neq in Hne. rewrite Hne. reflexivity.
Qed.

(** Two buffers that differ in one byte, under [crc32_detects]. *)
Lemma crc_one_byte (p a b s : buf) (x y c : Z) :
  crc32_detects X -> x `mod` 256 <> y `mod` 256 ->
  lzma_crc32 X (p ++ (a ++ x :: b) ++ s) c
  <> lzma_crc32 X (p ++ (a ++ y :: b) ++ s) c.
Proof.
  intros Hdet Hxy.
  replace (p ++ (a ++ x :: b) ++ s) with ((p ++ a) ++ x :: (b ++ s))
    by (rewrite <- !app_assoc; reflexivity).
  replace (p ++ (a ++ y :: b) ++ s) with ((p ++ a) ++ y :: (b ++ s))
    by (rewrite <- !app_assoc; reflexivity).
  apply Hdet, Hxy.
Qed.

(** C2 (as amended): with encryption off, the mac field [perform_compress]
    writes is the CRC32 of the chunk header (the length field, the checksum
    slot with the checksum in it, the mac slot zeroed, the flag byte) and of
    the trailing original size when there is one; the payload is not under
    it.  So the CRC32 check of [perform_decompress] passes on the frame with
    any other bytes in the place of the payload, and hands those bytes on;
    and on the frame with one bit flipped in the checksum slot, in the mac
    slot, among bits 0 to 6 of the flag byte or in the trailing original
    size, [perform_decompress] stops at the CRC32 check, with its
    diagnostic and no plaintext ([crc32_detects]: a CRC32 tells apart two
    buffers that differ in one byte).  So it does on a frame without
    original size with one bit flipped in the length field, whenever the
    reader loop still takes a chunk from the file. *)
Theorem chunk_crc_covers_header_only
    (tdat : cmp_data) (flag : Z) (t' : cmp_data)
    (d : dedup_stage_res) (type len rv : Z) (cseg ubuf : buf) :
  crc32_streams X -> crc32_detects X ->
  perform_compress G X tdat = Some (flag, t') ->
  pc_payload G X tdat = (d, (type, len, rv, cseg), ubuf) ->
  0 < len -> (adapt_mode G = true -> rv < 8) ->
  let trailer := if ds_rbytes d <? chunksize tdat
                 then be_bytes 8 (ds_rbytes d) else [] in
  let field := len + Z.of_nat (length trailer) in
  field < 2 ^ 64 ->
  sub (written t') (COMPRESSED_CHUNKSZ + cksum_bytes G) 4
  = be_bytes 4 (frame_crc G X d flag field trailer) /\
  (forall (payload' : buf) (tdat0 : cmp_data) (cs n : Z) (rest : buf),
     length payload' = Z.to_nat len -> field <= cs + 256 ->
     exists td,
       read_chunk G tdat0 cs n (with_payload G (written t') payload' ++ rest)
       = ReadChunk td rest /\
       let '(HDR, rbytes_, len_, _) := pd_header G td in
       exists ck cb,
         pd_verify G X td HDR rbytes_ len_ = inr (ck, cb) /\
         sub cb (cksum_bytes G + mac_bytes G + CHUNK_FLAG_SZ) (Z.to_nat len)
         = payload') /\
  (forall (i : nat) (k : Z) (tdat0 : cmp_data) (cs n : Z) (rest : buf),
     0 <= k < 8 ->
     (COMPRESSED_CHUNKSZ <= i < hdr_off G)%nat
     \/ (i = hdr_off G /\ k < 7)
     \/ (data_off G + Z.to_nat len <= i < length (written t'))%nat ->
     field <= cs + 256 ->
     exists td,
       read_chunk G tdat0 cs n (flip_bit (written t') i k ++ rest)
       = ReadChunk td rest /\
       perform_decompress G X td = inl HeaderCrcVerificationFailed) /\
  (trailer = [] ->
   forall (i : nat) (k : Z) (tdat0 : cmp_data) (cs n : Z) (rest : buf),
     0 <= k < 8 -> (i < COMPRESSED_CHUNKSZ)%nat ->
     match read_chunk G tdat0 cs n (flip_bit (written t') i k ++ rest) with
     | ReadChunk td _ =>
         perform_decompress G X td = inl HeaderCrcVerificationFailed
     | _ => True
     end).
Proof.
  intros Hcrc Hdet Hpc Hpay.
  pose proof (perform_compress_written tdat flag t' Hpc) as Hw.
  rewrite Hpay in Hw.
  intros Hlen Hadapt trailer field Hfield.
  destruct (Hw ltac:(lia) Hadapt) as (_ & Hwr & Hff & Hbit & _).
  fold trailer in Hwr. fold field in Hwr.
  set (CK := serialize_checksum X (ds_checksum d) (cksum_bytes G)) in *.
  set (crc := frame_crc G X d flag field trailer) in *.
  set (P := sub cseg (data_off G) (Z.to_nat len)) in *.
  assert (LCK : length CK = cksum_bytes G) by apply Hck.
  assert (LP : length P = Z.to_nat len) by apply length_sub.
  assert (Ltr : length trailer = if ds_rbytes d <? chunksize tdat then 8%nat else 0%nat).
  { subst trailer. destruct (ds_rbytes d <? chunksize tdat);
      [apply length_be_bytes|reflexivity]. }
  assert (HT : if negb (Z.land flag CHSIZE_MASK =? 0)
               then length trailer = 8%nat else trailer = []).
  { rewrite Hbit. subst trailer. destruct (ds_rbytes d <? chunksize tdat);
      [apply length_be_bytes|reflexivity]. }
  assert (Hcv : crc = lzma_crc32 X (be_bytes 8 field ++ CK
                                    ++ replicate (mac_bytes G) 0 ++ [flag]
                                    ++ trailer) 0).
  { assert (Hgen : forall H T : buf,
              (let c := lzma_crc32 X H 0 in
               match T with [] => c | _ => lzma_crc32 X T c end)
              = lzma_crc32 X (H ++ T) 0).
    { intros H [|t0 T0]; [rewrite app_nil_r; reflexivity|].
      cbv zeta. rewrite (proj1 Hcrc). reflexivity. }
    subst crc. unfold frame_crc, frame_hdr0. fold CK. rewrite Hff.
    rewrite Hgen, <- !app_assoc. reflexivity. }
  assert (Hcr : be_value (be_bytes 4 crc) = crc).
  { apply be_value_be_bytes_small. change (256 ^ Z.of_nat 4) with (2 ^ 32).
    rewrite Hcv. apply Hcrc. }
  split; [|split; [|split]].
  - rewrite Hwr.
    replace (be_bytes 8 field ++ CK ++ be_bytes 4 crc ++ [flag] ++ P ++ trailer)
      with ((be_bytes 8 field ++ CK) ++ be_bytes 4 crc ++ [flag] ++ P ++ trailer)
      by (rewrite <- !app_assoc; reflexivity).
    apply sub_app_mid'.
    + rewrite length_app, length_be_bytes, LCK. reflexivity.
    + rewrite length_be_bytes. reflexivity.
  - intros payload' tdat0 cs n rest Hp Hcs.
    assert (Hfr : with_payload G (written t') payload'
                  = be_bytes 8 field
                    ++ (CK ++ be_bytes 4 crc ++ [flag] ++ payload' ++ trailer)).
    { rewrite Hwr.
      replace (be_bytes 8 field ++ CK ++ be_bytes 4 crc ++ [flag] ++ P ++ trailer)
        with ((be_bytes 8 field ++ CK ++ be_bytes 4 crc ++ [flag]) ++ P ++ trailer)
        by (rewrite <- !app_assoc; reflexivity).
      rewrite with_payload_frame.
      - rewrite <- !app_assoc. reflexivity.
      - rewrite !length_app, !length_be_bytes, LCK.
        unfold data_off, hdr_off, COMPRESSED_CHUNKSZ, CHUNK_FLAG_SZ.
        rewrite Hmac. simpl. lia.
      - rewrite Hp, LP. reflexivity. }
    set (body := CK ++ be_bytes 4 crc ++ [flag] ++ payload' ++ trailer) in *.
    assert (Lb : Z.of_nat (length body)
                 = field + Z.of_nat (cksum_bytes G + mac_bytes G + CHUNK_FLAG_SZ)).
    { subst body field. rewrite !length_app, length_be_bytes, LCK, Hp, Hmac.
      unfold CHUNK_FLAG_SZ. simpl length. lia. }
    destruct (read_chunk_frame tdat0 cs n field body rest ltac:(lia) Hcs Lb)
      as (td & Hrd & Hcb & _ & Hrb & Hlc & Hbe & _).
    exists td. rewrite Hfr. split; [exact Hrd|].
    assert (Hc : crc = (let c := lzma_crc32 X (be_bytes 8 field ++ CK
                                  ++ replicate (mac_bytes G) 0 ++ [flag]) 0 in
                        match trailer with [] => c | _ => lzma_crc32 X trailer c end)).
    { subst crc. unfold frame_crc, frame_hdr0. fold CK. rewrite Hff. reflexivity. }
    assert (Hlc' : len_cmp td = Z.of_nat (length payload' + length trailer))
      by (rewrite Hlc; subst field; lia).
    pose proof (pd_verify_frame td (compressed_chunk tdat0) CK crc flag field
                  payload' trailer Hcrc LCK Hcb Hbe Hrb Hlc' HT Hc) as Hv.
    destruct (pd_header G td) as [[[HDR rbytes_] len_] cs_].
    destruct Hv as (_ & _ & _ & cb & Hv & Hsub).
    exists (deserialize_checksum X CK (cksum_bytes G)), cb.
    split; [exact Hv|]. rewrite <- Hp. exact Hsub.
  - intros i k tdat0 cs n rest Hk Hi Hcs.
    set (LB := be_bytes 8 field) in *.
    set (Z4 := replicate (mac_bytes G) 0).
    assert (LLB : length LB = 8%nat) by apply length_be_bytes.
    fold Z4 in Hcv.
    assert (Hfl0 : field = Z.of_nat (length P + length trailer))
      by (subst field; rewrite LP; lia).
    assert (Hf0 : 0 < field < 2 ^ 64) by (subst field; lia).
    assert (LW : length (written t')
                 = (data_off G + Z.to_nat len + length trailer)%nat).
    { rewrite Hwr, !length_app, LLB, LCK, length_be_bytes, LP.
      unfold data_off, hdr_off, COMPRESSED_CHUNKSZ, CHUNK_FLAG_SZ.
      rewrite Hmac. simpl length. lia. }
    unfold data_off, hdr_off, COMPRESSED_CHUNKSZ, CHUNK_FLAG_SZ in Hi, LW.
    rewrite Hmac in Hi, LW.
    assert (Hcase :
      (8 <= i < 8 + cksum_bytes G)%nat
      \/ (8 + cksum_bytes G <= i < 8 + cksum_bytes G + 4)%nat
      \/ (i = (8 + cksum_bytes G + 4)%nat /\ k < 7)
      \/ (8 + cksum_bytes G + 4 + 1 + Z.to_nat len <= i
          < 8 + cksum_bytes G + 4 + 1 + Z.to_nat len + length trailer)%nat)
      by lia.
    clear Hi.
    destruct Hcase as [Hi | [Hi | [[Hi Hk7] | Hi]]].
    + (* the checksum slot *)
      destruct (flip_bit_mid LB CK (be_bytes 4 crc ++ [flag] ++ P ++ trailer)
                  (i - 8) k ltac:(lia)) as (a & x & b & ECK & La & Hfl).
      replace (length LB + (i - 8))%nat with i in Hfl by lia.
      rewrite <- Hwr in Hfl. rewrite Hfl.
      apply frame_crc_refused; try assumption.
      * rewrite <- LCK, ECK, !length_app. reflexivity.
      * apply length_be_bytes.
      * rewrite Hcr, Hcv, ECK. fold LB Z4.
        apply crc_one_byte; [exact Hdet|].
        intros E. symmetry in E. revert E. apply lxor_pow2_mod_neq. exact Hk.
    + (* the mac slot *)
      replace (LB ++ CK ++ be_bytes 4 crc ++ [flag] ++ P ++ trailer)
        with ((LB ++ CK) ++ be_bytes 4 crc ++ [flag] ++ P ++ trailer) in Hwr
        by (rewrite <- !app_assoc; reflexivity).
      destruct (flip_bit_mid (LB ++ CK) (be_bytes 4 crc) ([flag] ++ P ++ trailer)
                  (i - 8 - cksum_bytes G) k
                  ltac:(rewrite length_be_bytes; lia))
        as (a & x & b & EM & La & Hfl).
      replace (length (LB ++ CK) + (i - 8 - cksum_bytes G))%nat with i in Hfl
        by (rewrite length_app, LLB, LCK; lia).
      rewrite <- Hwr in Hfl.
      assert (Hfl' : flip_bit (written t') i k
                     = LB ++ CK ++ (a ++ Z.lxor x (2 ^ k) :: b) ++ [flag] ++ P
                          ++ trailer)
        by (rewrite Hfl, <- ?app_assoc; reflexivity).
      rewrite Hfl'.
      apply frame_crc_refused; try assumption.
      * apply (f_equal (@length Z)) in EM.
        rewrite length_be_bytes, !length_app in EM. cbn [length] in EM.
        rewrite !length_app. cbn [length]. lia.
      * fold LB Z4. rewrite <- Hcv, <- Hcr, EM.
        apply be_value_one_byte, lxor_pow2_neq. lia.
    + (* the flag byte *)
      replace (LB ++ CK ++ be_bytes 4 crc ++ [flag] ++ P ++ trailer)
        with ((LB ++ CK ++ be_bytes 4 crc) ++ flag :: (P ++ trailer)) in Hwr
        by (rewrite <- !app_assoc; reflexivity).
      replace i with (length (LB ++ CK ++ be_bytes 4 crc))
        by (rewrite !length_app, LLB, LCK, length_be_bytes; lia).
      assert (Hfl' : flip_bit (written t')
                       (length (LB ++ CK ++ be_bytes 4 crc)) k
                     = LB ++ CK ++ be_bytes 4 crc ++ [Z.lxor flag (2 ^ k)] ++ P
                          ++ trailer)
        by (rewrite Hwr, flip_bit_app, <- ?app_assoc; reflexivity).
      rewrite Hfl'.
      apply frame_crc_refused; try assumption.
      * apply length_be_bytes.
      * rewrite lxor_pow2_chsize by lia. exact HT.
      * rewrite Hcr, Hcv. fold LB Z4.
        replace (LB ++ CK ++ Z4 ++ [flag] ++ trailer)
          with ((LB ++ CK ++ Z4) ++ ([] ++ flag :: []) ++ trailer)
          by (rewrite <- !app_assoc; reflexivity).
        replace (LB ++ CK ++ Z4 ++ [Z.lxor flag (2 ^ k)] ++ trailer)
          with ((LB ++ CK ++ Z4) ++ ([] ++ Z.lxor flag (2 ^ k) :: []) ++ trailer)
          by (rewrite <- !app_assoc; reflexivity).
        apply crc_one_byte; [exact Hdet|].
        intros E. symmetry in E. revert E. apply lxor_pow2_mod_neq. exact Hk.
    + (* the original size *)
      replace (LB ++ CK ++ be_bytes 4 crc ++ [flag] ++ P ++ trailer)
        with ((LB ++ CK ++ be_bytes 4 crc ++ [flag] ++ P) ++ trailer ++ []) in Hwr
        by (rewrite app_nil_r, <- !app_assoc; reflexivity).
      destruct (flip_bit_mid (LB ++ CK ++ be_bytes 4 crc ++ [flag] ++ P) trailer []
                  (i - (8 + cksum_bytes G + 4 + 1 + Z.to_nat len)) k ltac:(lia))
        as (a & x & b & ET & La & Hfl).
      replace (length (LB ++ CK ++ be_bytes 4 crc ++ [flag] ++ P)
               + (i - (8 + cksum_bytes G + 4 + 1 + Z.to_nat len)))%nat with i in Hfl
        by (rewrite !length_app, LLB, LCK, length_be_bytes, LP; simpl length; lia).
      rewrite <- Hwr in Hfl.
      assert (Hfl' : flip_bit (written t') i k
                     = LB ++ CK ++ be_bytes 4 crc ++ [flag] ++ P
                          ++ (a ++ Z.lxor x (2 ^ k) :: b))
        by (rewrite Hfl, app_nil_r, <- ?app_assoc; reflexivity).
      rewrite Hfl'.
      assert (LT' : length (a ++ Z.lxor x (2 ^ k) :: b) = length trailer)
        by (rewrite ET, !length_app; reflexivity).
      apply frame_crc_refused; try assumption.
      * apply length_be_bytes.
      * rewrite LT'. exact Hfl0.
      * destruct (negb (Z.land flag CHSIZE_MASK =? 0)).
        -- rewrite LT'. exact HT.
        -- rewrite HT in Hi. simpl in Hi. lia.
      * rewrite Hcr, Hcv, ET. fold LB Z4.
        replace (LB ++ CK ++ Z4 ++ [flag] ++ a ++ x :: b)
          with ((LB ++ CK ++ Z4 ++ [flag]) ++ (a ++ x :: b) ++ [])
          by (rewrite app_nil_r, <- !app_assoc; reflexivity).
        replace (LB ++ CK ++ Z4 ++ [flag] ++ a ++ Z.lxor x (2 ^ k) :: b)
          with ((LB ++ CK ++ Z4 ++ [flag]) ++ (a ++ Z.lxor x (2 ^ k) :: b) ++ [])
          by (rewrite app_nil_r, <- !app_assoc; reflexivity).
        apply crc_one_byte; [exact Hdet|].
        intros E. symmetry in E. revert E. apply lxor_pow2_mod_neq. exact Hk.
  - (* the length field of a frame without original size *)
    intros Htr i k tdat0 cs n rest Hk Hi.
    unfold COMPRESSED_CHUNKSZ in Hi.
    set (LB := be_bytes 8 field) in *.
    set (Z4 := replicate (mac_bytes G) 0) in *.
    rewrite Htr in Hwr, Hcv, HT.
    destruct (negb (Z.land flag CHSIZE_MASK =? 0)) eqn:Eb; [discriminate HT|].
    destruct (flip_bit_mid [] LB (CK ++ be_bytes 4 crc ++ [flag] ++ P ++ [])
                i k ltac:(subst LB; rewrite length_be_bytes; exact Hi))
      as (a & x & b & ELB & La & Hfl).
    set (LB' := a ++ Z.lxor x (2 ^ k) :: b) in *.
    assert (Hfl' : flip_bit (written t') i k
                   = LB' ++ CK ++ be_bytes 4 crc ++ [flag] ++ P ++ [])
      by (rewrite Hwr; exact Hfl).
    rewrite Hfl'. clear Hfl Hfl'.
    assert (LLB' : length LB' = 8%nat).
    { subst LB'. apply (f_equal (@length Z)) in ELB. subst LB.
      rewrite length_be_bytes, !length_app in ELB. cbn [length] in ELB.
      rewrite !length_app. cbn [length]. lia. }
    assert (Hx : 0 <= x < 256).
    { pose proof (be_bytes_range 8 field) as Hr. fold LB in Hr. rewrite ELB in Hr.
      apply Forall_app in Hr as [_ Hr]. apply Forall_inv in Hr. exact Hr. }
    assert (Hpos : 0 <= be_value LB').
    { apply be_value_range. subst LB'.
      pose proof (be_bytes_range 8 field) as Hr. fold LB in Hr. rewrite ELB in Hr.
      apply Forall_app in Hr as [Ha Hr]. apply Forall_cons_1 in Hr as [_ Hb].
      apply Forall_app. split; [exact Ha|]. apply Forall_cons_2; [|exact Hb].
      change 256 with (2 ^ 8). apply lxor_range; [lia|exact Hx|].
      split; [apply Z.pow_nonneg; lia|apply Z.pow_lt_mono_r; lia]. }
    unfold read_chunk, Read. change (Z.to_nat 8) with 8%nat.
    rewrite <- !app_assoc.
    rewrite take_app_length' by (symmetry; exact LLB').
    rewrite drop_app_length' by (symmetry; exact LLB').
    rewrite LLB'. cbn [Nat.eqb negb].
    set (len' := be_value LB') in *.
    destruct (cs + 256 <? len'); [exact I|].
    destruct (len' =? 0) eqn:E0; [exact I|]. apply Z.eqb_neq in E0.
    set (want := len' + Z.of_nat (cksum_bytes G + mac_bytes G + CHUNK_FLAG_SZ)).
    set (chunk := take (Z.to_nat want)
                    (CK ++ be_bytes 4 crc ++ [flag] ++ P ++ [] ++ rest)).
    destruct (Z.of_nat (length chunk) <? want) eqn:Ew; [exact I|].
    apply Z.ltb_ge in Ew.
    assert (Hchunk : chunk = CK ++ be_bytes 4 crc ++ [flag]
                               ++ take (Z.to_nat len') (P ++ rest) ++ []).
    { subst chunk want. unfold CHUNK_FLAG_SZ. rewrite Hmac.
      replace (CK ++ be_bytes 4 crc ++ [flag] ++ P ++ [] ++ rest)
        with ((CK ++ be_bytes 4 crc ++ [flag]) ++ (P ++ rest))
        by (rewrite <- !app_assoc; reflexivity).
      replace (Z.to_nat (len' + Z.of_nat (cksum_bytes G + 4 + 1)))
        with (length (CK ++ be_bytes 4 crc ++ [flag]) + Z.to_nat len')%nat
        by (rewrite !length_app, LCK, length_be_bytes; simpl length; lia).
      rewrite take_app_add' by reflexivity.
      rewrite app_nil_r, <- !app_assoc. reflexivity. }
    match goal with
    | |- perform_decompress G X ?t = _ => set (td := t)
    end.
    pose proof (pd_verify_any td (compressed_chunk tdat0) LB' CK (be_bytes 4 crc)
                  flag (take (Z.to_nat len') (P ++ rest)) [] Hcrc LCK
                  (length_be_bytes 4 crc)) as Hv.
    rewrite Eb in Hv.
    specialize (Hv ltac:(subst td; cbn [compressed_chunk]; rewrite <- Hchunk;
                         reflexivity)
                   eq_refl
                   ltac:(subst td; cbn [rbytes]; rewrite <- Hchunk; reflexivity)
                   eq_refl).
    unfold perform_decompress.
    destruct (pd_header G td) as [[[HDR rbytes_] len_] cs_].
    rewrite Hv.
    assert (Hne : be_value (be_bytes 4 crc)
                  <> lzma_crc32 X (LB' ++ CK ++ Z4 ++ [flag] ++ []) 0).
    { rewrite Hcr, Hcv, ELB. subst LB'.
      apply (crc_one_byte [] a b (CK ++ Z4 ++ [flag] ++ []) x
               (Z.lxor x (2 ^ k)) 0 Hdet).
      intros E. symmetry in E. revert E. apply lxor_pow2_mod_neq. exact Hk. }
    apply Z.eqb_neq in Hne. fold Z4. rewrite Hne. reflexivity.
Qed.

End Frame.

(** ** The CRC32 stand-in is a running CRC of 32 bits *)

Lemma crc32_bit_range c : 0 <= c < 2 ^ 32 -> 0 <= crc32_bit c < 2 ^ 32.
Proof.
  intros Hc. unfold crc32_bit.
  assert (Hs : 0 <= Z.shiftr c 1 < 2 ^ 32).
  { rewrite Z.shiftr_div_pow2 by lia. change (2 ^ 1) with 2.
    split; [apply Z.div_pos; lia|].
    apply Z.div_lt_upper_bound; lia. }
  destruct (Z.testbit c 0); [|exact Hs].
  apply lxor_range; [lia|exact Hs|lia].
Qed.

Lemma crc32_byte_range c b : 0 <= c < 2 ^ 32 -> 0 <= crc32_byte c b < 2 ^ 32.
Proof.
  intros Hc. unfold crc32_byte.
  assert (Hx : 0 <= Z.lxor c (b `mod` 256) < 2 ^ 32).
  { apply lxor_range; [lia|exact Hc|].
    pose proof (Z.mod_pos_bound b 256 ltac:(lia)). lia. }
  generalize dependent (Z.lxor c (b `mod` 256)). intros x Hx.
  do 8 (apply crc32_bit_range in Hx). exact Hx.
Qed.

Lemma crc32_fold_range (l : buf) c :
  0 <= c < 2 ^ 32 -> 0 <= fold_left crc32_byte l c < 2 ^ 32.
Proof.
  revert c. induction l as [|x l IH]; intros c Hc; simpl; [exact Hc|].
  apply IH, crc32_byte_range, Hc.
Qed.

Lemma crc32_init_range c : 0 <= Z.lxor (c `mod` 2 ^ 32) 4294967295 < 2 ^ 32.
Proof.
  apply lxor_range; [lia| |lia].
  apply Z.mod_pos_bound. lia.
Qed.

Lemma toy_crc32_streams : crc32_streams toy.
Proof.
  split.
  - intros a b c. cbn [lzma_crc32 toy]. unfold crc32.
    rewrite fold_left_app.
    pose proof (crc32_fold_range a _ (crc32_init_range c)) as Hv.
    set (v := fold_left crc32_byte a (Z.lxor (c `mod` 2 ^ 32) 4294967295)) in *.
    assert (Hx : 0 <= Z.lxor v 4294967295 < 2 ^ 32)
      by (apply lxor_range; lia).
    rewrite (Z.mod_small (Z.lxor v 4294967295)) by exact Hx.
    rewrite Z.lxor_assoc, Z.lxor_nilpotent, Z.lxor_0_r. reflexivity.
  - intros b c. cbn [lzma_crc32 toy]. unfold crc32.
    apply lxor_range; [lia| |lia].
    apply crc32_fold_range, crc32_init_range.
Qed.

(** Every step of the stand-in is one to one on the running value. *)
Lemma lxor_cancel_r (a b c : Z) : Z.lxor a c = Z.lxor b c -> a = b.
Proof.
  intros E. apply (f_equal (fun z => Z.lxor z c)) in E.
  rewrite !Z.lxor_assoc, Z.lxor_nilpotent, !Z.lxor_0_r in E. exact E.
Qed.

Lemma lxor_cancel_l (a b c : Z) : Z.lxor c a = Z.lxor c b -> a = b.
Proof.
  rewrite !(Z.lxor_comm c). apply lxor_cancel_r.
Qed.

Lemma crc32_bit_inj c1 c2 :
  0 <= c1 < 2 ^ 32 -> 0 <= c2 < 2 ^ 32 -> crc32_bit c1 = crc32_bit c2 -> c1 = c2.
Proof.
  intros H1 H2 E.
  assert (Hs : forall c, 0 <= c < 2 ^ 32 -> Z.testbit (Z.shiftr c 1) 31 = false).
  { intros c Hc. rewrite Z.shiftr_spec by lia. change (31 + 1) with 32.
    destruct (Z.eq_dec c 0) as [->|Hne]; [apply Z.testbit_0_l|].
    apply Z.bits_above_log2; [lia|]. apply Z.log2_lt_pow2; lia. }
  assert (Hb : forall c, 0 <= c < 2 ^ 32 ->
                         Z.testbit (crc32_bit c) 31 = Z.testbit c 0).
  { intros c Hc. unfold crc32_bit. destruct (Z.testbit c 0).
    - rewrite Z.lxor_spec, Hs by exact Hc. reflexivity.
    - apply Hs, Hc. }
  assert (E0 : Z.testbit c1 0 = Z.testbit c2 0)
    by (rewrite <- !Hb by assumption; rewrite E; reflexivity).
  assert (E1 : Z.shiftr c1 1 = Z.shiftr c2 1).
  { unfold crc32_bit in E. rewrite <- E0 in E.
    destruct (Z.testbit c1 0); [|exact E].
    apply lxor_cancel_r in E. exact E. }
  apply Z.bits_inj'. intros n Hn.
  destruct (Z.eq_dec n 0) as [->|Hn0]; [exact E0|].
  replace n with ((n - 1) + 1) by lia.
  rewrite <- !Z.shiftr_spec by lia. rewrite E1. reflexivity.
Qed.

Lemma crc32_iter_range (n : nat) c :
  0 <= c < 2 ^ 32 -> 0 <= Nat.iter n crc32_bit c < 2 ^ 32.
Proof.
  intros Hc. induction n as [|n IH]; cbn [Nat.iter]; [exact Hc|].
  apply crc32_bit_range, IH.
Qed.

Lemma crc32_iter_inj (n : nat) c1 c2 :
  0 <= c1 < 2 ^ 32 -> 0 <= c2 < 2 ^ 32 ->
  Nat.iter n crc32_bit c1 = Nat.iter n crc32_bit c2 -> c1 = c2.
Proof.
  intros H1 H2. induction n as [|n IH]; cbn [Nat.iter]; [auto|].
  intros E. apply IH. apply crc32_bit_inj; [apply crc32_iter_range, H1
                                            |apply crc32_iter_range, H2|exact E].
Qed.

Lemma crc32_byte_inj s1 s2 x y :
  0 <= s1 < 2 ^ 32 -> 0 <= s2 < 2 ^ 32 ->
  crc32_byte s1 x = crc32_byte s2 y ->
  Z.lxor s1 (x `mod` 256) = Z.lxor s2 (y `mod` 256).
Proof.
  intros H1 H2. unfold crc32_byte. apply crc32_iter_inj.
  - apply lxor_range; [lia|exact H1|].
    pose proof (Z.mod_pos_bound x 256 ltac:(lia)). lia.
  - apply lxor_range; [lia|exact H2|].
    pose proof (Z.mod_pos_bound y 256 ltac:(lia)). lia.
Qed.

Lemma crc32_fold_inj (b : buf) s1 s2 :
  0 <= s1 < 2 ^ 32 -> 0 <= s2 < 2 ^ 32 -> s1 <> s2 ->
  fold_left crc32_byte b s1 <> fold_left crc32_byte b s2.
Proof.
  revert s1 s2. induction b as [|z b IH]; intros s1 s2 H1 H2 Hne; cbn [fold_left];
    [exact Hne|].
  apply IH; [apply crc32_byte_range, H1|apply crc32_byte_range, H2|].
  intros E. apply crc32_byte_inj in E; [|exact H1|exact H2].
  apply lxor_cancel_r in E. contradiction.
Qed.

Lemma toy_crc32_detects : crc32_detects toy.
Proof.
  intros a b x y c Hxy. cbn [lzma_crc32 toy]. unfold crc32.
  rewrite !fold_left_app. cbn [fold_left].
  pose proof (crc32_fold_range a _ (crc32_init_range c)) as Hs.
  set (s := fold_left crc32_byte a (Z.lxor (c `mod` 2 ^ 32) 4294967295)) in *.
  intros E. apply lxor_cancel_r in E. revert E.
  apply crc32_fold_inj; [apply crc32_byte_range, Hs|apply crc32_byte_range, Hs|].
  intros E. apply crc32_byte_inj in E; [|exact Hs|exact Hs].
  apply lxor_cancel_l in E. contradiction.
Qed.

Lemma toy_checksum_serializes : checksum_serializes toy.
Proof.
  intros c n. cbn [serialize_checksum deserialize_checksum toy].
  split; [apply length_sub|].
  rewrite !sub_sub by lia. reflexivity.
Qed.

(** ** The chunk CRC32 on a run of the stand-ins *)

(** A chunk of twenty equal bytes, which the back end stores in two: the
    frame with another payload passes the CRC32 check, the frame with the
    lowest bit of its flag byte (byte 16) flipped is refused by it. *)
Lemma chunk_crc_covers_header_only_witness :
  exists flag t',
    perform_compress G_plain toy (tdat_of Toy.compress G_plain (replicate 20 7) 20)
    = Some (flag, t') /\
    (exists td,
       read_chunk G_plain
         (start_compress_init Toy.compress Toy.decompress toy_props 20 6 14 false)
         20 0 (with_payload G_plain (written t') [6; 20] ++ replicate 8 0)
       = ReadChunk td (replicate 8 0) /\
       let '(HDR, rbytes_, len_, _) := pd_header G_plain td in
       exists ck cb, pd_verify G_plain toy td HDR rbytes_ len_ = inr (ck, cb)) /\
    (exists td,
       read_chunk G_plain
         (start_compress_init Toy.compress Toy.decompress toy_props 20 6 14 false)
         20 0 (flip_bit (written t') 16 0 ++ replicate 8 0)
       = ReadChunk td (replicate 8 0) /\
       perform_decompress G_plain toy td = inl HeaderCrcVerificationFailed).
Proof.
  eexists _, _. split; [vm_compute; reflexivity|].
  edestruct (chunk_crc_covers_header_only G_plain toy eq_refl eq_refl
               (fun c n => proj1 (toy_checksum_serializes c n))
               (tdat_of Toy.compress G_plain (replicate 20 7) 20))
    as (_ & H2 & H3 & _).
  - exact toy_crc32_streams.
  - exact toy_crc32_detects.
  - vm_compute; reflexivity.
  - vm_compute; reflexivity.
  - vm_compute; reflexivity.
  - discriminate.
  - vm_compute; reflexivity.
  - split.
    + destruct (H2 [6; 20]
                  (start_compress_init Toy.compress Toy.decompress toy_props
                     20 6 14 false)
                  20 0 (replicate 8 0) eq_refl ltac:(vm_compute; discriminate))
        as (td & Hrd & Hv).
      exists td. split; [exact Hrd|].
      destruct (pd_header G_plain td) as [[[HDR rbytes_] len_] cs_].
      destruct Hv as (ck & cb & Hv & _). exists ck, cb. exact Hv.
    + apply (H3 16%nat 0
               (start_compress_init Toy.compress Toy.decompress toy_props
                  20 6 14 false)
               20 0 (replicate 8 0)).
      * lia.
      * right. left. split; [reflexivity|lia].
      * vm_compute; discriminate.
Defined.

(** C2 as stated fails, in three places.  In the frame of a chunk of twenty
    bytes 7, stored as the two bytes 7 and 20, flip the lowest bit of the
    first payload byte (byte 17 of the frame): the CRC32 check of
    [perform_decompress] passes, the back end decompresses the payload to
    twenty bytes 6, and the chunk is refused only afterwards, by the
    checksum of the plaintext.  In the frame of a chunk of eight bytes 7
    cut at eight, whose length field is 2, flip bit 1 of the last byte of
    the length field (byte 7): the reader loop of [start_decompress] reads
    a zero length, takes it for the end of the file and stops without a
    diagnostic.  In the frame of the five bytes 1, 135, 177, 106, 158 of a
    file cut at eight, flip bit 7 of the flag byte (byte 16), which is
    [CHSIZE_MASK]: the CRC32 is then computed without the original size,
    here it is the one stored, the check passes, and the chunk is refused
    only by the checksum of the plaintext. *)
Lemma chunk_crc_covers_header_only_counterexample :
  (exists flag t' td,
     perform_compress G_plain toy (tdat_of Toy.compress G_plain (replicate 20 7) 20)
     = Some (flag, t') /\
     read_chunk G_plain
       (start_compress_init Toy.compress Toy.decompress toy_props 20 6 14 false)
       20 0 (flip_bit (written t') 17 0 ++ replicate 8 0)
     = ReadChunk td (replicate 8 0) /\
     (let '(HDR, rbytes_, len_, _) := pd_header G_plain td in
      exists ck cb, pd_verify G_plain toy td HDR rbytes_ len_ = inr (ck, cb)) /\
     perform_decompress G_plain toy td = inl ChecksumsDoNotMatch) /\
  (exists flag t',
     perform_compress G_plain toy (tdat_of Toy.compress G_plain (replicate 8 7) 8)
     = Some (flag, t') /\
     read_chunk G_plain
       (start_compress_init Toy.compress Toy.decompress toy_props 8 6 14 false)
       8 0 (flip_bit (written t') 7 1 ++ be_bytes 8 0)
     = ReadEnd /\
     exists rest,
       start_decompress_loop G_plain toy 8 2
         [start_compress_init Toy.compress Toy.decompress toy_props 8 6 14 false]
         0 (flip_bit (written t') 7 1 ++ be_bytes 8 0) []
       = StreamDone [] rest) /\
  (exists flag t' td,
     perform_compress G_plain toy
       (tdat_of Toy.compress G_plain [1; 135; 177; 106; 158] 8)
     = Some (flag, t') /\
     read_chunk G_plain
       (start_compress_init Toy.compress Toy.decompress toy_props 8 6 14 false)
       8 0 (flip_bit (written t') 16 7 ++ be_bytes 8 0)
     = ReadChunk td (be_bytes 8 0) /\
     (let '(HDR, rbytes_, len_, _) := pd_header G_plain td in
      exists ck cb, pd_verify G_plain toy td HDR rbytes_ len_ = inr (ck, cb)) /\
     perform_decompress G_plain toy td = inl ChecksumsDoNotMatch).
Proof.
  split; [|split].
  - eexists _, _, _. split; [vm_compute; reflexivity|].
    split; [vm_compute; reflexivity|].
    split; [vm_compute; eexists _, _; reflexivity|].
    vm_compute. reflexivity.
  - eexists _, _. split; [vm_compute; reflexivity|].
    split; [vm_compute; reflexivity|].
    eexists. vm_compute. reflexivity.
  - eexists _, _, _. split; [vm_compute; reflexivity|].
    split; [vm_compute; reflexivity|].
    split; [vm_compute; eexists _, _; reflexivity|].
    vm_compute. reflexivity.
Qed.

(** ** The index block of the dedup path *)

Section IndexFacts.

Variable G : globals.
Variable X : externals.

(** [transpose] moves the bytes of the table around and keeps their number. *)
Hypothesis Htr : forall (b : buf) (e : Z) (dir : transpose_dir),
  length (transpose X b e dir) = length b.

Lemma pc_index_stage_ubuf (tdat : cmp_data) (n : Z) (ubuf cseg : buf) :
  (pc_index_stage G X tdat n ubuf cseg).1.2
  = memcpy ubuf (RABIN_HDR_SIZE X)
      (transpose X (sub ubuf (RABIN_HDR_SIZE X) (Z.to_nat n)) 4 ROW).
Proof.
  unfold pc_index_stage. cbv zeta.
  rewrite (sub_memcpy_same' cseg _
             (transpose X (sub ubuf (RABIN_HDR_SIZE X) (Z.to_nat n)) 4 ROW))
    by (rewrite Htr, length_sub; reflexivity).
  destruct (90 <=? n); [|reflexivity].
  destruct (negb _ || _); reflexivity.
Qed.

(** C8 (as amended): the index block of [perform_compress] transposes the
    index with element size 4 into both buffers; LZMA is run on the
    transposed index exactly when the index has 90 bytes or more, with
    [rctx->level] as its level and 255 as its chunk header byte; its output
    is kept with its size when it returned 0 and is smaller, otherwise the
    transposed index stays with the original size.  The index block of
    [perform_decompress] runs LZMA only when the index has 90 bytes or more
    and its stored size is smaller, copies otherwise, and transposes back.
    ([transpose] is taken to write as many bytes as it reads.) *)
Theorem dedup_index_codec (tdat : cmp_data) (n : Z) (ubuf cseg : buf)
    (h : dedupe_hdr) (cbuf ubuf0 : buf)
    (sz : Z) (ubuf' cseg' : buf) (rv : Z) (cbuf1 ubuf1 : buf) :
  let RH := RABIN_HDR_SIZE X in
  let off := (data_off G + RH)%nat in
  let T := transpose X (sub ubuf RH (Z.to_nat n)) 4 ROW in
  let r := lzma_compress X T n (rctx_level tdat) 255 in
  let cmpoff := (cksum_bytes G + mac_bytes G + CHUNK_FLAG_SZ + RH)%nat in
  let rd := lzma_decompress X (sub cbuf cmpoff (Z.to_nat (h_index_sz_cmp h)))
              (h_index_sz h) (rctx_level tdat) 0 in
  pc_index_stage G X tdat n ubuf cseg = (sz, ubuf', cseg') ->
  pd_index_stage G X tdat h cbuf ubuf0 = (rv, cbuf1, ubuf1) ->
  (sub ubuf' RH (Z.to_nat n) = T /\
   if (90 <=? n) && (c_rv r =? 0) && (c_dstlen r <? n)
   then sz = c_dstlen r /\ sub cseg' off (length (c_out r)) = c_out r
   else sz = n /\ sub cseg' off (Z.to_nat n) = T) /\
  (if (90 <=? h_index_sz h) && (h_index_sz_cmp h <? h_index_sz h)
   then rv = c_rv rd /\
        sub ubuf1 RH (Z.to_nat (c_dstlen rd))
        = transpose X (sub (memcpy ubuf0 RH (c_out rd)) RH
                         (Z.to_nat (c_dstlen rd))) 4 COL
   else rv = 0 /\
        sub ubuf1 RH (Z.to_nat (h_index_sz h))
        = transpose X (sub cbuf cmpoff (Z.to_nat (h_index_sz h))) 4 COL).
Proof.
  intros RH off T r cmpoff rd Hc Hd.
  assert (LT : length T = Z.to_nat n)
    by (unfold T; rewrite Htr, length_sub; reflexivity).
  split.
  - pose proof (pc_index_stage_ubuf tdat n ubuf cseg) as Hu.
    rewrite Hc in Hu. cbn [fst snd] in Hu. fold RH in Hu. fold T in Hu.
    assert (HT : sub ubuf' RH (Z.to_nat n) = T)
      by (rewrite Hu; apply sub_memcpy_same'; symmetry; exact LT).
    split; [exact HT|].
    revert Hc. unfold pc_index_stage. cbv zeta.
    fold RH. fold off. fold T.
    rewrite (sub_memcpy_same' _ off T (Z.to_nat n)) by (symmetry; exact LT).
    rewrite (sub_memcpy_same' _ RH T (Z.to_nat n)) by (symmetry; exact LT).
    fold r.
    destruct (90 <=? n); cbn [andb].
    + destruct (c_rv r =? 0); cbn [negb orb andb].
      * rewrite Z.leb_antisym. destruct (c_dstlen r <? n); cbn [negb].
        -- intros [= <- _ <-]. split; [reflexivity|apply sub_memcpy_same].
        -- intros [= <- _ <-]. split; [reflexivity|].
           apply sub_memcpy_same'. symmetry. exact LT.
      * intros [= <- _ <-]. split; [reflexivity|].
        apply sub_memcpy_same'. symmetry. exact LT.
    + intros [= <- _ <-]. split; [reflexivity|].
      apply sub_memcpy_same'. symmetry. exact LT.
  - revert Hd. unfold pd_index_stage. cbv zeta.
    fold RH. fold cmpoff. fold rd.
    destruct ((90 <=? h_index_sz h) && (h_index_sz_cmp h <? h_index_sz h)).
    + intros [= <- _ <-]. split; [reflexivity|].
      rewrite sub_memcpy_same' by (rewrite length_sub; reflexivity).
      apply sub_memcpy_same'. rewrite Htr, length_sub. reflexivity.
    + intros [= <- _ <-]. split; [reflexivity|].
      rewrite sub_memcpy_same' by (rewrite length_sub; reflexivity).
      rewrite (sub_memcpy_same' _ RH _ (Z.to_nat (h_index_sz h)))
        by (rewrite length_sub; reflexivity).
      apply sub_memcpy_same'. rewrite Htr, length_sub. reflexivity.
Qed.

End IndexFacts.

(** The index block at work on an index of 92 bytes, with the stand-ins of
    [toy]: LZMA is run and its two bytes are kept; on the way back the
    stored size 2 is below 92, so LZMA is run again. *)
Lemma dedup_index_codec_witness :
  exists sz ubuf' cseg' rv cbuf1 ubuf1,
    pc_index_stage G_plain toy (tdat_of Toy.compress G_plain (replicate 100 5) 100)
      92 (replicate 100 5) (replicate 120 0) = (sz, ubuf', cseg') /\
    pd_index_stage G_plain toy (tdat_of Toy.compress G_plain (replicate 100 5) 100)
      {| h_blknum := 1; h_index_sz := 92; h_data_sz := 4; h_index_sz_cmp := 2;
         h_data_sz_cmp := 4; h_chunksize := 4 |}
      (replicate 120 0) (replicate 100 0) = (rv, cbuf1, ubuf1) /\
    sz = 2 /\ sub ubuf' 4 92 = replicate 92 5 /\ rv = 0.
Proof.
  eexists _, _, _, _, _, _.
  split; [vm_compute; reflexivity|]. split; [vm_compute; reflexivity|].
  edestruct (dedup_index_codec G_plain toy (fun _ _ _ => eq_refl)
               (tdat_of Toy.compress G_plain (replicate 100 5) 100)
               92 (replicate 100 5) (replicate 120 0)
               {| h_blknum := 1; h_index_sz := 92; h_data_sz := 4;
                  h_index_sz_cmp := 2; h_data_sz_cmp := 4; h_chunksize := 4 |}
               (replicate 120 0) (replicate 100 0))
    as [[H1 [H2 _]] [H3 _]].
  - vm_compute; reflexivity.
  - vm_compute; reflexivity.
  - split; [exact H2|]. split; [exact H1|exact H3].
Defined.

(** C8 as stated fails on the level: with the stand-in for LZMA that writes
    down the level and the chunk header byte of its call, the index block
    stores the bytes 14 and 255 for a worker whose [rctx->level] is 14.  The
    255 of the call is the chunk header byte; no call at level 255 gives
    these two bytes. *)
Lemma dedup_index_codec_counterexample :
  exists sz ubuf' cseg',
    pc_index_stage G_plain toy (tdat_of Toy.compress G_plain (replicate 100 5) 100)
      92 (replicate 100 5) (replicate 120 0) = (sz, ubuf', cseg') /\
    rctx_level (tdat_of Toy.compress G_plain (replicate 100 5) 100) = 14 /\
    sz = 2 /\
    sub cseg' (data_off G_plain + RABIN_HDR_SIZE toy) 2
    = c_out (lzma_compress toy (replicate 92 5) 92 14 255) /\
    forall chdr : Z,
      sub cseg' (data_off G_plain + RABIN_HDR_SIZE toy) 2
      <> c_out (lzma_compress toy (replicate 92 5) 92 255 chdr).
Proof.
  eexists _, _, _. split; [vm_compute; reflexivity|].
  split; [vm_compute; reflexivity|]. split; [reflexivity|].
  split; [vm_compute; reflexivity|].
  intros chdr.
  change (c_out (lzma_compress toy (replicate 92 5) 92 255 chdr))
    with [255; chdr `mod` 256].
  intros H. vm_compute in H. discriminate H.
Qed.

(** ** The chunk left uncompressed *)

Section Fallback.

Variable G : globals.
Variable X : externals.

Hypothesis Hplain : encrypt_type G = 0.
Hypothesis Hmac : mac_bytes G = 4%nat.
Hypothesis Hser : checksum_serializes X.
Hypothesis Hcrc : crc32_streams X.

(** The flag byte of a chunk that the sanity check stores raw: the bits
    for a compressed and for a deduplicated chunk are clear. *)
Lemma raw_flag_bits (tdat : cmp_data) (d : dedup_stage_res) (rv : Z) :
  dedup_enabled G && ds_valid d = false ->
  0 <= rv -> (adapt_mode G = true -> rv < 8) ->
  let t := pc_type G UNCOMPRESSED rv d tdat in
  t `mod` 256 = t /\ Z.land t COMPRESSED = 0 /\ Z.land t CHUNK_FLAG_DEDUP = 0.
Proof.
  intros Hdv Hrv Hadapt. cbv zeta.
  rewrite (pc_type_sum G UNCOMPRESSED rv d tdat (or_intror eq_refl) Hrv Hadapt).
  rewrite Hdv.
  assert (Ha : 0 <= (if adapt_mode G then rv else 0) < 8).
  { destruct (adapt_mode G); [specialize (Hadapt eq_refl)|]; lia. }
  set (algo := if adapt_mode G then rv else 0) in *.
  assert (Hcases : algo = 0 \/ algo = 1 \/ algo = 2 \/ algo = 3 \/ algo = 4
                   \/ algo = 5 \/ algo = 6 \/ algo = 7) by lia.
  clearbody algo.
  destruct (ds_rbytes d <? chunksize tdat); destruct (preproc_enabled G);
    destruct Hcases as [-> | [-> | [-> | [-> | [-> | [-> | [-> | ->]]]]]]];
    vm_compute; repeat split; reflexivity.
Qed.

(** A chunk [O] that was not deduplicated and that the sanity check stores
    raw, with the bytes [P] it copies from [uncompressed_chunk]: the frame
    carries [P], the reader loop reads it back, and [perform_decompress]
    copies [P] and compares its checksum with the one of the chunk. *)
Lemma raw_frame_round_trip (tdat : cmp_data) (d : dedup_stage_res) (rv : Z)
    (cseg ubuf O P : buf) :
  pc_payload G X tdat = (d, (UNCOMPRESSED, rbytes tdat, rv, cseg), ubuf) ->
  dedup_enabled G && ds_valid d = false ->
  ds_rbytes d = rbytes tdat ->
  ds_checksum d = compute_checksum X (cksum G) O (cksum_mt tdat) ->
  sub cseg (data_off G) (Z.to_nat (rbytes tdat)) = P ->
  0 <= rv -> (adapt_mode G = true -> rv < 8) ->
  0 < rbytes tdat <= chunksize tdat -> chunksize tdat + 8 < 2 ^ 64 ->
  exists flag t',
    perform_compress G X tdat = Some (flag, t') /\
    Z.land flag COMPRESSED = UNCOMPRESSED /\
    sub (written t') (data_off G) (Z.to_nat (rbytes tdat)) = P /\
    forall (tdat0 : cmp_data) (n : Z) (rest : buf),
      chunksize tdat0 = chunksize tdat -> cksum_mt tdat0 = cksum_mt tdat ->
      exists td,
        read_chunk G tdat0 (chunksize tdat) n (written t' ++ rest)
        = ReadChunk td rest /\
        let bad := memcmp_ne (compute_checksum X (cksum G) P (cksum_mt tdat))
                     (compute_checksum X (cksum G) O (cksum_mt tdat))
                     (cksum_bytes G) in
        (bad = true -> perform_decompress G X td = inl ChecksumsDoNotMatch) /\
        (bad = false ->
         exists td', perform_decompress G X td = inr td' /\ written_plain td' = P).
Proof.
  intros Hpay Hdv Hdr Hdc HP Hrv Hadapt Hrb Hcs.
  assert (Ez : (encrypt_type G =? 0) = true) by (apply Z.eqb_eq; exact Hplain).
  assert (Hck : forall c n, length (serialize_checksum X c n) = n)
    by (intros c n; apply Hser).
  destruct (raw_flag_bits tdat d rv Hdv Hrv Hadapt) as (Hmod & Hb0 & Hb1).
  set (flag := pc_type G UNCOMPRESSED rv d tdat) in *.
  assert (Hpc : exists t', perform_compress G X tdat = Some (flag, t')).
  { unfold perform_compress. rewrite Hpay. unfold pc_encrypt_stage.
    rewrite Ez. cbn [negb]. fold flag.
    destruct (pc_frame_stage G X tdat d flag (rbytes tdat) cseg) as [[l h] c].
    rewrite Hmod. eexists. reflexivity. }
  destruct Hpc as [t' Hpc]. exists flag, t'.
  split; [exact Hpc|]. split; [exact Hb0|].
  pose proof (perform_compress_written G X Hplain Hmac Hck tdat flag t' Hpc) as Hw.
  rewrite Hpay in Hw.
  destruct (Hw ltac:(lia) Hadapt) as (_ & Hwr & _ & Hbit & _).
  rewrite Hdr, HP in Hwr. rewrite Hdr in Hbit.
  set (trailer := if rbytes tdat <? chunksize tdat
                  then be_bytes 8 (rbytes tdat) else []) in *.
  set (field := rbytes tdat + Z.of_nat (length trailer)) in *.
  set (CK := serialize_checksum X (ds_checksum d) (cksum_bytes G)) in *.
  set (crc := frame_crc G X d flag field trailer) in *.
  assert (LCK : length CK = cksum_bytes G) by apply Hck.
  assert (LP : length P = Z.to_nat (rbytes tdat))
    by (rewrite <- HP; apply length_sub).
  assert (Hcsz : (if negb (Z.land flag CHSIZE_MASK =? 0)
                  then be_value trailer else chunksize tdat) = rbytes tdat).
  { rewrite Hbit. subst trailer.
    destruct (rbytes tdat <? chunksize tdat) eqn:E.
    - apply be_value_be_bytes_small. change (256 ^ Z.of_nat 8) with (2 ^ 64). lia.
    - apply Z.ltb_ge in E. lia. }
  split.
  - rewrite Hwr.
    replace (be_bytes 8 field ++ CK ++ be_bytes 4 crc ++ [flag] ++ P ++ trailer)
      with ((be_bytes 8 field ++ CK ++ be_bytes 4 crc ++ [flag]) ++ P ++ trailer)
      by (rewrite <- !app_assoc; reflexivity).
    apply sub_app_mid'; [|symmetry; exact LP].
    rewrite !length_app, !length_be_bytes, LCK.
    unfold data_off, hdr_off, COMPRESSED_CHUNKSZ, CHUNK_FLAG_SZ.
    rewrite Hmac. simpl. lia.
  - intros tdat0 n rest Hcs0 Hmt.
    assert (Ltr : length trailer
                  = if rbytes tdat <? chunksize tdat then 8%nat else 0%nat).
    { subst trailer. destruct (rbytes tdat <? chunksize tdat);
        [apply length_be_bytes|reflexivity]. }
    set (body := CK ++ be_bytes 4 crc ++ [flag] ++ P ++ trailer) in *.
    assert (Lb : Z.of_nat (length body)
                 = field + Z.of_nat (cksum_bytes G + mac_bytes G + CHUNK_FLAG_SZ)).
    { subst body field. rewrite !length_app, length_be_bytes, LCK, LP, Hmac.
      unfold CHUNK_FLAG_SZ. simpl length. lia. }
    assert (Hf1 : 0 < field < 2 ^ 64)
      by (subst field; rewrite Ltr; destruct (rbytes tdat <? chunksize tdat); lia).
    assert (Hf2 : field <= chunksize tdat + 256)
      by (subst field; rewrite Ltr; destruct (rbytes tdat <? chunksize tdat); lia).
    destruct (read_chunk_frame G Hmac tdat0 (chunksize tdat) n field body rest
                Hf1 Hf2 Lb)
      as (td & Hrd & Hcb & Huc & Hrbt & Hlc & Hbe & Hchs & _ & Hmt' & _).
    assert (HT : if negb (Z.land flag CHSIZE_MASK =? 0)
                 then length trailer = 8%nat else trailer = []).
    { rewrite Hbit. subst trailer. destruct (rbytes tdat <? chunksize tdat);
        [apply length_be_bytes|reflexivity]. }
    assert (Hc : crc = (let c := lzma_crc32 X (be_bytes 8 field ++ CK
                                  ++ replicate (mac_bytes G) 0 ++ [flag]) 0 in
                        match trailer with [] => c | _ => lzma_crc32 X trailer c end)).
    { subst crc. unfold frame_crc, frame_hdr0. fold CK. rewrite Hmod. reflexivity. }
    assert (Hlc' : len_cmp td = Z.of_nat (length P + length trailer))
      by (rewrite Hlc, LP; subst field; lia).
    pose proof (pd_verify_frame G X Hplain Hmac td (compressed_chunk tdat0) CK crc
                  flag field P trailer Hcrc LCK Hcb Hbe Hrbt Hlc' HT Hc) as Hv.
    exists td. split; [rewrite Hwr; exact Hrd|].
    cbv zeta.
    assert (Hbad : memcmp_ne (compute_checksum X (cksum G) P (cksum_mt td))
                     (deserialize_checksum X CK (cksum_bytes G)) (cksum_bytes G)
                   = memcmp_ne (compute_checksum X (cksum G) P (cksum_mt tdat))
                       (compute_checksum X (cksum G) O (cksum_mt tdat))
                       (cksum_bytes G)).
    { unfold memcmp_ne. subst CK.
      destruct (Hser (ds_checksum d) (cksum_bytes G)) as [_ ->].
      rewrite Hdc, Hmt', Hmt. reflexivity. }
    set (bad := memcmp_ne (compute_checksum X (cksum G) P (cksum_mt tdat))
                  (compute_checksum X (cksum G) O (cksum_mt tdat))
                  (cksum_bytes G)) in *.
    unfold perform_decompress.
    destruct (pd_header G td) as [[[HDR rbytes_] len_] cs_].
    destruct Hv as (-> & -> & Hcs_ & cb & Hv & Hsub).
    rewrite Hchs, Hcs0, Hcsz in Hcs_. subst cs_.
    rewrite Hv. rewrite Hb1. cbn [Z.eqb negb]. rewrite andb_false_r.
    unfold pd_plain_branch. rewrite Hb0. cbn [Z.eqb negb].
    unfold pd_rebuild. rewrite Hb1. cbn [Z.eqb negb]. rewrite andb_false_r.
    rewrite Ez. cbn [andb].
    rewrite LP in Hsub. rewrite Hsub, Huc.
    rewrite (sub_memcpy_same' _ 0 P) by (symmetry; exact LP).
    rewrite Hbad.
    split; intros Eb; rewrite Eb; [reflexivity|].
    eexists. split; [reflexivity|].
    unfold written_plain. cbn [uncompressed_chunk len_cmp].
    apply sub_memcpy_same'. symmetry. exact LP.
Qed.



(** With a preprocessor enabled the chunk goes through [preproc_compress],
    which leaves in [uncompressed_chunk] what its stages wrote there; when
    the result is not smaller than the chunk, the sanity check copies the
    first [rbytes] bytes of that buffer. *)
Lemma pc_payload_preproc_raw (tdat : cmp_data) (cbuf1 : buf) (type n : Z)
    (ubuf1 : buf) :
  let O := sub (uncompressed_chunk tdat) 0 (Z.to_nat (rbytes tdat)) in
  let res := preproc_backend_stage (compress tdat) type ubuf1 0 n cbuf1
               (data_off G) (level tdat) 0 in
  dedup_enabled G = false -> preproc_enabled G = true ->
  preproc_stages G X (uncompressed_chunk tdat) 0 (rbytes tdat) (cmp_seg tdat)
    (data_off G) (level tdat) (props tdat) = (cbuf1, Some (type, n, ubuf1)) ->
  rbytes tdat <= p_dstlen res \/ p_rv res < 0 ->
  exists d cseg,
    pc_payload G X tdat
    = (d, (UNCOMPRESSED, rbytes tdat, Z.max 0 (p_rv res), cseg), ubuf1)
    /\ dedup_enabled G && ds_valid d = false
    /\ ds_rbytes d = rbytes tdat
    /\ ds_checksum d = compute_checksum X (cksum G) O (cksum_mt tdat)
    /\ sub cseg (data_off G) (Z.to_nat (rbytes tdat))
       = sub ubuf1 0 (Z.to_nat (rbytes tdat)).
Proof.
  intros O res Hnodedup Hpre Hst Hraw.
  assert (Hsrc : p_src res = ubuf1).
  { subst res. unfold preproc_backend_stage.
    destruct ((-1 <? _) && _); reflexivity. }
  unfold pc_payload, pc_dedup_stage, pc_compress_stage, pc_call_backend.
  rewrite Hnodedup, Hpre. cbn [andb ds_rbytes ds_ubuf ds_valid].
  unfold preproc_compress. rewrite Hst. fold res. rewrite Hsrc.
  unfold pc_sanity_stage. rewrite Hnodedup. cbn [negb orb ds_rbytes].
  assert (E : (rbytes tdat <=? p_dstlen res) || (p_rv res <? 0) = true).
  { apply orb_true_iff. destruct Hraw as [H|H];
      [left; apply Z.leb_le; exact H|right; apply Z.ltb_lt; exact H]. }
  rewrite E. eexists _, _. split.
  - do 3 f_equal. unfold COMPRESS_NONE.
    destruct (p_rv res <? 0) eqn:E2;
      [apply Z.ltb_lt in E2|apply Z.ltb_ge in E2]; f_equal; lia.
  - cbn [ds_rbytes ds_valid ds_checksum].
    assert (Ez : (encrypt_type G =? 0) = true) by (apply Z.eqb_eq; exact Hplain).
    rewrite Ez.
    split; [reflexivity|]. split; [reflexivity|]. split; [reflexivity|].
    apply sub_memcpy_same'. rewrite length_sub. reflexivity.
Qed.


(** C1: the round trip fails on a chunk that a preprocessor has rewritten
    and that is stored raw all the same.  With dedup and encryption off and
    LZP or Delta2 enabled, [preproc_compress] overwrites
    [uncompressed_chunk] with what each stage it applies has left
    ([ubuf1]); when its result is not smaller than the chunk (or it
    failed), the sanity check of [perform_compress] stores the first
    [rbytes] bytes of that buffer as the raw chunk, with the checksum of
    the chunk as it was read.  [perform_decompress] copies these bytes: it
    stops with "checksums do not match" when their checksum differs from
    the one of the chunk, and what it can return otherwise is these bytes,
    not the chunk. *)
Theorem preproc_raw_fallback_clobbered (tdat : cmp_data) (cbuf1 : buf)
    (type n : Z) (ubuf1 : buf) :
  let O := sub (uncompressed_chunk tdat) 0 (Z.to_nat (rbytes tdat)) in
  let P := sub ubuf1 0 (Z.to_nat (rbytes tdat)) in
  let res := preproc_backend_stage (compress tdat) type ubuf1 0 n cbuf1
               (data_off G) (level tdat) 0 in
  dedup_enabled G = false -> preproc_enabled G = true ->
  preproc_stages G X (uncompressed_chunk tdat) 0 (rbytes tdat) (cmp_seg tdat)
    (data_off G) (level tdat) (props tdat) = (cbuf1, Some (type, n, ubuf1)) ->
  rbytes tdat <= p_dstlen res \/ p_rv res < 0 ->
  0 < rbytes tdat <= chunksize tdat -> chunksize tdat + 8 < 2 ^ 64 ->
  (adapt_mode G = true -> p_rv res < 8) ->
  exists flag t',
    perform_compress G X tdat = Some (flag, t') /\
    Z.land flag COMPRESSED = UNCOMPRESSED /\
    sub (written t') (data_off G) (Z.to_nat (rbytes tdat)) = P /\
    forall (tdat0 : cmp_data) (n0 : Z) (rest : buf),
      chunksize tdat0 = chunksize tdat -> cksum_mt tdat0 = cksum_mt tdat ->
      exists td,
        read_chunk G tdat0 (chunksize tdat) n0 (written t' ++ rest)
        = ReadChunk td rest /\
        (memcmp_ne (compute_checksum X (cksum G) P (cksum_mt tdat))
           (compute_checksum X (cksum G) O (cksum_mt tdat)) (cksum_bytes G) = true ->
         perform_decompress G X td = inl ChecksumsDoNotMatch) /\
        (forall td', perform_decompress G X td = inr td' -> written_plain td' = P).
Proof.
  intros O P res Hnodedup Hpre Hst Hraw Hrb Hcs Hadapt.
  destruct (pc_payload_preproc_raw tdat cbuf1 type n ubuf1 Hnodedup Hpre Hst Hraw)
    as (d & cseg & Hpay & Hdv & Hdr & Hdc & HP).
  fold O in Hdc. fold P in HP. fold res in Hpay.
  assert (Hrv : 0 <= Z.max 0 (p_rv res)) by lia.
  assert (Hadapt' : adapt_mode G = true -> Z.max 0 (p_rv res) < 8)
    by (intros Ha; specialize (Hadapt Ha); lia).
  destruct (raw_frame_round_trip tdat d (Z.max 0 (p_rv res)) cseg ubuf1 O P
              Hpay Hdv Hdr Hdc HP Hrv Hadapt' Hrb Hcs)
    as (flag & t' & Hpc & Hb0 & Hw & Hback).
  exists flag, t'.
  split; [exact Hpc|]. split; [exact Hb0|]. split; [exact Hw|].
  intros tdat0 n0 rest Hcs0 Hmt.
  destruct (Hback tdat0 n0 rest Hcs0 Hmt) as (td & Hrd & Hbad & Hok).
  exists td. split; [exact Hrd|]. split; [exact Hbad|].
  intros td' Hpd.
  destruct (memcmp_ne (compute_checksum X (cksum G) P (cksum_mt tdat))
              (compute_checksum X (cksum G) O (cksum_mt tdat)) (cksum_bytes G))
    eqn:Eb.
  - rewrite (Hbad eq_refl) in Hpd. discriminate Hpd.
  - destruct (Hok eq_refl) as (td'' & Hpd' & Hwp).
    rewrite Hpd in Hpd'. injection Hpd' as <-. exact Hwp.
Qed.

End Fallback.



(** The six bytes 7 7 1 2 3 4 under [-L] with the back end that copies: the
    LZP stand-in drops one byte, the five bytes it leaves overwrite the
    head of [uncompressed_chunk], the payload with its type byte is as long
    as the chunk, so the six bytes 7 1 2 3 4 4 of the overwritten buffer
    are stored raw, and [perform_decompress] stops at the checksum. *)
Lemma preproc_raw_fallback_clobbered_witness :
  exists flag t' td,
    perform_compress G_lzp toy (tdat_of Toy.none_compress G_lzp [7; 7; 1; 2; 3; 4] 6)
    = Some (flag, t') /\
    Z.land flag COMPRESSED = UNCOMPRESSED /\
    sub (written t') (data_off G_lzp) 6 = [7; 1; 2; 3; 4; 4] /\
    read_chunk G_lzp
      (start_compress_init Toy.none_compress Toy.decompress toy_props 6 6 14 false)
      6 0 (written t' ++ be_bytes 8 0)
    = ReadChunk td (be_bytes 8 0) /\
    perform_decompress G_lzp toy td = inl ChecksumsDoNotMatch.
Proof.
  destruct (preproc_raw_fallback_clobbered G_lzp toy eq_refl eq_refl
              toy_checksum_serializes toy_crc32_streams
              (tdat_of Toy.none_compress G_lzp [7; 7; 1; 2; 3; 4] 6)
              (memcpy [] (data_off G_lzp) [7; 1; 2; 3; 4]) 1 5 [7; 1; 2; 3; 4; 4]
              eq_refl eq_refl
              ltac:(vm_compute; reflexivity)
              ltac:(left; vm_compute; discriminate)
              ltac:(vm_compute; split; [reflexivity|discriminate])
              ltac:(vm_compute; reflexivity)
              ltac:(intros H; vm_compute in H; discriminate H))
    as (flag & t' & H1 & H2 & H3 & H4).
  destruct (H4 (start_compress_init Toy.none_compress Toy.decompress toy_props
                  6 6 14 false) 0 (be_bytes 8 0) eq_refl eq_refl)
    as (td & H5 & H6 & _).
  exists flag, t', td.
  split; [exact H1|]. split; [exact H2|]. split; [exact H3|].
  split; [exact H5|]. apply H6. vm_compute. reflexivity.
Defined.

(** ** The order of the chunks in the output *)

Module PipelineFacts.

Import Pipeline.

Section Order.

Context {A B : Type}.
Variable process : nat -> A -> B.
Variable nprocs : nat.
Hypothesis Hn : (0 < nprocs)%nat.
Variable chunks : list A.

Local Open Scope nat_scope.

Local Abbreviation state := (@state A B).
Local Abbreviation slot := (@slot A B).

Local Ltac fields :=
  unfold wr_holds, prod_holds, written_count in *;
  cbn [dary prod_pc prod_p chunk_num input wr_pc wr_p output
       set_dary set_producer set_writer init
       start_sem cmp_done_sem write_done_sem slot_id slot_in slot_out slot_pc
       init_slot] in *.

(** Two ids in a window of [nprocs] ids share a slot only when equal. *)
Lemma mod_window (wk k k' : nat) :
  wk <= k < wk + nprocs -> wk <= k' < wk + nprocs ->
  k `mod` nprocs = k' `mod` nprocs -> k = k'.
Proof.
  intros Hk Hk' E.
  pose proof (Nat.div_mod_eq k nprocs) as D.
  pose proof (Nat.div_mod_eq k' nprocs) as D'.
  pose proof (Nat.mod_upper_bound k' nprocs ltac:(lia)) as U.
  rewrite E in D.
  assert (k / nprocs = k' / nprocs) by nia.
  nia.
Qed.

Lemma mod_add_n (k : nat) : (k + nprocs) `mod` nprocs = k `mod` nprocs.
Proof.
  rewrite <- Nat.Div0.add_mod_idemp_r, Nat.Div0.mod_same, Nat.add_0_r.
  reflexivity.
Qed.

Lemma mod_succ (k : nat) : S (k `mod` nprocs) `mod` nprocs = S k `mod` nprocs.
Proof.
  replace (S (k `mod` nprocs)) with (k `mod` nprocs + 1) by lia.
  rewrite Nat.Div0.add_mod_idemp_l. f_equal. lia.
Qed.

Lemma mod_lt (k : nat) : k `mod` nprocs < nprocs.
Proof. apply Nat.mod_upper_bound. lia. Qed.

Lemma tail_drop (n : nat) (l : list A) : tail (drop n l) = drop (S n) l.
Proof.
  revert l. induction n as [|n IH]; intros [|x l]; simpl; auto.
Qed.

Lemma drop_head (n : nat) (l : list A) (a : A) (rest : list A) :
  drop n l = a :: rest -> l !! n = Some a.
Proof.
  intros H. replace n with (n + 0) by lia.
  rewrite <- lookup_drop, H. reflexivity.
Qed.

Lemma in_order_lookup (k : nat) (a : A) :
  chunks !! k = Some a -> in_order process chunks !! k = Some (k, process k a).
Proof.
  intros H. unfold in_order. rewrite list_lookup_imap, H. reflexivity.
Qed.

Lemma in_order_ids (l : list A) :
  (in_order process l).*1 = seq 0 (length l).
Proof.
  unfold in_order.
  assert (G : forall (l : list A) (n : nat),
             (imap (fun k a => (n + k, process (n + k) a)) l).*1 = seq n (length l)).
  { clear. intros l. induction l as [|x l IH]; intros n; simpl; [reflexivity|].
    rewrite Nat.add_0_r. f_equal.
    rewrite <- IH. f_equal. apply imap_ext. intros i y _. simpl.
    replace (n + S i) with (S n + i) by lia. reflexivity. }
  apply (G l 0).
Qed.

Lemma init_inv : Inv process nprocs chunks 0 (init nprocs chunks).
Proof.
  constructor; fields; try lia; try discriminate.
  - apply length_replicate.
  - rewrite Nat.Div0.mod_0_l. reflexivity.
  - reflexivity.
  - rewrite Nat.Div0.mod_0_l. reflexivity.
  - reflexivity.
  - intros k Hk. exists init_slot. split.
    + apply lookup_replicate_2, mod_lt.
    + rewrite andb_false_r. repeat split.
Qed.


Lemma producer_inv (wk : nat) (s s' : state) :
  Inv process nprocs chunks wk s -> producer_step nprocs s = Some s' ->
  Inv process nprocs chunks wk s'.
Proof.
  intros [Ilen Ipp Iin Iwp Iout Iwin Ich Iwh Iph Ifl Iid Ibl] H.
  unfold producer_step in H.
  destruct (dary s !! prod_p s) as [w|] eqn:Hw; [|discriminate].
  cbn [mbind option_bind] in H.
  assert (Hother : forall k w', wk <= k < wk + nprocs ->
            chunk_num s < wk + nprocs -> k <> chunk_num s ->
            <[prod_p s := w']> (dary s) !! (k `mod` nprocs) = dary s !! (k `mod` nprocs)).
  { intros k w' Hk HC Hne. apply list_lookup_insert_ne. rewrite Ipp. intros E.
    apply (mod_window wk) in E; lia. }
  assert (Hsame : forall w', <[prod_p s := w']> (dary s) !! (chunk_num s `mod` nprocs)
                             = Some w').
  { intros w'. rewrite <- Ipp. apply list_lookup_insert_eq.
    rewrite Ilen, Ipp. apply mod_lt. }
  destruct (prod_pc s) eqn:Hpc.
  - (* sem_wait(&tdat->write_done_sem) *)
    destruct (write_done_sem w) as [|n] eqn:Hwd; [discriminate|].
    cbn [sem_wait mbind option_bind] in H. injection H as <-.
    assert (HC : chunk_num s < wk + nprocs).
    { destruct (decide (chunk_num s < wk + nprocs)) as [|Hge]; [assumption|].
      assert (E : chunk_num s = wk + nprocs) by lia.
      destruct (Ifl wk ltac:(lia)) as (w0 & a & Hl & _ & (_ & _ & Hz & _)).
      rewrite Ipp, E, mod_add_n, Hl in Hw. congruence. }
    destruct (Iid (chunk_num s) ltac:(lia)) as (w0 & Hl & Hidle).
    rewrite <- Ipp, Hw in Hl. injection Hl as <-.
    unfold prod_holds in Hidle. rewrite Hpc, andb_false_r in Hidle.
    destruct Hidle as (Hss & Hcd & Hspc & Hwd1).
    constructor; fields; try assumption; try (intros ?; discriminate);
      try (intros _; reflexivity).
    + rewrite length_insert. exact Ilen.
    + intros _. exact HC.
    + intros k Hk. destruct (Ifl k Hk) as (w1 & a & Hl & Hc & Hf).
      exists w1, a. rewrite Hother by lia. auto.
    + intros k Hk. destruct (decide (k = chunk_num s)) as [->|Hne].
      * eexists. split; [apply Hsame|].
        rewrite bool_decide_eq_true_2 by reflexivity.
        repeat split; fields; try assumption; congruence.
      * destruct (Iid k Hk) as (w1 & Hl & Hi). exists w1.
        rewrite Hother by lia. split; [exact Hl|].
        rewrite bool_decide_eq_false_2 in * by assumption. exact Hi.
  - (* the chunk, or the end of the input *)
    assert (HC : chunk_num s < wk + nprocs) by (apply Iph; unfold prod_holds; rewrite Hpc; reflexivity).
    destruct (Iid (chunk_num s) ltac:(lia)) as (w0 & Hl & Hidle).
    rewrite <- Ipp, Hw in Hl. injection Hl as <-.
    unfold prod_holds in Hidle. rewrite Hpc, bool_decide_eq_true_2 in Hidle by reflexivity.
    destruct Hidle as (Hss & Hcd & Hspc & Hwd0 & _).
    destruct (input s) as [|a rest] eqn:Hin; injection H as <-.
    + constructor; fields; try assumption; try (intros ?; discriminate);
      try (intros _; reflexivity).
      * intros _. exact HC.
      * intros k Hk. destruct (decide (k = chunk_num s)) as [->|Hne].
        -- exists w. rewrite <- Ipp. split; [exact Hw|].
           rewrite bool_decide_eq_true_2 by reflexivity.
           repeat split; try assumption; congruence.
        -- destruct (Iid k Hk) as (w1 & Hl & Hi). exists w1. split; [exact Hl|].
           rewrite bool_decide_eq_false_2 in * by assumption. exact Hi.
    + assert (Ha : chunks !! chunk_num s = Some a)
        by (apply (drop_head _ _ _ rest); rewrite <- Iin; reflexivity).
      constructor; fields; try assumption; try (intros ?; discriminate);
      try (intros _; reflexivity).
      * rewrite length_insert. exact Ilen.
      * intros _. exact HC.
      * intros k Hk. destruct (Ifl k Hk) as (w1 & a1 & Hl & Hc & Hf).
        exists w1, a1. rewrite Hother by lia. auto.
      * intros k Hk. destruct (decide (k = chunk_num s)) as [->|Hne].
        -- eexists. split; [apply Hsame|].
           rewrite bool_decide_eq_true_2 by reflexivity.
           repeat split; fields; try assumption. exists a. auto.
        -- destruct (Iid k Hk) as (w1 & Hl & Hi). exists w1.
           rewrite Hother by lia. split; [exact Hl|].
           rewrite bool_decide_eq_false_2 in * by assumption. exact Hi.
  - (* sem_post(&tdat->start_sem), ++chunk_num *)
    injection H as <-.
    assert (HC : chunk_num s < wk + nprocs) by (apply Iph; unfold prod_holds; rewrite Hpc; reflexivity).
    destruct (Iid (chunk_num s) ltac:(lia)) as (w0 & Hl & Hidle).
    rewrite <- Ipp, Hw in Hl. injection Hl as <-.
    unfold prod_holds in Hidle. rewrite Hpc, bool_decide_eq_true_2 in Hidle by reflexivity.
    destruct Hidle as (Hss & Hcd & Hspc & Hwd0 & Hdata).
    destruct (Hdata eq_refl) as (Hid & a & Ha & Hsin).
    constructor; fields; try assumption; try (intros ?; discriminate);
      try (intros _; reflexivity).
    + rewrite length_insert. exact Ilen.
    + rewrite Ipp. apply mod_succ.
    + rewrite Iin. apply tail_drop.
    + lia.
    + apply lookup_lt_Some in Ha. lia.
    + intros Hh. specialize (Iwh Hh). lia.
    + intros k Hk. destruct (decide (k = chunk_num s)) as [->|Hne].
      * eexists _, a. split; [apply Hsame|]. split; [exact Ha|].
        assert (Hheld : bool_decide (chunk_num s = wk) && wr_holds s = false).
        { destruct (decide (chunk_num s = wk)) as [E|E];
            [|rewrite bool_decide_eq_false_2 by assumption; reflexivity].
          rewrite bool_decide_eq_true_2 by assumption. cbn [andb].
          unfold wr_holds. destruct (wr_pc s); [reflexivity|exfalso..];
            specialize (Iwh eq_refl); lia. }
        unfold wr_holds in Hheld. rewrite Hheld. unfold flight. fields. rewrite Hspc.
        repeat split; try assumption. left. rewrite Hss. auto.
      * destruct (Ifl k ltac:(lia)) as (w1 & a1 & Hl & Hc & Hf).
        exists w1, a1. rewrite Hother by lia. auto.
    + intros k Hk. destruct (Iid k ltac:(lia)) as (w1 & Hl & Hi). exists w1.
      rewrite Hother by lia. split; [exact Hl|].
      rewrite andb_false_r.
      rewrite bool_decide_eq_false_2 in Hi by lia. exact Hi.
  - discriminate.
Qed.


Lemma worker_inv (wk i : nat) (s s' : state) :
  Inv process nprocs chunks wk s -> worker_step process i s = Some s' ->
  Inv process nprocs chunks wk s'.
Proof.
  intros [Ilen Ipp Iin Iwp Iout Iwin Ich Iwh Iph Ifl Iid Ibl] H.
  unfold worker_step in H.
  destruct (dary s !! i) as [w|] eqn:Hw; [|discriminate].
  cbn [mbind option_bind] in H.
  assert (Hi : i < length (dary s)) by (apply lookup_lt_Some in Hw; exact Hw).
  assert (Hidle : forall k, chunk_num s <= k < wk + nprocs ->
            k `mod` nprocs = i ->
            start_sem w = 0 /\ slot_pc w = AtStartSem).
  { intros k Hk E. destruct (Iid k Hk) as (w1 & Hl & (H1 & _ & H3 & _)).
    rewrite E, Hw in Hl. injection Hl as <-. auto. }
  destruct (slot_pc w) eqn:Hpc.
  - (* sem_wait(&tdat->start_sem) *)
    destruct (start_sem w) as [|n] eqn:Hss; [discriminate|].
    cbn [sem_wait mbind option_bind] in H. injection H as <-.
    constructor; fields; try assumption.
    + rewrite length_insert. exact Ilen.
    + intros k Hk. destruct (Ifl k Hk) as (w1 & a & Hl & Hc & Hf).
      destruct (decide (k `mod` nprocs = i)) as [E|E].
      * rewrite E, Hw in Hl. injection Hl as <-.
        eexists _, a. rewrite E. split; [apply list_lookup_insert_eq; exact Hi|].
        split; [exact Hc|].
        destruct Hf as (F1 & F2 & F3 & F4). rewrite Hpc in F4.
        unfold flight. fields.
        destruct F4 as [(G1 & G2 & G3)|(G1 & _)]; [|congruence].
        repeat split; try assumption; congruence.
      * exists w1, a. rewrite list_lookup_insert_ne by auto. auto.
    + intros k Hk. destruct (decide (k `mod` nprocs = i)) as [E|E].
      * destruct (Hidle k Hk E). congruence.
      * destruct (Iid k Hk) as (w1 & Hl & Hid). exists w1.
        rewrite list_lookup_insert_ne by auto. auto.
  - (* the chunk *)
    destruct (slot_in w) as [a0|] eqn:Hsi; [|discriminate].
    cbn [mbind option_bind] in H. injection H as <-.
    constructor; fields; try assumption.
    + rewrite length_insert. exact Ilen.
    + intros k Hk. destruct (Ifl k Hk) as (w1 & a & Hl & Hc & Hf).
      destruct (decide (k `mod` nprocs = i)) as [E|E].
      * rewrite E, Hw in Hl. injection Hl as <-.
        eexists _, a. rewrite E. split; [apply list_lookup_insert_eq; exact Hi|].
        split; [exact Hc|].
        destruct Hf as (F1 & F2 & F3 & F4). rewrite Hpc in F4.
        unfold flight. fields.
        destruct F4 as (G1 & G2 & G3).
        repeat split; try assumption; congruence.
      * exists w1, a. rewrite list_lookup_insert_ne by auto. auto.
    + intros k Hk. destruct (decide (k `mod` nprocs = i)) as [E|E].
      * destruct (Hidle k Hk E). congruence.
      * destruct (Iid k Hk) as (w1 & Hl & Hid). exists w1.
        rewrite list_lookup_insert_ne by auto. auto.
  - (* sem_post(&tdat->cmp_done_sem) *)
    injection H as <-.
    constructor; fields; try assumption.
    + rewrite length_insert. exact Ilen.
    + intros k Hk. destruct (Ifl k Hk) as (w1 & a & Hl & Hc & Hf).
      destruct (decide (k `mod` nprocs = i)) as [E|E].
      * rewrite E, Hw in Hl. injection Hl as <-.
        eexists _, a. rewrite E. split; [apply list_lookup_insert_eq; exact Hi|].
        split; [exact Hc|].
        destruct Hf as (F1 & F2 & F3 & F4). rewrite Hpc in F4.
        unfold flight. fields.
        destruct F4 as (G1 & G2 & G3 & G4).
        repeat split; try assumption. right. rewrite G2. auto.
      * exists w1, a. rewrite list_lookup_insert_ne by auto. auto.
    + intros k Hk. destruct (decide (k `mod` nprocs = i)) as [E|E].
      * destruct (Hidle k Hk E). congruence.
      * destruct (Iid k Hk) as (w1 & Hl & Hid). exists w1.
        rewrite list_lookup_insert_ne by auto. auto.
Qed.


Lemma writer_inv (wk : nat) (s s' : state) :
  Inv process nprocs chunks wk s -> writer_step nprocs s = Some s' ->
  exists wk', (wk' = wk \/ wk' = S wk) /\ Inv process nprocs chunks wk' s'.
Proof.
  intros [Ilen Ipp Iin Iwp Iout Iwin Ich Iwh Iph Ifl Iid Ibl] H.
  unfold writer_step in H.
  destruct (dary s !! wr_p s) as [w|] eqn:Hw; [|discriminate].
  cbn [mbind option_bind] in H.
  assert (Hother : forall k w', wk <= k < wk + nprocs -> k <> wk ->
            <[wr_p s := w']> (dary s) !! (k `mod` nprocs) = dary s !! (k `mod` nprocs)).
  { intros k w' Hk Hne. apply list_lookup_insert_ne. rewrite Iwp. intros E.
    apply (mod_window wk) in E; lia. }
  assert (Hsame : forall w', <[wr_p s := w']> (dary s) !! (wk `mod` nprocs) = Some w').
  { intros w'. rewrite <- Iwp. apply list_lookup_insert_eq.
    rewrite Ilen, Iwp. apply mod_lt. }
  destruct (wr_pc s) eqn:Hpc.
  - (* sem_wait(&tdat->cmp_done_sem) *)
    destruct (cmp_done_sem w) as [|n] eqn:Hcd; [discriminate|].
    cbn [sem_wait mbind option_bind] in H. injection H as <-.
    assert (HC : wk < chunk_num s).
    { destruct (decide (wk < chunk_num s)) as [|Hge]; [assumption|].
      destruct (Iid wk ltac:(lia)) as (w0 & Hl & (_ & Hz & _)).
      rewrite <- Iwp, Hw in Hl. congruence. }
    destruct (Ifl wk ltac:(lia)) as (w0 & a & Hl & Hc & Hf).
    rewrite <- Iwp, Hw in Hl. injection Hl as <-.
    unfold wr_holds in Hf. rewrite Hpc, andb_false_r in Hf.
    destruct Hf as (F1 & F2 & F3 & F4).
    exists wk. split; [left; reflexivity|].
    constructor; fields; rewrite ?Hpc in *; try assumption.
    + rewrite length_insert. exact Ilen.
    + intros _. exact HC.
    + intros k Hk. destruct (decide (k = wk)) as [->|Hne].
      * eexists _, a. split; [apply Hsame|]. split; [exact Hc|].
        rewrite bool_decide_eq_true_2 by reflexivity.
        unfold flight. fields.
        destruct (slot_pc w); [|destruct F4 as (_ & ? & _); congruence..].
        destruct F4 as [(_ & ? & _)|(G1 & G2 & [(G3 & G4)|(G3 & G4)])];
          try congruence.
        repeat split; try assumption. right. repeat split; try assumption.
        right. split; [congruence|reflexivity].
      * destruct (Ifl k Hk) as (w1 & a1 & Hl & Hc1 & Hf1).
        exists w1, a1. rewrite Hother by lia. split; [exact Hl|]. split; [exact Hc1|].
        rewrite bool_decide_eq_false_2 in * by assumption. exact Hf1.
    + intros k Hk. destruct (Iid k Hk) as (w1 & Hl & Hi). exists w1.
      rewrite Hother by lia. auto.
  - (* Write(w->wfd, tdat->cmp_seg, tdat->len_cmp) *)
    destruct (slot_out w) as [b|] eqn:Hso; [|discriminate].
    cbn [mbind option_bind] in H. injection H as <-.
    assert (HC : wk < chunk_num s)
      by (apply Iwh; unfold wr_holds; rewrite Hpc; reflexivity).
    destruct (Ifl wk ltac:(lia)) as (w0 & a & Hl & Hc & Hf).
    rewrite <- Iwp, Hw in Hl. injection Hl as <-.
    unfold wr_holds in Hf. rewrite Hpc, bool_decide_eq_true_2 in Hf by reflexivity.
    destruct Hf as (F1 & F2 & F3 & F4).
    assert (Hb : b = process wk a).
    { destruct (slot_pc w);
        [|exfalso; destruct F4 as (_ & _ & F);
          first [discriminate F|destruct F as [F _]; discriminate F]..].
      destruct F4 as [(_ & _ & ?)|(_ & G2 & _)]; [discriminate|congruence]. }
    exists wk. split; [left; reflexivity|].
    constructor; fields; rewrite ?Hpc in *; try assumption.
    + rewrite Iout, F1, Hb. symmetry. apply take_S_r, in_order_lookup, Hc.
  - (* sem_post(&tdat->write_done_sem) *)
    injection H as <-.
    assert (HC : wk < chunk_num s)
      by (apply Iwh; unfold wr_holds; rewrite Hpc; reflexivity).
    destruct (Ifl wk ltac:(lia)) as (w0 & a & Hl & Hc & Hf).
    rewrite <- Iwp, Hw in Hl. injection Hl as <-.
    unfold wr_holds in Hf. rewrite Hpc, bool_decide_eq_true_2 in Hf by reflexivity.
    destruct Hf as (F1 & F2 & F3 & F4).
    assert (Hw3 : start_sem w = 0 /\ cmp_done_sem w = 0 /\ slot_pc w = AtStartSem).
    { destruct (slot_pc w);
        [|exfalso; destruct F4 as (_ & _ & F);
          first [discriminate F|destruct F as [F _]; discriminate F]..].
      destruct F4 as [(_ & _ & ?)|(G1 & _ & [(_ & ?)|(G3 & _)])];
        try discriminate. auto. }
    destruct Hw3 as (W1 & W2 & W3).
    exists (S wk). split; [right; reflexivity|].
    constructor; fields; rewrite ?Hpc in *; try assumption.
    + rewrite length_insert. exact Ilen.
    + rewrite Iwp. apply mod_succ.
    + lia.
    + discriminate.
    + intros Hh. specialize (Iph Hh). lia.
    + intros k Hk. destruct (Ifl k ltac:(lia)) as (w1 & a1 & Hl & Hc1 & Hf1).
      exists w1, a1. rewrite Hother by lia. split; [exact Hl|]. split; [exact Hc1|].
      rewrite andb_false_r. rewrite bool_decide_eq_false_2 in Hf1 by lia. exact Hf1.
    + intros k Hk. destruct (decide (k = wk + nprocs)) as [->|Hne].
      * eexists. rewrite mod_add_n. split; [apply Hsame|].
        assert (Hheld : bool_decide (wk + nprocs = chunk_num s) && prod_holds s = false).
        { destruct (decide (wk + nprocs = chunk_num s)) as [E|E];
            [|rewrite bool_decide_eq_false_2 by assumption; reflexivity].
          rewrite bool_decide_eq_true_2 by assumption. cbn [andb].
          unfold prod_holds. destruct (prod_pc s); [reflexivity|exfalso..];
            specialize (Iph eq_refl); lia. }
        unfold prod_holds in Hheld. rewrite Hheld.
        unfold idle. fields. rewrite F3. auto.
      * destruct (Iid k ltac:(lia)) as (w1 & Hl & Hi). exists w1.
        rewrite Hother by lia. auto.
Qed.


Lemma step_inv (t : thread) (wk : nat) (s s' : state) :
  Inv process nprocs chunks wk s -> thread_step process nprocs t s = Some s' ->
  exists wk', Inv process nprocs chunks wk' s'.
Proof.
  intros I H. destruct t as [|i|]; cbn [thread_step] in H.
  - exists wk. exact (producer_inv wk s s' I H).
  - exists wk. exact (worker_inv wk i s s' I H).
  - destruct (writer_inv wk s s' I H) as (wk' & _ & I'). exists wk'. exact I'.
Qed.

Lemma run_inv (sched : list thread) (wk : nat) (s : state) :
  Inv process nprocs chunks wk s ->
  exists wk', Inv process nprocs chunks wk' (run process nprocs sched s).
Proof.
  revert wk s. induction sched as [|t sched IH]; intros wk s I; cbn [run].
  - exists wk. exact I.
  - destruct (thread_step process nprocs t s) as [s'|] eqn:E; cbn [default].
    + destruct (step_inv t wk s s' I E) as (wk' & I'). exact (IH wk' s' I').
    + exact (IH wk s I).
Qed.

Lemma reachable_inv (sched : list thread) :
  exists wk, Inv process nprocs chunks wk
               (run process nprocs sched (init nprocs chunks)).
Proof. exact (run_inv sched 0 _ init_inv). Qed.

Lemma length_in_order (l : list A) : length (in_order process l) = length l.
Proof. unfold in_order. apply length_imap. Qed.

Lemma written_count_le (wk : nat) (s : state) :
  Inv process nprocs chunks wk s ->
  wk <= written_count wk s <= length chunks.
Proof.
  intros [Ilen Ipp Iin Iwp Iout Iwin Ich Iwh Iph Ifl Iid Ibl].
  unfold written_count, wr_holds in *.
  destruct (wr_pc s); [lia|lia|]. specialize (Iwh eq_refl). lia.
Qed.

Lemma output_length (wk : nat) (s : state) :
  Inv process nprocs chunks wk s -> length (output s) = written_count wk s.
Proof.
  intros I. pose proof (written_count_le wk s I) as Hle.
  rewrite (inv_output _ _ _ _ _ I), length_take, length_in_order. lia.
Qed.


(** X1: whatever the order in which the threads take their steps, what the
    writer thread has written is a prefix of the input chunks in the order
    of the input, each processed under its own id, the ids being 0, 1, 2
    and so on. *)
Theorem writer_emits_in_order (sched : list thread) :
  let out := output (run process nprocs sched (init nprocs chunks)) in
  out = take (length out) (in_order process chunks) /\
  out.*1 = seq 0 (length out).
Proof.
  destruct (reachable_inv sched) as [wk I]. cbv zeta.
  pose proof (written_count_le wk _ I) as Hle.
  rewrite (output_length wk _ I).
  split; [exact (inv_output _ _ _ _ _ I)|].
  rewrite (inv_output _ _ _ _ _ I), fmap_take, in_order_ids, take_seq.
  f_equal. lia.
Qed.


(** X2: the semaphores keep the producer and the writer at most [nprocs]
    chunks apart, and when the producer puts the next chunk into the
    buffers of [dary[p]] no other thread is at them: the worker of the slot
    waits at [start_sem] with nothing posted, nothing is posted for the
    writer, and the writer, when it holds a slot, holds another one. *)
Theorem producer_loads_idle_slot (sched : list thread) :
  let s := run process nprocs sched (init nprocs chunks) in
  chunk_num s <= length (output s) + nprocs /\
  (prod_pc s = Loading ->
   exists w, dary s !! prod_p s = Some w /\
             slot_pc w = AtStartSem /\ start_sem w = 0 /\
             cmp_done_sem w = 0 /\ write_done_sem w = 0 /\
             (wr_holds s = true -> wr_p s <> prod_p s)).
Proof.
  destruct (reachable_inv sched) as [wk I]. cbv zeta.
  set (s := run process nprocs sched (init nprocs chunks)) in *.
  pose proof (written_count_le wk _ I) as Hle.
  pose proof (output_length wk _ I) as Hlen.
  destruct I as [Ilen Ipp Iin Iwp Iout Iwin Ich Iwh Iph Ifl Iid Ibl].
  split; [lia|]. intros Hpc.
  assert (HC : chunk_num s < wk + nprocs)
    by (apply Iph; unfold prod_holds; rewrite Hpc; reflexivity).
  destruct (Iid (chunk_num s) ltac:(lia)) as (w & Hl & Hi).
  unfold prod_holds in Hi. rewrite Hpc, bool_decide_eq_true_2 in Hi by reflexivity.
  destruct Hi as (H1 & H2 & H3 & H4 & _).
  exists w. rewrite Ipp. repeat split; try assumption.
  intros Hh E. specialize (Iwh Hh). rewrite Iwp in E.
  apply (mod_window wk) in E; lia.
Qed.

(** X3: the protocol does not block before the work is done: in every
    state the threads can reach, one of them can take its next step, or
    the output holds every chunk of the input, in its order. *)
Theorem pipeline_runs_to_completion (sched : list thread) :
  let s := run process nprocs sched (init nprocs chunks) in
  (exists t s', thread_step process nprocs t s = Some s') \/
  output s = in_order process chunks.
Proof.
  destruct (reachable_inv sched) as [wk I]. cbv zeta.
  set (s := run process nprocs sched (init nprocs chunks)) in *.
  pose proof (written_count_le wk _ I) as Hle.
  destruct I as [Ilen Ipp Iin Iwp Iout Iwin Ich Iwh Iph Ifl Iid Ibl].
  destruct (decide (wk < chunk_num s)) as [Hlt|Hge].
  - (* the chunk [wk] is in flight *)
    left. destruct (Ifl wk ltac:(lia)) as (w & a & Hl & Hc & (F1 & F2 & F3 & F4)).
    rewrite bool_decide_eq_true_2 in F4 by reflexivity. cbn [andb] in F4.
    destruct (slot_pc w) eqn:Hspc.
    + destruct F4 as [(G1 & G2 & G3)|(G1 & G2 & [(G3 & G4)|(G3 & G4)])].
      * exists (Worker (wk `mod` nprocs)). cbn [thread_step]. unfold worker_step.
        rewrite Hl. cbn [mbind option_bind]. rewrite Hspc, G1.
        cbn [sem_wait mbind option_bind]. eauto.
      * exists Writer. cbn [thread_step]. unfold writer_step.
        rewrite Iwp, Hl. cbn [mbind option_bind].
        unfold wr_holds in G4. destruct (wr_pc s); try discriminate.
        rewrite G3. cbn [sem_wait mbind option_bind]. eauto.
      * exists Writer. cbn [thread_step]. unfold writer_step.
        rewrite Iwp, Hl. cbn [mbind option_bind].
        unfold wr_holds in G4. destruct (wr_pc s); try discriminate.
        -- rewrite G2. cbn [mbind option_bind]. eauto.
        -- eauto.
    + exists (Worker (wk `mod` nprocs)). cbn [thread_step]. unfold worker_step.
      rewrite Hl. cbn [mbind option_bind]. rewrite Hspc, F2.
      cbn [mbind option_bind]. eauto.
    + exists (Worker (wk `mod` nprocs)). cbn [thread_step]. unfold worker_step.
      rewrite Hl. cbn [mbind option_bind]. rewrite Hspc. eauto.
  - (* nothing is in flight: the producer is next, or has seen the end *)
    assert (E : chunk_num s = wk) by lia.
    destruct (Iid wk ltac:(lia)) as (w & Hl & Hi).
    rewrite bool_decide_eq_true_2 in Hi by (symmetry; exact E). cbn [andb] in Hi.
    destruct Hi as (H1 & H2 & H3 & H4).
    destruct (prod_pc s) eqn:Hpc.
    + left. exists Producer. cbn [thread_step]. unfold producer_step.
      rewrite Ipp, E, Hl. cbn [mbind option_bind]. rewrite Hpc.
      unfold prod_holds in H4. rewrite Hpc in H4. rewrite H4.
      cbn [sem_wait mbind option_bind]. eauto.
    + left. exists Producer. cbn [thread_step]. unfold producer_step.
      rewrite Ipp, E, Hl. cbn [mbind option_bind]. rewrite Hpc.
      destruct (input s); eauto.
    + left. exists Producer. cbn [thread_step]. unfold producer_step.
      rewrite Ipp, E, Hl. cbn [mbind option_bind]. rewrite Hpc. eauto.
    + right. specialize (Ibl eq_refl). rewrite Ibl in Iin.
      assert (Hall : length chunks <= chunk_num s).
      { destruct (decide (length chunks <= chunk_num s)) as [|Hn']; [assumption|].
        assert (Hd : length (drop (chunk_num s) chunks) = 0) by (rewrite <- Iin; reflexivity).
        rewrite length_drop in Hd. lia. }
      rewrite Iout. apply take_ge. rewrite length_in_order.
      unfold written_count, wr_holds in *. destruct (wr_pc s); try lia.
Qed.

End Order.

(** Three chunks through two workers, the threads taking turns. *)
Lemma writer_emits_in_order_witness :
  output (run (fun k a => (100 * k + a)%nat) 2
            (concat (replicate 20 [Producer; Worker 0; Worker 1; Writer]))
            (init 2 [7; 8; 9]%nat))
  = [(0, 7); (1, 108); (2, 209)]%nat /\
  let out := output (run (fun k a => (100 * k + a)%nat) 2
                       (concat (replicate 5 [Producer; Worker 0; Worker 1; Writer]))
                       (init 2 [7; 8; 9]%nat)) in
  out = take (length out) (in_order (fun k a => (100 * k + a)%nat) [7; 8; 9]%nat) /\
  out.*1 = seq 0 (length out).
Proof.
  split; [vm_compute; reflexivity|].
  exact (writer_emits_in_order (fun k a => (100 * k + a)%nat) 2 ltac:(lia)
           [7; 8; 9]%nat
           (concat (replicate 5 [Producer; Worker 0; Worker 1; Writer]))).
Defined.


Lemma producer_loads_idle_slot_witness :
  let s := run (fun k a => (100 * k + a)%nat) 2
             [Producer; Producer; Producer; Worker 0; Producer]
             (init 2 [7; 8; 9]%nat) in
  prod_pc s = Loading /\
  (chunk_num s <= length (output s) + 2)%nat /\
  (prod_pc s = Loading ->
   exists w, dary s !! prod_p s = Some w /\
             slot_pc w = AtStartSem /\ start_sem w = 0%nat /\
             cmp_done_sem w = 0%nat /\ write_done_sem w = 0%nat /\
             (wr_holds s = true -> wr_p s <> prod_p s)).
Proof.
  split; [vm_compute; reflexivity|].
  exact (producer_loads_idle_slot (fun k a => (100 * k + a)%nat) 2 ltac:(lia)
           [7; 8; 9]%nat [Producer; Producer; Producer; Worker 0; Producer]).
Defined.

Lemma pipeline_runs_to_completion_witness :
  let s := run (fun k a => (100 * k + a)%nat) 2
             (concat (replicate 20 [Producer; Worker 0; Worker 1; Writer]))
             (init 2 [7; 8; 9]%nat) in
  (forall t, thread_step (fun k a => (100 * k + a)%nat) 2 t s = None) /\
  ((exists t s', thread_step (fun k a => (100 * k + a)%nat) 2 t s = Some s') \/
   output s = in_order (fun k a => (100 * k + a)%nat) [7; 8; 9]%nat).
Proof.
  split.
  - intros [|i|]; [vm_compute; reflexivity| |vm_compute; reflexivity].
    destruct i as [|[|i]]; [vm_compute; reflexivity..|reflexivity].
  - exact (pipeline_runs_to_completion (fun k a => (100 * k + a)%nat) 2 ltac:(lia)
             [7; 8; 9]%nat
             (concat (replicate 20 [Producer; Worker 0; Worker 1; Writer]))).
Defined.

End PipelineFacts.

(** ** The LZFX adapter *)

Section Lzfx.

Variable L : lzfx_lib.

Lemma to_uint_small (x : Z) : 0 <= x <= UINT_MAX -> to_uint x = x.
Proof. intros H. unfold to_uint, UINT_MAX in *. apply Z.mod_small. lia. Qed.

Lemma to_uint_wrap (x k : Z) : to_uint (x + k * 2 ^ 32) = to_uint x.
Proof. unfold to_uint. apply Z_mod_plus_full. Qed.

(** X4: [lz_fx_compress] takes the source length modulo 2^32: a buffer of
    [srclen + k * 2^32] bytes is handled as one of [srclen] bytes, its
    first bytes compressed and 0 returned when lzfx accepts them. *)
Theorem lz_fx_compress_length_wraps (lzdat : lzfx_params) (src : buf)
    (srclen dstlen level chdr btype k : Z) :
  lz_fx_compress L lzdat src (srclen + k * 2 ^ 32) dstlen level chdr btype
  = lz_fx_compress L lzdat src srclen dstlen level chdr btype.
Proof. unfold lz_fx_compress. rewrite to_uint_wrap. reflexivity. Qed.

(** X5: a chunk size that [lz_fx_init] accepts is small enough: it fits 32
    bits, the level handed back is at most 9, the hash table has between
    2^15 and 2^20 entries for a level that is not negative, and
    [lz_fx_compress] then gives lzfx every buffer up to the chunk size with
    its lengths as they are; it returns 0 with the length lzfx reports, or
    -1 with [*dstlen] unchanged. *)
Theorem lz_fx_init_guards_lengths (level chunksize : Z) (lzdat : lzfx_params)
    (level' : Z) :
  lz_fx_init level chunksize = Some (lzdat, level') ->
  (chunksize <= UINT_MAX /\ level' = Z.min level 9 /\
   (0 <= level -> htab_bits lzdat = 15 + Z.min level 5 /\
                  15 <= htab_bits lzdat <= 20)) /\
  forall (src : buf) (srclen dstlen lev chdr btype : Z),
    0 <= srclen <= chunksize -> 0 <= dstlen <= chunksize ->
    lz_fx_compress L lzdat src srclen dstlen lev chdr btype =
    if (lev <? 7) && pc_type_compressed L btype then
      {| c_rv := -1; c_dstlen := dstlen; c_out := [] |}
    else
      let r := lzfx_compress L (sub src 0 (Z.to_nat srclen)) srclen dstlen
                 (htab_bits lzdat) in
      if c_rv r =? 0
      then {| c_rv := 0; c_dstlen := to_uint (c_dstlen r); c_out := c_out r |}
      else {| c_rv := -1; c_dstlen := dstlen; c_out := c_out r |}.
Proof.
  unfold lz_fx_init. intros H.
  destruct (UINT_MAX <? chunksize) eqn:E; [discriminate|].
  apply Z.ltb_ge in E. injection H as <- <-. cbn [htab_bits].
  split.
  - split; [exact E|]. split.
    + destruct (9 <? level) eqn:E9;
        [apply Z.ltb_lt in E9|apply Z.ltb_ge in E9]; lia.
    + intros Hl. unfold to_uint.
      destruct (5 <? level) eqn:E5;
        [apply Z.ltb_lt in E5|apply Z.ltb_ge in E5].
      * rewrite Z.min_r by lia. change ((16 + (5 - 1)) `mod` 2 ^ 32) with 20. lia.
      * rewrite Z.min_l by lia. rewrite Z.mod_small by lia. lia.
  - intros src srclen dstlen lev chdr btype Hs Hd.
    unfold lz_fx_compress.
    rewrite !to_uint_small by lia.
    destruct ((lev <? 7) && pc_type_compressed L btype); [reflexivity|].
    cbv zeta. destruct (c_rv _ =? 0); reflexivity.
Qed.

(** X6: what [lz_fx_compress] accepts, [lz_fx_decompress] gives back: for a
    buffer of at most [UINT_MAX] bytes and an lzfx that inverts itself, the
    output of a call that returned 0 decompresses with return value 0 to
    the bytes of the source, their number in [*dstlen]. *)
Theorem lz_fx_round_trip (lzdat : lzfx_params) (src : buf)
    (dstlen level chdr btype dstlen' level' chdr' btype' : Z) :
  lzfx_inverts L ->
  Z.of_nat (length src) <= UINT_MAX -> 0 <= dstlen <= UINT_MAX ->
  Z.of_nat (length src) <= dstlen' <= UINT_MAX ->
  let r := lz_fx_compress L lzdat src (Z.of_nat (length src)) dstlen
             level chdr btype in
  c_rv r = 0 ->
  let r' := lz_fx_decompress L (sub (c_out r) 0 (Z.to_nat (c_dstlen r)))
              (c_dstlen r) dstlen' level' chdr' btype' in
  c_rv r' = 0 /\ c_dstlen r' = Z.of_nat (length src) /\
  take (length src) (c_out r') = src.
Proof.
  intros Hinv Hs Hd Hd'. unfold lz_fx_compress.
  rewrite !to_uint_small by lia.
  destruct ((level <? 7) && pc_type_compressed L btype); [cbn; discriminate|].
  rewrite Nat2Z.id, sub_whole.
  pose proof (Hinv src dstlen (htab_bits lzdat) dstlen') as Hi. cbv zeta in Hi.
  destruct (c_rv (lzfx_compress L src (Z.of_nat (length src)) dstlen
                    (htab_bits lzdat)) =? 0) eqn:E; cbn [negb c_rv c_dstlen c_out];
    [|discriminate].
  intros _. apply Z.eqb_eq in E.
  destruct (Hi E ltac:(lia) ltac:(lia)) as (Hr & H0 & Hl & Ht).
  set (r := lzfx_compress L src (Z.of_nat (length src)) dstlen (htab_bits lzdat)) in *.
  unfold lz_fx_decompress.
  rewrite (to_uint_small (c_dstlen r)) by lia.
  rewrite !to_uint_small by lia.
  rewrite sub_sub by lia. cbn [Nat.add].
  set (r' := lzfx_decompress L (sub (c_out r) 0 (Z.to_nat (c_dstlen r)))
               (c_dstlen r) dstlen') in *.
  rewrite H0. cbn [Z.eqb negb c_rv c_dstlen c_out].
  split; [reflexivity|]. split; [|exact Ht].
  rewrite Hl. apply to_uint_small. lia.
Qed.

End Lzfx.

Lemma toy_lzfx_inverts : lzfx_inverts toy_lzfx.
Proof.
  intros src olen htab olen'. cbn [lzfx_compress lzfx_decompress toy_lzfx].
  destruct (olen <? Z.of_nat (length src) + 1) eqn:E; cbn [c_rv c_dstlen c_out];
    [discriminate|].
  apply Z.ltb_ge in E. intros _ Ho Ho'. split; [lia|].
  assert (Hs : sub (76 :: src) 0 (Z.to_nat (Z.of_nat (length src) + 1)) = 76 :: src).
  { replace (Z.to_nat (Z.of_nat (length src) + 1)) with (length (76 :: src))
      by (simpl length; lia).
    apply sub_whole. }
  rewrite Hs.
  replace (olen' <? Z.of_nat (length src) + 1 - 1) with false
    by (symmetry; apply Z.ltb_ge; lia).
  cbn [c_rv c_dstlen c_out].
  split; [reflexivity|]. split; [lia|]. apply firstn_all.
Qed.

Lemma lz_fx_init_guards_lengths_witness :
  lz_fx_init 14 4096 = Some ({| htab_bits := 20 |}, 9) /\
  lz_fx_compress toy_lzfx {| htab_bits := 20 |} [1; 2; 3; 4] 3 4096 9 0 0
  = {| c_rv := 0; c_dstlen := 4; c_out := [76; 1; 2; 3] |}.
Proof.
  split; [reflexivity|].
  destruct (lz_fx_init_guards_lengths toy_lzfx 14 4096 {| htab_bits := 20 |} 9 eq_refl)
    as [_ H].
  rewrite (H [1; 2; 3; 4] 3 4096 9 0 0) by lia. reflexivity.
Defined.

Lemma lz_fx_round_trip_witness :
  let r := lz_fx_compress toy_lzfx {| htab_bits := 20 |} [1; 2; 3] 3 4096 9 0 0 in
  let r' := lz_fx_decompress toy_lzfx (sub (c_out r) 0 (Z.to_nat (c_dstlen r)))
              (c_dstlen r) 4096 9 0 0 in
  c_rv r' = 0 /\ c_dstlen r' = 3 /\ take 3 (c_out r') = [1; 2; 3].
Proof.
  exact (lz_fx_round_trip toy_lzfx {| htab_bits := 20 |} [1; 2; 3] 4096 9 0 0
           4096 9 0 0 toy_lzfx_inverts ltac:(vm_compute; discriminate)
           ltac:(vm_compute; split; discriminate)
           ltac:(vm_compute; split; discriminate) eq_refl).
Defined.

(** ** The algorithm names of init_algo *)

Section InitAlgo.

Lemma strncpy_cons (k : nat) (c : Z) (l : buf) :
  c <> 0 -> strncpy (S k) (c :: l) = c :: strncpy k l.
Proof. intros H. cbn [strncpy]. apply Z.eqb_neq in H. rewrite H. reflexivity. Qed.

Lemma length_strncpy (n : nat) (l : buf) : length (strncpy n l) = n.
Proof.
  revert l. induction n as [|n IH]; intros l; [reflexivity|].
  cbn [strncpy]. destruct l as [|c l]; [apply length_replicate|].
  destruct (c =? 0); [apply length_replicate|]. cbn [length]. rewrite IH. reflexivity.
Qed.

(** Two prefixes of one buffer agree as far as both go. *)
Lemma prefixes_agree (k m : nat) (alg p q : buf) :
  take k alg = p -> take m alg = q ->
  take (k `min` m) p = take (k `min` m) q.
Proof.
  intros <- <-. rewrite !take_take. f_equal; lia.
Qed.

Local Ltac decide_prefixes :=
  repeat match goal with
  | |- context [bool_decide ?P] =>
      first
        [ rewrite (bool_decide_eq_true_2 P) by reflexivity
        | rewrite (bool_decide_eq_false_2 P)
            by (let E := fresh in intros E; vm_compute in E; discriminate E) ]
  end.

Local Ltac name_bytes n :=
  let l := eval vm_compute in (str n) in change (str n) with l.

Local Ltac one_name n k :=
  unfold init_algo; name_bytes n; cbn [app];
  rewrite !strncpy_cons by discriminate;
  match goal with |- context [strncpy k ?s] => generalize (strncpy k s) end;
  intros t; unfold algo_table; cbn [find fst String.length]; decide_prefixes.

(** X7: [init_algo] looks at the beginning of the name only: a name of its
    list with any bytes after it is accepted, as that algorithm, or as
    [lzmaMt] for [lzma] followed by [Mt] and as [adapt2] for [adapt]
    followed by [2]. *)
Theorem init_algo_accepts_by_prefix (n : String.string) (a : bool) (s : buf) :
  In (n, a) algo_table ->
  exists e, init_algo (str n ++ s) = Some e /\
            (e = (n, a) \/ (n = "lzma" /\ e = ("lzmaMt", false)) \/
             (n = "adapt" /\ e = ("adapt2", true))).
Proof.
  intros H. cbn [In algo_table] in H.
  destruct H as [H|[H|[H|[H|[H|[H|[H|[H|[H|[H|[H|[]]]]]]]]]]]];
    injection H as <- <-.
  - one_name "zlib" 4%nat. eauto.
  - one_name "lzmaMt" 2%nat. eauto.
  - one_name "lzma" 4%nat.
    destruct (bool_decide _); eexists; (split; [reflexivity|]); auto.
  - one_name "bzip2" 3%nat. eauto.
  - one_name "ppmd" 4%nat. eauto.
  - one_name "lzfx" 4%nat. eauto.
  - one_name "lz4" 5%nat. eauto.
  - one_name "none" 4%nat. eauto.
  - one_name "adapt2" 2%nat. eauto.
  - one_name "adapt" 3%nat.
    destruct (bool_decide _); eexists; (split; [reflexivity|]); auto.
  - one_name "libbsc" 2%nat. eauto.
Qed.

(** X8: [adapt_mode] is switched on exactly for the names that begin with
    [adapt] or with [libbsc]: no other name of the list can take such a
    name away, and no name that begins otherwise reaches the three rows
    that set it. *)
Theorem init_algo_adapt_mode (algo : buf) :
  (exists n, init_algo algo = Some (n, true)) <->
  take 5 (strncpy 8 algo) = str "adapt" \/
  take 6 (strncpy 8 algo) = str "libbsc".
Proof.
  unfold init_algo. generalize (strncpy 8 algo). intros alg.
  unfold algo_table. cbn [find fst String.length].
  split.
  - intros [n H]. revert H.
    repeat match goal with
    | |- context [bool_decide ?P] =>
        destruct (decide P) as [?E|?E];
          [rewrite (bool_decide_eq_true_2 P) by assumption
          |rewrite (bool_decide_eq_false_2 P) by assumption];
          try discriminate
    end.
    + intros _. left. match goal with E : take 6 alg = _ |- _ =>
        pose proof (prefixes_agree 5 6 alg _ _ eq_refl E) as C end.
      cbn [Nat.min] in C. rewrite take_take in C. exact C.
    + intros _. left. assumption.
    + intros _. right. assumption.
  - intros H.
    assert (Hother : forall k p, take (5 `min` k) (take 5 (str "adapt"))
                                 <> take (5 `min` k) (take k p) ->
                                 take (6 `min` k) (take 6 (str "libbsc"))
                                 <> take (6 `min` k) (take k p) ->
                                 take k alg = take k p -> False).
    { intros k p N1 N2 E. destruct H as [H|H].
      - apply N1. rewrite <- E.
        change (take 5 (str "adapt")) with (str "adapt").
        rewrite <- H, !take_take. f_equal; lia.
      - apply N2. rewrite <- E.
        change (take 6 (str "libbsc")) with (str "libbsc").
        rewrite <- H, !take_take. f_equal; lia. }
    repeat match goal with
    | |- context [bool_decide (take ?k alg = ?p)] =>
        lazymatch p with
        | str "adapt2" => fail
        | str "adapt" => fail
        | str "libbsc" => fail
        | _ =>
            rewrite (bool_decide_eq_false_2 (take k alg = p))
              by (let E := fresh in intros E;
                  apply (Hother k p);
                  [vm_compute; discriminate|vm_compute; discriminate
                  |rewrite E; vm_compute; reflexivity])
        end
    end.
    destruct (bool_decide (take 6 alg = str "adapt2")); [eauto|].
    destruct H as [H|H].
    + rewrite bool_decide_eq_true_2 by exact H. eauto.
    + destruct (bool_decide (take 5 alg = str "adapt")); [eauto|].
      rewrite bool_decide_eq_true_2 by exact H. eauto.
Qed.

End InitAlgo.

Lemma init_algo_accepts_by_prefix_witness :
  init_algo (str "zlibber") = Some ("zlib", false) /\
  exists e, init_algo (str "lzma" ++ str "Mt") = Some e /\
            (e = ("lzma", false) \/
             ("lzma" = "lzma" /\ e = ("lzmaMt", false)) \/
             ("lzma" = "adapt" /\ e = ("adapt2", true))).
Proof.
  split; [vm_compute; reflexivity|].
  apply (init_algo_accepts_by_prefix "lzma" false (str "Mt")).
  cbn [In algo_table]. right. right. left. reflexivity.
Defined.

(** ** The file header from start_compress to start_decompress *)

Section HeaderRoundTrip.

Variable VERSION : Z.
Variable X : externals.

Lemma strncpy_idem (n : nat) (l : buf) : strncpy n (strncpy n l) = strncpy n l.
Proof.
  revert l. induction n as [|n IH]; intros l; [reflexivity|].
  cbn [strncpy]. destruct l as [|c l].
  - cbn [replicate strncpy Z.eqb]. reflexivity.
  - destruct (c =? 0) eqn:E.
    + cbn [replicate strncpy Z.eqb]. reflexivity.
    + cbn [strncpy]. rewrite E, IH. reflexivity.
Qed.

Lemma to_signed_small (w v : Z) :
  0 < w -> - 2 ^ (w - 1) <= v < 2 ^ (w - 1) -> to_signed w v = v.
Proof.
  intros Hw Hv. unfold to_signed.
  assert (P : 2 ^ w = 2 * 2 ^ (w - 1)).
  { replace w with (1 + (w - 1)) at 1 by lia. rewrite Z.pow_add_r by lia. reflexivity. }
  assert (Q : 0 < 2 ^ (w - 1)) by (apply Z.pow_pos_nonneg; lia).
  destruct (Z.lt_ge_cases v 0) as [Hneg|Hpos].
  - assert (E : v `mod` 2 ^ w = v + 2 ^ w).
    { symmetry. apply (Z.mod_unique_pos _ _ (-1)); lia. }
    rewrite E. destruct (v + 2 ^ w <? 2 ^ (w - 1)) eqn:C;
      [apply Z.ltb_lt in C; lia|lia].
  - rewrite Z.mod_small by lia.
    destruct (v <? 2 ^ (w - 1)) eqn:C; [reflexivity|apply Z.ltb_ge in C; lia].
Qed.

(** X9: the header [start_compress] writes without encryption, that is the
    24 bytes of algorithm, version, flags, chunk size and level followed by
    their CRC32, is what [start_decompress] accepts: it reads the same
    fields back, the four sanity checks pass and the CRC32 computed field by
    field equals the stored one; with any other value in the CRC32 field
    the header is refused. *)
Theorem file_header_round_trip (total_ram : Z) (algo : buf)
    (flags chunksize level : Z) (rest : buf) :
  crc32_streams X ->
  init_algo algo <> None ->
  5 <= VERSION < 2 ^ 15 -> - 2 ^ 15 <= flags < 2 ^ 15 ->
  0 <= chunksize <= EIGHTY_PCT total_ram -> chunksize < 2 ^ 63 ->
  0 <= level <= MAX_LEVEL ->
  let hdr := start_compress_header VERSION algo flags chunksize level in
  let crc := lzma_crc32 X hdr 0 in
  let h := {| f_algo := strncpy ALGO_SZ algo; f_version := VERSION;
              f_flags := flags; f_chunksize := chunksize; f_level := level |} in
  start_decompress_header VERSION total_ram (start_compress_header_crc X hdr ++ rest)
  = inr (h, be_bytes 4 crc ++ rest) /\
  start_decompress_header_crc X h (be_bytes 4 crc ++ rest) = HdrVerified rest /\
  forall crc', 0 <= crc' < 2 ^ 32 -> crc' <> crc ->
    start_decompress_header_crc X h (be_bytes 4 crc' ++ rest)
    = HdrVerificationFailed.
Proof.
  intros [Hstream Hrange] Halgo HV Hf Hcs Hcs' Hl hdr crc h.
  unfold start_compress_header in hdr.
  assert (Hcrc : forall c r, 0 <= c < 2 ^ 32 ->
            Read (be_bytes 4 c ++ r) 4 = (be_bytes 4 c, r)).
  { intros c r Hc. unfold Read. change (Z.to_nat 4) with 4%nat.
    rewrite take_app_length', drop_app_length'
      by (rewrite length_be_bytes; reflexivity).
    reflexivity. }
  assert (Hcrc2 :
    lzma_crc32 X (be_bytes 4 level)
      (lzma_crc32 X (be_bytes 8 chunksize)
         (lzma_crc32 X (be_bytes 2 flags)
            (lzma_crc32 X (be_bytes 2 VERSION)
               (lzma_crc32 X (strncpy ALGO_SZ algo) 0)))) = crc).
  { subst crc hdr. rewrite !Hstream. reflexivity. }
  split; [|split].
  - unfold start_decompress_header, start_compress_header_crc.
    subst hdr. fold crc. rewrite <- !app_assoc.
    replace (length _ <? ALGO_SZ)%nat with false
      by (symmetry; apply Nat.ltb_ge; rewrite length_app, length_strncpy; lia).
    rewrite take_app_length' by (rewrite length_strncpy; reflexivity).
    assert (Hi : init_algo (strncpy ALGO_SZ algo) = init_algo algo)
      by (unfold init_algo, ALGO_SZ; rewrite strncpy_idem; reflexivity).
    rewrite Hi.
    destruct (init_algo algo) as [e|] eqn:Ea; [|congruence].
    rewrite drop_app_length' by (rewrite length_strncpy; reflexivity).
    destruct (header_fields VERSION flags chunksize level (be_bytes 4 crc ++ rest))
      as (H0 & H1 & H2 & H3 & H4 & H5).
    cbv zeta in *. rewrite H0, H1, H2, H3, H4, H5.
    rewrite (to_signed_small 16 VERSION) by lia.
    rewrite (to_signed_small 16 flags) by lia.
    rewrite (to_signed_small 64 chunksize)
      by (change (2 ^ (64 - 1)) with (2 ^ 63); lia).
    rewrite (to_signed_small 32 level)
      by (unfold MAX_LEVEL in Hl; change (2 ^ (32 - 1)) with 2147483648; lia).
    assert (Hs : header_sanity VERSION total_ram VERSION chunksize level = None).
    { unfold header_sanity.
      replace (VERSION <? VERSION) with false by (symmetry; apply Z.ltb_ge; lia).
      rewrite (Z.mod_small chunksize) by lia.
      replace (EIGHTY_PCT total_ram <? chunksize) with false
        by (symmetry; apply Z.ltb_ge; lia).
      replace (MAX_LEVEL <? level) with false by (symmetry; apply Z.ltb_ge; lia).
      replace (level <? 0) with false by (symmetry; apply Z.ltb_ge; lia).
      replace (VERSION <? VERSION - 3) with false by (symmetry; apply Z.ltb_ge; lia).
      reflexivity. }
    rewrite Hs. reflexivity.
  - unfold start_decompress_header_crc. subst h. cbn [f_version f_algo f_flags
      f_chunksize f_level].
    replace (5 <=? VERSION) with true by (symmetry; apply Z.leb_le; lia).
    rewrite Hcrc by apply Hrange. rewrite length_be_bytes. cbn [Nat.ltb Nat.leb].
    rewrite Hcrc2, be_value_be_bytes_small
      by (change (256 ^ Z.of_nat 4) with (2 ^ 32); apply Hrange).
    rewrite Z.eqb_refl. reflexivity.
  - intros crc' Hc' Hne.
    unfold start_decompress_header_crc. subst h. cbn [f_version f_algo f_flags
      f_chunksize f_level].
    replace (5 <=? VERSION) with true by (symmetry; apply Z.leb_le; lia).
    rewrite Hcrc by exact Hc'. rewrite length_be_bytes. cbn [Nat.ltb Nat.leb].
    rewrite Hcrc2, be_value_be_bytes_small
      by (change (256 ^ Z.of_nat 4) with (2 ^ 32); exact Hc').
    apply Z.eqb_neq in Hne. rewrite Hne. reflexivity.
Qed.

End HeaderRoundTrip.

Lemma file_header_round_trip_witness :
  let hdr := start_compress_header 8 (str "zlib") 4 4096 6 in
  let crc := lzma_crc32 toy hdr 0 in
  let h := {| f_algo := strncpy ALGO_SZ (str "zlib"); f_version := 8;
              f_flags := 4; f_chunksize := 4096; f_level := 6 |} in
  start_decompress_header 8 1000000 (start_compress_header_crc toy hdr ++ [1; 2; 3])
  = inr (h, be_bytes 4 crc ++ [1; 2; 3]) /\
  start_decompress_header_crc toy h (be_bytes 4 crc ++ [1; 2; 3])
  = HdrVerified [1; 2; 3] /\
  forall crc', 0 <= crc' < 2 ^ 32 -> crc' <> crc ->
    start_decompress_header_crc toy h (be_bytes 4 crc' ++ [1; 2; 3])
    = HdrVerificationFailed.
Proof.
  exact (file_header_round_trip 8 toy 1000000 (str "zlib") 4 4096 6 [1; 2; 3]
           toy_crc32_streams
           ltac:(vm_compute; discriminate)
           ltac:(vm_compute; split; [discriminate|reflexivity])
           ltac:(vm_compute; split; [discriminate|reflexivity])
           ltac:(vm_compute; split; discriminate)
           ltac:(vm_compute; reflexivity)
           ltac:(vm_compute; split; discriminate)).
Defined.

Section DedupeFlags.

Variables FLAG_DEDUP FLAG_DEDUP_FIXED : Z.

Hypothesis Hdistinct : Z.land FLAG_DEDUP FLAG_DEDUP_FIXED = 0.
Hypothesis Hdedup : FLAG_DEDUP <> 0.
Hypothesis Hfixed : FLAG_DEDUP_FIXED <> 0.

(** X10: the dedup flags of the header carry the dedup mode over: for an
    archive version above 7, outside pipe mode, and whatever the other
    header flags are, [start_decompress] started with dedup off sets
    [dedupe_flag] to the value [start_compress] used, switches global dedup
    on exactly when it was on, and has dedup on exactly when it was on.  A
    file written under [-F -G] is read with [enable_rabin_scan] set. *)
Theorem dedupe_flags_round_trip (G G0 : globals) (version more : Z) :
  Z.land more FLAG_DEDUP = 0 -> Z.land more FLAG_DEDUP_FIXED = 0 ->
  7 < version ->
  enable_rabin_scan G0 = false -> enable_fixed_scan G0 = false ->
  enable_rabin_global G0 = false ->
  let flags := Z.lor (start_compress_dedup_flags FLAG_DEDUP FLAG_DEDUP_FIXED G) more in
  exists m,
    start_decompress_dedupe FLAG_DEDUP FLAG_DEDUP_FIXED G0 version flags false
    = inr m /\
    dm_flag m = start_compress_dedupe_flag G /\
    dm_rabin_global m = enable_rabin_global G /\
    dm_rabin_scan m || dm_fixed_scan m || dm_rabin_global m
    = enable_rabin_scan G || enable_fixed_scan G || enable_rabin_global G /\
    (enable_rabin_global G = true -> dm_rabin_scan m = true).
Proof.
  intros Hm1 Hm2 Hv H1 H2 H3 flags.
  assert (Ev : (7 <? version) = true) by (apply Z.ltb_lt; exact Hv).
  assert (Hdf : Z.land FLAG_DEDUP_FIXED FLAG_DEDUP = 0)
    by (rewrite Z.land_comm; exact Hdistinct).
  assert (Eb : forall x y, x <> 0 -> (Z.land (Z.lor x more) x =? 0) = false
               /\ (Z.land y x = 0 -> (Z.land (Z.lor (Z.lor x y) more) x =? 0) = false)).
  { intros x y Hx. split; [|intros Hy]; apply Z.eqb_neq; intros E; apply Hx.
    - rewrite Z.land_lor_distr_l, Z.land_diag in E.
      apply Z.lor_eq_0_iff in E. tauto.
    - rewrite !Z.land_lor_distr_l, Z.land_diag in E.
      apply Z.lor_eq_0_iff in E. destruct E as [E _].
      apply Z.lor_eq_0_iff in E. tauto. }
  subst flags.
  unfold start_decompress_dedupe, start_compress_dedupe_flag,
    start_compress_dedup_flags.
  destruct (enable_rabin_global G) eqn:Eg; cbn [orb andb].
  - (* -G *)
    rewrite orb_true_r. rewrite Z.lor_0_l.
    destruct (Eb FLAG_DEDUP FLAG_DEDUP_FIXED Hdedup) as [_ Ed].
    rewrite (Ed Hdf). cbn [negb].
    assert (Ef : (Z.land (Z.lor (Z.lor FLAG_DEDUP FLAG_DEDUP_FIXED) more)
                    FLAG_DEDUP_FIXED =? 0) = false).
    { apply Z.eqb_neq. intros E. apply Hfixed.
      rewrite !Z.land_lor_distr_l, Z.land_diag in E.
      apply Z.lor_eq_0_iff in E. destruct E as [E _].
      apply Z.lor_eq_0_iff in E. tauto. }
    rewrite Ef, Ev. cbn [negb]. eexists. split; [reflexivity|].
    cbn [dm_flag dm_rabin_global dm_rabin_scan dm_fixed_scan].
      rewrite ?H1, ?H2, ?H3, ?orb_true_r, ?orb_false_r. cbn [orb].
      repeat split; auto; discriminate.
  - rewrite !orb_false_r.
    destruct (enable_rabin_scan G) eqn:Es; cbn [orb].
    + (* -D *)
      rewrite Z.lor_0_l.
      destruct (Eb FLAG_DEDUP 0 Hdedup) as [Ed _]. rewrite Ed. cbn [negb].
      assert (Ef : (Z.land (Z.lor FLAG_DEDUP more) FLAG_DEDUP_FIXED =? 0) = true).
      { apply Z.eqb_eq. rewrite Z.land_lor_distr_l, Hdistinct, Hm2. reflexivity. }
      rewrite Ef. cbn [negb]. eexists. split; [reflexivity|].
      cbn [dm_flag dm_rabin_global dm_rabin_scan dm_fixed_scan].
      rewrite ?H1, ?H2, ?H3, ?orb_true_r, ?orb_false_r. cbn [orb].
      repeat split; auto; discriminate.
    + destruct (enable_fixed_scan G) eqn:Ex.
      * (* -F *)
        rewrite Z.lor_0_l.
        assert (Ed : (Z.land (Z.lor FLAG_DEDUP_FIXED more) FLAG_DEDUP =? 0) = true).
        { apply Z.eqb_eq. rewrite Z.land_lor_distr_l, Hdf, Hm1. reflexivity. }
        destruct (Eb FLAG_DEDUP_FIXED 0 Hfixed) as [Ef _].
        rewrite Ed, Ef. cbn [negb]. eexists. split; [reflexivity|].
        cbn [dm_flag dm_rabin_global dm_rabin_scan dm_fixed_scan].
      rewrite ?H1, ?H2, ?H3, ?orb_true_r, ?orb_false_r. cbn [orb].
      repeat split; auto; discriminate.
      * (* no dedup *)
        rewrite Z.lor_0_l.
        assert (Ed : (Z.land more FLAG_DEDUP =? 0) = true) by (apply Z.eqb_eq; exact Hm1).
        assert (Ef : (Z.land more FLAG_DEDUP_FIXED =? 0) = true)
          by (apply Z.eqb_eq; exact Hm2).
        rewrite Ed, Ef. cbn [negb]. eexists. split; [reflexivity|].
        cbn [dm_flag dm_rabin_global dm_rabin_scan dm_fixed_scan].
      rewrite ?H1, ?H2, ?H3, ?orb_true_r, ?orb_false_r. cbn [orb].
      repeat split; auto; discriminate.
Qed.

End DedupeFlags.

Lemma dedupe_flags_round_trip_witness :
  exists m,
    start_decompress_dedupe 1 2 G_plain 8
      (Z.lor (start_compress_dedup_flags 1 2
                {| adapt_mode := false; enable_rabin_scan := false;
                   enable_rabin_global := true; enable_delta2_encode := false;
                   enable_fixed_scan := true; lzp_preprocess := false;
                   encrypt_type := 0; cksum := 256; cksum_bytes := 4;
                   mac_bytes := 4 |}) 260) false
    = inr m /\
    dm_flag m = RABIN_DEDUPE_FILE_GLOBAL /\ dm_rabin_scan m = true /\
    dm_fixed_scan m = false.
Proof.
  destruct (dedupe_flags_round_trip 1 2 eq_refl ltac:(discriminate)
              ltac:(discriminate)
              {| adapt_mode := false; enable_rabin_scan := false;
                 enable_rabin_global := true; enable_delta2_encode := false;
                 enable_fixed_scan := true; lzp_preprocess := false;
                 encrypt_type := 0; cksum := 256; cksum_bytes := 4;
                 mac_bytes := 4 |}
              G_plain 8 260 eq_refl eq_refl ltac:(lia) eq_refl eq_refl eq_refl)
    as (m & Hm & Hf & _ & _ & Hs).
  exists m. split; [exact Hm|]. split; [exact Hf|]. split; [exact (Hs eq_refl)|].
  vm_compute in Hm. injection Hm as <-. reflexivity.
Defined.

Section ThreadCount.

Variable FLAG_SINGLE_CHUNK : Z.

(** X11: after the adjustment for the file size, [start_compress] has at
    least one thread, no thread beyond the chunks of the file (the last
    thread has a chunk that begins inside the file), and no more threads
    than a positive count that was asked for. *)
Theorem start_compress_thread_count (st_size chunksize nthreads flags : Z)
    (enable_rabin_split : bool) :
  0 < st_size -> 0 < chunksize -> 0 <= nthreads ->
  let a := start_compress_adjust FLAG_SINGLE_CHUNK st_size chunksize nthreads
             flags enable_rabin_split in
  1 <= sc_nthreads a /\
  (sc_nthreads a - 1) * sc_chunksize a < st_size /\
  (0 < nthreads -> sc_nthreads a <= nthreads).
Proof.
  intros Hs Hc Hn. unfold start_compress_adjust.
  destruct (st_size <=? chunksize) eqn:E;
    [apply Z.leb_le in E|apply Z.leb_gt in E];
    cbn [sc_nthreads sc_chunksize]; [lia|].
  pose proof (Z.div_mod st_size chunksize ltac:(lia)) as D.
  pose proof (Z.mod_pos_bound st_size chunksize Hc) as M.
  assert (Q : 1 <= st_size / chunksize).
  { apply Z.div_le_lower_bound; lia. }
  destruct ((nthreads =? 0) || (st_size / chunksize <? nthreads)) eqn:C.
  - destruct (st_size `mod` chunksize =? 0) eqn:R;
      [apply Z.eqb_eq in R|apply Z.eqb_neq in R].
    + split; [lia|]. split; [nia|]. intros Hp.
      apply orb_true_iff in C. destruct C as [C|C];
        [apply Z.eqb_eq in C|apply Z.ltb_lt in C]; lia.
    + split; [lia|]. split; [nia|]. intros Hp.
      apply orb_true_iff in C. destruct C as [C|C];
        [apply Z.eqb_eq in C|apply Z.ltb_lt in C]; lia.
  - apply orb_false_iff in C. destruct C as [C1 C2].
    apply Z.eqb_neq in C1. apply Z.ltb_ge in C2.
    split; [lia|]. split; [nia|]. lia.
Qed.

End ThreadCount.

Lemma start_compress_thread_count_witness :
  let a := start_compress_adjust 4 10000 4096 8 0 true in
  sc_nthreads a = 3 /\
  1 <= sc_nthreads a /\
  (sc_nthreads a - 1) * sc_chunksize a < 10000 /\
  (0 < 8 -> sc_nthreads a <= 8).
Proof.
  split; [reflexivity|].
  exact (start_compress_thread_count 4 10000 4096 8 0 true
           ltac:(lia) ltac:(lia) ltac:(lia)).
Defined.

(** ** preproc_decompress after a back end that compressed *)

Section PreprocRoundTrip.

Variable G : globals.
Variable X : externals.

Hypothesis Hl : lzp_inverts X.
Hypothesis Hd : delta2_inverts X.

(** The Delta2 and LZP steps of [preproc_decompress] on the bytes the two
    stages of [preproc_compress] left. *)
Lemma preproc_dec_stages ubuf soff srclen cbuf doff level props_ cbuf1 type n ubuf1
    (tb : Z) (cb : buf) (so : nat) (ob : buf) (ooff : nat) (dl0 dl : Z) :
  0 <= srclen ->
  preproc_stages G X ubuf soff srclen cbuf doff level props_
  = (cbuf1, Some (type, n, ubuf1)) ->
  (Z.land tb PREPROC_TYPE_LZP =? 0) = (Z.land type PREPROC_TYPE_LZP =? 0) ->
  (Z.land tb PREPROC_TYPE_DELTA2 =? 0) = (Z.land type PREPROC_TYPE_DELTA2 =? 0) ->
  sub cb so (Z.to_nat n) = sub ubuf1 soff (Z.to_nat n) ->
  (type = 0 ->
   dl = n /\ sub ob ooff (Z.to_nat n) = sub ubuf1 soff (Z.to_nat n)) ->
  (let '(n0, _, _) := lzp_left G X ubuf soff srclen cbuf doff level in
   Z.testbit type 1 = true -> n0 <= dl0) ->
  exists n' cb' ob1 dl1,
    preproc_dec_delta2 X tb dl0 cb so n ob ooff dl = inr (n', cb', ob1, dl1) /\
    exists ob2,
      preproc_dec_lzp X tb cb' so n' ob1 ooff dl1 level = inr (ob2, srclen) /\
      sub ob2 ooff (Z.to_nat srclen) = sub ubuf soff (Z.to_nat srclen).
Proof.
  intros Hs Hst Hbl' Hbd' Hcb Hnone Hcap.
  pose proof (preproc_stages_len G X _ _ _ _ _ _ _ _ _ _ _ Hl Hd Hs Hst) as Hn.
  pose proof (preproc_stages_type G X _ _ _ _ _ _ _ _ _ _ _ Hst) as Htype.
  pose proof (preproc_lzp_stage_eq G X ubuf soff srclen cbuf doff level) as H1.
  pose proof (lzp_left_inverts G X ubuf soff srclen cbuf doff level Hl Hs) as H1'.
  unfold preproc_stages in Hst.
  destruct (lzp_left G X ubuf soff srclen cbuf doff level) as [[n0 ubuf0] cbuf0].
  destruct H1 as [E1 H1]. rewrite E1 in Hst.
  set (la := lzp_applied G X ubuf soff srclen level) in *.
  set (da := delta2_applied G X props_ ubuf0 soff n0) in *.
  destruct (type_bits la da)
    as (Hr & Hclr & _ & Hbl & Hbd & Ht0 & Ht1 & Ht7 & Hmask).
  rewrite <- Htype in Hr, Hclr, Hbl, Hbd, Ht0, Ht1, Ht7, Hmask.
  rewrite Hbl in Hbl'. rewrite Hbd in Hbd'.
  assert (Hn0 : 0 <= n0).
  { destruct la.
    - destruct (H1' eq_refl) as [H _]. exact H.
    - destruct (H1 eq_refl) as [-> _]. exact Hs. }
  assert (Hdl : (if da then
                   forall dstlen',
                     n0 <= dstlen' ->
                     let r' := delta2_decode X (sub ubuf1 soff (Z.to_nat n)) dstlen' in
                     c_rv r' <> -1 /\ c_dstlen r' = n0 /\
                     take (Z.to_nat n0) (c_out r') = sub ubuf0 soff (Z.to_nat n0)
                 else n = n0 /\ ubuf1 = ubuf0)).
  { assert (Hgo : forall t0,
      (let '(type, srclen0, ubuf2, cbuf2) :=
         preproc_delta2_stage G X props_ t0 ubuf0 soff n0 cbuf0 doff in
       (cbuf2, Some (type, srclen0, ubuf2))) = (cbuf1, Some (type, n, ubuf1)) ->
      if da then
        forall dstlen',
          n0 <= dstlen' ->
          let r' := delta2_decode X (sub ubuf1 soff (Z.to_nat n)) dstlen' in
          c_rv r' <> -1 /\ c_dstlen r' = n0 /\
          take (Z.to_nat n0) (c_out r') = sub ubuf0 soff (Z.to_nat n0)
      else n = n0 /\ ubuf1 = ubuf0).
    { intros t0.
      pose proof (preproc_delta2_stage_eq G X props_ t0 ubuf0 soff n0 cbuf0 doff) as H2.
      pose proof (delta2_left_inverts G X props_ t0 ubuf0 soff n0 cbuf0 doff Hd Hn0) as H2'.
      destruct (preproc_delta2_stage G X props_ t0 ubuf0 soff n0 cbuf0 doff)
        as [[[type' n'] ubuf'] cbuf'].
      intros H. injection H as _ _ <- <-. fold da in H2, H2'.
      destruct da.
      - destruct (H2' eq_refl) as [_ H]. exact H.
      - destruct H2 as [_ H2]. destruct (H2 eq_refl) as [-> ->]. auto. }
    destruct la; [apply (Hgo _ Hst)|].
    destruct (enable_delta2_encode G); [apply (Hgo _ Hst)|discriminate]. }
  unfold preproc_dec_delta2. rewrite Hbd'.
  destruct da; cbn [negb].
  - (* Delta2 was applied *)
    specialize (Hdl dl0 (Hcap Ht1)). cbv zeta in Hdl. rewrite Hcb.
    set (r' := delta2_decode X (sub ubuf1 soff (Z.to_nat n)) dl0) in *.
    destruct Hdl as (Hrv' & Hdl' & Hout').
    assert (E : (c_rv r' =? -1) = false) by (apply Z.eqb_neq; exact Hrv').
    rewrite E. cbn [negb].
    assert (Hlo : (Z.to_nat n0 <= length (c_out r'))%nat).
    { apply (f_equal (@length Z)) in Hout'.
      rewrite length_take, length_sub in Hout'. lia. }
    eexists _, _, _, _. split; [reflexivity|].
    unfold preproc_dec_lzp. rewrite Hbl', Hdl'.
    destruct la; cbn [negb].
    + destruct (H1' eq_refl) as [_ Hlz].
      rewrite sub_memcpy_same' by (rewrite length_sub; reflexivity).
      rewrite sub_memcpy_take by exact Hlo. rewrite Hout'.
      destruct (lzp_decompress X (sub ubuf0 soff (Z.to_nat n0)) (lzp_hash_size X level))
        as [result' out'].
      destruct Hlz as [-> Hout].
      assert (E2 : (srclen <? 0) = false) by (apply Z.ltb_ge; exact Hs).
      rewrite E2. eexists. split; [reflexivity|].
      rewrite sub_memcpy_take; [exact Hout|].
      apply (f_equal (@length Z)) in Hout.
      rewrite length_take, length_sub in Hout. lia.
    + destruct (H1 eq_refl) as [-> ->].
      eexists. split; [reflexivity|].
      rewrite sub_memcpy_take by exact Hlo. exact Hout'.
  - destruct Hdl as [-> ->].
    eexists _, _, _, _. split; [reflexivity|].
    unfold preproc_dec_lzp. rewrite Hbl'.
    destruct la; cbn [negb].
    + destruct (H1' eq_refl) as [_ Hlz]. rewrite Hcb.
      destruct (lzp_decompress X (sub ubuf0 soff (Z.to_nat n0)) (lzp_hash_size X level))
        as [result' out'].
      destruct Hlz as [-> Hout].
      assert (E2 : (srclen <? 0) = false) by (apply Z.ltb_ge; exact Hs).
      rewrite E2. eexists. split; [reflexivity|].
      rewrite sub_memcpy_take; [exact Hout|].
      apply (f_equal (@length Z)) in Hout.
      rewrite length_take, length_sub in Hout. lia.
    + assert (Ety : type = 0) by (simpl in Htype; lia).
      destruct (Hnone Ety) as [-> Hob].
      destruct (H1 eq_refl) as [-> ->].
      eexists. split; [reflexivity|]. exact Hob.
Qed.

(** X12: when the back end compressed what LZP and Delta2 left,
    [preproc_compress] returns its value, sets the high bit of the type
    byte and stores the length and the compressed bytes; with LZP, Delta2
    and the back end reversible ([lzp_inverts], [delta2_inverts],
    [backend_inverts]), [preproc_decompress] then returns 0 and leaves the
    source bytes, their number in [*dstlen], whether a stage was applied or
    not, when it is entered with a capacity [*dstlen] that has room for the
    bytes Delta2 was given (asked only when the Delta2 bit is set) and with
    a chunk header byte whose bits 4 to 6 are the value the back end
    returned in adaptive mode and 0 otherwise. *)
Theorem preproc_round_trip_compressed
    (cmp dec : compress_func_ptr) (ubuf : buf) (soff : nat) (srclen : Z)
    (cbuf : buf) (doff : nat) (dstlen level chdr : Z) (props_ : algo_props_t)
    (cbuf1 : buf) (type n : Z) (ubuf1 : buf) :
  backend_inverts (adapt_mode G) cmp dec -> 0 <= srclen ->
  preproc_stages G X ubuf soff srclen cbuf doff level props_
  = (cbuf1, Some (type, n, ubuf1)) ->
  let r := cmp (sub ubuf1 soff (Z.to_nat n)) n level chdr in
  -1 < c_rv r -> c_dstlen r < n -> n < 2 ^ 64 ->
  let res := preproc_compress G X cmp ubuf soff srclen cbuf doff dstlen
               level chdr props_ in
  let '(n0, _, _) := lzp_left G X ubuf soff srclen cbuf doff level in
  p_rv res = c_rv r /\ p_dstlen res = c_dstlen r + 9 /\
  Z.testbit (nth doff (p_dst res) 0) 7 = true /\
  forall (obuf : buf) (ooff : nat) (dl ch : Z),
    (Z.testbit type 1 = true -> n0 <= dl) ->
    Z.land (Z.shiftr ch 4) 7 = (if adapt_mode G then c_rv r else 0) ->
    let res2 := preproc_decompress X dec (p_dst res) doff (p_dstlen res)
                  obuf ooff dl level ch props_ in
    p_rv res2 = 0 /\ p_dstlen res2 = srclen /\
    sub (p_dst res2) ooff (Z.to_nat srclen) = sub ubuf soff (Z.to_nat srclen).
Proof.
  intros Hb Hs Hst r Hrv Hsh Hn64 res.
  pose proof (preproc_stages_len G X _ _ _ _ _ _ _ _ _ _ _ Hl Hd Hs Hst) as Hn.
  assert (Hty : type = 0 \/ type = 1 \/ type = 2 \/ type = 3).
  { pose proof (preproc_stages_type G X _ _ _ _ _ _ _ _ _ _ _ Hst) as Htype.
    destruct (lzp_left G X ubuf soff srclen cbuf doff level) as [[n0 ubuf0] cbuf0].
    destruct (type_bits (lzp_applied G X ubuf soff srclen level)
                (delta2_applied G X props_ ubuf0 soff n0)) as (Hr & _).
    rewrite <- Htype in Hr. lia. }
  pose proof (preproc_backend_stage_eq cmp type ubuf1 soff n cbuf1 doff level chdr Hn)
    as He.
  cbv zeta in He. fold r in He.
  rewrite <- (preproc_compress_stages G X cmp ubuf soff srclen cbuf doff dstlen level
                chdr props_ cbuf1 type n ubuf1 Hst) in He.
  fold res in He.
  assert (Ec : (-1 <? c_rv r) && (c_dstlen r <? n) = true).
  { apply andb_true_iff. split; apply Z.ltb_lt; lia. }
  rewrite Ec in He. destruct He as (_ & Hprv & Hlen & Htb & Hlenb & Hdata).
  (* the back end on these bytes *)
  pose proof (Hb (sub ubuf1 soff (Z.to_nat n)) level chdr) as Hinv.
  rewrite length_sub, Z2Nat.id in Hinv by exact Hn. fold r in Hinv.
  pose proof (fun tb cb so ob ooff dl0 dl =>
                preproc_dec_stages ubuf soff srclen cbuf doff level props_ cbuf1
                  type n ubuf1 tb cb so ob ooff dl0 dl Hs Hst) as Hstages.
  destruct (lzp_left G X ubuf soff srclen cbuf doff level) as [[n0 ubuf0] cbuf0].
  split; [exact Hprv|]. split; [exact Hlen|].
  split.
  { rewrite Htb. destruct Hty as [->|[->|[->| ->]]]; reflexivity. }
  intros obuf ooff dl ch Hcap Hch res2. subst res2.
  destruct (Hinv ch n Hrv ltac:(lia) Hch) as (Hd0 & Hdl & Hr').
  cbv zeta in Hr'.
  set (r' := dec (take (Z.to_nat (c_dstlen r)) (c_out r)) n level ch) in *.
  destruct Hr' as (Hrv' & Hdl' & Hout').
  unfold preproc_decompress. rewrite Htb. unfold preproc_dec_backend.
  assert (Eb : (Z.land (Z.lor type PREPROC_COMPRESSED) PREPROC_COMPRESSED =? 0) = false)
    by (destruct Hty as [->|[->|[->| ->]]]; reflexivity).
  rewrite Eb. cbn [negb]. rewrite Hlenb, Hlen.
  rewrite be_value_be_bytes_small
    by (change (256 ^ Z.of_nat 8) with (2 ^ 64); lia).
  replace (c_dstlen r + 9 - 1 - 8) with (c_dstlen r) by lia.
  replace (doff + 1 + 8)%nat with (doff + 9)%nat by lia.
  rewrite (Hdata _ Hdl). fold r'.
  assert (E0 : (c_rv r' <? 0) = false) by (apply Z.ltb_ge; exact Hrv').
  rewrite E0, Hdl'.
  assert (Hlo : (Z.to_nat n <= length (c_out r'))%nat).
  { apply (f_equal (@length Z)) in Hout'.
    rewrite length_take, length_sub in Hout'. lia. }
  assert (Hou : sub (memcpy obuf ooff (c_out r')) ooff (Z.to_nat n)
                = sub ubuf1 soff (Z.to_nat n)).
  { rewrite sub_memcpy_take by exact Hlo. exact Hout'. }
  destruct (Hstages (Z.lor type PREPROC_COMPRESSED)
              (memcpy (p_dst res) doff
                 (sub (memcpy obuf ooff (c_out r')) ooff (Z.to_nat n)))
              doff (memcpy obuf ooff (c_out r')) ooff dl n)
    as (n' & cb' & ob1 & dl1 & Hd2 & ob2 & Hlz & Hfin).
  - destruct Hty as [->|[->|[->| ->]]]; reflexivity.
  - destruct Hty as [->|[->|[->| ->]]]; reflexivity.
  - rewrite sub_memcpy_same' by (rewrite length_sub; reflexivity). exact Hou.
  - intros _. split; [reflexivity|exact Hou].
  - exact Hcap.
  - rewrite Hd2, Hlz.
    assert (Em : (Z.land (Z.lor type PREPROC_COMPRESSED)
                    (Z.lor PREPROC_COMPRESSED
                       (Z.lor PREPROC_TYPE_DELTA2 PREPROC_TYPE_LZP)) =? 0) = false)
      by (destruct Hty as [->|[->|[->| ->]]]; reflexivity).
    rewrite Em. cbn [andb p_rv p_dstlen p_dst].
    split; [reflexivity|]. split; [reflexivity|exact Hfin].
Qed.

End PreprocRoundTrip.

Lemma forallb_eqb_replicate (a : Z) (l : buf) :
  forallb (Z.eqb a) l = true -> l = replicate (length l) a.
Proof.
  induction l as [|x l IH]; cbn [forallb length replicate]; [reflexivity|].
  intros H. apply andb_true_iff in H. destruct H as [H1 H2].
  apply Z.eqb_eq in H1. subst x. f_equal. exact (IH H2).
Qed.

(** The run-length stand-in and its decoder, which does not look at the
    chunk header byte. *)
Lemma toy_run_inverts (src : buf) (level chdr chdr' dl : Z) :
  let r := Toy.compress src (Z.of_nat (length src)) level chdr in
  -1 < c_rv r -> Z.of_nat (length src) <= dl ->
  0 <= c_dstlen r /\ (Z.to_nat (c_dstlen r) <= length (c_out r))%nat /\
  let r' := Toy.decompress (take (Z.to_nat (c_dstlen r)) (c_out r)) dl level chdr' in
  0 <= c_rv r' /\ c_dstlen r' = Z.of_nat (length src) /\
  take (length src) (c_out r') = src.
Proof.
  cbv zeta. unfold Toy.compress.
  destruct src as [|a rest]; [cbn; lia|].
  destruct (forallb (Z.eqb a) rest && (2 <? Z.of_nat (length (a :: rest)))
            && (Z.of_nat (length (a :: rest)) <? 256)) eqn:E;
    cbn [c_rv c_dstlen c_out]; [|lia].
  intros _ Hcap. apply andb_true_iff in E. destruct E as [E _].
  apply andb_true_iff in E. destruct E as [E _].
  split; [lia|]. split; [cbn; lia|].
  change (take (Z.to_nat 2) [a; Z.of_nat (length (a :: rest))])
    with [a; Z.of_nat (length (a :: rest))].
  unfold Toy.decompress.
  destruct (dl <? Z.of_nat (length (a :: rest))) eqn:Ecap;
    [apply Z.ltb_lt in Ecap; lia|].
  cbn [c_rv c_dstlen c_out].
  split; [lia|]. split; [reflexivity|].
  rewrite Nat2Z.id. rewrite firstn_all2 by (rewrite length_replicate; lia).
  cbn [length replicate]. f_equal. symmetry. apply forallb_eqb_replicate, E.
Qed.

Lemma toy_backend_inverts : backend_inverts false Toy.compress Toy.decompress.
Proof.
  intros src level chdr chdr' dl r Hrv Hcap _.
  exact (toy_run_inverts src level chdr chdr' dl Hrv Hcap).
Qed.

Lemma preproc_round_trip_compressed_witness :
  let res := preproc_compress G_lzp_delta2 toy Toy.compress preproc_sample 0 21
               (replicate 30 0) 0 21 6 0 toy_props in
  nth 0 (p_dst res) 0 = 131 /\ p_dstlen res = 11 /\
  let res2 := preproc_decompress toy Toy.decompress (p_dst res) 0 (p_dstlen res)
                [] 0 21 6 5 toy_props in
  p_rv res2 = 0 /\ p_dstlen res2 = 21 /\
  sub (p_dst res2) 0 (Z.to_nat 21) = sub preproc_sample 0 (Z.to_nat 21).
Proof.
  split; [vm_compute; reflexivity|]. split; [vm_compute; reflexivity|].
  pose proof (preproc_round_trip_compressed G_lzp_delta2 toy toy_lzp_inverts
                toy_delta2_inverts Toy.compress Toy.decompress preproc_sample
                0%nat 21 (replicate 30 0) 0%nat 21 6 0 toy_props
                (replicate 20 5 ++ replicate 10 0) 3 20 (replicate 20 5 ++ [0])
                toy_backend_inverts ltac:(lia) ltac:(vm_compute; reflexivity)
                ltac:(vm_compute; reflexivity) ltac:(vm_compute; reflexivity)
                ltac:(lia)) as H.
  cbv zeta in H.
  assert (Hleft : lzp_left G_lzp_delta2 toy preproc_sample 0 21 (replicate 30 0) 0 6
                  = (20, tl preproc_sample ++ [0], tl preproc_sample ++ replicate 10 0))
    by (vm_compute; reflexivity).
  rewrite Hleft in H. destruct H as (_ & _ & _ & H).
  apply (H [] 0%nat 21 5).
  - intros _. lia.
  - vm_compute. reflexivity.
Defined.

(** X13: on a payload whose type byte has none of the bits for LZP, Delta2
    and the back end, [preproc_decompress] calls nothing and writes nothing:
    [dst] and [*dstlen] are as they were.  It returns -1 when the byte is
    not 0, and 0, the value of a success, when the byte is 0. *)
Theorem preproc_decompress_no_stage (X : externals) (dec : compress_func_ptr)
    (cbuf : buf) (soff : nat) (srclen : Z) (ubuf : buf) (doff : nat)
    (dstlen level chdr : Z) (props_ : algo_props_t) :
  let type := nth soff cbuf 0 in
  Z.land type (Z.lor PREPROC_COMPRESSED
                 (Z.lor PREPROC_TYPE_DELTA2 PREPROC_TYPE_LZP)) = 0 ->
  let res := preproc_decompress X dec cbuf soff srclen ubuf doff dstlen
               level chdr props_ in
  p_dst res = ubuf /\ p_src res = cbuf /\ p_dstlen res = dstlen /\
  p_rv res = (if 0 <? type then -1 else 0).
Proof.
  intros type Hm res. subst res. unfold preproc_decompress. fold type.
  assert (Hbit : forall m, Z.land (Z.lor PREPROC_COMPRESSED
                             (Z.lor PREPROC_TYPE_DELTA2 PREPROC_TYPE_LZP)) m = m ->
                           Z.land type m = 0).
  { intros m E. rewrite <- E, Z.land_assoc, Hm. reflexivity. }
  unfold preproc_dec_backend, preproc_dec_delta2, preproc_dec_lzp.
  rewrite (Hbit PREPROC_COMPRESSED eq_refl), (Hbit PREPROC_TYPE_DELTA2 eq_refl),
    (Hbit PREPROC_TYPE_LZP eq_refl), Hm.
  cbn [Z.eqb negb andb].
  destruct (0 <? type); cbn [p_rv p_src p_dst p_dstlen]; auto.
Qed.

Lemma preproc_decompress_no_stage_witness :
  let res := preproc_decompress toy Toy.decompress [0; 7; 7; 7] 0 4 [9; 9; 9] 0 3
               6 5 toy_props in
  p_rv res = 0 /\ p_dst res = [9; 9; 9] /\
  (p_dst res = [9; 9; 9] /\ p_src res = [0; 7; 7; 7] /\ p_dstlen res = 3 /\
   p_rv res = (if 0 <? nth 0 [0; 7; 7; 7] 0 then -1 else 0)).
Proof.
  split; [reflexivity|]. split; [reflexivity|].
  exact (preproc_decompress_no_stage toy Toy.decompress [0; 7; 7; 7] 0%nat 4
           [9; 9; 9] 0%nat 3 6 5 toy_props eq_refl).
Defined.

(** ** A chunk from perform_compress to perform_decompress *)

Section ChunkRoundTrip.

Variable G : globals.
Variable X : externals.

Hypothesis Hplain : encrypt_type G = 0.
Hypothesis Hmac : mac_bytes G = 4%nat.
Hypothesis Hser : checksum_serializes X.
Hypothesis Hcrc : crc32_streams X.
Hypothesis Hnodedup : dedup_enabled G = false.
Hypothesis Hnopre : preproc_enabled G = false.

(** Without dedup and preprocessing: the chunk goes to the back end as it
    is, and the sanity check keeps its output or copies the chunk. *)
Lemma pc_payload_plain (tdat : cmp_data) :
  let O := sub (uncompressed_chunk tdat) 0 (Z.to_nat (rbytes tdat)) in
  let r := compress tdat O (rbytes tdat) (level tdat) 0 in
  let raw := (rbytes tdat <=? c_dstlen r) || (c_rv r <? 0) in
  let d := pc_dedup_stage G X tdat in
  let cseg1 := memcpy (cmp_seg tdat) (data_off G) (c_out r) in
  pc_payload G X tdat
  = (d, (if raw then UNCOMPRESSED else COMPRESSED,
         if raw then rbytes tdat else c_dstlen r,
         Z.max 0 (c_rv r),
         if raw then memcpy cseg1 (data_off G) O else cseg1),
     uncompressed_chunk tdat)
  /\ ds_rbytes d = rbytes tdat /\ ds_valid d = false
  /\ ds_checksum d = compute_checksum X (cksum G) O (cksum_mt tdat).
Proof.
  intros O r raw d cseg1. subst d.
  assert (Ez : (encrypt_type G =? 0) = true) by (apply Z.eqb_eq; exact Hplain).
  unfold pc_payload, pc_dedup_stage, pc_compress_stage, pc_call_backend.
  rewrite Hnodedup, Hnopre, Ez. cbn [andb ds_rbytes ds_ubuf ds_valid ds_checksum].
  fold O. fold r. fold cseg1.
  unfold pc_sanity_stage. rewrite Hnodedup. cbn [negb orb ds_rbytes].
  subst raw. split; [|auto].
  destruct ((rbytes tdat <=? c_dstlen r) || (c_rv r <? 0)) eqn:Eraw.
  - do 3 f_equal. unfold COMPRESS_NONE.
    destruct (c_rv r <? 0) eqn:E2;
      [apply Z.ltb_lt in E2|apply Z.ltb_ge in E2]; f_equal; lia.
  - apply orb_false_iff in Eraw. destruct Eraw as [_ E2].
    apply Z.ltb_ge in E2. do 3 f_equal. f_equal. lia.
Qed.

(** The flag byte of such a chunk: bit 0 says whether the back end output
    was kept, the dedup and preprocessing bits are clear. *)
Lemma plain_flag_bits (tdat : cmp_data) (d : dedup_stage_res) (type rv : Z) :
  type = COMPRESSED \/ type = UNCOMPRESSED ->
  0 <= rv -> (adapt_mode G = true -> rv < 8) ->
  let t := pc_type G type rv d tdat in
  t `mod` 256 = t /\ Z.land t COMPRESSED = type /\ Z.land t CHUNK_FLAG_DEDUP = 0
  /\ Z.land t CHUNK_FLAG_PREPROC = 0
  /\ Z.land (Z.shiftr t 4) 7 = (if adapt_mode G then rv else 0).
Proof.
  intros Ht Hrv Hadapt. cbv zeta.
  rewrite (pc_type_sum G type rv d tdat Ht Hrv Hadapt).
  rewrite Hnopre, Hnodedup.
  assert (Ha : 0 <= (if adapt_mode G then rv else 0) < 8).
  { destruct (adapt_mode G); [specialize (Hadapt eq_refl)|]; lia. }
  set (algo := if adapt_mode G then rv else 0) in *.
  assert (Hcases : algo = 0 \/ algo = 1 \/ algo = 2 \/ algo = 3 \/ algo = 4
                   \/ algo = 5 \/ algo = 6 \/ algo = 7) by lia.
  clearbody algo.
  destruct (ds_rbytes d <? chunksize tdat); destruct Ht as [-> | ->];
    destruct Hcases as [-> | [-> | [-> | [-> | [-> | [-> | [-> | ->]]]]]]];
    vm_compute; repeat split; reflexivity.
Qed.

(** The frame [perform_compress] wrote, as [start_decompress] reads it and
    [perform_decompress] verifies it. *)
Lemma frame_reads_back (tdat : cmp_data) (flag : Z) (t' : cmp_data)
    (d : dedup_stage_res) (type len rv : Z) (cseg ubuf : buf)
    (tdat0 : cmp_data) (n : Z) (rest : buf) :
  perform_compress G X tdat = Some (flag, t') ->
  pc_payload G X tdat = (d, (type, len, rv, cseg), ubuf) ->
  ds_rbytes d = rbytes tdat ->
  0 < len <= rbytes tdat -> rbytes tdat <= chunksize tdat ->
  chunksize tdat + 8 < 2 ^ 64 -> (adapt_mode G = true -> rv < 8) ->
  chunksize tdat0 = chunksize tdat ->
  exists td cb rb,
    read_chunk G tdat0 (chunksize tdat) n (written t' ++ rest) = ReadChunk td rest /\
    pd_header G td = (flag, rb, len, rbytes tdat) /\
    pd_verify G X td flag rb len
    = inr (deserialize_checksum X
             (serialize_checksum X (ds_checksum d) (cksum_bytes G))
             (cksum_bytes G), cb) /\
    sub cb (cksum_bytes G + mac_bytes G + CHUNK_FLAG_SZ) (Z.to_nat len)
    = sub cseg (data_off G) (Z.to_nat len) /\
    uncompressed_chunk td = uncompressed_chunk tdat0 /\
    cksum_mt td = cksum_mt tdat0 /\ decompress td = decompress tdat0 /\
    level td = level tdat0 /\ chunksize td = chunksize tdat0.
Proof.
  intros Hpc Hpay Hdr Hlen Hrb Hcs Hadapt Hcs0.
  assert (Hck : forall c k, length (serialize_checksum X c k) = k)
    by (intros c k; apply Hser).
  pose proof (perform_compress_written G X Hplain Hmac Hck tdat flag t' Hpc) as Hw.
  rewrite Hpay in Hw.
  destruct (Hw ltac:(lia) Hadapt) as (_ & Hwr & Hmod & Hbit & _).
  rewrite Hdr in Hwr. rewrite Hdr in Hbit.
  set (P := sub cseg (data_off G) (Z.to_nat len)) in *.
  set (trailer := if rbytes tdat <? chunksize tdat
                  then be_bytes 8 (rbytes tdat) else []) in *.
  set (field := len + Z.of_nat (length trailer)) in *.
  set (CK := serialize_checksum X (ds_checksum d) (cksum_bytes G)) in *.
  set (crc := frame_crc G X d flag field trailer) in *.
  assert (LCK : length CK = cksum_bytes G) by apply Hck.
  assert (LP : length P = Z.to_nat len) by apply length_sub.
  assert (Hcsz : (if negb (Z.land flag CHSIZE_MASK =? 0)
                  then be_value trailer else chunksize tdat) = rbytes tdat).
  { rewrite Hbit. subst trailer.
    destruct (rbytes tdat <? chunksize tdat) eqn:E.
    - apply be_value_be_bytes_small. change (256 ^ Z.of_nat 8) with (2 ^ 64). lia.
    - apply Z.ltb_ge in E. lia. }
  assert (Ltr : length trailer
                = if rbytes tdat <? chunksize tdat then 8%nat else 0%nat).
  { subst trailer. destruct (rbytes tdat <? chunksize tdat);
      [apply length_be_bytes|reflexivity]. }
  set (body := CK ++ be_bytes 4 crc ++ [flag] ++ P ++ trailer) in *.
  assert (Lb : Z.of_nat (length body)
               = field + Z.of_nat (cksum_bytes G + mac_bytes G + CHUNK_FLAG_SZ)).
  { subst body field. rewrite !length_app, length_be_bytes, LCK, LP, Hmac.
    unfold CHUNK_FLAG_SZ. simpl length. lia. }
  assert (Hf1 : 0 < field < 2 ^ 64)
    by (subst field; rewrite Ltr; destruct (rbytes tdat <? chunksize tdat); lia).
  assert (Hf2 : field <= chunksize tdat + 256)
    by (subst field; rewrite Ltr; destruct (rbytes tdat <? chunksize tdat); lia).
  destruct (read_chunk_frame G Hmac tdat0 (chunksize tdat) n field body rest
              Hf1 Hf2 Lb)
    as (td & Hrd & Hcb & Huc & Hrbt & Hlc & Hbe & Hchs & Hdec & Hmt' & Hlv & Hpr).
  assert (HT : if negb (Z.land flag CHSIZE_MASK =? 0)
               then length trailer = 8%nat else trailer = []).
  { rewrite Hbit. subst trailer. destruct (rbytes tdat <? chunksize tdat);
      [apply length_be_bytes|reflexivity]. }
  assert (Hc : crc = (let c := lzma_crc32 X (be_bytes 8 field ++ CK
                                ++ replicate (mac_bytes G) 0 ++ [flag]) 0 in
                      match trailer with [] => c | _ => lzma_crc32 X trailer c end)).
  { subst crc. unfold frame_crc, frame_hdr0. fold CK. rewrite Hmod. reflexivity. }
  assert (Hlc' : len_cmp td = Z.of_nat (length P + length trailer))
    by (rewrite Hlc, LP; subst field; lia).
  pose proof (pd_verify_frame G X Hplain Hmac td (compressed_chunk tdat0) CK crc
                flag field P trailer Hcrc LCK Hcb Hbe Hrbt Hlc' HT Hc) as Hv.
  destruct (pd_header G td) as [[[HDR rbytes_] len_] cs_] eqn:Hh.
  destruct Hv as (-> & -> & Hcs_ & cb & Hv & Hsub).
  rewrite Hchs, Hcs0, Hcsz in Hcs_. subst cs_.
  exists td, cb, rbytes_.
  rewrite LP, Z2Nat.id in Hv, Hh by lia. rewrite LP in Hsub.
  split; [rewrite Hwr; exact Hrd|].
  split; [exact Hh|].
  split; [exact Hv|]. split; [exact Hsub|].
  repeat split; assumption.
Qed.

Lemma sub_0_take (l : buf) (n : nat) : (n <= length l)%nat -> sub l 0 n = take n l.
Proof.
  intros H. unfold sub. rewrite drop_0. apply take_app_le. exact H.
Qed.

(** A chunk through [perform_compress], the reader and
    [perform_decompress], with what the worker keeps of its slot. *)
Lemma chunk_round_trip_slot (tdat tdat0 : cmp_data) (n : Z) (rest : buf) :
  let O := sub (uncompressed_chunk tdat) 0 (Z.to_nat (rbytes tdat)) in
  let r := compress tdat O (rbytes tdat) (level tdat) 0 in
  backend_inverts (adapt_mode G) (compress tdat) (decompress tdat0) ->
  0 < rbytes tdat <= chunksize tdat -> chunksize tdat + 8 < 2 ^ 64 ->
  (adapt_mode G = true -> c_rv r < 8) ->
  (0 <= c_rv r -> 0 < c_dstlen r) ->
  chunksize tdat0 = chunksize tdat -> cksum_mt tdat0 = cksum_mt tdat ->
  level tdat0 = level tdat ->
  exists flag t' td td',
    perform_compress G X tdat = Some (flag, t') /\
    Z.land flag COMPRESSED
    = (if (rbytes tdat <=? c_dstlen r) || (c_rv r <? 0)
       then UNCOMPRESSED else COMPRESSED) /\
    read_chunk G tdat0 (chunksize tdat) n (written t' ++ rest)
    = ReadChunk td rest /\
    perform_decompress G X td = inr td' /\
    written_plain td' = O /\
    chunksize td' = chunksize tdat0 /\ cksum_mt td' = cksum_mt tdat0 /\
    level td' = level tdat0 /\ decompress td' = decompress tdat0.
Proof.
  intros O r Hinv Hrb Hcs Hadapt Hout Hcs0 Hmt Hlv.
  destruct (pc_payload_plain tdat) as (Hpay & Hdr & Hdv & Hdc).
  fold O in Hpay, Hdc. fold r in Hpay.
  set (d := pc_dedup_stage G X tdat) in *.
  set (raw := (rbytes tdat <=? c_dstlen r) || (c_rv r <? 0)) in *.
  set (type := if raw then UNCOMPRESSED else COMPRESSED) in *.
  set (len := if raw then rbytes tdat else c_dstlen r) in *.
  set (cseg1 := memcpy (cmp_seg tdat) (data_off G) (c_out r)) in *.
  set (cseg := if raw then memcpy cseg1 (data_off G) O else cseg1) in *.
  assert (LO : length O = Z.to_nat (rbytes tdat)) by apply length_sub.
  assert (Ez : (encrypt_type G =? 0) = true) by (apply Z.eqb_eq; exact Hplain).
  assert (Hrv : 0 <= Z.max 0 (c_rv r)) by lia.
  assert (Hadapt' : adapt_mode G = true -> Z.max 0 (c_rv r) < 8)
    by (intros Ha; specialize (Hadapt Ha); lia).
  assert (Htype : type = COMPRESSED \/ type = UNCOMPRESSED)
    by (subst type; destruct raw; auto).
  destruct (plain_flag_bits tdat d type (Z.max 0 (c_rv r)) Htype Hrv Hadapt')
    as (Hmod & Hb0 & Hb1 & Hb2 & Hb4).
  set (flag := pc_type G type (Z.max 0 (c_rv r)) d tdat) in *.
  assert (Hraw : raw = false ->
                 0 <= c_rv r /\ 0 < c_dstlen r < rbytes tdat).
  { intros E. subst raw. apply orb_false_iff in E. destruct E as [E1 E2].
    apply Z.leb_gt in E1. apply Z.ltb_ge in E2. specialize (Hout E2). lia. }
  assert (Hlen : 0 < len <= rbytes tdat).
  { subst len. destruct raw; [lia|]. destruct (Hraw eq_refl). lia. }
  assert (Hpc : exists t', perform_compress G X tdat = Some (flag, t')).
  { unfold perform_compress. rewrite Hpay. unfold pc_encrypt_stage.
    rewrite Ez. cbn [negb]. fold flag.
    destruct (pc_frame_stage G X tdat d flag len cseg) as [[l h] c].
    rewrite Hmod. eexists. reflexivity. }
  destruct Hpc as [t' Hpc].
  destruct (frame_reads_back tdat flag t' d type len (Z.max 0 (c_rv r)) cseg
              (uncompressed_chunk tdat) tdat0 n rest Hpc Hpay Hdr Hlen
              ltac:(lia) Hcs Hadapt' Hcs0)
    as (td & cb & rb & Hrd & Hh & Hv & Hsub & Huc & Hmt' & Hdec & Hlv' & Hcs').
  exists flag, t', td.
  assert (Hsum : forall u,
            sub u 0 (Z.to_nat (rbytes tdat)) = O ->
            memcmp_ne (compute_checksum X (cksum G)
                         (sub u 0 (Z.to_nat (rbytes tdat))) (cksum_mt td))
              (deserialize_checksum X
                 (serialize_checksum X (ds_checksum d) (cksum_bytes G))
                 (cksum_bytes G)) (cksum_bytes G) = false).
  { intros u ->. unfold memcmp_ne. apply negb_false_iff, bool_decide_eq_true.
    destruct (Hser (ds_checksum d) (cksum_bytes G)) as [_ ->].
    rewrite Hdc, Hmt', Hmt. reflexivity. }
  cut (exists td', perform_decompress G X td = inr td' /\ written_plain td' = O
                   /\ chunksize td' = chunksize td /\ cksum_mt td' = cksum_mt td
                   /\ level td' = level td /\ decompress td' = decompress td).
  { intros (td' & H1 & H2 & H3 & H4 & H5 & H6). exists td'.
    rewrite H3, H4, H5, H6. repeat split; assumption. }
  unfold perform_decompress. rewrite Hh, Hv, Hb1.
  cbn [Z.eqb negb]. rewrite andb_false_r.
  unfold pd_plain_branch. rewrite Hb0.
  destruct raw eqn:Eraw; subst type len cseg.
  - change (negb (UNCOMPRESSED =? 0)) with false. cbv iota.
    cbn [Z.eqb]. unfold pd_rebuild. rewrite Hb1. cbn [Z.eqb negb].
    rewrite andb_false_r, Ez. cbn [andb].
    rewrite Hsub, Huc.
    rewrite (sub_memcpy_same' cseg1 (data_off G) O) by (symmetry; exact LO).
    assert (Hu : sub (memcpy (uncompressed_chunk tdat0) 0 O) 0
                   (Z.to_nat (rbytes tdat)) = O)
      by (apply sub_memcpy_same'; symmetry; exact LO).
    rewrite (Hsum _ Hu). eexists. split; [reflexivity|].
    split; [|repeat split; reflexivity].
    unfold written_plain. cbn [uncompressed_chunk len_cmp]. exact Hu.
  - change (negb (COMPRESSED =? 0)) with true. cbv iota.
    destruct (Hraw eq_refl) as [Hr0 Hr1].
    unfold pd_call_backend. rewrite Hb2. cbn [Z.eqb negb].
    rewrite Hsub, Huc.
    replace (decompress td (sub cseg1 (data_off G) (Z.to_nat (c_dstlen r)))
               (rbytes tdat) (level td) flag)
      with (decompress tdat0 (sub cseg1 (data_off G) (Z.to_nat (c_dstlen r)))
               (rbytes tdat) (level tdat) flag)
      by (rewrite Hdec, Hlv', Hlv; reflexivity).
    assert (HO : Z.of_nat (length O) = rbytes tdat) by (rewrite LO; lia).
    pose proof (Hinv O (level tdat) 0 flag (rbytes tdat)) as Hi.
    cbv zeta in Hi. rewrite HO in Hi. fold r in Hi.
    assert (Hch : Z.land (Z.shiftr flag 4) 7
                  = (if adapt_mode G then c_rv r else 0))
      by (rewrite Hb4; destruct (adapt_mode G); lia).
    destruct (Hi ltac:(lia) ltac:(lia) Hch) as (_ & Hl & Hr' & Hdl & Htk).
    subst cseg1. rewrite sub_memcpy_prefix, sub_0_take by exact Hl.
    set (r' := decompress tdat0 (take (Z.to_nat (c_dstlen r)) (c_out r))
                 (rbytes tdat) (level tdat) flag) in *.
    assert (Hne : (c_rv r' =? -1) = false) by (apply Z.eqb_neq; lia).
    rewrite Hne. unfold pd_rebuild. rewrite Hb1. cbn [Z.eqb negb].
    rewrite andb_false_r, Ez. cbn [andb]. rewrite Hdl.
    assert (Hu : sub (memcpy (uncompressed_chunk tdat0) 0 (c_out r')) 0
                   (Z.to_nat (rbytes tdat)) = O).
    { assert (Hle : (length O <= length (c_out r'))%nat).
      { rewrite <- Htk at 1. rewrite length_take. lia. }
      rewrite sub_memcpy_prefix, sub_0_take by lia.
      rewrite <- LO. exact Htk. }
    rewrite (Hsum _ Hu). eexists. split; [reflexivity|].
    split; [|repeat split; reflexivity].
    unfold written_plain. cbn [uncompressed_chunk len_cmp]. exact Hu.
Qed.

(** X14: with dedup, preprocessing and encryption off, a CRC and a
    checksum codec that behave ([crc32_streams], [checksum_serializes]) and
    a back end whose [decompress] inverts its [compress]
    ([backend_inverts]: given room for the chunk and a header byte whose
    bits 4 to 6 are the value [compress] returned in adaptive mode and 0
    otherwise), a back end moreover that writes at least one byte when it
    succeeds on this chunk and, in adaptive mode, returns a value below 8:
    the frame [perform_compress] writes for a chunk of 1 to [chunksize]
    bytes is read back by the reader loop and [perform_decompress] returns
    the bytes of the chunk, whether the sanity check kept the back end
    output or stored the chunk raw.  Bit 0 of the flag byte tells which. *)
Theorem chunk_round_trip (tdat tdat0 : cmp_data) (n : Z) (rest : buf) :
  let O := sub (uncompressed_chunk tdat) 0 (Z.to_nat (rbytes tdat)) in
  let r := compress tdat O (rbytes tdat) (level tdat) 0 in
  backend_inverts (adapt_mode G) (compress tdat) (decompress tdat0) ->
  0 < rbytes tdat <= chunksize tdat -> chunksize tdat + 8 < 2 ^ 64 ->
  (adapt_mode G = true -> c_rv r < 8) ->
  (0 <= c_rv r -> 0 < c_dstlen r) ->
  chunksize tdat0 = chunksize tdat -> cksum_mt tdat0 = cksum_mt tdat ->
  level tdat0 = level tdat ->
  exists flag t' td td',
    perform_compress G X tdat = Some (flag, t') /\
    Z.land flag COMPRESSED
    = (if (rbytes tdat <=? c_dstlen r) || (c_rv r <? 0)
       then UNCOMPRESSED else COMPRESSED) /\
    read_chunk G tdat0 (chunksize tdat) n (written t' ++ rest)
    = ReadChunk td rest /\
    perform_decompress G X td = inr td' /\
    written_plain td' = O.
Proof.
  intros O r Hinv Hrb Hcs Hadapt Hout Hcs0 Hmt Hlv.
  destruct (chunk_round_trip_slot tdat tdat0 n rest Hinv Hrb Hcs Hadapt Hout
              Hcs0 Hmt Hlv)
    as (flag & t' & td & td' & H1 & H2 & H3 & H4 & H5 & _).
  exists flag, t', td, td'. repeat split; assumption.
Qed.

End ChunkRoundTrip.

Lemma toy_adapt_backend_inverts :
  backend_inverts true Toy.adapt_compress Toy.adapt_decompress.
Proof.
  intros src level chdr chdr' dl. cbv zeta.
  unfold Toy.adapt_compress, Toy.adapt_decompress.
  pose proof (toy_run_inverts src level chdr chdr' dl) as Hrun.
  cbv zeta in Hrun.
  destruct (0 <=? c_rv (Toy.compress src (Z.of_nat (length src)) level chdr)) eqn:E.
  - apply Z.leb_le in E. cbn [c_rv c_dstlen c_out].
    intros _ Hcap ->. apply Hrun; [lia|exact Hcap].
  - clear Hrun E. destruct src as [|a [|b rest]]; cbn [c_rv]; try lia.
    destruct (a =? b) eqn:Eab; cbn [c_rv c_dstlen c_out]; [|lia].
    apply Z.eqb_eq in Eab. subst b.
    intros _ Hcap ->. split; [lia|]. split; [rewrite Nat2Z.id; lia|].
    rewrite Nat2Z.id, firstn_all.
    destruct (dl <? Z.of_nat (length (a :: a :: rest))) eqn:Ecap;
      [apply Z.ltb_lt in Ecap; lia|].
    cbn [c_rv c_dstlen c_out].
    split; [lia|]. split; [reflexivity|]. apply firstn_all.
Qed.

(** Eight bytes that begin with a doubled byte through the adaptive back
    end: it returns 2, the flag byte carries 2 in bits 4 to 6 under the
    [COMPRESSED] flag, and the decoder, which picks its algorithm by these
    bits, gives the eight bytes back. *)
Lemma chunk_round_trip_witness :
  exists flag t' td td',
    perform_compress G_adapt toy
      (tdat_of Toy.adapt_compress G_adapt [7; 7; 1; 2; 3; 4; 5; 6] 8)
    = Some (flag, t') /\
    Z.land flag COMPRESSED = COMPRESSED /\
    read_chunk G_adapt
      (start_compress_init Toy.adapt_compress Toy.adapt_decompress toy_props
         8 6 14 false)
      8 0 (written t' ++ replicate 8 0)
    = ReadChunk td (replicate 8 0) /\
    perform_decompress G_adapt toy td = inr td' /\
    written_plain td' = [7; 7; 1; 2; 3; 4; 5; 6].
Proof.
  destruct (chunk_round_trip G_adapt toy eq_refl eq_refl
              toy_checksum_serializes toy_crc32_streams eq_refl eq_refl
              (tdat_of Toy.adapt_compress G_adapt [7; 7; 1; 2; 3; 4; 5; 6] 8)
              (start_compress_init Toy.adapt_compress Toy.adapt_decompress
                 toy_props 8 6 14 false) 0 (replicate 8 0)
              toy_adapt_backend_inverts
              ltac:(vm_compute; split; [reflexivity|discriminate])
              ltac:(vm_compute; reflexivity)
              ltac:(intros _; vm_compute; reflexivity)
              ltac:(intros _; vm_compute; reflexivity)
              eq_refl eq_refl eq_refl)
    as (flag & t' & td & td' & H1 & H2 & H3 & H4 & H5).
  exists flag, t', td, td'.
  split; [exact H1|]. split; [exact H2|]. split; [exact H3|].
  split; [exact H4|exact H5].
Defined.

(** ** A file of chunks from start_compress to start_decompress *)

(** A chunk that the reader takes from a file with nothing after it is not
    taken from any shorter file. *)
Lemma read_chunk_truncated (G : globals) (tdat : cmp_data) (cs n : Z)
    (w : buf) (td : cmp_data) (k : nat) :
  read_chunk G tdat cs n w = ReadChunk td [] -> (k < length w)%nat ->
  read_chunk G tdat cs n (take k w) = ReadIncomplete.
Proof.
  unfold read_chunk, Read. change (Z.to_nat 8) with 8%nat.
  intros H Hk.
  destruct (negb (length (take 8 w) =? 8)%nat) eqn:E8; [discriminate H|].
  apply negb_false_iff, Nat.eqb_eq in E8.
  rewrite length_take in E8.
  destruct (decide (k < 8)%nat) as [Hlt|Hge].
  { assert (E : (length (take 8 (take k w)) =? 8)%nat = false).
    { apply Nat.eqb_neq. rewrite !length_take. lia. }
    rewrite E. reflexivity. }
  assert (Et : take 8 (take k w) = take 8 w).
  { rewrite take_take. f_equal. lia. }
  rewrite Et.
  assert (E : (length (take 8 w) =? 8)%nat = true)
    by (apply Nat.eqb_eq; rewrite length_take; lia).
  rewrite E. cbn [negb].
  set (len := be_value (take 8 w)) in *.
  destruct (cs + 256 <? len); [discriminate H|].
  destruct (len =? 0); [discriminate H|].
  set (want := len + Z.of_nat (cksum_bytes G + mac_bytes G + CHUNK_FLAG_SZ)) in *.
  destruct (Z.of_nat (length (take (Z.to_nat want) (drop 8 w))) <? want) eqn:Ew;
    [discriminate H|].
  apply Z.ltb_ge in Ew.
  assert (Hrest : drop (Z.to_nat want) (drop 8 w) = []) by congruence.
  apply (f_equal length) in Hrest. rewrite !length_drop in Hrest.
  simpl in Hrest.
  assert (Ek : (Z.of_nat (length (take (Z.to_nat want) (drop 8 (take k w))))
                <? want) = true).
  { apply Z.ltb_lt. rewrite length_take, length_drop, length_take.
    rewrite length_take, length_drop in Ew. lia. }
  rewrite Ek. reflexivity.
Qed.

Section StreamRoundTrip.

Variable G : globals.
Variable X : externals.

Hypothesis Hplain : encrypt_type G = 0.
Hypothesis Hmac : mac_bytes G = 4%nat.
Hypothesis Hser : checksum_serializes X.
Hypothesis Hcrc : crc32_streams X.
Hypothesis Hnodedup : dedup_enabled G = false.
Hypothesis Hnopre : preproc_enabled G = false.

Variables cs lvl mt : Z.
Variable dec : compress_func_ptr.

Hypothesis Hcs : 0 <= cs /\ cs + 8 < 2 ^ 64.

(** The zero length ends the loop, whatever follows it. *)
Lemma read_chunk_trailer (tdat : cmp_data) (n : Z) (trail : buf) :
  read_chunk G tdat cs n (be_bytes 8 0 ++ trail) = ReadEnd.
Proof.
  unfold read_chunk, Read.
  change (Z.to_nat 8) with (length (be_bytes 8 0)).
  rewrite take_app_length, drop_app_length.
  change (be_value (be_bytes 8 0)) with 0.
  cbn [length be_bytes Nat.eqb negb].
  destruct (cs + 256 <? 0) eqn:E; [apply Z.ltb_lt in E; lia|reflexivity].
Qed.

(** X15: with dedup, preprocessing and encryption off, a CRC and a
    checksum codec that behave ([crc32_streams], [checksum_serializes]),
    decompression slots set up alike ([slot_ok]) and chunks that each meet
    [chunk_ok] (1 to [cs] bytes; a back end that the decoder of the slots
    inverts in the sense of [backend_inverts], that writes at least one
    byte when it succeeds on the chunk and, in adaptive mode, returns a
    value below 8): the chunks that [start_compress] wrote in order,
    followed by the zero length, are read back by the loop of
    [start_decompress] one frame after the other into the slots [dary[0]],
    [dary[1]], ... in turn, and what is written is the chunks in the same
    order, byte for byte; the loop stops at the zero length and leaves what
    follows it. *)
Theorem stream_round_trip (tdats dary : list cmp_data) (trail : buf) (fuel : nat) :
  (0 < length dary)%nat -> Forall (slot_ok cs lvl mt dec) dary ->
  Forall (chunk_ok G cs lvl mt dec) tdats ->
  (length tdats < fuel)%nat ->
  exists body,
    compressed_stream G X tdats = Some body /\
    start_decompress_loop G X cs fuel dary 0 (body ++ trail) []
    = StreamDone (map chunk_bytes tdats) trail.
Proof.
  intros Hd Hslots Hch Hf.
  enough (Hgen : forall tdats : list cmp_data,
      forall (dary : list cmp_data) (n : nat) (out : list buf) (fuel : nat),
        (0 < length dary)%nat -> Forall (slot_ok cs lvl mt dec) dary ->
        Forall (chunk_ok G cs lvl mt dec) tdats ->
        (length tdats < fuel)%nat ->
        exists body,
          compressed_stream G X tdats = Some body /\
          start_decompress_loop G X cs fuel dary n (body ++ trail) out
          = StreamDone (out ++ map chunk_bytes tdats) trail)
    by exact (Hgen tdats dary 0%nat [] fuel Hd Hslots Hch Hf).
  clear Hd Hslots Hch Hf tdats dary fuel.
  intros tdats.
  induction tdats as [|tdat tdats IH]; intros dary n out fuel Hd Hslots Hch Hf.
  - exists (be_bytes 8 0). split; [reflexivity|].
    destruct fuel as [|fuel]; [simpl in Hf; lia|].
    cbn [start_decompress_loop].
    destruct (lookup_lt_is_Some_2 dary (n mod length dary)
                ltac:(apply Nat.mod_upper_bound; lia)) as [s ->].
    rewrite read_chunk_trailer, app_nil_r.
    change 8%nat with (length (be_bytes 8 0)) at 1.
    rewrite drop_app_length. reflexivity.
  - destruct fuel as [|fuel]; [simpl in Hf; lia|].
    apply Forall_cons_1 in Hch. destruct Hch as [Hc Hch].
    destruct Hc as (Hinv & Hrb & Hcst & Hmt & Hlv & Hadapt & Hout).
    destruct (lookup_lt_is_Some_2 dary (n mod length dary)
                ltac:(apply Nat.mod_upper_bound; lia)) as [s Hs].
    pose proof (proj1 (Forall_lookup _ dary) Hslots _ _ Hs)
      as (Hs1 & Hs2 & Hs3 & Hs4).
    destruct (IH (<[(n mod length dary)%nat := s]> dary) (S n) out fuel)
      as [body0 [Hbody0 _]].
    { rewrite length_insert. exact Hd. }
    { rewrite list_insert_id by exact Hs. exact Hslots. }
    { exact Hch. }
    { simpl in Hf. lia. }
    rewrite <- Hs4 in Hinv.
    destruct (chunk_round_trip_slot G X Hplain Hmac Hser Hcrc Hnodedup Hnopre
                tdat s (Z.of_nat n) (body0 ++ trail) Hinv
                ltac:(rewrite Hcst; exact Hrb) ltac:(rewrite Hcst; lia)
                Hadapt Hout ltac:(congruence) ltac:(congruence)
                ltac:(congruence))
      as (flag & t' & td & td' & Hpc & _ & Hrd & Hpd & Hw & K1 & K2 & K3 & K4).
    destruct (IH (<[(n mod length dary)%nat := td']> dary) (S n)
                (out ++ [written_plain td']) fuel)
      as [body [Hbody Hloop]].
    { rewrite length_insert. exact Hd. }
    { apply Forall_insert; [exact Hslots|].
      unfold slot_ok. rewrite K1, K2, K3, K4. repeat split; assumption. }
    { exact Hch. }
    { simpl in Hf. lia. }
    assert (body = body0) as -> by congruence.
    exists (written t' ++ body0). split.
    + cbn [compressed_stream]. rewrite Hpc, Hbody. reflexivity.
    + cbn [start_decompress_loop]. rewrite Hs.
      rewrite <- app_assoc. rewrite <- Hcst at 1. rewrite Hrd, Hpd.
      rewrite Hloop, Hw. cbn [map].
      rewrite <- app_assoc. reflexivity.
Qed.

(** X16: under the conditions of X15 (dedup, preprocessing and encryption
    off, [crc32_streams], [checksum_serializes], slots that meet [slot_ok],
    chunks that meet [chunk_ok]), the chunks that [start_compress] wrote
    followed by the zero length, cut short anywhere before the end of the
    zero length, are reported as incomplete by the loop of
    [start_decompress]: the cut file is not taken for a complete one, and
    no chunk is reported as damaged. *)
Theorem truncated_stream_incomplete (tdats dary : list cmp_data) (fuel : nat) :
  (0 < length dary)%nat -> Forall (slot_ok cs lvl mt dec) dary ->
  Forall (chunk_ok G cs lvl mt dec) tdats ->
  (length tdats < fuel)%nat ->
  exists body,
    compressed_stream G X tdats = Some body /\
    forall k, (k < length body)%nat ->
      start_decompress_loop G X cs fuel dary 0 (take k body) []
      = StreamIncomplete.
Proof.
  intros Hd Hslots Hch Hf.
  enough (Hgen : forall tdats : list cmp_data,
      forall (dary : list cmp_data) (n : nat) (out : list buf) (fuel : nat),
        (0 < length dary)%nat -> Forall (slot_ok cs lvl mt dec) dary ->
        Forall (chunk_ok G cs lvl mt dec) tdats ->
        (length tdats < fuel)%nat ->
        exists body,
          compressed_stream G X tdats = Some body /\
          forall k, (k < length body)%nat ->
            start_decompress_loop G X cs fuel dary n (take k body) out
            = StreamIncomplete)
    by exact (Hgen tdats dary 0%nat [] fuel Hd Hslots Hch Hf).
  clear Hd Hslots Hch Hf tdats dary fuel.
  intros tdats.
  induction tdats as [|tdat tdats IH]; intros dary n out fuel Hd Hslots Hch Hf.
  - exists (be_bytes 8 0). split; [reflexivity|]. intros k Hk.
    destruct fuel as [|fuel]; [simpl in Hf; lia|].
    cbn [start_decompress_loop].
    destruct (lookup_lt_is_Some_2 dary (n mod length dary)
                ltac:(apply Nat.mod_upper_bound; lia)) as [s ->].
    unfold read_chunk, Read. change (Z.to_nat 8) with 8%nat.
    assert (E : (length (take 8 (take k (be_bytes 8 0))) =? 8)%nat = false).
    { apply Nat.eqb_neq. rewrite !length_take.
      rewrite length_be_bytes in *. lia. }
    rewrite E. reflexivity.
  - destruct fuel as [|fuel]; [simpl in Hf; lia|].
    apply Forall_cons_1 in Hch. destruct Hch as [Hc Hch].
    destruct Hc as (Hinv & Hrb & Hcst & Hmt & Hlv & Hadapt & Hout).
    destruct (lookup_lt_is_Some_2 dary (n mod length dary)
                ltac:(apply Nat.mod_upper_bound; lia)) as [s Hs].
    pose proof (proj1 (Forall_lookup _ dary) Hslots _ _ Hs)
      as (Hs1 & Hs2 & Hs3 & Hs4).
    destruct (IH (<[(n mod length dary)%nat := s]> dary) (S n) out fuel)
      as [body0 [Hbody0 _]].
    { rewrite length_insert. exact Hd. }
    { rewrite list_insert_id by exact Hs. exact Hslots. }
    { exact Hch. }
    { simpl in Hf. lia. }
    rewrite <- Hs4 in Hinv.
    pose proof (fun rest =>
      chunk_round_trip_slot G X Hplain Hmac Hser Hcrc Hnodedup Hnopre
        tdat s (Z.of_nat n) rest Hinv
        ltac:(rewrite Hcst; exact Hrb) ltac:(rewrite Hcst; lia)
        Hadapt Hout ltac:(congruence) ltac:(congruence) ltac:(congruence))
      as Hchunk.
    destruct (Hchunk []) as (flag & t' & td0 & _ & Hpc & _ & Hrd0 & _).
    rewrite app_nil_r, Hcst in Hrd0.
    exists (written t' ++ body0). split.
    { cbn [compressed_stream]. rewrite Hpc, Hbody0. reflexivity. }
    intros k Hk. cbn [start_decompress_loop]. rewrite Hs.
    destruct (decide (k < length (written t'))%nat) as [Hlt|Hge].
    + rewrite take_app_le by lia.
      rewrite (read_chunk_truncated G s cs (Z.of_nat n) (written t') td0 k
                 Hrd0 Hlt).
      reflexivity.
    + rewrite take_app_ge by lia.
      destruct (Hchunk (take (k - length (written t')) body0))
        as (flag1 & t1 & td & td' & Hpc1 & _ & Hrd & Hpd & Hw & K1 & K2 & K3 & K4).
      assert (t1 = t') as -> by congruence.
      rewrite Hcst in Hrd. rewrite Hrd, Hpd.
      destruct (IH (<[(n mod length dary)%nat := td']> dary) (S n)
                  (out ++ [written_plain td']) fuel)
        as [body [Hbody Hloop]].
      { rewrite length_insert. exact Hd. }
      { apply Forall_insert; [exact Hslots|].
        unfold slot_ok. rewrite K1, K2, K3, K4. repeat split; assumption. }
      { exact Hch. }
      { simpl in Hf. lia. }
      assert (body = body0) as -> by congruence.
      apply Hloop. rewrite length_app in Hk. lia.
Qed.

End StreamRoundTrip.

(** Three chunks of a file cut at eight bytes through the adaptive back
    end and two slots: the first is stored by its second algorithm, the
    second by its first, and the last one, short, is stored raw; the
    decoder picks the algorithm by bits 4 to 6 of each flag byte. *)
Lemma stream_round_trip_witness :
  exists body,
    compressed_stream G_adapt toy
      [tdat_of Toy.adapt_compress G_adapt [7; 7; 1; 2; 3; 4; 5; 6] 8;
       tdat_of Toy.adapt_compress G_adapt (replicate 8 7) 8;
       tdat_of Toy.adapt_compress G_adapt [1; 2; 3] 8] = Some body /\
    start_decompress_loop G_adapt toy 8 4
      (replicate 2 (start_compress_init Toy.adapt_compress Toy.adapt_decompress
                      toy_props 8 6 14 false))
      0 (body ++ [9; 9]) []
    = StreamDone [[7; 7; 1; 2; 3; 4; 5; 6]; replicate 8 7; [1; 2; 3]] [9; 9].
Proof.
  destruct (stream_round_trip G_adapt toy eq_refl eq_refl
              toy_checksum_serializes toy_crc32_streams eq_refl eq_refl
              8 6 0 Toy.adapt_decompress
              ltac:(vm_compute; split; [discriminate|reflexivity])
              [tdat_of Toy.adapt_compress G_adapt [7; 7; 1; 2; 3; 4; 5; 6] 8;
               tdat_of Toy.adapt_compress G_adapt (replicate 8 7) 8;
               tdat_of Toy.adapt_compress G_adapt [1; 2; 3] 8]
              (replicate 2 (start_compress_init Toy.adapt_compress
                              Toy.adapt_decompress toy_props 8 6 14 false))
              [9; 9] 4%nat
              ltac:(vm_compute; lia)
              ltac:(repeat constructor)
              ltac:(repeat (apply Forall_cons_2 || apply Forall_nil_2);
                    (split; [exact toy_adapt_backend_inverts|]);
                    (split; [vm_compute; split; [reflexivity|discriminate]|]);
                    do 3 (split; [reflexivity|]);
                    (split; [intros _; vm_compute; reflexivity|]);
                    intros H; vm_compute in H |- *;
                    first [reflexivity | exfalso; apply H; reflexivity])
              ltac:(vm_compute; lia))
    as [body [H1 H2]].
  exists body. split; [exact H1|exact H2].
Defined.

(** The same file cut after 30 bytes, inside the second frame. *)
Lemma truncated_stream_incomplete_witness :
  exists body,
    compressed_stream G_plain toy
      [tdat_of Toy.compress G_plain (replicate 8 7) 8;
       tdat_of Toy.compress G_plain [1; 2; 3] 8] = Some body /\
    (30 < length body)%nat /\
    start_decompress_loop G_plain toy 8 3
      (replicate 2 (start_compress_init Toy.compress Toy.decompress toy_props
                      8 6 14 false))
      0 (take 30 body) []
    = StreamIncomplete.
Proof.
  destruct (truncated_stream_incomplete G_plain toy eq_refl eq_refl
              toy_checksum_serializes toy_crc32_streams eq_refl eq_refl
              8 6 0 Toy.decompress
              ltac:(vm_compute; split; [discriminate|reflexivity])
              [tdat_of Toy.compress G_plain (replicate 8 7) 8;
               tdat_of Toy.compress G_plain [1; 2; 3] 8]
              (replicate 2 (start_compress_init Toy.compress Toy.decompress
                              toy_props 8 6 14 false))
              3%nat
              ltac:(vm_compute; lia)
              ltac:(repeat constructor)
              ltac:(repeat (apply Forall_cons_2 || apply Forall_nil_2);
                    (split; [exact toy_backend_inverts|]);
                    (split; [vm_compute; split; [reflexivity|discriminate]|]);
                    do 3 (split; [reflexivity|]);
                    (split; [intros H; vm_compute in H; discriminate H|]);
                    intros H; vm_compute in H |- *;
                    first [reflexivity | exfalso; apply H; reflexivity])
              ltac:(vm_compute; lia))
    as [body [H1 H2]].
  exists body. split; [exact H1|].
  assert (Hl : (30 < length body)%nat).
  { vm_compute in H1. injection H1 as <-. vm_compute. lia. }
  split; [exact Hl|]. exact (H2 30%nat Hl).
Defined.

(** ** The options and the checks of main *)

Section MainFacts.

Variable E : Main.env.

Local Ltac option_cases H :=
  match type of H with
  | Main.main_option _ _ ?opt _ = _ =>
      destruct opt as [[] [] [] [] [] [] [] []]; cbn [Main.main_option] in H;
      try discriminate H
  end.

Lemma main_option_inv (v : Main.vars) (opt : Ascii.ascii) (optarg : buf)
    (v' : Main.vars) :
  Main.main_option E v opt optarg = inr v' ->
  Main.options_inv E v -> Main.options_inv E v'.
Proof.
  intros H (I1 & I2 & I3 & I4 & I5 & I6). unfold Main.options_inv.
  option_cases H.
  all: repeat match type of H with
       | context [let '(_, _) := ?p in _] => destruct p as [? ?] eqn:?
       | context [match ?p with Some _ => _ | None => _ end] =>
           destruct p as [[? ?]|] eqn:?
       | context [if ?b then _ else _] => destruct b eqn:?
       end; try discriminate H.
  all: injection H as <-; cbn.
  all: repeat match goal with
       | Hb : (_ || _) = false |- _ => apply orb_false_iff in Hb; destruct Hb
       | Hb : (_ && _) = false |- _ => apply andb_false_iff in Hb
       | Hb : negb _ = false |- _ => apply negb_false_iff in Hb
       | Hb : (_ <? _) = false |- _ => apply Z.ltb_ge in Hb
       | Hb : (_ =? _) = true |- _ => apply Z.eqb_eq in Hb
       end.
  all: try (repeat split; first [assumption | lia | tauto | reflexivity
                                 | intros _; reflexivity]).
Qed.

Lemma main_options_inv (opts : list (Ascii.ascii * buf)) :
  forall v v', Main.main_options E v opts = inr v' ->
               Main.options_inv E v -> Main.options_inv E v'.
Proof.
  induction opts as [|[opt optarg] opts IH]; intros v v' H I.
  - injection H as <-. exact I.
  - cbn [Main.main_options] in H.
    destruct (Main.main_option E v opt optarg) as [e|v1] eqn:H1;
      [discriminate H|].
    exact (IH v1 v' H (main_option_inv v opt optarg v1 H1 I)).
Qed.

Lemma main_init_inv : Main.options_inv E (Main.main_init E).
Proof.
  unfold Main.options_inv, Main.main_init, MAX_LEVEL. cbn.
  repeat split; first [lia | auto].
Qed.

(** What one option does to [adapt_mode], to the callbacks and to the two
    mode flags. *)
Lemma main_option_algo (v : Main.vars) (opt : Ascii.ascii) (optarg : buf)
    (v' : Main.vars) :
  Main.main_option E v opt optarg = inr v' ->
  Main.adapt_mode v'
  = Main.adapt_mode v
    || (Ascii.eqb opt "c"%char
        && match init_algo optarg with Some (_, a) => a | None => false end) /\
  Main.funcs v'
  = (if Ascii.eqb opt "c"%char then option_map fst (init_algo optarg)
     else Main.funcs v).
Proof.
  intros H. option_cases H.
  all: repeat match type of H with
       | context [let '(_, _) := ?p in _] => destruct p as [? ?] eqn:?
       | context [match ?p with Some _ => _ | None => _ end] =>
           destruct p as [[? ?]|] eqn:?
       | context [if ?b then _ else _] => destruct b eqn:?
       end; try discriminate H.
  all: injection H as <-; cbn.
  all: rewrite ?orb_false_r; split; reflexivity.
Qed.

Lemma main_options_algo (opts : list (Ascii.ascii * buf)) :
  forall v v', Main.main_options E v opts = inr v' ->
    Main.adapt_mode v' = Main.adapt_mode v || Main.adapt_requested opts /\
    Main.funcs v'
    = fold_left (fun acc o => if Ascii.eqb (fst o) "c"%char
                              then option_map fst (init_algo (snd o)) else acc)
                opts (Main.funcs v).
Proof.
  induction opts as [|[opt optarg] opts IH]; intros v v' H.
  - injection H as <-. cbn. rewrite orb_false_r. split; reflexivity.
  - cbn [Main.main_options] in H.
    destruct (Main.main_option E v opt optarg) as [e|v1] eqn:H1;
      [discriminate H|].
    destruct (main_option_algo v opt optarg v1 H1) as [A1 A2].
    destruct (IH v1 v' H) as [B1 B2].
    rewrite B1, B2, A1, A2. unfold Main.adapt_requested.
    cbn [existsb fold_left fst snd]. rewrite orb_assoc. split; reflexivity.
Qed.

(** What the checks after the loop leave. *)
Lemma main_modes_inv (v : Main.vars) (num_rem : nat) (v' : Main.vars) :
  Main.main_modes v num_rem = inr v' ->
  (Main.enable_delta_encode v <> 0 -> Main.enable_rabin_scan v = true) ->
  Main.do_compress v' = negb (Main.do_uncompress v') /\
  (Main.pipe_mode v' = true -> num_rem = 0%nat) /\
  (Main.enable_fixed_scan v' = true ->
   Main.enable_rabin_scan v' = false /\ Main.enable_delta_encode v' = 0 /\
   Main.enable_rabin_split v' = false) /\
  (Main.enable_rabin_split v' = true -> Main.enable_rabin_scan v' = true) /\
  (Main.enable_rabin_global v' = true ->
   Main.pipe_mode v' = false /\ Main.enable_delta_encode v' = 0 /\
   Main.enable_rabin_scan v' || Main.enable_fixed_scan v' = true) /\
  (Main.do_uncompress v' = true ->
   Main.enable_fixed_scan v' = false /\ Main.enable_delta_encode v' = 0 /\
   Main.encrypt_type v' = 0 /\
   Main.enable_rabin_scan v' = Main.enable_rabin_global v' /\
   Main.enable_rabin_split v' = Main.enable_rabin_global v') /\
  (Main.encrypt_type v' <> 0 ->
   Main.do_compress v' = true /\
   (Main.pipe_mode v' = true -> is_Some (Main.pwd_file v'))) /\
  (Main.do_uncompress v' = true -> Main.enable_rabin_scan v = false) /\
  Main.enable_rabin_scan v'
  = Main.enable_rabin_scan v
    || (Main.enable_rabin_global v && negb (Main.enable_fixed_scan v)) /\
  Main.enable_rabin_split v'
  = (Main.enable_rabin_split v && Main.enable_rabin_scan v)
    || (Main.enable_rabin_global v && negb (Main.enable_rabin_scan v)
        && negb (Main.enable_fixed_scan v)) /\
  Main.set_enable_rabin_split (Main.enable_rabin_split v)
    (Main.set_enable_rabin_scan (Main.enable_rabin_scan v) v') = v.
Proof.
  intros H Hd.
  destruct v as [am pm nt hm hc rs rg de d2 sp fx lz et al fu dc du cb mb ck
                 rb kl pw cz lv].
  unfold Main.main_modes in H.
  cbn [Main.do_compress Main.do_uncompress Main.pipe_mode
       Main.enable_rabin_scan Main.enable_fixed_scan Main.enable_rabin_split
       Main.enable_rabin_global Main.enable_delta_encode Main.encrypt_type
       Main.pwd_file Main.set_enable_rabin_split Main.set_enable_rabin_scan]
    in H, Hd.
  destruct dc, du; cbn in H; try discriminate H.
  all: destruct pm, num_rem as [|num_rem]; cbn in H; try discriminate H.
  all: destruct rs, fx, rg; cbn in H; try discriminate H.
  all: destruct (de =? 0) eqn:Ed;
    [apply Z.eqb_eq in Ed|apply Z.eqb_neq in Ed];
    try (specialize (Hd Ed); discriminate Hd);
    cbn in H; rewrite ?andb_false_r, ?andb_true_r in H; cbn in H;
    try discriminate H.
  all: destruct sp; cbn in H; try discriminate H.
  all: destruct (et =? 0) eqn:Ee;
    [apply Z.eqb_eq in Ee|apply Z.eqb_neq in Ee]; cbn in H; try discriminate H.
  all: try (destruct pw as [pw|];
            [rewrite bool_decide_eq_true_2 in H by (eexists; reflexivity)
            |rewrite bool_decide_eq_false_2 in H by (intros [? ?]; discriminate)];
            cbn in H; try discriminate H).
  all: injection H as <-; cbn.
  all: repeat split; try reflexivity; try assumption; try discriminate;
    try lia; try (intros; exfalso; congruence); try (eexists; reflexivity).
Qed.

Lemma main_cksum_inv (v : Main.vars) :
  let w := Main.main_cksum E v in
  (Main.encrypt_type w = 0 -> Main.mac_bytes w = 4%nat) /\
  (Main.encrypt_type w <> 0 -> Main.cksum_bytes w = 0%nat) /\
  Main.set_cksum (Main.cksum v)
    (Main.set_cksum_bytes (Main.cksum_bytes v)
       (Main.set_mac_bytes (Main.mac_bytes v) w)) = v.
Proof.
  destruct v as [am pm nt hm hc rs rg de d2 sp fx lz et al fu dc du cb mb ck
                 rb kl pw cz lv].
  unfold Main.main_cksum. cbn [Main.cksum Main.cksum_bytes Main.mac_bytes].
  destruct (ck =? 0);
    [destruct (Main.get_checksum_props E (Main.DEFAULT_CKSUM E) ck cb mb)
       as [rv [[c1 c2] c3]]|];
    cbn; destruct (et =? 0) eqn:Ee;
    [apply Z.eqb_eq in Ee|apply Z.eqb_neq in Ee| apply Z.eqb_eq in Ee
    |apply Z.eqb_neq in Ee]; cbn; repeat split; auto; intros; congruence.
Qed.

(** The stages of an accepted run. *)
Lemma main_stages (opts : list (Ascii.ascii * buf)) (args : list buf)
    (v : Main.vars) (call : Main.main_call) :
  Main.main E opts args = inr (v, call) ->
  exists v1 v2 f t,
    Main.main_options E (Main.main_init E) opts = inr v1 /\
    Main.main_modes v1 (length args) = inr v2 /\
    Main.main_files E v2 args = inr (f, t) /\
    v = Main.main_cksum E v2 /\
    call = (if Main.do_compress v
            then Main.StartCompress f (Main.chunksize v) (Main.level v)
            else if Main.do_uncompress v then Main.StartDecompress f t
            else Main.NoCall).
Proof.
  unfold Main.main. intros H.
  destruct (Main.main_options E (Main.main_init E) opts) as [e|v1];
    [discriminate H|].
  destruct (Main.main_modes v1 (length args)) as [e|v2] eqn:E2;
    [discriminate H|].
  destruct (Main.main_files E v2 args) as [e|[f t]] eqn:E3; [discriminate H|].
  exists v1, v2, f, t.
  destruct (Main.do_compress (Main.main_cksum E v2)) eqn:Ec;
    [|destruct (Main.do_uncompress (Main.main_cksum E v2)) eqn:Eu];
    injection H as <- <-; rewrite ?Ec, ?Eu;
    repeat split; first [reflexivity | assumption].
Qed.

(** The flags of the command line after the loop. *)
Lemma main_option_flags (v : Main.vars) (opt : Ascii.ascii) (optarg : buf)
    (v' : Main.vars) :
  Main.main_option E v opt optarg = inr v' ->
  Main.enable_rabin_scan v'
  = Main.enable_rabin_scan v || Ascii.eqb opt "D"%char || Ascii.eqb opt "E"%char /\
  Main.enable_fixed_scan v' = Main.enable_fixed_scan v || Ascii.eqb opt "F"%char /\
  Main.enable_rabin_global v'
  = Main.enable_rabin_global v || Ascii.eqb opt "G"%char /\
  Main.enable_rabin_split v'
  = Main.enable_rabin_split v
    && negb (Ascii.eqb opt "F"%char || Ascii.eqb opt "r"%char) /\
  Main.do_compress v' = Main.do_compress v || Ascii.eqb opt "c"%char /\
  Main.do_uncompress v' = Main.do_uncompress v || Ascii.eqb opt "d"%char /\
  Main.pipe_mode v' = Main.pipe_mode v || Ascii.eqb opt "p"%char /\
  (Main.encrypt_type v' =? 0)
  = (Main.encrypt_type v =? 0) && negb (Ascii.eqb opt "e"%char).
Proof.
  intros H. option_cases H.
  all: repeat match type of H with
       | context [let '(_, _) := ?p in _] => destruct p as [? ?] eqn:?
       | context [match ?p with Some _ => _ | None => _ end] =>
           destruct p as [[? ?]|] eqn:?
       | context [if ?b then _ else _] => destruct b eqn:?
       end; try discriminate H.
  all: injection H as <-; cbn.
  all: rewrite ?orb_false_r, ?orb_true_r, ?andb_false_r, ?andb_true_r;
    repeat split; auto.
Qed.

Lemma main_options_flags (opts : list (Ascii.ascii * buf)) :
  forall v v', Main.main_options E v opts = inr v' ->
  Main.enable_rabin_scan v'
  = Main.enable_rabin_scan v || Main.has_opt "D"%char opts || Main.has_opt "E"%char opts /\
  Main.enable_fixed_scan v' = Main.enable_fixed_scan v || Main.has_opt "F"%char opts /\
  Main.enable_rabin_global v'
  = Main.enable_rabin_global v || Main.has_opt "G"%char opts /\
  Main.enable_rabin_split v'
  = Main.enable_rabin_split v
    && negb (Main.has_opt "F"%char opts || Main.has_opt "r"%char opts) /\
  Main.do_compress v' = Main.do_compress v || Main.has_opt "c"%char opts /\
  Main.do_uncompress v' = Main.do_uncompress v || Main.has_opt "d"%char opts /\
  Main.pipe_mode v' = Main.pipe_mode v || Main.has_opt "p"%char opts /\
  (Main.encrypt_type v' =? 0)
  = (Main.encrypt_type v =? 0) && negb (Main.has_opt "e"%char opts).
Proof.
  induction opts as [|[opt optarg] opts IH]; intros v v' H.
  - injection H as <-. cbn.
    rewrite ?orb_false_r, ?andb_true_r. repeat split; reflexivity.
  - cbn [Main.main_options] in H.
    destruct (Main.main_option E v opt optarg) as [e|v1] eqn:H1;
      [discriminate H|].
    destruct (main_option_flags v opt optarg v1 H1)
      as (A1 & A2 & A3 & A4 & A5 & A6 & A7 & A8).
    destruct (IH v1 v' H) as (B1 & B2 & B3 & B4 & B5 & B6 & B7 & B8).
    rewrite B1, B2, B3, B4, B5, B6, B7, B8, A1, A2, A3, A4, A5, A6, A7, A8.
    unfold Main.has_opt. cbn [existsb fst].
    repeat split;
      repeat match goal with
             | |- context [Ascii.eqb opt ?b] =>
                 generalize (Ascii.eqb opt b); intros ?
             | |- context [existsb ?f opts] =>
                 generalize (existsb f opts); intros ?
             | |- context [Main.encrypt_type v =? 0] =>
                 generalize (Main.encrypt_type v =? 0); intros ?
             | |- context [?f v] => generalize (f v); intros ?
             end;
      repeat match goal with b : bool |- _ => destruct b end; reflexivity.
Qed.

Local Ltac field_of H f :=
  let K := fresh "K" in
  pose proof (f_equal f H) as K; cbn in K.

(** X17: when [main] reaches [start_compress], the level it passes is
    within 0 and 14 and the chunk size is the default of 5 MB or a value of
    [-s] between [MIN_CHUNK] and 80% of the memory; the thread count is 0
    (not given) or within 1 and 256, the dedupe block size 0 or within 1
    and 5, the key length the default, 16 or 32: a later option does not
    undo the check of an earlier one. *)
Theorem main_call_ranges (opts : list (Ascii.ascii * buf)) (args : list buf)
    (v : Main.vars) (call : Main.main_call) :
  Main.main E opts args = inr (v, call) ->
  (forall f cs l, call = Main.StartCompress f cs l ->
     0 <= l <= MAX_LEVEL /\
     (cs = Main.DEFAULT_CHUNKSIZE
      \/ Main.MIN_CHUNK E <= cs <= EIGHTY_PCT (Main.get_total_ram E))) /\
  (Main.nthreads v = 0 \/ 1 <= Main.nthreads v <= 256) /\
  (Main.rab_blk_size v = 0 \/ 1 <= Main.rab_blk_size v <= 5) /\
  (Main.keylen v = Main.DEFAULT_KEYLEN E \/ Main.keylen v = 16
   \/ Main.keylen v = 32).
Proof.
  intros H.
  destruct (main_stages opts args v call H)
    as (v1 & v2 & f & t & H1 & H2 & H3 & Hv & Hcall).
  destruct (main_options_inv opts _ _ H1 main_init_inv)
    as (I1 & I2 & I3 & I4 & I5 & I6).
  destruct (main_modes_inv v1 (length args) v2 H2 I6) as (_ & F).
  repeat (destruct F as (_ & F)).
  destruct (main_cksum_inv v2) as (_ & _ & C). rewrite <- Hv in C.
  assert (Hf : forall g : Main.vars -> Z,
            (forall x w, g (Main.set_cksum x w) = g w) ->
            (forall x w, g (Main.set_cksum_bytes x w) = g w) ->
            (forall x w, g (Main.set_mac_bytes x w) = g w) ->
            (forall x w, g (Main.set_enable_rabin_split x w) = g w) ->
            (forall x w, g (Main.set_enable_rabin_scan x w) = g w) ->
            g v = g v1).
  { intros g G1 G2 G3 G4 G5.
    rewrite <- F, <- C, G4, G5, G1, G2, G3. reflexivity. }
  assert (Hl : Main.level v = Main.level v1) by (apply Hf; reflexivity).
  assert (Hc : Main.chunksize v = Main.chunksize v1) by (apply Hf; reflexivity).
  assert (Hn : Main.nthreads v = Main.nthreads v1) by (apply Hf; reflexivity).
  assert (Hr : Main.rab_blk_size v = Main.rab_blk_size v1)
    by (apply Hf; reflexivity).
  assert (Hk : Main.keylen v = Main.keylen v1) by (apply Hf; reflexivity).
  rewrite Hn, Hr, Hk. repeat split; try assumption.
  - destruct (Main.do_compress v); [|destruct (Main.do_uncompress v)];
      subst call; try discriminate H0.
    injection H0 as _ _ <-. rewrite Hl. lia.
  - destruct (Main.do_compress v); [|destruct (Main.do_uncompress v)];
      subst call; try discriminate H0.
    injection H0 as _ _ <-. rewrite Hl. lia.
  - destruct (Main.do_compress v); [|destruct (Main.do_uncompress v)];
      subst call; try discriminate H0.
    injection H0 as _ <- _. rewrite Hc. exact I3.
Qed.

(** The fields of the accepted state in those of the state after the
    loop. *)
Lemma main_frame (v1 v2 v : Main.vars) (n : nat) :
  Main.main_modes v1 n = inr v2 ->
  (Main.enable_delta_encode v1 <> 0 -> Main.enable_rabin_scan v1 = true) ->
  v = Main.main_cksum E v2 ->
  Main.enable_rabin_scan v = Main.enable_rabin_scan v2 /\
  Main.enable_rabin_split v = Main.enable_rabin_split v2 /\
  Main.enable_fixed_scan v = Main.enable_fixed_scan v1 /\
  Main.enable_rabin_global v = Main.enable_rabin_global v1 /\
  Main.enable_delta_encode v = Main.enable_delta_encode v1 /\
  Main.do_compress v = Main.do_compress v1 /\
  Main.do_uncompress v = Main.do_uncompress v1 /\
  Main.pipe_mode v = Main.pipe_mode v1 /\
  Main.encrypt_type v = Main.encrypt_type v1 /\
  Main.pwd_file v = Main.pwd_file v1 /\
  Main.adapt_mode v = Main.adapt_mode v1 /\
  Main.funcs v = Main.funcs v1 /\
  Main.do_compress v2 = Main.do_compress v1 /\
  Main.do_uncompress v2 = Main.do_uncompress v1 /\
  Main.pipe_mode v2 = Main.pipe_mode v1.
Proof.
  intros H2 I6 Hv.
  destruct (main_modes_inv v1 n v2 H2 I6) as (_ & F).
  repeat (destruct F as (_ & F)).
  destruct (main_cksum_inv v2) as (_ & _ & C). rewrite <- Hv in C.
  rewrite <- F. rewrite <- C. cbn. repeat split; reflexivity.
Qed.

(** X18: what the dedupe options of an accepted command line leave.
    [-F] sets fixed-block dedupe and is refused with [-D] or [-E]; [-G]
    sets global dedupe, is refused in pipe mode and with delta encoding,
    and without [-F] it turns rabin dedupe on by itself; rabin splitting of
    the input is on under [-D] or [-E] unless [-r] is given, and under [-G]
    alone even when [-r] is given.  [-D], [-E] and [-F] need [-c]. *)
Theorem main_dedupe_options (opts : list (Ascii.ascii * buf)) (args : list buf)
    (v : Main.vars) (call : Main.main_call) :
  Main.main E opts args = inr (v, call) ->
  let rabin := Main.has_opt "D"%char opts || Main.has_opt "E"%char opts in
  let fixed := Main.has_opt "F"%char opts in
  let global := Main.has_opt "G"%char opts in
  Main.enable_fixed_scan v = fixed /\
  Main.enable_rabin_global v = global /\
  Main.enable_rabin_scan v = rabin || (global && negb fixed) /\
  Main.enable_rabin_split v
  = (rabin && negb (Main.has_opt "r"%char opts))
    || (global && negb rabin && negb fixed) /\
  (fixed = true -> rabin = false) /\
  (global = true ->
   Main.enable_delta_encode v = 0 /\ Main.has_opt "p"%char opts = false) /\
  (rabin || fixed = true ->
   Main.has_opt "c"%char opts = true /\ Main.has_opt "d"%char opts = false).
Proof.
  intros H rabin fixed global.
  destruct (main_stages opts args v call H)
    as (v1 & v2 & f & t & H1 & H2 & H3 & Hv & Hcall).
  destruct (main_options_inv opts _ _ H1 main_init_inv)
    as (_ & _ & _ & _ & _ & I6).
  destruct (main_options_flags opts _ _ H1)
    as (B1 & B2 & B3 & B4 & B5 & B6 & B7 & B8).
  cbn in B1, B2, B3, B4, B5, B6, B7, B8.
  fold rabin in B1. fold fixed in B2, B4. fold global in B3.
  destruct (main_frame v1 v2 v (length args) H2 I6 Hv)
    as (K1 & K2 & K3 & K4 & K5 & K6 & K7 & K8 & K9 & K10 & K11 & K12 & K13
        & K14 & K15).
  destruct (main_modes_inv v1 (length args) v2 H2 I6)
    as (M1 & M2 & M3 & M4 & M5 & M6 & M7 & M8 & M9 & M10 & _).
  rewrite K1, K2, K3, K4, K5.
  rewrite K13, K14 in M1. rewrite K14 in M6, M8.
  rewrite B5, B6 in M1. rewrite B6 in M6, M8.
  rewrite M9, M10 in *. rewrite K15, B7 in M5.
  assert (Hg : Main.enable_rabin_global v2 = global).
  { destruct (main_modes_inv v1 (length args) v2 H2 I6) as (_ & F).
    repeat (destruct F as (_ & F)).
    rewrite <- B3, <- F. reflexivity. }
  assert (Hx : Main.enable_fixed_scan v2 = fixed).
  { destruct (main_modes_inv v1 (length args) v2 H2 I6) as (_ & F).
    repeat (destruct F as (_ & F)).
    rewrite <- B2, <- F. reflexivity. }
  assert (Hde : Main.enable_delta_encode v2 = Main.enable_delta_encode v1).
  { destruct (main_modes_inv v1 (length args) v2 H2 I6) as (_ & F).
    repeat (destruct F as (_ & F)).
    rewrite <- F. reflexivity. }
  rewrite Hg, Hx, ?Hde in *. rewrite B1, B2, B3, B4 in *.
  clearbody rabin fixed global.
  destruct rabin, fixed, global, (Main.has_opt "r"%char opts),
    (Main.has_opt "c"%char opts), (Main.has_opt "d"%char opts),
    (Main.has_opt "p"%char opts); cbn in *;
    repeat split; try reflexivity; try discriminate; intros;
    try solve [ destruct (M3 eq_refl) as (? & ? & ?); congruence
              | destruct (M5 eq_refl) as (? & ? & ?); congruence
              | destruct (M6 eq_refl) as (? & ? & ? & ? & ?); congruence
              | specialize (M8 eq_refl); congruence
              | congruence ].
Qed.

(** X19: an accepted command line has exactly one of [-c] and [-d].  In
    pipe mode there is no file name.  Otherwise [-c] comes with one name,
    which resolves, and no file of that name with the extension exists;
    [-d] comes with two names, the first resolves and the second does not:
    [main] starts no run that would write over an existing file. *)
Theorem main_call_files (opts : list (Ascii.ascii * buf)) (args : list buf)
    (v : Main.vars) (call : Main.main_call) :
  Main.main E opts args = inr (v, call) ->
  Main.has_opt "c"%char opts = negb (Main.has_opt "d"%char opts) /\
  (Main.has_opt "p"%char opts = true ->
   args = [] /\
   call = if Main.has_opt "c"%char opts
          then Main.StartCompress None (Main.chunksize v) (Main.level v)
          else Main.StartDecompress None None) /\
  (Main.has_opt "p"%char opts = false ->
   if Main.has_opt "c"%char opts
   then exists a f,
          args = [a] /\ Main.realpath E a = Some f /\
          Main.realpath E (f ++ Main.COMP_EXTN E) = None /\
          call = Main.StartCompress (Some f) (Main.chunksize v) (Main.level v)
   else exists a b f,
          args = [a; b] /\ Main.realpath E a = Some f /\
          Main.realpath E b = None /\
          call = Main.StartDecompress (Some f) (Some b)).
Proof.
  intros H.
  destruct (main_stages opts args v call H)
    as (v1 & v2 & f & t & H1 & H2 & H3 & Hv & Hcall).
  destruct (main_options_inv opts _ _ H1 main_init_inv)
    as (_ & _ & _ & _ & _ & I6).
  destruct (main_options_flags opts _ _ H1)
    as (_ & _ & _ & _ & B5 & B6 & B7 & _).
  cbn in B5, B6, B7.
  destruct (main_frame v1 v2 v (length args) H2 I6 Hv)
    as (_ & _ & _ & _ & _ & K6 & K7 & K8 & _ & _ & _ & _ & K13 & K14 & K15).
  destruct (main_modes_inv v1 (length args) v2 H2 I6) as (M1 & M2 & _).
  rewrite K13, K14, B5, B6 in M1. rewrite K15, B7 in M2.
  rewrite K6, K7, B5, B6 in Hcall.
  unfold Main.main_files in H3. rewrite K13, K14, K15, B5, B6, B7 in H3.
  split; [exact M1|].
  destruct (Main.has_opt "p"%char opts).
  - split; [|discriminate]. intros _.
    specialize (M2 eq_refl). destruct args; [|discriminate M2].
    cbn in H3. injection H3 as <- <-. split; [reflexivity|].
    rewrite Hcall, M1.
    destruct (Main.has_opt "d"%char opts); reflexivity.
  - split; [discriminate|]. intros _. rewrite M1 in *.
    destruct args as [|a [|b [|c args]]]; cbn in H3; try discriminate H3.
    + destruct (Main.has_opt "d"%char opts); cbn in H3 |- *;
        [discriminate H3|].
      destruct (Main.realpath E a) as [fn|] eqn:Ea; [|discriminate H3].
      destruct (Main.MAXPATHLEN E <=? length (fn ++ Main.COMP_EXTN E))%nat;
        [discriminate H3|].
      destruct (Main.realpath E (fn ++ Main.COMP_EXTN E)) eqn:Eb;
        [discriminate H3|].
      injection H3 as <- <-. exists a, fn. repeat split; assumption.
    + destruct (Main.has_opt "d"%char opts); cbn in H3 |- *;
        [|discriminate H3].
      destruct (Main.realpath E a) as [fn|] eqn:Ea; [|discriminate H3].
      destruct (Main.realpath E b) eqn:Eb; [discriminate H3|].
      injection H3 as <- <-. exists a, b, fn. repeat split; assumption.
Qed.

(** X20: without [-e] the state [main] hands to the pipeline has no
    encryption and a chunk mac of four bytes (the CRC32), whatever [-S]
    said; with [-e] the plain checksum has no bytes, the run is a
    compression and in pipe mode a password file was given. *)
Theorem main_checksum_sizes (opts : list (Ascii.ascii * buf)) (args : list buf)
    (v : Main.vars) (call : Main.main_call) :
  Main.main E opts args = inr (v, call) ->
  (Main.has_opt "e"%char opts = false ->
   encrypt_type (main_globals v) = 0 /\ mac_bytes (main_globals v) = 4%nat) /\
  (Main.has_opt "e"%char opts = true ->
   encrypt_type (main_globals v) <> 0 /\ cksum_bytes (main_globals v) = 0%nat /\
   Main.has_opt "c"%char opts = true /\
   (Main.has_opt "p"%char opts = true -> is_Some (Main.pwd_file v))).
Proof.
  intros H.
  destruct (main_stages opts args v call H)
    as (v1 & v2 & f & t & H1 & H2 & H3 & Hv & Hcall).
  destruct (main_options_inv opts _ _ H1 main_init_inv)
    as (_ & _ & _ & _ & _ & I6).
  destruct (main_options_flags opts _ _ H1)
    as (_ & _ & _ & _ & B5 & _ & B7 & B8).
  cbn in B5, B7, B8.
  destruct (main_frame v1 v2 v (length args) H2 I6 Hv)
    as (_ & _ & _ & _ & _ & K6 & _ & K8 & K9 & K10 & _ & _ & K13 & _ & K15).
  destruct (main_modes_inv v1 (length args) v2 H2 I6)
    as (_ & _ & _ & _ & _ & _ & M7 & _ & _ & _ & F).
  destruct (main_cksum_inv v2) as (C1 & C2 & _). rewrite <- Hv in C1, C2.
  assert (E2 : Main.encrypt_type v2 = Main.encrypt_type v1)
    by (rewrite <- F; reflexivity).
  assert (P2 : Main.pwd_file v2 = Main.pwd_file v1)
    by (rewrite <- F; reflexivity).
  rewrite E2, K13, K15, P2, B5, B7 in M7.
  cbn [main_globals encrypt_type mac_bytes cksum_bytes].
  rewrite K9 in *. rewrite K10.
  destruct (Main.has_opt "e"%char opts); cbn in B8.
  - split; [discriminate|]. intros _. apply Z.eqb_neq in B8.
    destruct (M7 B8) as [M71 M72]. repeat split; auto.
  - split; [|discriminate]. intros _. apply Z.eqb_eq in B8. split; auto.
Qed.

(** X21: [adapt_mode] is on in the accepted state as soon as one [-c]
    option of the command line names [adapt] or [adapt2], while the
    callbacks are those of the last [-c] option: a later [-c] with another
    algorithm does not switch [adapt_mode] off. *)
Theorem main_adapt_mode_sticky (opts : list (Ascii.ascii * buf))
    (args : list buf) (v : Main.vars) (call : Main.main_call) :
  Main.main E opts args = inr (v, call) ->
  adapt_mode (main_globals v) = Main.adapt_requested opts /\
  Main.funcs v = Main.last_algo opts.
Proof.
  intros H.
  destruct (main_stages opts args v call H)
    as (v1 & v2 & f & t & H1 & H2 & H3 & Hv & Hcall).
  destruct (main_options_inv opts _ _ H1 main_init_inv)
    as (_ & _ & _ & _ & _ & I6).
  destruct (main_frame v1 v2 v (length args) H2 I6 Hv)
    as (_ & _ & _ & _ & _ & _ & _ & _ & _ & _ & K11 & K12 & _).
  destruct (main_options_algo opts _ _ H1) as [A1 A2].
  cbn [main_globals adapt_mode]. rewrite K11, K12, A1, A2.
  split; reflexivity.
Qed.

End MainFacts.

(** [-c zlib -l 9 -s 4096 -t 4 /data/in]. *)
Lemma main_call_ranges_witness :
  exists v,
    Main.main Main.toy_env
      [("c"%char, str "zlib"); ("l"%char, str "9"); ("s"%char, str "4096");
       ("t"%char, str "4")] [str "/data/in"]
    = inr (v, Main.StartCompress (Some (str "/data/in")) 4096 9) /\
    (0 <= 9 <= MAX_LEVEL /\
     (4096 = Main.DEFAULT_CHUNKSIZE
      \/ 2048 <= 4096 <= EIGHTY_PCT (2 ^ 33))) /\
    (Main.nthreads v = 0 \/ 1 <= Main.nthreads v <= 256).
Proof.
  eexists. split; [vm_compute; reflexivity|].
  edestruct (main_call_ranges Main.toy_env
               [("c"%char, str "zlib"); ("l"%char, str "9");
                ("s"%char, str "4096"); ("t"%char, str "4")]
               [str "/data/in"] _ _ ltac:(vm_compute; reflexivity))
    as (R1 & R2 & _).
  split; [exact (R1 _ _ _ eq_refl)|exact R2].
Defined.

(** [-c zlib -G -r /data/in]: rabin dedupe and rabin splitting are on. *)
Lemma main_dedupe_options_witness :
  exists v call,
    Main.main Main.toy_env
      [("c"%char, str "zlib"); ("G"%char, []); ("r"%char, [])] [str "/data/in"]
    = inr (v, call) /\
    Main.enable_rabin_global v = true /\ Main.enable_rabin_scan v = true /\
    Main.enable_rabin_split v = true.
Proof.
  eexists _, _. split; [vm_compute; reflexivity|].
  edestruct (main_dedupe_options Main.toy_env
               [("c"%char, str "zlib"); ("G"%char, []); ("r"%char, [])]
               [str "/data/in"] _ _ ltac:(vm_compute; reflexivity))
    as (_ & R2 & R3 & R4 & _).
  split; [exact R2|]. split; [exact R3|exact R4].
Defined.

(** [-d /data/in /data/out]. *)
Lemma main_call_files_witness :
  exists v,
    Main.main Main.toy_env [("d"%char, [])] [str "/data/in"; str "/data/out"]
    = inr (v, Main.StartDecompress (Some (str "/data/in"))
                (Some (str "/data/out"))) /\
    exists a b f,
      [str "/data/in"; str "/data/out"] = [a; b] /\
      Main.realpath Main.toy_env a = Some f /\
      Main.realpath Main.toy_env b = None /\
      Main.StartDecompress (Some (str "/data/in")) (Some (str "/data/out"))
      = Main.StartDecompress (Some f) (Some b).
Proof.
  eexists. split; [vm_compute; reflexivity|].
  edestruct (main_call_files Main.toy_env [("d"%char, [])]
               [str "/data/in"; str "/data/out"] _ _
               ltac:(vm_compute; reflexivity))
    as (_ & _ & R3).
  exact (R3 eq_refl).
Defined.

(** [-c lzfx -S CRC64 /data/in]: the mac has four bytes. *)
Lemma main_checksum_sizes_witness :
  exists v call,
    Main.main Main.toy_env [("c"%char, str "lzfx"); ("S"%char, str "CRC64")]
      [str "/data/in"]
    = inr (v, call) /\
    encrypt_type (main_globals v) = 0 /\ mac_bytes (main_globals v) = 4%nat.
Proof.
  eexists _, _. split; [vm_compute; reflexivity|].
  edestruct (main_checksum_sizes Main.toy_env
               [("c"%char, str "lzfx"); ("S"%char, str "CRC64")]
               [str "/data/in"] _ _ ltac:(vm_compute; reflexivity))
    as (R1 & _).
  exact (R1 eq_refl).
Defined.

(** [-c adapt -c zlib /data/in]: the callbacks of zlib with [adapt_mode]
    on. *)
Lemma main_adapt_mode_sticky_witness :
  exists v call,
    Main.main Main.toy_env [("c"%char, str "adapt"); ("c"%char, str "zlib")]
      [str "/data/in"]
    = inr (v, call) /\
    adapt_mode (main_globals v) = true /\ Main.funcs v = Some "zlib".
Proof.
  eexists _, _. split; [vm_compute; reflexivity|].
  edestruct (main_adapt_mode_sticky Main.toy_env
               [("c"%char, str "adapt"); ("c"%char, str "zlib")]
               [str "/data/in"] _ _ ltac:(vm_compute; reflexivity))
    as (R1 & R2).
  split; [exact R1|exact R2].
Defined.

(** ** A chunk under encryption *)

Section CryptoChunk.

Variable G : globals.
Variable X : externals.

Hypothesis Henc : encrypt_type G <> 0.
Hypothesis Hmaclen : forall b : buf, length (hmac X b) = mac_bytes G.
Hypothesis Hser : checksum_serializes X.
Hypothesis Hcry : crypto_inverts X.
Hypothesis Hnodedup : dedup_enabled G = false.
Hypothesis Hnopre : preproc_enabled G = false.

Local Ltac len_side :=
  rewrite ?length_app, ?length_be_bytes, ?length_sub, ?length_replicate;
  unfold data_off, hdr_off, COMPRESSED_CHUNKSZ, CHUNK_FLAG_SZ, ORIGINAL_CHUNKSZ in *;
  simpl length; lia.

Local Ltac through :=
  repeat first
    [ rewrite sub_memcpy_before by len_side
    | rewrite sub_memcpy_after by len_side ].

Lemma enc_false : (encrypt_type G =? 0) = false.
Proof. apply Z.eqb_neq. exact Henc. Qed.

Lemma length_mac (c : buf) : length (serialize_checksum X c (mac_bytes G)) = mac_bytes G.
Proof. apply Hser. Qed.

(** The frame under encryption: the checksum slot keeps what [cmp_seg]
    held, the mac slot holds the HMAC of the frame with that slot zeroed. *)
Lemma frame_layout_enc (tdat : cmp_data) (d : dedup_stage_res) (type len : Z)
    (cseg0 : buf) :
  0 <= len ->
  negb (Z.land type CHSIZE_MASK =? 0) = (ds_rbytes d <? chunksize tdat) ->
  let '(len', hdr, cseg1) := pc_frame_stage G X tdat d type len cseg0 in
  let cseg2 := pc_mac_stage G X type len' hdr cseg1 in
  let trailer := if ds_rbytes d <? chunksize tdat
                 then be_bytes 8 (ds_rbytes d) else [] in
  let field := len + Z.of_nat (length trailer) in
  let CKs := sub cseg0 8 (cksum_bytes G) in
  let tail := [type `mod` 256] ++ sub cseg0 (data_off G) (Z.to_nat len)
              ++ trailer in
  let frame_z := be_bytes 8 field ++ CKs ++ replicate (mac_bytes G) 0 ++ tail in
  len' = len + Z.of_nat (data_off G) + Z.of_nat (length trailer) /\
  sub cseg2 0 (Z.to_nat len')
  = be_bytes 8 field ++ CKs
    ++ serialize_checksum X (hmac X frame_z) (mac_bytes G) ++ tail.
Proof.
  intros Hlen Hbit.
  set (trailer := if ds_rbytes d <? chunksize tdat
                  then be_bytes 8 (ds_rbytes d) else []).
  set (field := len + Z.of_nat (length trailer)).
  set (m := mac_bytes G). set (k := cksum_bytes G).
  set (e := Z.to_nat (len + Z.of_nat CHUNK_FLAG_SZ + 8
                      + Z.of_nat (cksum_bytes G + mac_bytes G))).
  assert (He : e = (8 + k + m + 1 + Z.to_nat len)%nat) by (subst e k m; len_side).
  (* the buffer before the mac stage, in both cases *)
  set (c3 := memcpy (memcpy (memcpy (memcpy cseg0 0 (be_bytes 8 len)) e trailer)
                       0 (be_bytes 8 field)) (hdr_off G) [type `mod` 256]).
  assert (Hfs : pc_frame_stage G X tdat d type len cseg0
                = (Z.of_nat e + Z.of_nat (length trailer),
                   len + Z.of_nat CHUNK_FLAG_SZ + 8
                   + Z.of_nat (cksum_bytes G + mac_bytes G) - len,
                   if ds_rbytes d <? chunksize tdat then c3
                   else memcpy (memcpy cseg0 0 (be_bytes 8 len)) (hdr_off G)
                          [type `mod` 256])).
  { unfold pc_frame_stage. rewrite enc_false.
    subst c3 trailer field. destruct (ds_rbytes d <? chunksize tdat).
    - rewrite length_be_bytes. f_equal. f_equal. subst e. len_side.
    - f_equal. f_equal. subst e. len_side. }
  rewrite Hfs. clear Hfs. unfold pc_mac_stage. rewrite enc_false. cbn [negb].
  set (c3' := if ds_rbytes d <? chunksize tdat then c3
              else memcpy (memcpy cseg0 0 (be_bytes 8 len)) (hdr_off G)
                     [type `mod` 256]) in *.
  set (L := (e + length trailer)%nat).
  assert (Ltr : length trailer = if ds_rbytes d <? chunksize tdat
                                 then 8%nat else 0%nat).
  { subst trailer. destruct (ds_rbytes d <? chunksize tdat);
      [apply length_be_bytes|reflexivity]. }
  (* the pieces of c3' *)
  assert (P0 : sub c3' 0 8 = be_bytes 8 field).
  { subst c3' c3. destruct (ds_rbytes d <? chunksize tdat) eqn:Ech.
    - through. apply sub_memcpy_same'. len_side.
    - through. subst field trailer. simpl length.
      replace (len + Z.of_nat 0) with len by lia.
      apply sub_memcpy_same'. len_side. }
  assert (P1 : sub c3' 8 k = sub cseg0 8 k).
  { subst c3' c3 k. destruct (ds_rbytes d <? chunksize tdat) eqn:Ech.
    - through. reflexivity.
    - through. reflexivity. }
  assert (P3 : sub c3' (8 + k + m) 1 = [type `mod` 256]).
  { subst c3' c3 k m. destruct (ds_rbytes d <? chunksize tdat) eqn:Ech;
      apply sub_memcpy_same'; reflexivity. }
  assert (P4 : sub c3' (8 + k + m + 1) (Z.to_nat len)
               = sub cseg0 (data_off G) (Z.to_nat len)).
  { subst c3' c3 k m. destruct (ds_rbytes d <? chunksize tdat) eqn:Ech.
    - try rewrite Ech in Ltr. through.
      replace (8 + cksum_bytes G + mac_bytes G + 1)%nat with (data_off G)
        by len_side. reflexivity.
    - through.
      replace (8 + cksum_bytes G + mac_bytes G + 1)%nat with (data_off G)
        by len_side. reflexivity. }
  assert (P5 : sub c3' e (length trailer) = trailer).
  { subst c3' c3. destruct (ds_rbytes d <? chunksize tdat) eqn:Ech.
    - try rewrite Ech in Ltr. through. apply sub_memcpy_same'. reflexivity.
    - subst trailer. apply sub_0_len. }
  replace (Z.to_nat (Z.of_nat e + Z.of_nat (length trailer))) with L
    by (subst L; lia).
  set (c4 := memzero c3' (COMPRESSED_CHUNKSZ + cksum_bytes G) (mac_bytes G)).
  assert (Q : forall b, length b = m ->
            sub (memcpy c4 (8 + k) b) 0 L
            = be_bytes 8 field ++ sub cseg0 8 k ++ b
              ++ [type `mod` 256] ++ sub cseg0 (data_off G) (Z.to_nat len)
              ++ trailer).
  { intros b Hb. subst L.
    replace (e + length trailer)%nat
      with (8 + (k + (m + (1 + (Z.to_nat len + length trailer)))))%nat by lia.
    rewrite !sub_split. simpl Nat.add.
    apply app_cong; [|apply app_cong; [|apply app_cong;
                                           [|apply app_cong; [|apply app_cong]]]].
    - rewrite sub_memcpy_before by lia. subst c4. unfold memzero.
      rewrite sub_memcpy_before by (unfold COMPRESSED_CHUNKSZ; lia). exact P0.
    - rewrite sub_memcpy_before by lia. subst c4. unfold memzero.
      rewrite sub_memcpy_before by (unfold COMPRESSED_CHUNKSZ; subst k; lia).
      exact P1.
    - apply sub_memcpy_same'. symmetry. exact Hb.
    - rewrite sub_memcpy_after by lia. subst c4. unfold memzero.
      rewrite sub_memcpy_after
        by (rewrite length_replicate; unfold COMPRESSED_CHUNKSZ; subst k m; lia).
      exact P3.
    - rewrite sub_memcpy_after by lia. subst c4. unfold memzero.
      rewrite sub_memcpy_after
        by (rewrite length_replicate; unfold COMPRESSED_CHUNKSZ; subst k m; lia).
      exact P4.
    - rewrite sub_memcpy_after by lia. subst c4. unfold memzero.
      rewrite sub_memcpy_after
        by (rewrite length_replicate; unfold COMPRESSED_CHUNKSZ; subst k m; lia).
      match goal with |- sub _ ?o _ = _ => replace o with e by lia end.
      exact P5. }
  assert (Qz : sub c4 0 L
               = be_bytes 8 field ++ sub cseg0 8 k ++ replicate m 0
                 ++ [type `mod` 256] ++ sub cseg0 (data_off G) (Z.to_nat len)
                 ++ trailer).
  { rewrite <- (Q (replicate m 0)) by apply length_replicate.
    apply sub_ext. intros i _. subst c4. unfold memzero, COMPRESSED_CHUNKSZ.
    subst k m. rewrite !nth_memcpy.
    repeat match goal with
           | |- context [if ?b then _ else _] => destruct b
           end; reflexivity. }
  split; [subst e field; len_side|].
  change (COMPRESSED_CHUNKSZ + cksum_bytes G)%nat with (8 + k)%nat.
  rewrite Qz. rewrite Hmaclen. fold m.
  apply Q. apply length_mac.
Qed.

(** The reader loop on a frame, whatever the size of the mac. *)
Lemma read_chunk_frame_enc (tdat0 : cmp_data) (cs n field : Z) (body rest : buf) :
  0 < field < 2 ^ 64 -> field <= cs + 256 ->
  Z.of_nat (length body)
  = field + Z.of_nat (cksum_bytes G + mac_bytes G + CHUNK_FLAG_SZ) ->
  exists td,
    read_chunk G tdat0 cs n ((be_bytes 8 field ++ body) ++ rest) = ReadChunk td rest
    /\ compressed_chunk td = memcpy (compressed_chunk tdat0) 0 body
    /\ uncompressed_chunk td = uncompressed_chunk tdat0
    /\ rbytes td = Z.of_nat (length body) /\ len_cmp td = field
    /\ len_cmp_be td = be_bytes 8 field /\ chunksize td = chunksize tdat0
    /\ decompress td = decompress tdat0 /\ cksum_mt td = cksum_mt tdat0
    /\ level td = level tdat0 /\ id td = n.
Proof.
  intros Hf Hcs Hbody. unfold read_chunk, Read.
  rewrite <- !app_assoc.
  change (Z.to_nat 8) with 8%nat.
  rewrite take_app_length' by (rewrite length_be_bytes; reflexivity).
  rewrite drop_app_length' by (rewrite length_be_bytes; reflexivity).
  rewrite length_be_bytes. cbn [Nat.eqb negb].
  rewrite be_value_be_bytes_small by (change (256 ^ Z.of_nat 8) with (2 ^ 64); lia).
  destruct (cs + 256 <? field) eqn:E1; [apply Z.ltb_lt in E1; lia|].
  destruct (field =? 0) eqn:E2; [apply Z.eqb_eq in E2; lia|].
  rewrite <- Hbody, Nat2Z.id.
  rewrite take_app_length' by reflexivity.
  rewrite drop_app_length' by reflexivity.
  rewrite Z.ltb_irrefl.
  eexists. split; [reflexivity|]. cbn. repeat split; reflexivity.
Qed.

(** The first block of [perform_decompress] under encryption: the HMAC of
    the chunk with its mac slot zeroed is compared with the stored one,
    then the payload is decrypted in place. *)
Lemma pd_verify_enc (td : cmp_data) (cb0 CKs : buf) (flag field : Z)
    (Pe T P : buf) (rv : Z) :
  let tail := [flag] ++ Pe ++ T in
  let frame_z := be_bytes 8 field ++ CKs ++ replicate (mac_bytes G) 0 ++ tail in
  let body := CKs ++ serialize_checksum X (hmac X frame_z) (mac_bytes G) ++ tail in
  length CKs = cksum_bytes G ->
  compressed_chunk td = memcpy cb0 0 body ->
  len_cmp_be td = be_bytes 8 field ->
  rbytes td = Z.of_nat (length body) ->
  len_cmp td = Z.of_nat (length Pe + length T) ->
  (if negb (Z.land flag CHSIZE_MASK =? 0) then length T = 8%nat else T = []) ->
  crypto_buf X Pe (id td) = (rv, P) -> rv <> -1 -> length P = length Pe ->
  let '(HDR, rbytes_, len, cs) := pd_header G td in
  HDR = flag /\ len = Z.of_nat (length Pe) /\
  cs = (if negb (Z.land flag CHSIZE_MASK =? 0) then be_value T else chunksize td) /\
  exists cb,
    pd_verify G X td HDR rbytes_ len = inr (hmac X frame_z, cb)
    /\ sub cb (cksum_bytes G + mac_bytes G + CHUNK_FLAG_SZ) (length Pe) = P.
Proof.
  intros tail frame_z body LCK Hcb Hbe Hrb Hlc HT Hdec Hrv HLP.
  set (k := cksum_bytes G) in *. set (m := mac_bytes G) in *.
  set (MACs := serialize_checksum X (hmac X frame_z) m) in *.
  assert (LM : length MACs = m) by apply length_mac.
  assert (Lb : length body = (k + m + 1 + length Pe + length T)%nat).
  { subst body tail. rewrite !length_app, LCK, LM. simpl. lia. }
  unfold pd_header, pd_verify.
  fold k. fold m.
  (* the regions of the chunk as read *)
  assert (Rall : forall off n, (off + n <= length body)%nat ->
            sub (compressed_chunk td) off n = sub body off n).
  { intros off n H. rewrite Hcb.
    replace off with (0 + off)%nat at 1 by lia.
    rewrite <- (sub_sub _ 0 (length body)) by lia.
    rewrite sub_memcpy_same. reflexivity. }
  assert (Bmac : sub body k m = MACs).
  { subst body. apply sub_app_mid'; [symmetry; exact LCK|symmetry; exact LM]. }
  assert (Bflag : sub body (k + m) 1 = [flag]).
  { subst body tail.
    replace (CKs ++ MACs ++ [flag] ++ Pe ++ T)
      with ((CKs ++ MACs) ++ [flag] ++ Pe ++ T)
      by (rewrite <- !app_assoc; reflexivity).
    apply sub_app_mid'; [rewrite length_app; lia|reflexivity]. }
  assert (BP : sub body (k + m + 1) (length Pe) = Pe).
  { subst body tail.
    replace (CKs ++ MACs ++ [flag] ++ Pe ++ T)
      with ((CKs ++ MACs ++ [flag]) ++ Pe ++ T)
      by (rewrite <- !app_assoc; reflexivity).
    apply sub_app_mid'; [rewrite !length_app; simpl; lia|reflexivity]. }
  assert (BT : sub body (k + m + 1 + length Pe) (length T) = T).
  { subst body tail.
    replace (CKs ++ MACs ++ [flag] ++ Pe ++ T)
      with ((CKs ++ MACs ++ [flag] ++ Pe) ++ T ++ [])
      by (rewrite app_nil_r, <- !app_assoc; reflexivity).
    apply sub_app_mid'; [rewrite !length_app; simpl; lia|reflexivity]. }
  assert (Bck : sub body 0 k = CKs).
  { subst body. rewrite <- LCK. apply sub_app_exact. }
  assert (Hflag : nth (k + m) (compressed_chunk td) 0 = flag).
  { pose proof (Rall (k + m)%nat 1%nat ltac:(lia)) as H.
    rewrite Bflag, sub_cons0 in H. injection H as H. exact H. }
  rewrite Hflag, enc_false. cbn [negb].
  set (cbz := memzero (compressed_chunk td) k m).
  assert (Zall : sub cbz 0 (length body)
                 = CKs ++ replicate m 0 ++ tail).
  { rewrite Lb.
    replace (k + m + 1 + length Pe + length T)%nat
      with (k + (m + (1 + (length Pe + length T))))%nat by lia.
    rewrite !sub_split. simpl Nat.add.
    subst tail.
    apply app_cong; [|apply app_cong; [|apply app_cong; [|apply app_cong]]].
    - subst cbz. unfold memzero. rewrite sub_memcpy_before by lia.
      rewrite Rall by lia. exact Bck.
    - subst cbz. unfold memzero. apply sub_memcpy_same'.
      rewrite length_replicate. reflexivity.
    - subst cbz. unfold memzero.
      rewrite sub_memcpy_after by (rewrite length_replicate; lia).
      rewrite Rall by lia. exact Bflag.
    - subst cbz. unfold memzero.
      rewrite sub_memcpy_after by (rewrite length_replicate; lia).
      rewrite Rall by lia. exact BP.
    - subst cbz. unfold memzero.
      rewrite sub_memcpy_after by (rewrite length_replicate; lia).
      rewrite Rall by lia. exact BT. }
  assert (ZP : sub cbz (k + m + CHUNK_FLAG_SZ) (length Pe) = Pe).
  { subst cbz. unfold memzero, CHUNK_FLAG_SZ.
    rewrite sub_memcpy_after by (rewrite length_replicate; lia).
    rewrite Rall by lia. exact BP. }
  assert (Hmacs : sub (compressed_chunk td) k m = MACs)
    by (rewrite Rall by lia; exact Bmac).
  rewrite Hmacs, Hbe.
  assert (Hcmp : forall mac, mac = hmac X frame_z ->
            memcmp_ne (deserialize_checksum X MACs m) mac (length mac) = false).
  { intros mac ->. unfold memcmp_ne. apply negb_false_iff, bool_decide_eq_true.
    rewrite Hmaclen. fold m. subst MACs.
    destruct (Hser (hmac X frame_z) m) as [_ ->]. reflexivity. }
  destruct (negb (Z.land flag CHSIZE_MASK =? 0)) eqn:Eb.
  - assert (Eoff : Z.to_nat (rbytes td - Z.of_nat ORIGINAL_CHUNKSZ)
                   = (k + m + 1 + length Pe)%nat)
      by (rewrite Hrb, Lb; unfold ORIGINAL_CHUNKSZ; lia).
    unfold pd_rseg. rewrite Eb, Eoff. unfold ORIGINAL_CHUNKSZ.
    assert (Hin : be_bytes 8 field ++ sub cbz 0 (k + m + 1 + length Pe)
                  ++ sub cbz (k + m + 1 + length Pe) 8 = frame_z).
    { subst frame_z. f_equal. rewrite <- Zall, Lb, HT.
      rewrite (sub_split cbz 0 (k + m + 1 + length Pe) 8). reflexivity. }
    rewrite Hin, (Hcmp _ eq_refl).
    assert (RT8 : sub (compressed_chunk td) (k + m + 1 + length Pe) 8 = T).
    { rewrite <- HT. rewrite Rall by lia. exact BT. }
    rewrite RT8.
    replace (Z.to_nat (len_cmp td - Z.of_nat 8)) with (length Pe)
      by (rewrite Hlc, HT; lia).
    rewrite ZP, Hdec.
    destruct (rv =? -1) eqn:Erv; [apply Z.eqb_eq in Erv; contradiction|].
    split; [reflexivity|]. split; [rewrite Hlc, HT; lia|]. split; [reflexivity|].
    eexists. split; [reflexivity|].
    apply sub_memcpy_same'. symmetry. exact HLP.
  - assert (LT : length T = 0%nat) by (rewrite HT; reflexivity).
    unfold pd_rseg. rewrite Eb.
    assert (Hin : be_bytes 8 field ++ sub cbz 0 (Z.to_nat (rbytes td)) ++ []
                  = frame_z).
    { subst frame_z. f_equal. rewrite app_nil_r, Hrb, Nat2Z.id. exact Zall. }
    rewrite Hin, (Hcmp _ eq_refl).
    replace (Z.to_nat (len_cmp td)) with (length Pe) by (rewrite Hlc, LT; lia).
    rewrite ZP, Hdec.
    destruct (rv =? -1) eqn:Erv; [apply Z.eqb_eq in Erv; contradiction|].
    split; [reflexivity|]. split; [rewrite Hlc, LT; lia|]. split; [reflexivity|].
    eexists. split; [reflexivity|].
    apply sub_memcpy_same'. symmetry. exact HLP.
Qed.

Lemma pc_payload_enc (tdat : cmp_data) :
  let O := sub (uncompressed_chunk tdat) 0 (Z.to_nat (rbytes tdat)) in
  let r := compress tdat O (rbytes tdat) (level tdat) 0 in
  let raw := (rbytes tdat <=? c_dstlen r) || (c_rv r <? 0) in
  let d := pc_dedup_stage G X tdat in
  let cseg1 := memcpy (cmp_seg tdat) (data_off G) (c_out r) in
  pc_payload G X tdat
  = (d, (if raw then UNCOMPRESSED else COMPRESSED,
         if raw then rbytes tdat else c_dstlen r,
         Z.max 0 (c_rv r),
         if raw then memcpy cseg1 (data_off G) O else cseg1),
     uncompressed_chunk tdat)
  /\ ds_rbytes d = rbytes tdat /\ ds_valid d = false.
Proof.
  intros O r raw d cseg1. subst d.
  unfold pc_payload, pc_dedup_stage, pc_compress_stage, pc_call_backend.
  rewrite Hnodedup, Hnopre. cbn [andb ds_rbytes ds_ubuf ds_valid ds_checksum].
  fold O. fold r. fold cseg1.
  unfold pc_sanity_stage. rewrite Hnodedup. cbn [negb orb ds_rbytes].
  subst raw. split; [|auto].
  destruct ((rbytes tdat <=? c_dstlen r) || (c_rv r <? 0)) eqn:Eraw.
  - do 3 f_equal. unfold COMPRESS_NONE.
    destruct (c_rv r <? 0) eqn:E2;
      [apply Z.ltb_lt in E2|apply Z.ltb_ge in E2]; f_equal; lia.
  - apply orb_false_iff in Eraw. destruct Eraw as [_ E2].
    apply Z.ltb_ge in E2. do 3 f_equal. f_equal. lia.
Qed.

Lemma enc_flag_bits (tdat : cmp_data) (d : dedup_stage_res) (type rv : Z) :
  type = COMPRESSED \/ type = UNCOMPRESSED ->
  0 <= rv -> (adapt_mode G = true -> rv < 8) ->
  let t := pc_type G type rv d tdat in
  t `mod` 256 = t /\ Z.land t COMPRESSED = type /\ Z.land t CHUNK_FLAG_DEDUP = 0
  /\ Z.land t CHUNK_FLAG_PREPROC = 0 /\
  negb (Z.land t CHSIZE_MASK =? 0) = (ds_rbytes d <? chunksize tdat) /\
  Z.land (Z.shiftr t 4) 7 = (if adapt_mode G then rv else 0).
Proof.
  intros Ht Hrv Hadapt. cbv zeta.
  rewrite (pc_type_sum G type rv d tdat Ht Hrv Hadapt).
  rewrite Hnopre, Hnodedup.
  assert (Ha : 0 <= (if adapt_mode G then rv else 0) < 8).
  { destruct (adapt_mode G); [specialize (Hadapt eq_refl)|]; lia. }
  set (algo := if adapt_mode G then rv else 0) in *.
  assert (Hcases : algo = 0 \/ algo = 1 \/ algo = 2 \/ algo = 3 \/ algo = 4
                   \/ algo = 5 \/ algo = 6 \/ algo = 7) by lia.
  clearbody algo.
  destruct (ds_rbytes d <? chunksize tdat); destruct Ht as [-> | ->];
    destruct Hcases as [-> | [-> | [-> | [-> | [-> | [-> | [-> | ->]]]]]]];
    vm_compute; repeat split; reflexivity.
Qed.

(** X22: under encryption, with dedup and preprocessing off, a mac of
    [mac_bytes] bytes, a checksum codec that behaves
    ([checksum_serializes]), a [crypto_buf] that a second pass undoes
    ([crypto_inverts]) and a back end whose [decompress] inverts its
    [compress] ([backend_inverts]: given room for the chunk and a header
    byte whose bits 4 to 6 are the value [compress] returned in adaptive
    mode and 0 otherwise), a back end moreover that writes at least one
    byte when it succeeds on this chunk and, in adaptive mode, returns a
    value below 8: when [perform_compress] succeeds on a chunk of 1 to
    [chunksize] bytes, the frame it wrote for chunk number [id] is read
    back as chunk [id], its HMAC verifies, the payload is decrypted and
    [perform_decompress] returns the bytes of the chunk. *)
Theorem crypto_chunk_round_trip (tdat tdat0 : cmp_data) (rest : buf)
    (flag : Z) (t' : cmp_data) :
  let O := sub (uncompressed_chunk tdat) 0 (Z.to_nat (rbytes tdat)) in
  let r := compress tdat O (rbytes tdat) (level tdat) 0 in
  backend_inverts (adapt_mode G) (compress tdat) (decompress tdat0) ->
  0 < rbytes tdat <= chunksize tdat -> chunksize tdat + 8 < 2 ^ 64 ->
  (adapt_mode G = true -> c_rv r < 8) ->
  (0 <= c_rv r -> 0 < c_dstlen r) ->
  chunksize tdat0 = chunksize tdat -> level tdat0 = level tdat ->
  perform_compress G X tdat = Some (flag, t') ->
  exists td td',
    read_chunk G tdat0 (chunksize tdat) (id tdat) (written t' ++ rest)
    = ReadChunk td rest /\
    perform_decompress G X td = inr td' /\
    written_plain td' = O.
Proof.
  intros O r Hinv Hrb Hcs Hadapt Hout Hcs0 Hlv Hpc.
  destruct (pc_payload_enc tdat) as (Hpay & Hdr & Hdv).
  fold O in Hpay. fold r in Hpay.
  set (d := pc_dedup_stage G X tdat) in *.
  set (raw := (rbytes tdat <=? c_dstlen r) || (c_rv r <? 0)) in *.
  set (type := if raw then UNCOMPRESSED else COMPRESSED) in *.
  set (len := if raw then rbytes tdat else c_dstlen r) in *.
  set (cseg1 := memcpy (cmp_seg tdat) (data_off G) (c_out r)) in *.
  set (cseg := if raw then memcpy cseg1 (data_off G) O else cseg1) in *.
  assert (LO : length O = Z.to_nat (rbytes tdat)) by apply length_sub.
  assert (Hrv : 0 <= Z.max 0 (c_rv r)) by lia.
  assert (Hadapt' : adapt_mode G = true -> Z.max 0 (c_rv r) < 8)
    by (intros Ha; specialize (Hadapt Ha); lia).
  assert (Htype : type = COMPRESSED \/ type = UNCOMPRESSED)
    by (subst type; destruct raw; auto).
  destruct (enc_flag_bits tdat d type (Z.max 0 (c_rv r)) Htype Hrv Hadapt')
    as (Hmod & Hb0 & Hb1 & Hb2 & Hbit & Hb4).
  set (fl := pc_type G type (Z.max 0 (c_rv r)) d tdat) in *.
  assert (Hraw : raw = false ->
                 0 <= c_rv r /\ 0 < c_dstlen r < rbytes tdat).
  { intros E. subst raw. apply orb_false_iff in E. destruct E as [E1 E2].
    apply Z.leb_gt in E1. apply Z.ltb_ge in E2. specialize (Hout E2). lia. }
  assert (Hlen : 0 < len <= rbytes tdat).
  { subst len. destruct raw; [lia|]. destruct (Hraw eq_refl). lia. }
  (* the encryption of the payload *)
  unfold perform_compress in Hpc. rewrite Hpay in Hpc.
  unfold pc_encrypt_stage in Hpc. rewrite enc_false in Hpc. cbn [negb] in Hpc.
  set (P := sub cseg (data_off G) (Z.to_nat len)) in *.
  pose proof (Hcry P (id tdat)) as Hc.
  destruct (crypto_buf X P (id tdat)) as [ret out] eqn:Ecb.
  destruct (ret =? -1) eqn:Eret; [discriminate Hpc|].
  apply Z.eqb_neq in Eret. destruct (Hc Eret) as [Lout Hback].
  destruct (crypto_buf X out (id tdat)) as [rv' P'] eqn:Edec.
  destruct Hback as [Hrv' ->].
  assert (LP : length P = Z.to_nat len) by apply length_sub.
  (* the frame *)
  fold fl in Hpc.
  pose proof (frame_layout_enc tdat d fl len (memcpy cseg (data_off G) out)
                ltac:(lia) Hbit) as Hf.
  destruct (pc_frame_stage G X tdat d fl len (memcpy cseg (data_off G) out))
    as [[len' hdr] cseg2].
  injection Hpc as Hflag Ht'. cbv zeta in Hf. destruct Hf as [Hl Hw].
  rewrite Hmod in Hflag. subst flag.
  rewrite Hmod, Hdr in Hw. rewrite Hdr in Hbit.
  rewrite (sub_memcpy_same' cseg (data_off G) out) in Hw
    by (rewrite Lout, LP; reflexivity).
  set (trailer := if rbytes tdat <? chunksize tdat
                  then be_bytes 8 (rbytes tdat) else []) in *.
  set (field := len + Z.of_nat (length trailer)) in *.
  set (CKs := sub (memcpy cseg (data_off G) out) 8 (cksum_bytes G)) in *.
  set (tail := [fl] ++ out ++ trailer) in *.
  set (frame_z := be_bytes 8 field ++ CKs ++ replicate (mac_bytes G) 0 ++ tail)
    in *.
  set (MACs := serialize_checksum X (hmac X frame_z) (mac_bytes G)) in *.
  assert (Hwr : written t' = be_bytes 8 field ++ CKs ++ MACs ++ tail).
  { subst t'. unfold written. cbn [len_cmp cmp_seg]. exact Hw. }
  assert (LCK : length CKs = cksum_bytes G) by apply length_sub.
  assert (LM : length MACs = mac_bytes G) by apply length_mac.
  assert (Ltr : length trailer
                = if rbytes tdat <? chunksize tdat then 8%nat else 0%nat).
  { subst trailer. destruct (rbytes tdat <? chunksize tdat);
      [apply length_be_bytes|reflexivity]. }
  assert (Lo : length out = Z.to_nat len) by (rewrite Lout; exact LP).
  set (body := CKs ++ MACs ++ tail) in *.
  assert (Lb : Z.of_nat (length body)
               = field + Z.of_nat (cksum_bytes G + mac_bytes G + CHUNK_FLAG_SZ)).
  { subst body tail field. rewrite !length_app, LCK, LM, Lo.
    unfold CHUNK_FLAG_SZ. simpl length. lia. }
  assert (Hf1 : 0 < field < 2 ^ 64)
    by (subst field; rewrite Ltr; destruct (rbytes tdat <? chunksize tdat); lia).
  assert (Hf2 : field <= chunksize tdat + 256)
    by (subst field; rewrite Ltr; destruct (rbytes tdat <? chunksize tdat); lia).
  destruct (read_chunk_frame_enc tdat0 (chunksize tdat) (id tdat) field body rest
              Hf1 Hf2 Lb)
    as (td & Hrd & Hcb & Huc & Hrbt & Hlc & Hbe & Hchs & Hdec & Hmt' & Hlv' & Hid).
  exists td.
  assert (HT : if negb (Z.land fl CHSIZE_MASK =? 0)
               then length trailer = 8%nat else trailer = []).
  { rewrite Hbit. subst trailer. destruct (rbytes tdat <? chunksize tdat);
      [apply length_be_bytes|reflexivity]. }
  assert (Hcsz : (if negb (Z.land fl CHSIZE_MASK =? 0)
                  then be_value trailer else chunksize tdat) = rbytes tdat).
  { rewrite Hbit. subst trailer.
    destruct (rbytes tdat <? chunksize tdat) eqn:E.
    - apply be_value_be_bytes_small. change (256 ^ Z.of_nat 8) with (2 ^ 64). lia.
    - apply Z.ltb_ge in E. lia. }
  assert (Hlc' : len_cmp td = Z.of_nat (length out + length trailer))
    by (rewrite Hlc, Lo; subst field; lia).
  rewrite <- Hid in Edec.
  pose proof (pd_verify_enc td (compressed_chunk tdat0) CKs fl field out trailer
                P rv' LCK Hcb Hbe Hrbt Hlc' HT Edec Hrv'
                ltac:(rewrite LP, Lo; reflexivity)) as Hv.
  cut (exists td', perform_decompress G X td = inr td' /\ written_plain td' = O).
  { intros (td' & H1 & H2). exists td'.
    split; [rewrite Hwr; exact Hrd|]. split; assumption. }
  unfold perform_decompress.
  destruct (pd_header G td) as [[[HDR rbytes_] len_] cs_].
  destruct Hv as (-> & -> & Hcs_ & cb & Hv & Hsub).
  rewrite Hchs, Hcs0, Hcsz in Hcs_. subst cs_.
  rewrite Hv, Hb1. cbn [Z.eqb negb]. rewrite andb_false_r.
  unfold pd_plain_branch. rewrite Hb0. rewrite Lo, Z2Nat.id by lia.
  rewrite Lo in Hsub. subst P.
  destruct raw eqn:Eraw; subst type len cseg.
  - change (negb (UNCOMPRESSED =? 0)) with false. cbv iota.
    cbn [Z.eqb]. unfold pd_rebuild. rewrite Hb1. cbn [Z.eqb negb].
    rewrite andb_false_r, enc_false. cbn [andb].
    rewrite Hsub, Huc.
    rewrite (sub_memcpy_same' cseg1 (data_off G) O) by (symmetry; exact LO).
    eexists. split; [reflexivity|].
    unfold written_plain. cbn [uncompressed_chunk len_cmp].
    apply sub_memcpy_same'. symmetry. exact LO.
  - change (negb (COMPRESSED =? 0)) with true. cbv iota.
    destruct (Hraw eq_refl) as [Hr0 Hr1].
    unfold pd_call_backend. rewrite Hb2. cbn [Z.eqb negb].
    rewrite Hsub, Huc.
    replace (decompress td (sub cseg1 (data_off G) (Z.to_nat (c_dstlen r)))
               (rbytes tdat) (level td) fl)
      with (decompress tdat0 (sub cseg1 (data_off G) (Z.to_nat (c_dstlen r)))
               (rbytes tdat) (level tdat) fl)
      by (rewrite Hdec, Hlv', Hlv; reflexivity).
    assert (HO : Z.of_nat (length O) = rbytes tdat) by (rewrite LO; lia).
    pose proof (Hinv O (level tdat) 0 fl (rbytes tdat)) as Hi.
    cbv zeta in Hi. rewrite HO in Hi. fold r in Hi.
    assert (Hch : Z.land (Z.shiftr fl 4) 7
                  = (if adapt_mode G then c_rv r else 0))
      by (rewrite Hb4; destruct (adapt_mode G); lia).
    destruct (Hi ltac:(lia) ltac:(lia) Hch) as (_ & Hl' & Hr' & Hdl & Htk).
    subst cseg1. rewrite sub_memcpy_prefix, sub_0_take by exact Hl'.
    set (r' := decompress tdat0 (take (Z.to_nat (c_dstlen r)) (c_out r))
                 (rbytes tdat) (level tdat) fl) in *.
    assert (Hne : (c_rv r' =? -1) = false) by (apply Z.eqb_neq; lia).
    rewrite Hne. unfold pd_rebuild. rewrite Hb1. cbn [Z.eqb negb].
    rewrite andb_false_r, enc_false. cbn [andb]. rewrite Hdl.
    eexists. split; [reflexivity|].
    unfold written_plain. cbn [uncompressed_chunk len_cmp].
    assert (Hle : (length O <= length (c_out r'))%nat).
    { rewrite <- Htk at 1. rewrite length_take. lia. }
    rewrite sub_memcpy_prefix, sub_0_take by lia.
    rewrite <- LO. exact Htk.
Qed.

End CryptoChunk.

Lemma toy_crypto_inverts : crypto_inverts toy.
Proof.
  intros b id_. cbn. intros _. split; [apply length_map|].
  split; [discriminate|].
  rewrite map_map. rewrite <- (map_id b) at 2. apply map_ext.
  intros x. rewrite Z.lxor_assoc, Z.lxor_nilpotent, Z.lxor_0_r. reflexivity.
Qed.

(** Eight equal bytes as chunk 0 under the stand-in cipher. *)
Lemma crypto_chunk_round_trip_witness :
  exists flag t' td td',
    perform_compress G_enc toy (tdat_of Toy.compress G_enc (replicate 8 7) 8)
    = Some (flag, t') /\
    read_chunk G_enc
      (start_compress_init Toy.compress Toy.decompress toy_props 8 6 14 false)
      8 0 (written t' ++ [9; 9])
    = ReadChunk td [9; 9] /\
    perform_decompress G_enc toy td = inr td' /\
    written_plain td' = replicate 8 7.
Proof.
  eexists _, _.
  edestruct (crypto_chunk_round_trip G_enc toy ltac:(discriminate)
               ltac:(intros b; apply length_be_bytes)
               toy_checksum_serializes toy_crypto_inverts eq_refl eq_refl
               (tdat_of Toy.compress G_enc (replicate 8 7) 8)
               (start_compress_init Toy.compress Toy.decompress toy_props
                  8 6 14 false) [9; 9] _ _
               toy_backend_inverts
               ltac:(vm_compute; split; [reflexivity|discriminate])
               ltac:(vm_compute; reflexivity)
               ltac:(intros H; vm_compute in H; discriminate H)
               ltac:(intros _; vm_compute; reflexivity)
               eq_refl eq_refl
               ltac:(vm_compute; reflexivity))
    as (td & td' & H1 & H2 & H3).
  exists td, td'.
  split; [vm_compute; reflexivity|].
  split; [exact H1|]. split; [exact H2|exact H3].
Defined.
